(* ===== verification/_CoqProject ===== *)
-Q . S2P
Prelude.v
Status.v
Bytes.v
Order.v
Base64.v
Json.v
RelativePath.v
Task.v
Reconciler.v
Capability.v
Assets.v
PathMapper.v
UnionFind.v
Association.v
AssociationTheorems.v
Photo.v
Metadata.v
MetadataTheorems.v
Diff.v
CanonicalPlan.v
PlanArtifact.v
PlanArtifactTheorems.v
Sqlite.v
Logic.v
Schema.v
Tables.v
TaskRepository.v
DbWriter.v
RepositorySpec.v
RepositoryRefine.v
RepositoryInvariant.v
RepositoryTotal.v
RepositoryTheorems.v
ReceiptTheorems.v
DbWriterTheorems.v
DbWriterRuns.v
FileOps.v
LinuxFileOps.v
CopyVerify.v
CopyTheorems.v
IoUring.v
IoUringTheorems.v
Logs.v
Attempt.v
AttemptTheorems.v
Materialize.v
MaterializeTheorems.v
Recovery.v
RecoveryTheorems.v
Verify.v
VerifyTheorems.v
Migrate.v
MigrateTheorems.v
UploadStore.v
UploadLogic.v
UploadTheorems.v
Serve.v
Receiver.v
ReceiverTheorems.v
ManifestBuilder.v
ManifestTheorems.v
Walker.v
WalkerTheorems.v
ScanService.v
Takeout.v
TakeoutTheorems.v
Layout.v
PlanService.v
PlanTheorems.v
TakeoutCommand.v
TakeoutCommandTheorems.v
Cli.v
Handles.v
