(* ===== verification/Prelude.v ===== *)
(** * PhotoBridge: a verification development

    PhotoBridge (C++, under src/) migrates photo libraries.  It scans a source
    tree, freezes a migration plan, copies the files of the plan with
    crash-safe commits recorded in an SQLite database, recovers interrupted
    runs, verifies the result, and receives uploads over a local network.

    ** The parts of the program and the files that model them

    Common code (src/common/): [Status] models status.h, status_or.h,
    status.cpp and posix_error.cpp; [Bytes] digest.cpp and the length-prefixed
    payloads that BLAKE3 is applied to; [Order] the string order, [std::sort]
    and [std::adjacent_find]; [Base64] and [Json] the text forms the plan file
    uses; this file the machine integers, bytes and enumerations.

    The model of photos and plans (src/model/), pure functions: [RelativePath]
    relative_path.cpp, [Task] task.cpp, [Assets] physical_asset.cpp,
    asset_classifier.cpp and logical_asset.cpp, [Capability] capability.cpp
    and loss_analysis.cpp, [PathMapper] path_mapper.cpp, [UnionFind],
    [Association] and [AssociationTheorems] association_graph.cpp and
    association_edge.cpp, [Photo] photo_ir.cpp, [Metadata] and
    [MetadataTheorems] the metadata candidates, rules and resolution with
    their provenance, [Diff] diff_engine.cpp, [CanonicalPlan]
    canonical_plan.cpp, [PlanArtifact] and [PlanArtifactTheorems]
    plan_artifact.cpp, [Reconciler] src/filesystem/reconciler.cpp.

    The runtime database (src/app/): [Sqlite] is the connection, its
    transactions and its failures, a state and error monad over [Conn];
    [Logic] the reasoning about its programs; [Schema] the opening of the
    connection (sqlite_connection.cpp) and [EnsureSchema] (sqlite_schema.cpp);
    [Tables] the tables and the meaning of each SQL statement;
    [TaskRepository] every operation of task_runtime_repository.cpp.
    [RepositorySpec] specifies them as guarded atomic steps,
    [RepositoryRefine] gives their [wp] lemmas and the refinement,
    [RepositoryTotal] the converse, [RepositoryInvariant] the well-formedness
    invariant, [RepositoryTheorems] and [ReceiptTheorems] the properties.
    [DbWriter], [DbWriterTheorems] and [DbWriterRuns] model and prove the
    thread that batches writes (runtime_db_writer.cpp).

    Files (src/filesystem/): [FileOps] holds the interfaces file_ops.h and
    migration_runtime_store.h as type classes and the [World] that logs calls;
    [LinuxFileOps] linux_file_ops.cpp and plan_execution_lock.cpp over a class
    of system calls; [CopyVerify] and [CopyTheorems] copy_and_hash.cpp,
    binary_verifier.cpp and mutation_guard.cpp; [IoUring] and
    [IoUringTheorems] io_uring_copy_engine.cpp; [Logs] the reasoning about
    logs.

    The commands (src/pipeline/): [Attempt] and [AttemptTheorems]
    migration_attempt_preparer.cpp and the per-task function of
    migration_service.cpp; [Migrate] and [MigrateTheorems] its pool of
    workers, with the waits and notifications of its condition variable;
    [Materialize] and [MaterializeTheorems] the binding of a plan to
    the database (pipeline_shared.cpp); [Recovery] and [RecoveryTheorems]
    recovery_service.cpp and audit_report.cpp; [Verify] and [VerifyTheorems]
    verify_service.cpp and status_service.cpp.

    From a folder to a plan: [Walker] and [WalkerTheorems] model the directory
    walk and the scan of a folder (linux_directory_walker.cpp,
    local_folder_source.cpp), [ManifestBuilder] and [ManifestTheorems]
    src/app/manifest_builder.cpp, [ScanService] scan_service.cpp, which
    composes the two; [Layout] the directories of a workspace
    (workspace_layout.cpp, workspace_service.cpp); [PlanService] and
    [PlanTheorems] plan_service.cpp, which composes the manifest, the
    mapping of paths and the artifact and publishes the file.

    Google Takeout: [Takeout] and [TakeoutTheorems] model
    src/source/takeout_parser.cpp, [TakeoutCommand] and
    [TakeoutCommandTheorems] the command that builds association graph,
    metadata and photos from its result (takeout_parse_command.cpp).

    The upload receiver (src/filesystem/): [UploadStore], [UploadLogic] and
    [UploadTheorems] model upload_session_store.cpp, [Serve]
    serve_bootstrap.cpp and the authorization, [Receiver] and
    [ReceiverTheorems] the handlers of http_server.cpp over the store.

    Ownership: [Handles] models the owners of descriptors and connections
    (unique_fd.cpp, sqlite_connection.cpp) as objects in a store, and the
    cached statements (sqlite_statement.cpp).

    The command line: [Cli] models src/cli/ and pipeline_router.cpp, over a
    class of services that the commands above are.

    Each definition carries the name of the function, method or SQL statement
    it models, with its class as prefix or Module where names clash.  A class
    with state is a record passed through its operations; [Status] and
    [StatusOr] results are sums; early returns are the binds of the monad [M]
    ([let*], [do*]) or of [StatusOr] ([let?]).

    ** What the theorems show

    The repository: an operation that reports success performed one atomic
    step of the specification, one that reports an error changed nothing, and
    an enabled operation succeeds when no call fails; reachable databases are
    well formed, stale epochs are fenced, claims are exclusive, task states
    follow the declared transitions, epochs increase, dependency cycles are
    detected exactly.  The writer: a batch is all or nothing, every promise is
    kept once, stopping drains the queue.  The file protocol: an attempt
    writes its receipt only after copy, sync and independent read back; a
    failed attempt releases its task; recovery marks a task done only on the
    proof its rules name; verification reports IDENTICAL only when both files
    were read to their end and agree.  The pool of workers executes every claim
    once, loses no wakeup and comes to an end.  The accelerated copy equals the sequential one for
    every order of completions, and ends.  Plans: the artifact round trips and
    what is read back is valid, the canonical payload determines the plan,
    target paths never collide, and assets are grouped by connected component.

    The folder: on a tree nobody writes to, over any order in which the kernel
    names its entries and whichever of its calls fail, the walk hands over
    each entry once or reports the failure, and closes what it opened; a scan
    that succeeds freezes a manifest of exactly the files of the folder, the
    manifest reopens with its digest, the bytes hashed determine its content,
    and the plan made from it lists each asset once with its identity.  A plan
    file appears under its name only with all its bytes on the disk.  Takeout:
    the result does not depend on the order of hash maps, sidecars are paired
    or reported, and whatever the parser returns becomes photos in which every
    file is exactly once, the command failing for its report, its output or
    the parser's errors only.  The receiver: an upload answered 201 is durable,
    received files are final, and the databases it reaches are well formed.
    The command line: what is called and printed is exactly what the arguments
    ask for, once, and the exit code is that of the last result.  Every descriptor and every connection
    is closed once, by its one owner, whatever objects are moved; a cached
    statement is prepared once and used with clear bindings.

    ** Conventions and bounds

    Integers of the program are [Z] with the wrap-around written out where the
    source can wrap; sizes that a guard bounds are [nat].  Every theorem about
    a loop with fuel shows that the fuel is enough: the loops of CopyVerify
    are bounded by the 64-bit byte counters, those of the plan parser by the
    length of the text, the union-find by the number of vertices, the closure
    of dependencies by the number of rows, the schema upgrade by the number of
    versions, the reading of a directory by the entries left in its stream, the
    write loops by the bytes left, a request body by its chunks.  The depth of
    a directory walk is the stack of the process: a deeper tree is an outcome
    of its own.  A failing SQLite call is an entry of the connection's list of
    faults, over which the theorems quantify; system calls, the io_uring
    completions and the results of a file system are likewise arbitrary.

    ** Parameters

    Code outside src/ is an argument of the definitions that use it: BLAKE3
    (a function from bytes to digests; what determines content is stated of the
    bytes hashed), the JSON library (parsing and printing with
    the laws of Json), SQLite's engine (the meaning of each statement is a
    function on the tables, its failures a list), the kernel, and the ring of
    io_uring.  [std::sort] is modelled by insertion sort under a strict weak
    order, character classification by the C locale.

    ** Not modelled

    Outside the functions of LinuxFileOps and the walk, descriptors are closed
    by destructors, which the models of the callers leave to [Handles]; logging and [PauseForTest] do nothing here; a C++ exception
    that nothing catches ends the process and is an error of its own
    ([throwing]).  The receiver's handlers run one at a time: the library's
    worker threads share one connection, which is not modelled.  Left out
    altogether: the set-up of the log, the HTML text of the upload page
    (upload_page.cpp) and the benchmarks, which no result depends on.
    CLI11, the HTTP library and the QR code library are parameters: what they
    make of their input is quantified over. *)

From Stdlib Require Export ZArith Lia Bool Ascii.
From Stdlib Require String.
From stdpp Require Export base decidable option numbers list gmap strings sorting.

(** ** Scope and notations of the development *)

Declare Scope pb_scope.
Delimit Scope pb_scope with pb.
#[global] Open Scope pb_scope.
#[global] Open Scope string_scope.
#[global] Open Scope list_scope.
#[global] Open Scope Z_scope.

#[global] Arguments String.append !s1 s2 : simpl nomatch.

(** C++ [==] and [!=] on values with a structural [operator==]. *)
Notation "a == b" := (bool_decide (a = b)) (at level 70, no associativity) : pb_scope.
Notation "a != b" := (negb (bool_decide (a = b))) (at level 70, no associativity) : pb_scope.

(** [optional::has_value] *)
Definition has_value {A} (o : option A) : bool :=
  match o with Some _ => true | None => false end.

(** ** Machine integers: [std::uint64_t], [std::int64_t], [int] *)

Definition uint64_max : Z := 18446744073709551615.
Definition int64_max : Z := 9223372036854775807.
Definition int64_min : Z := -9223372036854775808.
Definition uint32_max : Z := 4294967295.

(** [static_cast] to an unsigned or a signed 64-bit integer wraps. *)
Definition to_uint64 (z : Z) : Z := z mod 2 ^ 64.
Definition to_int64 (z : Z) : Z := (z + 2 ^ 63) mod 2 ^ 64 - 2 ^ 63.
(** [sqlite3_column_int] returns the lower 32 bits as a signed [int]. *)
Definition to_int32 (z : Z) : Z := (z + 2 ^ 31) mod 2 ^ 32 - 2 ^ 31.

(** ** Bytes: a [std::string] is a [string] whose [ascii]s are its bytes *)

Definition byte_of_Z (z : Z) : ascii := ascii_of_N (Z.to_N (z mod 256)).
Definition Z_of_byte (c : ascii) : Z := Z.of_N (N_of_ascii c).

Definition NUL : ascii := Ascii.zero.

(** [s.find(c) != npos] *)
Fixpoint str_contains (c : ascii) (s : string) : bool :=
  match s with
  | EmptyString => false
  | String d s' => Ascii.eqb d c || str_contains c s'
  end.

Definition str_empty (s : string) : bool :=
  match s with EmptyString => true | _ => false end.

Lemma str_empty_true s : str_empty s = true <-> s = "".
Proof. by destruct s. Qed.

(** A C string read back through [const char*] stops at the first NUL. *)
Fixpoint c_str (s : string) : string :=
  match s with
  | EmptyString => EmptyString
  | String d s' => if Ascii.eqb d NUL then EmptyString else String d (c_str s')
  end.

Lemma c_str_plain s : str_contains NUL s = false -> c_str s = s.
Proof.
  induction s as [|c s IH]; simpl; [done|]. intros [Hc Hs]%orb_false_iff. by rewrite Hc, IH.
Qed.

(** ** Enumerations

    A C++ [enum class] with its underlying [int]: [static_cast<int>] and the
    guarded conversion back that the code performs on persisted values. *)

Class CppEnum (E : Type) := {
  to_int : E -> Z;
  of_int : Z -> option E;
  of_to_int : forall e, of_int (to_int e) = Some e;
  to_of_int : forall z e, of_int z = Some e -> to_int e = z;
}.

#[global] Arguments to_int {E _} e : simpl never.

Lemma to_int_inj `{CppEnum E} (a b : E) : to_int a = to_int b -> a = b.
Proof.
  intros Heq. assert (Some a = Some b) as [= ->]; [|done].
  by rewrite <- (of_to_int a), Heq, of_to_int.
Qed.

(** ** Boolean case analysis *)

(** Turns boolean hypotheses built from [&&], [||], [negb] and
    [bool_decide] into propositions. *)
Ltac bool_hyps :=
  repeat match goal with
  | H : _ && _ = true |- _ => apply andb_true_iff in H as [? ?]
  | H : _ || _ = false |- _ => apply orb_false_iff in H as [? ?]
  | H : negb _ = true |- _ => apply negb_true_iff in H
  | H : negb _ = false |- _ => apply negb_false_iff in H
  | H : bool_decide _ = true |- _ => apply bool_decide_eq_true in H
  | H : bool_decide _ = false |- _ => apply bool_decide_eq_false in H
  | H : (_ =? _) = true |- _ => apply Z.eqb_eq in H
  | H : (_ =? _) = false |- _ => apply Z.eqb_neq in H
  | H : (_ <? _) = true |- _ => apply Z.ltb_lt in H
  | H : (_ <? _) = false |- _ => apply Z.ltb_ge in H
  | H : (_ <=? _) = true |- _ => apply Z.leb_le in H
  | H : (_ <=? _) = false |- _ => apply Z.leb_gt in H
  end.

(** Splits the first [if] or [match] of a hypothesis or of the goal. *)
Ltac split_if :=
  match goal with
  | H : context [if ?b then _ else _] |- _ => destruct b eqn:?
  | |- context [if ?b then _ else _] => destruct b eqn:?
  end.

(** ** Generic lemmas *)

Lemma to_int64_signed z : int64_min <= z <= int64_max -> to_int64 z = z.
Proof. unfold to_int64, int64_min, int64_max. intros. rewrite Z.mod_small by lia. lia. Qed.

(** A sum over a list when one element changes. *)
Lemma sum_list_insert {A} (f : A -> nat) l i x y :
  l !! i = Some x -> (sum_list_with f (<[i:=y]> l) + f x = sum_list_with f l + f y)%nat.
Proof.
  revert i. induction l as [|z l IH]; intros [|i]; simpl; try done.
  - intros [= ->]. lia.
  - intros Hi. specialize (IH i Hi). lia.
Qed.
