(* ===== verification/Status.v ===== *)
(** * Status: the error values of the program

    Models include/photobridge/common/status.h, status_or.h and
    src/common/status.cpp, posix_error.cpp.  A function that returns
    [StatusOr<T>] returns a value of the sum type [StatusOr T]; a function
    that returns [Status] and is only tested with [ok()] by its callers is
    a pure [Status] value, or the [StatusOr unit] of a monadic operation. *)

From S2P Require Import Prelude.

Module StatusCode.
Inductive t :=
| kOk | kInvalidArgument | kNotFound | kAlreadyExists
| kPermissionDenied | kIoError | kInternal.
#[global] Instance eq_dec : EqDecision t.
Proof. solve_decision. Defined.
#[global] Program Instance enum : CppEnum t := {|
  to_int c := match c with
    | kOk => 0 | kInvalidArgument => 1 | kNotFound => 2
    | kAlreadyExists => 3 | kPermissionDenied => 4 | kIoError => 5
    | kInternal => 6 end;
  of_int z :=
    if z =? 0 then Some kOk else if z =? 1 then Some kInvalidArgument
    else if z =? 2 then Some kNotFound else if z =? 3 then Some kAlreadyExists
    else if z =? 4 then Some kPermissionDenied else if z =? 5 then Some kIoError
    else if z =? 6 then Some kInternal else None
|}.
Next Obligation. by intros []. Qed.
Next Obligation. intros z e Hz. simpl in Hz. repeat split_if; simplify_eq; bool_hyps; done. Qed.
End StatusCode.

(** class Status *)
Record Status := mkStatus {
  code : StatusCode.t;
  message : string;
}.

#[global] Instance Status_eq_dec : EqDecision Status.
Proof. solve_decision. Defined.

(** [Status::Ok()] *)
Definition Status_Ok : Status := mkStatus StatusCode.kOk "".

(** [Status::ok()] *)
Definition ok (s : Status) : bool := bool_decide (code s = StatusCode.kOk).

(** [StatusOr<T>]: [Ok v] holds a value, [Err s] an error status. *)
Inductive StatusOr (T : Type) :=
| Ok (value : T)
| Err (status : Status).
Arguments Ok {T} value.
Arguments Err {T} status.

#[global] Instance StatusOr_eq_dec {T} `{EqDecision T} : EqDecision (StatusOr T).
Proof. solve_decision. Defined.

(** The converting constructor [StatusOr(Status)]: an OK status without a
    value is replaced by an internal error. *)
Definition StatusOr_of_status {T} (s : Status) : StatusOr T :=
  if ok s
  then Err (mkStatus StatusCode.kInternal
              "StatusOr cannot hold OK status without a value")
  else Err s.

(** [StatusOr::status()] *)
Definition status_of {T} (r : StatusOr T) : Status :=
  match r with Ok _ => Status_Ok | Err s => s end.

Definition is_ok {T} (r : StatusOr T) : bool :=
  match r with Ok _ => true | Err _ => false end.

Lemma is_ok_exists {T} (r : StatusOr T) : is_ok r = true <-> exists a, r = Ok a.
Proof. destruct r; simpl; naive_solver. Qed.

Definition Invalid (msg : string) : Status :=
  mkStatus StatusCode.kInvalidArgument msg.
Definition Internal (msg : string) : Status :=
  mkStatus StatusCode.kInternal msg.

(** Early return: [if (!x.ok()) return x.status();] *)
Definition bind_or {A B} (x : StatusOr A) (k : A -> StatusOr B) : StatusOr B :=
  match x with Ok a => k a | Err s => Err s end.
Notation "'let?' x ':=' a 'in' b" := (bind_or a (fun x => b))
  (at level 10, x pattern, a at level 100, b at level 200) : pb_scope.

(** Early return of a [Status]: [if (!s.ok()) return s;] *)
Definition check_status {A} (s : Status) (k : StatusOr A) : StatusOr A :=
  if ok s then k else Err s.
(** The same where the function itself returns [Status]. *)
Definition and_then (s k : Status) : Status := if ok s then k else s.

Lemma bind_or_Ok {A B} (x : StatusOr A) (k : A -> StatusOr B) b :
  bind_or x k = Ok b <-> exists a, x = Ok a /\ k a = Ok b.
Proof. destruct x; simpl; split; [eauto| intros (?&?&?); by simplify_eq|done|by intros (?&?&?)]. Qed.

Lemma check_status_Ok {A} s (k : StatusOr A) a :
  check_status s k = Ok a <-> ok s = true /\ k = Ok a.
Proof. unfold check_status. destruct (ok s); split; [done|by intros []|done|by intros []]. Qed.

Lemma and_then_ok s k : ok (and_then s k) = ok s && ok k.
Proof. unfold and_then. by destruct (ok s) eqn:?. Qed.

Lemma status_of_Ok {T} (v : T) : status_of (Ok v) = Status_Ok.
Proof. done. Qed.

Create Rewrite HintDb status.
#[export] Hint Rewrite @bind_or_Ok @check_status_Ok and_then_ok @status_of_Ok : status.

(** ** posix_error.cpp *)

(** The errno values the switch names (Linux, generic). *)
Definition EPERM : Z := 1.
Definition ENOENT : Z := 2.
Definition EINTR : Z := 4.
Definition EIO : Z := 5.
Definition EBADF : Z := 9.
Definition EAGAIN : Z := 11.
Definition EACCES : Z := 13.
Definition EEXIST : Z := 17.
Definition ENOTDIR : Z := 20.
Definition EINVAL : Z := 22.
Definition ENOSPC : Z := 28.
Definition EROFS : Z := 30.
Definition EDQUOT : Z := 122.

Definition StatusCodeFromErrno (error_number : Z) : StatusCode.t :=
  if error_number =? 0 then StatusCode.kOk
  else if error_number =? EINVAL then StatusCode.kInvalidArgument
  else if (error_number =? ENOENT) || (error_number =? ENOTDIR)
       then StatusCode.kNotFound
  else if error_number =? EEXIST then StatusCode.kAlreadyExists
  else if (error_number =? EACCES) || (error_number =? EPERM)
       then StatusCode.kPermissionDenied
  else if error_number =? EBADF then StatusCode.kInternal
  else StatusCode.kIoError.
