(* ===== verification/Bytes.v ===== *)
(** * Bytes: length-prefixed payloads, little-endian integers, digests

    Models the byte-level helpers the components share: the payload writers
    of src/model/task.cpp ([AppendUint64], [AppendLengthPrefixed],
    [AppendOptionalString]), the 32-byte [Digest] of common/digest.h with its
    hexadecimal form (src/common/digest.cpp), and the lemmas on strings that
    make payloads uniquely decodable.

    BLAKE3 is a library: a function [Blake3 : string -> Digest] the
    components take as a parameter. *)

From S2P Require Import Prelude Status.

(** ** Strings *)

Lemma str_app_assoc (a b c : string) : (a +:+ b) +:+ c = a +:+ (b +:+ c).
Proof. induction a as [|x a IH]; simpl; [done|by rewrite IH]. Qed.

Lemma str_app_nil (a : string) : a +:+ "" = a.
Proof. induction a as [|x a IH]; simpl; [done|by rewrite IH]. Qed.

Lemma str_length_app (a b : string) :
  String.length (a +:+ b) = (String.length a + String.length b)%nat.
Proof. induction a as [|x a IH]; simpl; [done|by rewrite IH]. Qed.

(** Two concatenations with first parts of one length. *)
Lemma str_app_inj_length (a b x y : string) :
  String.length a = String.length b -> a +:+ x = b +:+ y -> a = b /\ x = y.
Proof.
  revert b. induction a as [|c a IH]; intros [|d b]; simpl; try done.
  intros [= Hl] [= -> Heq]. by destruct (IH b Hl Heq) as [-> ->].
Qed.

Lemma str_app_inj_l (a x y : string) : a +:+ x = a +:+ y -> x = y.
Proof. intros H. by apply str_app_inj_length in H as [_ ?]. Qed.

(** The first [n] bytes and the rest. *)
Definition str_take (n : nat) (s : string) : string := String.substring 0 n s.
Definition str_drop (n : nat) (s : string) : string := String.substring n (String.length s - n) s.

Lemma substring_all s n : (String.length s <= n)%nat -> String.substring 0 n s = s.
Proof.
  revert n. induction s as [|c s IH]; intros [|n] Hn; simpl in *; try done; try lia. by rewrite IH by lia.
Qed.

Lemma str_take_drop n s : str_take n s +:+ str_drop n s = s.
Proof.
  unfold str_take, str_drop. revert n. induction s as [|c s IH]; intros [|n]; simpl; [done|done| |by rewrite IH].
  f_equal. by apply substring_all.
Qed.

Lemma str_drop_length n s : String.length (str_drop n s) = (String.length s - n)%nat.
Proof.
  unfold str_drop. revert n. induction s as [|c s IH]; intros [|n]; simpl; [done|done| |by rewrite IH].
  by rewrite substring_all.
Qed.

(** The size of a [std::string] fits [size_t]. *)
Definition str_sized (s : string) : Prop := Z.of_nat (String.length s) < 2 ^ 64.

Definition str_size (s : string) : Z := Z.of_nat (String.length s).

(** ** Integers as bytes *)

Lemma Z_of_byte_range c : 0 <= Z_of_byte c < 256.
Proof. unfold Z_of_byte. pose proof (N_ascii_bounded c). lia. Qed.

Lemma byte_of_Z_of_byte c : byte_of_Z (Z_of_byte c) = c.
Proof.
  unfold byte_of_Z. pose proof (Z_of_byte_range c). rewrite Z.mod_small by lia.
  unfold Z_of_byte. by rewrite N2Z.id, ascii_N_embedding.
Qed.

Lemma Z_of_byte_of_Z z : Z_of_byte (byte_of_Z z) = z mod 256.
Proof.
  unfold byte_of_Z, Z_of_byte. pose proof (Z.mod_pos_bound z 256 ltac:(lia)).
  rewrite N_ascii_embedding by lia. lia.
Qed.

(** The bytes of a 64-bit integer in memory order on the little-endian
    targets of the program; also what the byte loop of [AppendUint64] writes. *)
Definition byte_at (value : Z) (index : nat) : ascii :=
  byte_of_Z (Z.land (Z.shiftr value (Z.of_nat index * 8)) 255).

Definition push_back (output : string) (c : ascii) : string := output +:+ String c "".

(** [void AppendUint64(std::uint64_t value, std::string& output)] *)
Definition AppendUint64 (value : Z) (output : string) : string :=
  foldl (fun out index => push_back out (byte_at value index)) output (seq 0 8).

(** [void AppendLengthPrefixed(std::string_view value, std::string& output)] *)
Definition AppendLengthPrefixed (value output : string) : string :=
  AppendUint64 (str_size value) output +:+ value.

(** [void AppendOptionalString(const std::optional<std::string>&, std::string&)] *)
Definition AppendOptionalString (value : option string) (output : string) : string :=
  let output := push_back output (if value is Some _ then Ascii.one else Ascii.zero) in
  match value with
  | Some v => AppendLengthPrefixed v output
  | None => output
  end.

Definition le64 (value : Z) : string := AppendUint64 value "".

Lemma AppendUint64_app value out : AppendUint64 value out = out +:+ le64 value.
Proof. unfold AppendUint64, le64, AppendUint64, push_back. simpl. by rewrite !str_app_assoc. Qed.

Lemma le64_length value : String.length (le64 value) = 8%nat.
Proof. done. Qed.

(** The value of a little-endian byte string. *)
Fixpoint le_value (s : string) : Z :=
  match s with
  | EmptyString => 0
  | String c s' => Z_of_byte c + 256 * le_value s'
  end.

Lemma le_value_range s : 0 <= le_value s < 256 ^ Z.of_nat (String.length s).
Proof.
  induction s as [|c s IH]; [done|]. cbn [le_value String.length].
  rewrite Nat2Z.inj_succ, Z.pow_succ_r by lia. pose proof (Z_of_byte_range c). lia.
Qed.

Lemma Z_of_byte_at value i :
  Z_of_byte (byte_at value i) = (value / 2 ^ (Z.of_nat i * 8)) mod 256.
Proof.
  unfold byte_at. rewrite Z_of_byte_of_Z, Z.shiftr_div_pow2 by lia.
  change 255 with (Z.ones 8). rewrite Z.land_ones, Z.mod_mod by lia. done.
Qed.

Lemma Z_of_byte_inj a b : Z_of_byte a = Z_of_byte b -> a = b.
Proof. intros H. by rewrite <- (byte_of_Z_of_byte a), H, byte_of_Z_of_byte. Qed.

Lemma byte_at_succ value i : byte_at value (S i) = byte_at (value / 256) i.
Proof.
  apply Z_of_byte_inj. rewrite !Z_of_byte_at. f_equal.
  replace (Z.of_nat (S i) * 8) with (8 + Z.of_nat i * 8) by lia.
  rewrite Z.pow_add_r by lia. rewrite Z.div_div by lia. done.
Qed.

Lemma le_value_bytes n value :
  le_value (foldr (fun i s => String (byte_at value i) s) "" (seq 0 n)) = value mod 256 ^ Z.of_nat n.
Proof.
  revert value. induction n as [|n IH]; intros value; [simpl; by rewrite Z.mod_1_r|].
  cbn [seq foldr le_value]. rewrite <- seq_shift.
  replace (foldr _ "" (List.map S (seq 0 n)))
    with (foldr (fun i s => String (byte_at (value / 256) i) s) "" (seq 0 n)).
  - rewrite IH, Z_of_byte_at, Nat2Z.inj_succ, Z.pow_succ_r by lia.
    change (2 ^ (Z.of_nat 0 * 8)) with 1. rewrite Z.div_1_r.
    rewrite Z.rem_mul_r by lia. done.
  - generalize (seq 0 n). intros l. induction l as [|i l IHl]; [done|].
    cbn [List.map foldr]. by rewrite IHl, byte_at_succ.
Qed.

(** Writing an integer and reading the bytes back gives its residue: the
    identity for unsigned values, the two's complement for signed ones. *)
Lemma le_value_le64 value : le_value (le64 value) = value mod 2 ^ 64.
Proof. exact (le_value_bytes 8 value). Qed.

Lemma le64_inj a b :
  0 <= a < 2 ^ 64 -> 0 <= b < 2 ^ 64 -> le64 a = le64 b -> a = b.
Proof.
  intros Ha Hb Heq. apply (f_equal le_value) in Heq.
  rewrite !le_value_le64, !Z.mod_small in Heq by lia. done.
Qed.

Definition length_prefixed (value : string) : string := le64 (str_size value) +:+ value.

Lemma AppendLengthPrefixed_app value out :
  AppendLengthPrefixed value out = out +:+ length_prefixed value.
Proof.
  unfold AppendLengthPrefixed, length_prefixed. by rewrite AppendUint64_app, str_app_assoc.
Qed.

(** A length-prefixed field is delimited whatever follows it. *)
Lemma length_prefixed_inj a b x y :
  str_sized a -> str_sized b ->
  length_prefixed a +:+ x = length_prefixed b +:+ y -> a = b /\ x = y.
Proof.
  unfold length_prefixed, str_sized, str_size. intros Ha Hb. rewrite !str_app_assoc.
  intros [H1 H2]%str_app_inj_length; [|done].
  apply le64_inj in H1; [|lia..].
  by apply str_app_inj_length in H2; [|lia].
Qed.

Definition optional_string (value : option string) : string :=
  match value with
  | Some v => String Ascii.one (length_prefixed v)
  | None => String Ascii.zero ""
  end.

Lemma AppendOptionalString_app value out :
  AppendOptionalString value out = out +:+ optional_string value.
Proof.
  unfold AppendOptionalString, push_back. destruct value; simpl; [|done].
  by rewrite AppendLengthPrefixed_app, str_app_assoc.
Qed.

Definition opt_sized (v : option string) : Prop :=
  match v with Some s => str_sized s | None => True end.

Lemma optional_string_inj a b x y :
  opt_sized a -> opt_sized b ->
  optional_string a +:+ x = optional_string b +:+ y -> a = b /\ x = y.
Proof.
  change (String Ascii.one) with (String.append (String Ascii.one "")).
  destruct a as [a|], b as [b|]; intros Ha Hb Heq; try done.
  - apply (str_app_inj_l (String Ascii.one "")) in Heq.
    by apply length_prefixed_inj in Heq as [-> ->].
  - split; [done|]. by apply (str_app_inj_l (String Ascii.zero "")) in Heq.
Qed.

(** ** Digest: [std::array<std::byte, 32>] *)

Record Digest := mkDigest {
  bytes : string;
  bytes_size : bool_decide (String.length bytes = 32%nat);
}.

Lemma Digest_eq (a b : Digest) : bytes a = bytes b -> a = b.
Proof. destruct a, b; simpl; intros ->. f_equal. apply proof_irrel. Qed.

#[global] Instance Digest_eq_dec : EqDecision Digest.
Proof.
  intros a b. destruct (decide (bytes a = bytes b)) as [|Hne]; [left; by apply Digest_eq|].
  right. by intros ->.
Defined.

Lemma Digest_length d : String.length (bytes d) = 32%nat.
Proof. destruct d as [b Hb]. simpl. by apply bool_decide_unpack in Hb. Qed.

(** The 32 bytes copied into a [Digest], once the size is checked. *)
Definition digest_of_blob (blob : string) : option Digest :=
  match decide (bool_decide (String.length blob = 32%nat)) with
  | left H => Some (mkDigest blob H)
  | right _ => None
  end.

Lemma digest_of_blob_Some b d : digest_of_blob b = Some d <-> b = bytes d.
Proof.
  unfold digest_of_blob. split.
  - destruct (decide _); intros [= <-]. done.
  - intros ->. destruct d as [b' H]. simpl. destruct (decide _) as [H'|]; [|done].
    f_equal. by apply Digest_eq.
Qed.

(** An array built from the byte at each index. *)
Definition array_of (n : nat) (f : nat -> ascii) : string :=
  foldl (fun out index => push_back out (f index)) "" (seq 0 n).

Lemma array_of_32_size f : bool_decide (String.length (array_of 32 f) = 32%nat).
Proof. done. Qed.

Definition Digest_of (f : nat -> ascii) : Digest :=
  mkDigest (array_of 32 f) (array_of_32_size f).

(** The byte of a string at an index, [s[i]]. *)
Definition byte_get (s : string) (i : nat) : ascii :=
  match String.get i s with Some c => c | None => NUL end.

Lemma array_of_get_32 s :
  String.length s = 32%nat -> array_of 32 (byte_get s) = s.
Proof.
  intros Hs. do 32 (destruct s as [|? s]; [done|]). destruct s; [|done]. done.
Qed.

Definition kHex : string := "0123456789abcdef".

(** [int HexValue(char value)] *)
Definition HexValue (value : ascii) : Z :=
  let v := Z_of_byte value in
  if (48 <=? v) && (v <=? 57) then v - 48
  else if (97 <=? v) && (v <=? 102) then v - 97 + 10
  else if (65 <=? v) && (v <=? 70) then v - 65 + 10
  else -1.

(** The two characters pushed for a byte. *)
Definition hex_of_byte (value : ascii) : string :=
  String (byte_get kHex (Z.to_nat (Z.shiftr (Z_of_byte value) 4)))
    (String (byte_get kHex (Z.to_nat (Z.land (Z_of_byte value) 15))) "").

Fixpoint hex_of_bytes (s : string) : string :=
  match s with
  | EmptyString => ""
  | String c s' => hex_of_byte c +:+ hex_of_bytes s'
  end.

(** [std::string Digest::ToHex() const] *)
Definition ToHex (d : Digest) : string := hex_of_bytes (bytes d).

(** One index of the loop of [FromHex]: [None] where a character is refused. *)
Definition hex_byte (hex : string) (index : nat) : option ascii :=
  let high := HexValue (byte_get hex (index * 2)) in
  let low := HexValue (byte_get hex (index * 2 + 1)) in
  if (high <? 0) || (low <? 0) then None
  else Some (byte_of_Z (Z.lor (Z.shiftl high 4) low)).

(** [static StatusOr<Digest> Digest::FromHex(std::string_view hex)] *)
Definition FromHex (hex : string) : StatusOr Digest :=
  if negb (str_size hex =? 64)
  then Err (Invalid "digest hex must contain exactly 64 characters")
  else if forallb (fun index => bool_decide (is_Some (hex_byte hex index))) (seq 0 32)
  then Ok (Digest_of (fun index => default NUL (hex_byte hex index)))
  else Err (Invalid "digest hex contains a non-hexadecimal character").

Lemma hex_of_bytes_length s :
  String.length (hex_of_bytes s) = (2 * String.length s)%nat.
Proof. induction s as [|c s IH]; [done|]. cbn [hex_of_bytes]. rewrite str_length_app, IH. simpl. lia. Qed.

Lemma ToHex_length d : String.length (ToHex d) = 64%nat.
Proof. unfold ToHex. by rewrite hex_of_bytes_length, Digest_length. Qed.

(** Reading the two characters of a byte, by the 256 cases. *)
Lemma hex_byte_of_byte c rest :
  hex_byte (hex_of_byte c +:+ rest) 0 = Some c.
Proof.
  destruct c as [b0 b1 b2 b3 b4 b5 b6 b7].
  by destruct b0, b1, b2, b3, b4, b5, b6, b7.
Qed.

Lemma hex_byte_shift c rest i :
  hex_byte (hex_of_byte c +:+ rest) (S i) = hex_byte rest i.
Proof. done. Qed.

Lemma hex_byte_of_bytes s i :
  (i < String.length s)%nat -> hex_byte (hex_of_bytes s) i = Some (byte_get s i).
Proof.
  revert i. induction s as [|c s IH]; intros i Hi; simpl in Hi; [lia|].
  cbn [hex_of_bytes]. destruct i as [|i]; [apply hex_byte_of_byte|].
  rewrite hex_byte_shift, IH by lia. done.
Qed.

(** [FromHex] accepts exactly 64 hexadecimal characters and reads them. *)
Lemma FromHex_Ok hex d :
  FromHex hex = Ok d <->
  str_size hex = 64 /\
  forall i, (i < 32)%nat -> hex_byte hex i = Some (byte_get (bytes d) i).
Proof.
  unfold FromHex. destruct (Z.eqb_spec (str_size hex) 64) as [Hs|Hs]; simpl negb; cbn iota;
    [|split; [done|by intros []]].
  destruct (forallb _ _) eqn:Hall.
  - rewrite forallb_forall in Hall. split.
    + intros [= <-]. split; [done|]. intros i Hi.
      specialize (Hall i). rewrite in_seq in Hall.
      destruct (hex_byte hex i) eqn:Hb; [|by specialize (Hall ltac:(lia))].
      f_equal. do 32 (destruct i as [|i]; [by cbn; rewrite Hb|]). lia.
    + intros [_ Hget]. f_equal. apply Digest_eq. cbn [Digest_of bytes].
      rewrite <- (array_of_get_32 (bytes d) (Digest_length d)).
      unfold array_of. cbn [seq foldl].
      by rewrite !Hget by lia.
  - split; [done|]. intros [_ Hget]. exfalso.
    apply not_true_iff_false in Hall. apply Hall, forallb_forall.
    intros i Hi. apply in_seq in Hi. by rewrite Hget by lia.
Qed.

(** The bytes of a [std::int64_t]. *)
Lemma to_int64_le64 z : int64_min <= z <= int64_max -> to_int64 (le_value (le64 z)) = z.
Proof.
  unfold int64_min, int64_max, to_int64. intros Hz. rewrite le_value_le64.
  rewrite Zplus_mod_idemp_l, Z.mod_small by lia. lia.
Qed.

(** ** Self-delimiting encodings *)

(** Whatever follows an encoding, the value can be read off its front. *)
Definition delimited {A} (P : A -> Prop) (enc : A -> string) : Prop :=
  forall a b x y, P a -> P b -> enc a +:+ x = enc b +:+ y -> a = b /\ x = y.

Lemma delimited_string : delimited str_sized length_prefixed.
Proof. intros a b x y. apply length_prefixed_inj. Qed.

Lemma delimited_uint64 : delimited (fun z => 0 <= z < 2 ^ 64) le64.
Proof.
  intros a b x y Ha Hb Heq. apply str_app_inj_length in Heq as [Heq ->]; [|done].
  split; [by apply le64_inj|done].
Qed.

Lemma delimited_digest : delimited (fun _ => True) bytes.
Proof.
  intros a b x y _ _ Heq. apply str_app_inj_length in Heq as [Heq ->]; [|by rewrite !Digest_length].
  split; [by apply Digest_eq|done].
Qed.

Definition bool_byte (b : bool) : string := String (if b then Ascii.one else Ascii.zero) "".
Lemma delimited_bool : delimited (fun _ => True) bool_byte.
Proof. intros a b x y _ _. by destruct a, b; intros [= ->]. Qed.

(** The encodings of a list one after the other; its length is known. *)
Fixpoint enc_list {A} (enc : A -> string) (l : list A) : string :=
  match l with [] => "" | a :: l => enc a +:+ enc_list enc l end.

Lemma enc_list_inj {A} (P : A -> Prop) (enc : A -> string) a b x y :
  delimited P enc -> Forall P a -> Forall P b -> length a = length b ->
  enc_list enc a +:+ x = enc_list enc b +:+ y -> a = b /\ x = y.
Proof.
  intros Henc Ha. revert b. induction Ha as [|v a Hv Ha IH]; intros b Hb Hlen Heq.
  - destruct b; [|done]. done.
  - destruct Hb as [|w b Hw Hb]; [done|]. simpl in *. rewrite !str_app_assoc in Heq.
    apply Henc in Heq as [-> Heq]; [|done..]. by apply IH in Heq as [-> ->]; [|done|lia].
Qed.

(** A list with its length in front. *)
Definition counted {A} (enc : A -> string) (l : list A) : string :=
  le64 (Z.of_nat (length l)) +:+ enc_list enc l.

Lemma delimited_counted {A} (P : A -> Prop) (enc : A -> string) :
  delimited P enc -> delimited (fun l => Z.of_nat (length l) < 2 ^ 64 /\ Forall P l) (counted enc).
Proof.
  intros Henc a b x y [Hla Ha] [Hlb Hb]. unfold counted. rewrite !str_app_assoc.
  intros Heq. apply delimited_uint64 in Heq as [Hlen Heq]; [|lia..].
  apply (enc_list_inj P) in Heq; try done. lia.
Qed.

Lemma foldl_append {A} (f : string -> A -> string) (enc : A -> string) (l : list A) out :
  (forall o a, f o a = o +:+ enc a) -> foldl f out l = out +:+ enc_list enc l.
Proof.
  intros Hf. revert out. induction l as [|a l IH]; intros out; simpl; [by rewrite str_app_nil|].
  by rewrite IH, Hf, str_app_assoc.
Qed.

(** A digest printed in hexadecimal reads back as itself, and what is read
    is what was written: the reader accepts exactly 64 hexadecimal digits,
    and the lower-case form of what it read is its printed form. *)
Lemma digest_hex_round_trip d :
  FromHex (ToHex d) = Ok d
  /\ forall hex d', FromHex hex = Ok d' ->
       str_size hex = 64 /\ forall i, (i < 32)%nat -> hex_byte (ToHex d') i = hex_byte hex i.
Proof.
  assert (forall x i, (i < 32)%nat -> hex_byte (ToHex x) i = Some (byte_get (bytes x) i)) as Hget.
  { intros x i Hi. apply hex_byte_of_bytes. by rewrite Digest_length. }
  split.
  - apply FromHex_Ok. split; [unfold str_size; by rewrite ToHex_length|]. apply Hget.
  - intros hex d' [Hs Hread]%FromHex_Ok. split; [done|]. intros i Hi. by rewrite Hget, Hread.
Qed.
