(* ===== verification/Order.v ===== *)
(** * Order: [operator<] on strings, [std::sort] and [std::adjacent_find]

    The orders and the sorting the planning components share.  A
    [std::string] compares by unsigned bytes, which is [String.ltb].
    [std::sort] is insertion sort: every sorting function gives the same
    result where the comparison separates the elements, and the theorems of
    the clients say so wherever they depend on it. *)

From S2P Require Import Prelude.

(** ** Comparison functions *)

(** The requirement of [std::sort] on its comparison. *)
Class StrictWeakOrder {A} (less : A -> A -> bool) := {
  less_asym a b : less a b = true -> less b a = false;
  less_negtrans a b c : less a b = false -> less b c = false -> less a c = false;
}.

(** An order that separates all values. *)
Class StrictTotalOrder {A} (less : A -> A -> bool) := {
  total_swo :: StrictWeakOrder less;
  less_total a b : less a b = false -> less b a = false -> a = b;
}.

Definition str_less (a b : string) : bool := String.ltb a b.

Lemma str_less_le a b : str_less a b = false <-> String.le b a.
Proof.
  unfold str_less, String.ltb, String.le, String.leb. rewrite (String.compare_antisym b a).
  by destruct (a ?= b)%string.
Qed.

#[export] Instance str_less_total : StrictTotalOrder str_less.
Proof.
  split; [split|].
  - intros a b Hab. apply str_less_le. destruct (String.le_total a b) as [H|H]; [done|].
    apply str_less_le in H. congruence.
  - intros a b c. rewrite !str_less_le. intros ??. by transitivity b.
  - intros a b. rewrite !str_less_le. intros ??. by apply (anti_symm String.le).
Qed.

#[export] Instance Zltb_total : StrictTotalOrder Z.ltb.
Proof. split; [split|]; intros *; rewrite ?Z.ltb_lt, ?Z.ltb_ge; lia. Qed.

(** Comparison of a key first: [if (a.k != b.k) return a.k < b.k;] *)
Lemma lex_swo {A K} `{EqDecision K} (f : A -> K) (lt : K -> K -> bool) (less : A -> A -> bool) :
  StrictTotalOrder lt -> StrictWeakOrder less ->
  StrictWeakOrder (fun a b => if f a != f b then lt (f a) (f b) else less a b).
Proof.
  intros Hlt Hless. split.
  - intros a b. destruct (bool_decide_reflect (f a = f b)) as [He|Hne]; simpl.
    + rewrite bool_decide_eq_true_2 by done. simpl. apply less_asym.
    + rewrite bool_decide_eq_false_2 by congruence. simpl. apply less_asym.
  - intros a b c. destruct (bool_decide_reflect (f a = f b)) as [He|Hne]; simpl.
    + rewrite He. destruct (bool_decide_reflect (f b = f c)); simpl; [apply less_negtrans|done].
    + intros Hab. destruct (bool_decide_reflect (f b = f c)) as [<-|Hne2]; simpl.
      * rewrite bool_decide_eq_false_2 by done. done.
      * intros Hbc. destruct (bool_decide_reflect (f a = f c)) as [He|Hne3]; simpl.
        -- exfalso. apply Hne. rewrite <- He in Hbc. by apply less_total.
        -- by apply (less_negtrans _ (f b)).
Qed.

Lemma key_swo {A K} (f : A -> K) (lt : K -> K -> bool) :
  StrictWeakOrder lt -> StrictWeakOrder (fun a b => lt (f a) (f b)).
Proof. intros H. split; intros *; [apply less_asym|apply less_negtrans]. Qed.

(** ** Sorting *)

Section Sort.
Context {A : Type} (less : A -> A -> bool).

Fixpoint sort_insert (x : A) (l : list A) : list A :=
  match l with
  | [] => [x]
  | y :: l' => if less y x then y :: sort_insert x l' else x :: l
  end.

(** [std::sort(v.begin(), v.end(), less)] *)
Fixpoint std_sort (l : list A) : list A :=
  match l with [] => [] | x :: l => sort_insert x (std_sort l) end.

(** [a] may stand before [b]. *)
Definition in_order (a b : A) : Prop := less b a = false.

Lemma sort_insert_perm x l : sort_insert x l ≡ₚ x :: l.
Proof.
  induction l as [|y l IH]; simpl; [done|]. destruct (less y x); [|done].
  rewrite IH. apply perm_swap.
Qed.

Lemma std_sort_perm l : std_sort l ≡ₚ l.
Proof. induction l as [|x l IH]; simpl; [done|]. by rewrite sort_insert_perm, IH. Qed.

Lemma elem_of_std_sort x l : x ∈ std_sort l <-> x ∈ l.
Proof. by rewrite std_sort_perm. Qed.

Context `{!StrictWeakOrder less}.

Lemma sort_insert_sorted x l :
  StronglySorted in_order l -> StronglySorted in_order (sort_insert x l).
Proof.
  induction 1 as [|y l Hl IH Hy]; simpl; [repeat constructor|].
  destruct (less y x) eqn:Hyx.
  - constructor; [done|]. rewrite sort_insert_perm. constructor; [by apply less_asym|done].
  - constructor; [by constructor|]. constructor; [done|].
    eapply Forall_impl; [exact Hy|]. unfold in_order. intros z Hz. by apply (less_negtrans _ y).
Qed.

Lemma std_sort_sorted l : StronglySorted in_order (std_sort l).
Proof. induction l; simpl; [constructor|by apply sort_insert_sorted]. Qed.

(** Where the comparison separates the elements the result depends on them
    alone. *)
Lemma sorted_unique l1 l2 :
  (forall a b, a ∈ l1 -> b ∈ l1 -> less a b = false -> less b a = false -> a = b) ->
  StronglySorted in_order l1 -> StronglySorted in_order l2 -> l1 ≡ₚ l2 -> l1 = l2.
Proof.
  intros Hsep H1 H2 Hp. apply (StronglySorted_unique_strong in_order); try done.
  intros a b Ha Hb H H'. rewrite <- Hp in Hb. by apply Hsep.
Qed.

Lemma std_sort_canonical l1 l2 :
  (forall a b, a ∈ l1 -> b ∈ l1 -> less a b = false -> less b a = false -> a = b) ->
  l1 ≡ₚ l2 -> std_sort l1 = std_sort l2.
Proof.
  intros Hsep Hp. apply sorted_unique; auto using std_sort_sorted.
  - intros a b. rewrite !elem_of_std_sort. apply Hsep.
  - by rewrite !std_sort_perm.
Qed.

Lemma std_sort_fixed l :
  (forall a b, a ∈ l -> b ∈ l -> less a b = false -> less b a = false -> a = b) ->
  StronglySorted in_order l -> std_sort l = l.
Proof.
  intros Hsep Hl. symmetry. apply sorted_unique; auto using std_sort_sorted. by rewrite std_sort_perm.
Qed.
End Sort.

(** ** [std::adjacent_find(...) != end] *)

Fixpoint adjacent_equal {A} `{EqDecision A} (l : list A) : bool :=
  match l with
  | a :: ((b :: _) as l') => (a == b) || adjacent_equal l'
  | _ => false
  end.

Lemma adjacent_equal_sorted {A} `{EqDecision A} (less : A -> A -> bool) `{!StrictTotalOrder less} l :
  StronglySorted (in_order less) l -> adjacent_equal l = false <-> NoDup l.
Proof.
  induction 1 as [|a l Hl IH Ha]; [by split; [constructor|]|].
  destruct l as [|b l]; [split; [intros _; apply NoDup_singleton|done]|].
  change (adjacent_equal (a :: b :: l)) with ((a == b) || adjacent_equal (b :: l)).
  rewrite orb_false_iff, IH, (NoDup_cons a), bool_decide_eq_false. split; [|set_solver].
  intros [Hab Hnd]. split; [|done]. intros Hin%elem_of_cons. destruct Hin as [|Hin]; [done|].
  apply Hab. apply Forall_cons in Ha as [Hab1 _].
  apply StronglySorted_inv in Hl as [_ Hb]. rewrite Forall_forall in Hb.
  apply (less_total (less := less)); [|exact Hab1]. by apply Hb.
Qed.

Lemma adjacent_equal_sort {A} `{EqDecision A} (less : A -> A -> bool) `{!StrictTotalOrder less} l :
  adjacent_equal (std_sort less l) = false <-> NoDup l.
Proof.
  rewrite (adjacent_equal_sorted less) by apply std_sort_sorted, total_swo.
  by rewrite std_sort_perm.
Qed.

Lemma sort_total_canonical {A} (less : A -> A -> bool) `{!StrictTotalOrder less} l1 l2 :
  l1 ≡ₚ l2 -> std_sort less l1 = std_sort less l2.
Proof. apply std_sort_canonical; [apply total_swo|]. intros a b _ _. apply less_total. Qed.
