(* ===== verification/Base64.v ===== *)
(** * Base64: the text form of byte strings in plan artifacts

    Models [Base64Encode], [Base64Value] and [Base64Decode] of
    src/model/plan_artifact.cpp.  The loops over groups of three bytes and of
    four characters are structural recursions on the string; the arithmetic
    on [combined] is the source's, with shifts and masks. *)

From S2P Require Import Prelude Status Bytes.

Definition kBase64Alphabet : string :=
  "ABCDEFGHIJKLMNOPQRSTUVWXYZabcdefghijklmnopqrstuvwxyz0123456789+/".

(** [kBase64Alphabet[(combined >> shift) & 0x3F]] *)
Definition sextet (combined : Z) (shift : Z) : ascii :=
  byte_get kBase64Alphabet (Z.to_nat (Z.land (Z.shiftr combined shift) 63)).

(** The 24 bits of a group. *)
Definition combine3 (first second third : Z) : Z :=
  Z.lor (Z.lor (Z.shiftl first 16) (Z.shiftl second 8)) third.

(** [std::string Base64Encode(std::string_view value)] *)
Fixpoint Base64Encode (value : string) : string :=
  match value with
  | EmptyString => ""
  | String a EmptyString =>
      let combined := combine3 (Z_of_byte a) 0 0 in
      String (sextet combined 18) (String (sextet combined 12) (String "=" (String "=" "")))
  | String a (String b EmptyString) =>
      let combined := combine3 (Z_of_byte a) (Z_of_byte b) 0 in
      String (sextet combined 18) (String (sextet combined 12)
        (String (sextet combined 6) (String "=" "")))
  | String a (String b (String c rest)) =>
      let combined := combine3 (Z_of_byte a) (Z_of_byte b) (Z_of_byte c) in
      String (sextet combined 18) (String (sextet combined 12)
        (String (sextet combined 6) (String (sextet combined 0) (Base64Encode rest))))
  end.

(** [int Base64Value(char value)] *)
Definition Base64Value (value : ascii) : Z :=
  let v := Z_of_byte value in
  if (65 <=? v) && (v <=? 90) then v - 65
  else if (97 <=? v) && (v <=? 122) then v - 97 + 26
  else if (48 <=? v) && (v <=? 57) then v - 48 + 52
  else if v =? 43 then 62
  else if v =? 47 then 63
  else -1.

(** The bytes pushed for a group of four characters. *)
Definition decoded_bytes (combined : Z) (third_padding fourth_padding : bool) : string :=
  String (byte_of_Z (Z.land (Z.shiftr combined 16) 255))
    ((if third_padding then "" else String (byte_of_Z (Z.land (Z.shiftr combined 8) 255)) "")
     +:+ (if fourth_padding then "" else String (byte_of_Z (Z.land combined 255)) "")).

(** The loop of [Base64Decode] over groups of four characters. *)
Fixpoint decode_groups (value : string) : StatusOr string :=
  match value with
  | String a (String b (String c (String d rest))) =>
      let third_padding := Ascii.eqb c "=" in
      let fourth_padding := Ascii.eqb d "=" in
      if Ascii.eqb a "=" || Ascii.eqb b "=" || (third_padding && negb fourth_padding)
      then Err (Invalid "base64 value has invalid padding")
      else
        let first := Base64Value a in
        let second := Base64Value b in
        let third := if third_padding then 0 else Base64Value c in
        let fourth := if fourth_padding then 0 else Base64Value d in
        if (first <? 0) || (second <? 0) || (third <? 0) || (fourth <? 0)
        then Err (Invalid "base64 value contains an invalid character")
        else if third_padding && negb (str_empty rest)
        then Err (Invalid "base64 padding must occur only at the end")
        else if fourth_padding && negb (str_empty rest)
        then Err (Invalid "base64 padding must occur only at the end")
        else
          let combined :=
            Z.lor (Z.lor (Z.lor (Z.shiftl first 18) (Z.shiftl second 12)) (Z.shiftl third 6)) fourth in
          let? tail := decode_groups rest in
          Ok (decoded_bytes combined third_padding fourth_padding +:+ tail)
  | _ => Ok ""
  end.

(** [StatusOr<std::string> Base64Decode(std::string_view value)] *)
Definition Base64Decode (value : string) : StatusOr string :=
  if negb (str_size value mod 4 =? 0)
  then Err (Invalid "base64 value length must be a multiple of four")
  else decode_groups value.

(** ** Round trip *)

(** Fields side by side in a word add up. *)
Lemma lor_shiftl x y n : 0 <= n -> 0 <= y < 2 ^ n -> Z.lor (Z.shiftl x n) y = x * 2 ^ n + y.
Proof.
  intros Hn Hy. rewrite <- Z.shiftl_mul_pow2 by done. symmetry. apply Z.add_nocarry_lor.
  apply Z.bits_inj'. intros i Hi. rewrite Z.land_spec, Z.bits_0, Z.shiftl_spec by done.
  destruct (Z.ltb_spec i n).
  - by rewrite Z.testbit_neg_r by lia.
  - destruct (decide (y = 0)) as [->|]; [by rewrite Z.bits_0, andb_false_r|].
    rewrite (Z.bits_above_log2 y i), andb_false_r; [done|lia|]. apply Z.log2_lt_pow2; [lia|].
    apply Z.lt_le_trans with (2 ^ n); [lia|]. by apply Z.pow_le_mono_r.
Qed.

Lemma combine3_sum a b c :
  0 <= a < 256 -> 0 <= b < 256 -> 0 <= c < 256 -> combine3 a b c = a * 65536 + b * 256 + c.
Proof.
  intros Ha Hb Hc. unfold combine3.
  assert (Z.lor (Z.shiftl a 16) (Z.shiftl b 8) = Z.shiftl (a * 256 + b) 8) as ->.
  { change 16 with (8 + 8). rewrite <- Z.shiftl_shiftl, <- Z.shiftl_lor by lia.
    by rewrite lor_shiftl by (simpl; lia). }
  rewrite lor_shiftl by (simpl; lia). change (2 ^ 8) with 256. lia.
Qed.

Lemma sextet_value combined shift :
  0 <= shift ->
  Base64Value (sextet combined shift) = (combined / 2 ^ shift) mod 64
  /\ Ascii.eqb (sextet combined shift) "=" = false.
Proof.
  intros Hs. unfold sextet. rewrite Z.shiftr_div_pow2 by done.
  change 63 with (Z.ones 6). rewrite Z.land_ones by lia. change (2 ^ 6) with 64.
  pose proof (Z.mod_pos_bound (combined / 2 ^ shift) 64 ltac:(lia)) as Hr.
  set (i := (combined / 2 ^ shift) mod 64) in *.
  assert (forall k, (k < 64)%nat -> Base64Value (byte_get kBase64Alphabet k) = Z.of_nat k
    /\ Ascii.eqb (byte_get kBase64Alphabet k) "=" = false) as Hall.
  { intros k Hk. do 64 (destruct k as [|k]; [done|]). lia. }
  destruct (Hall (Z.to_nat i)) as [Hv Hp]; [lia|]. by rewrite Hv, Z2Nat.id by lia.
Qed.

(** The four sextets of a 24-bit group give the group back. *)
Lemma sextets_combine w :
  0 <= w < 2 ^ 24 ->
  Z.lor (Z.lor (Z.lor (Z.shiftl ((w / 2 ^ 18) mod 64) 18) (Z.shiftl ((w / 2 ^ 12) mod 64) 12))
           (Z.shiftl ((w / 2 ^ 6) mod 64) 6)) ((w / 2 ^ 0) mod 64) = w.
Proof.
  intros Hw. apply Z.bits_inj'. intros i Hi. change 64 with (2 ^ 6).
  rewrite !Z.lor_spec, !Z.shiftl_spec by done.
  rewrite <- !Z.shiftr_div_pow2, <- !Z.land_ones by lia.
  assert (forall k, 0 <= k -> Z.testbit (Z.land (Z.shiftr w k) (Z.ones 6)) (i - k)
    = (k <=? i) && (i <? k + 6) && Z.testbit w i) as Hf.
  { intros k Hk. destruct (Z.leb_spec k i); simpl; [|by rewrite Z.testbit_neg_r by lia].
    rewrite Z.land_spec, Z.shiftr_spec by lia. replace (i - k + k) with i by lia.
    rewrite Z.testbit_ones_nonneg by lia. rewrite andb_comm. f_equal.
    destruct (Z.ltb_spec (i - k) 6), (Z.ltb_spec i (k + 6)); lia || done. }
  pose proof (Hf 0 ltac:(lia)) as H0. rewrite Z.sub_0_r in H0. rewrite H0, !Hf by lia. clear Hf H0.
  destruct (Z.ltb_spec i 24).
  - destruct (Z.leb_spec 18 i), (Z.leb_spec 12 i), (Z.leb_spec 6 i), (Z.leb_spec 0 i),
      (Z.ltb_spec i (18 + 6)), (Z.ltb_spec i (12 + 6)), (Z.ltb_spec i (6 + 6)), (Z.ltb_spec i (0 + 6));
      try lia; simpl; by destruct (Z.testbit w i).
  - assert (Z.testbit w i = false) as ->; [|by rewrite !andb_false_r].
    destruct (decide (w = 0)) as [->|]; [apply Z.bits_0|]. apply Z.bits_above_log2; [lia|].
    apply Z.lt_le_trans with 24; [apply Z.log2_lt_pow2; lia|done].
Qed.

(** The bytes of a group. *)
Lemma combine3_bytes a b c :
  let w := combine3 (Z_of_byte a) (Z_of_byte b) (Z_of_byte c) in
  0 <= w < 2 ^ 24
  /\ byte_of_Z (Z.land (Z.shiftr w 16) 255) = a
  /\ byte_of_Z (Z.land (Z.shiftr w 8) 255) = b
  /\ byte_of_Z (Z.land w 255) = c.
Proof.
  intros w. pose proof (Z_of_byte_range a). pose proof (Z_of_byte_range b). pose proof (Z_of_byte_range c).
  assert (w = Z_of_byte a * 65536 + Z_of_byte b * 256 + Z_of_byte c) as -> by by apply combine3_sum.
  change 255 with (Z.ones 8). rewrite !Z.land_ones, !Z.shiftr_div_pow2 by lia.
  split; [lia|]. split_and!; apply Z_of_byte_inj; rewrite Z_of_byte_of_Z;
    change (2 ^ 8) with 256; change (2 ^ 16) with 65536; Z.div_mod_to_equations; lia.
Qed.

Lemma Base64Encode_length_mod s : str_size (Base64Encode s) mod 4 = 0.
Proof.
  induction s as [s IH] using (induction_ltof1 _ String.length). unfold ltof, str_size in *.
  destruct s as [|a [|b [|c s]]]; [done..|]. cbn [Base64Encode String.length].
  specialize (IH s ltac:(simpl; lia)).
  replace (Z.of_nat _) with (Z.of_nat (String.length (Base64Encode s)) + 1 * 4) by lia.
  by rewrite Z.mod_add by lia.
Qed.

(** The decoder's word for the group of [w], where padding stands for zero. *)
Lemma sextets_word w third fourth :
  0 <= w < 2 ^ 24 -> third = (w / 2 ^ 6) mod 64 -> fourth = w mod 64 ->
  Z.lor (Z.lor (Z.lor (Z.shiftl ((w / 2 ^ 18) mod 64) 18) (Z.shiftl ((w / 2 ^ 12) mod 64) 12))
           (Z.shiftl third 6)) fourth = w.
Proof.
  intros Hw -> ->. rewrite <- (sextets_combine w) at 5 by done.
  by rewrite Z.pow_0_r, Z.div_1_r.
Qed.

Lemma mod64_nonneg r : (r mod 64 <? 0) = false.
Proof. apply Z.ltb_ge, Z.mod_pos_bound. lia. Qed.

Lemma decode_groups_encode s : decode_groups (Base64Encode s) = Ok s.
Proof.
  induction s as [s IH] using (induction_ltof1 _ String.length). unfold ltof in IH.
  destruct s as [|a s]; [done|].
  destruct s as [|b s]; [|destruct s as [|c s]]; cbn [Base64Encode decode_groups].
  - destruct (combine3_bytes a NUL NUL) as (Hw&Ha&Hb&Hc). change (Z_of_byte NUL) with 0 in *.
    assert (combine3 (Z_of_byte a) 0 0 = Z_of_byte a * 65536) as Hsum.
    { rewrite combine3_sum; [lia|apply Z_of_byte_range|lia..]. }
    set (w := combine3 (Z_of_byte a) 0 0) in *.
    destruct (sextet_value w 18 ltac:(lia)) as [-> ->], (sextet_value w 12 ltac:(lia)) as [-> ->].
    cbn -[Z.shiftl Z.modulo Z.div Z.pow Z.lor decoded_bytes Z.ltb]. rewrite !mod64_nonneg.
    change (0 <? 0) with false. cbn [orb]. rewrite sextets_word;
      [|done|rewrite Hsum; Z.div_mod_to_equations; lia..].
    unfold decoded_bytes. by rewrite Ha.
  - destruct (combine3_bytes a b NUL) as (Hw&Ha&Hb&Hc). change (Z_of_byte NUL) with 0 in *.
    assert (combine3 (Z_of_byte a) (Z_of_byte b) 0 = Z_of_byte a * 65536 + Z_of_byte b * 256) as Hsum.
    { rewrite combine3_sum; [lia|apply Z_of_byte_range..|lia]. }
    set (w := combine3 (Z_of_byte a) (Z_of_byte b) 0) in *.
    destruct (sextet_value w 18 ltac:(lia)) as [-> ->], (sextet_value w 12 ltac:(lia)) as [-> ->],
      (sextet_value w 6 ltac:(lia)) as [-> ->].
    cbn -[Z.shiftl Z.modulo Z.div Z.pow Z.lor decoded_bytes Z.ltb]. rewrite !mod64_nonneg.
    change (0 <? 0) with false. cbn [orb]. rewrite sextets_word;
      [|done|done|rewrite Hsum; Z.div_mod_to_equations; lia].
    unfold decoded_bytes. by rewrite Ha, Hb.
  - destruct (combine3_bytes a b c) as (Hw&Ha&Hb&Hc).
    set (w := combine3 (Z_of_byte a) (Z_of_byte b) (Z_of_byte c)) in *.
    destruct (sextet_value w 18 ltac:(lia)) as [-> ->], (sextet_value w 12 ltac:(lia)) as [-> ->],
      (sextet_value w 6 ltac:(lia)) as [-> ->], (sextet_value w 0 ltac:(lia)) as [-> ->].
    cbn -[Z.shiftl Z.modulo Z.div Z.pow Z.lor decoded_bytes Z.ltb decode_groups]. rewrite !mod64_nonneg.
    cbn [orb]. rewrite Z.pow_0_r, Z.div_1_r, sextets_word by done.
    rewrite IH by (simpl; lia). unfold decoded_bytes. cbn [bind_or]. by rewrite Ha, Hb, Hc.
Qed.

(** What was encoded is decoded. *)
Lemma Base64_round_trip s : Base64Decode (Base64Encode s) = Ok s.
Proof. unfold Base64Decode. by rewrite Base64Encode_length_mod, decode_groups_encode. Qed.
