(* ===== verification/Json.v ===== *)
(** * Json: the values of the JSON library and what the program reads of them

    The library (nlohmann::json) is not part of the repository: its printer
    and its parser are parameters, [dump] and [parse], both of which may throw
    (the printer on text that is not UTF-8, the parser on malformed input).
    What is modelled is the value the program builds and inspects: objects
    are std::map, so their fields are kept sorted by key. *)

From stdpp Require Import pretty.
From S2P Require Import Prelude Status Bytes Order.

Inductive Json :=
  | JNull
  | JBool (b : bool)
  | JNumber (literal : string)
  | JString (s : string)
  | JArray (l : list Json)
  | JObject (fields : list (string * Json)).

(** A computation that may throw: the [what()] of the exception, or a value. *)
Definition Exn (A : Type) : Type := string + A.
Definition exn_bind {A B} (x : Exn A) (k : A -> Exn B) : Exn B :=
  match x with inl what => inl what | inr a => k a end.
Notation "'let!' x ':=' a 'in' b" := (exn_bind a (fun x => b))
  (at level 10, x pattern, a at level 100, b at level 200) : pb_scope.

Lemma exn_bind_inr {A B} (x : Exn A) (k : A -> Exn B) b :
  exn_bind x k = inr b <-> exists a, x = inr a /\ k a = inr b.
Proof. destruct x; simpl; naive_solver. Qed.

(** ** Objects *)

Definition field_less (a b : string * Json) : bool := str_less a.1 b.1.

(** [Json{{key, value}, ...}] *)
Definition Json_object (fields : list (string * Json)) : Json := JObject (std_sort field_less fields).

(** [result[key] = value] for a key the object does not have. *)
Definition add_field (key : string) (value : Json) (j : Json) : Json :=
  match j with
  | JObject fields => JObject (sort_insert field_less (key, value) fields)
  | _ => j
  end.

Fixpoint find_field (key : string) (fields : list (string * Json)) : option Json :=
  match fields with
  | [] => None
  | (k, v) :: fields => if String.eqb k key then Some v else find_field key fields
  end.

(** [object.find(key)]; on a value that is not an object it is [end()]. *)
Definition json_find (j : Json) (key : string) : option Json :=
  match j with JObject fields => find_field key fields | _ => None end.

Definition is_object (j : Json) : bool := match j with JObject _ => true | _ => false end.

(** The fields of every object are those of a std::map. *)
Fixpoint wf_json (j : Json) : bool :=
  match j with
  | JArray l => forallb wf_json l
  | JObject fields =>
      (fix increasing (previous : option string) (fields : list (string * Json)) : bool :=
         match fields with
         | [] => true
         | (k, v) :: fields =>
             match previous with None => true | Some p => str_less p k end
             && wf_json v && increasing (Some k) fields
         end) None fields
  | _ => true
  end.

(** ** The library *)

Definition LF : ascii := "010".
Definition CR : ascii := "013".

(** What the program relies on: a value printed on one line, and read back.
    Control characters are escaped by the printer, so a line has none. *)
Class JsonLibrary (dump : Json -> Exn string) (parse : string -> Exn Json) := {
  parse_dump j s : wf_json j = true -> dump j = inr s -> parse s = inr j;
  dump_line j s : dump j = inr s -> s <> "" /\ str_contains LF s = false /\ str_contains CR s = false;
}.

(** ** Reading fields *)

(** [RequiredString(object, key)] *)
Definition RequiredString (object : Json) (key : string) : StatusOr string :=
  match json_find object key with
  | Some (JString s) => Ok s
  | _ => Err (Invalid ("plan JSON field must be a string: " +:+ key))
  end.

(** The loop over the digits; the value is a [std::uint64_t] and wraps. *)
Fixpoint digits_loop (invalid overflow : string) (digits : string) (value : Z) : StatusOr Z :=
  match digits with
  | EmptyString => Ok value
  | String c rest =>
      let digit := Z_of_byte c in
      if (digit <? 48) || (57 <? digit) then Err (Invalid invalid)
      else
        let next := to_uint64 (value * 10 + (digit - 48)) in
        if next <? value then Err (Invalid overflow)
        else digits_loop invalid overflow rest next
  end.

(** [RequiredUint64(object, key)] *)
Definition RequiredUint64 (object : Json) (key : string) : StatusOr Z :=
  let? s := RequiredString object key in
  if str_empty s then Err (Invalid ("plan JSON integer string must not be empty: " +:+ key))
  else digits_loop ("plan JSON integer string is invalid: " +:+ key)
         ("plan JSON integer string overflows: " +:+ key) s 0.

(** [ParseSigned] of [ParseIdentity]. *)
Definition ParseSigned (value : string) : StatusOr Z :=
  match value with
  | EmptyString => Err (Invalid "plan signed integer string must not be empty")
  | String c rest =>
      let negative := Ascii.eqb c "-" in
      let digits := if negative then rest else value in
      if str_empty digits then Err (Invalid "plan signed integer string is invalid")
      else
        let? magnitude := digits_loop "plan signed integer string is invalid"
                            "plan signed integer string overflows" digits 0 in
        let kInt64MinMagnitude := int64_max + 1 in
        if (negb negative && (int64_max <? magnitude)) || (negative && (kInt64MinMagnitude <? magnitude))
        then Err (Invalid "plan signed integer string overflows")
        else if negative
        then if magnitude =? kInt64MinMagnitude then Ok int64_min else Ok (- magnitude)
        else Ok magnitude
  end.

(** ** Numbers *)

(** A number literal that the parser keeps as an unsigned 64-bit integer. *)
Fixpoint literal_digits (literal : string) (value : Z) : option Z :=
  match literal with
  | EmptyString => Some value
  | String c literal =>
      let digit := Z_of_byte c - 48 in
      if (digit <? 0) || (9 <? digit) then None else literal_digits literal (value * 10 + digit)
  end.
Definition number_unsigned (value : Json) : option Z :=
  match value with
  | JNumber literal =>
      if str_empty literal then None
      else v ← literal_digits literal 0; if v <=? uint64_max then Some v else None
  | _ => None
  end.

(** [is_number_integer]: the parser keeps such a literal as an unsigned or, if
    it is negative, a signed 64-bit integer. *)
Definition number_integer (value : Json) : option Z :=
  match number_unsigned value, value with
  | Some v, _ => Some v
  | None, JNumber (String c digits) =>
      if Ascii.eqb c "-" && negb (str_empty digits)
      then v ← literal_digits digits 0; if - v <? int64_min then None else Some (- v)
      else None
  | None, _ => None
  end.

(** ** Decimal round trip: [std::to_string] is [pretty] *)

Lemma digit_char d :
  (d < 10)%N -> Z_of_byte (pretty_N_char d) = 48 + Z.of_N d.
Proof. intros Hd. assert (d = 0 \/ d = 1 \/ d = 2 \/ d = 3 \/ d = 4 \/ d = 5 \/ d = 6 \/ d = 7 \/ d = 8 \/ d = 9)%N
  as H by lia. by repeat destruct H as [->|H]; [..|subst]. Qed.

Lemma digits_loop_step invalid overflow n rest :
  (0 < n)%N -> Z.of_N n < 2 ^ 64 ->
  digits_loop invalid overflow (String (pretty_N_char (N.modulo n 10)) rest) (Z.of_N (N.div n 10))
  = digits_loop invalid overflow rest (Z.of_N n).
Proof.
  intros Hpos Hn. cbn [digits_loop].
  pose proof (N.mod_lt n 10 ltac:(lia)) as Hm. rewrite digit_char by done.
  pose proof (N.div_mod' n 10) as Hdm.
  replace (Z.of_N (N.div n 10) * 10 + (48 + Z.of_N (N.modulo n 10) - 48)) with (Z.of_N n) by lia.
  unfold to_uint64. rewrite Z.mod_small by lia. assert (N.div n 10 <= n)%N as Hle by (apply N.Div0.div_le_upper_bound; lia).
  generalize dependent (N.modulo n 10). generalize dependent (N.div n 10). intros q Hle m Hm Hdm.
  destruct (Z.ltb_spec (48 + Z.of_N m) 48); [lia|].
  destruct (Z.ltb_spec 57 (48 + Z.of_N m)); [lia|]. cbn [orb].
  destruct (Z.ltb_spec (Z.of_N n) (Z.of_N q)); [lia|done].
Qed.

Lemma digits_loop_go invalid overflow n rest :
  Z.of_N n < 2 ^ 64 ->
  digits_loop invalid overflow (pretty_N_go n rest) 0 = digits_loop invalid overflow rest (Z.of_N n).
Proof.
  revert rest. induction n as [n IH] using (well_founded_induction N.lt_wf_0). intros rest Hn.
  destruct (decide (0 < n)%N) as [Hpos|Hz].
  - rewrite pretty_N_go_step by done. pose proof (N.div_lt n 10 ltac:(lia) ltac:(lia)).
    rewrite IH by lia. by apply digits_loop_step.
  - assert (n = 0%N) as -> by lia. by rewrite pretty_N_go_0.
Qed.

Lemma digits_loop_pretty invalid overflow (z : Z) :
  0 <= z < 2 ^ 64 -> digits_loop invalid overflow (pretty z) 0 = Ok z.
Proof.
  intros Hz. destruct z as [|p|p]; [done| |lia].
  change (pretty (Z.pos p)) with (pretty_N_go (N.pos p) ""). rewrite digits_loop_go by lia. done.
Qed.

(** A positive number starts with a digit. *)
Lemma pretty_N_go_head n rest :
  (0 < n)%N -> exists d s, (d < 10)%N /\ pretty_N_go n rest = String (pretty_N_char d) s.
Proof.
  revert rest. induction n as [n IH] using (well_founded_induction N.lt_wf_0). intros rest Hn.
  rewrite pretty_N_go_step by done. destruct (decide (0 < N.div n 10)%N) as [Hpos|Hz].
  - apply IH; [apply N.div_lt; lia|done].
  - assert (N.div n 10 = 0)%N as -> by (apply N.le_0_r, N.nlt_ge, Hz). rewrite pretty_N_go_0.
    eexists _, _. split; [|done]. by apply N.mod_lt.
Qed.

Lemma pretty_pos_head (p : positive) : exists d s, (d < 10)%N /\ pretty (Z.pos p) = String (pretty_N_char d) s.
Proof. by apply (pretty_N_go_head (N.pos p)). Qed.

Lemma pretty_nonempty (z : Z) : str_empty (pretty z) = false.
Proof. destruct z as [|p|p]; [done| |done]. by destruct (pretty_pos_head p) as (d&s&_&->). Qed.

Lemma RequiredUint64_pretty j key (z : Z) :
  0 <= z < 2 ^ 64 -> json_find j key = Some (JString (pretty z)) -> RequiredUint64 j key = Ok z.
Proof.
  intros Hz Hf. unfold RequiredUint64, RequiredString. rewrite Hf. cbn [bind_or].
  by rewrite pretty_nonempty, digits_loop_pretty.
Qed.

Lemma digit_not_dash d : (d < 10)%N -> Ascii.eqb (pretty_N_char d) "-" = false.
Proof.
  intros Hd. destruct (Ascii.eqb_spec (pretty_N_char d) "-") as [He|]; [|done].
  pose proof (digit_char d Hd) as Hc. rewrite He in Hc. change (Z_of_byte "-") with 45 in Hc. lia.
Qed.

Lemma ParseSigned_pretty (z : Z) : int64_min <= z <= int64_max -> ParseSigned (pretty z) = Ok z.
Proof.
  unfold int64_min, int64_max. intros Hz. destruct z as [|p|p]; [done| |].
  - pose proof (digits_loop_pretty "plan signed integer string is invalid"
      "plan signed integer string overflows" (Z.pos p) ltac:(lia)) as Hd.
    destruct (pretty_pos_head p) as (d&s&Hd10&Heq). rewrite Heq in *. cbn [ParseSigned].
    rewrite digit_not_dash by done. cbn iota. rewrite Hd. cbn -[Z.ltb Z.eqb].
    unfold int64_max. by destruct (Z.ltb_spec 9223372036854775807 (Z.pos p)); [lia|].
  - change (pretty (Z.neg p)) with (String "-" (pretty (Z.pos p))). cbn [ParseSigned].
    rewrite Ascii.eqb_refl. cbn iota. rewrite pretty_nonempty, digits_loop_pretty by lia.
    cbn -[Z.ltb Z.eqb]. unfold int64_max, int64_min.
    destruct (Z.ltb_spec (9223372036854775807 + 1) (Z.pos p)); [lia|].
    destruct (Z.eqb_spec (Z.pos p) (9223372036854775807 + 1)) as [He|]; [|done]. f_equal. lia.
Qed.
