(* ===== verification/RelativePath.v ===== *)
(** * RelativePath: validated slash-separated byte paths

    Models src/model/relative_path.cpp.  A path is a byte string, not text:
    components are separated by [/], and no component is empty, [.] or
    [..], so a parsed path never leaves the directory it is resolved in. *)

From S2P Require Import Prelude Status Bytes.

Definition slash : ascii := "/"%char.

Record RelativePath := mkRelativePath {
  raw_bytes : string;
  components : list string;
}.

#[global] Instance RelativePath_eq_dec : EqDecision RelativePath.
Proof. solve_decision. Defined.

(** [raw_bytes.substr(start, length)] up to the next separator, and what
    follows it ([None]: no separator was found). *)
Fixpoint next_component (s : string) : string * option string :=
  match s with
  | EmptyString => ("", None)
  | String c s' =>
      if Ascii.eqb c slash then ("", Some s')
      else let (component, rest) := next_component s' in (String c component, rest)
  end.

Definition dot_component (component : string) : bool :=
  bool_decide (component = ".") || bool_decide (component = "..").

(** The loop of [Parse]; [rest] is [raw_bytes] from [start] on. *)
Fixpoint parse_loop (fuel : nat) (components : list string) (rest : string)
    : StatusOr (list string) :=
  match fuel with
  | O => Err (Internal "unreachable")
  | S fuel =>
      let (component, separator) := next_component rest in
      if str_empty component
      then Err (Invalid "relative path must not contain empty components")
      else if dot_component component
      then Err (Invalid "relative path must not contain dot components")
      else
        let components := components ++ [component] in
        match separator with
        | None => Ok components
        | Some rest => parse_loop fuel components rest
        end
  end.

Definition starts_with_slash (s : string) : bool :=
  match s with String c _ => Ascii.eqb c slash | EmptyString => false end.

(** [RelativePath::Parse] *)
Definition Parse (raw_bytes : string) : StatusOr RelativePath :=
  if str_empty raw_bytes then Err (Invalid "relative path must not be empty")
  else if str_contains NUL raw_bytes then Err (Invalid "relative path must not contain NUL")
  else if starts_with_slash raw_bytes then Err (Invalid "relative path must not be absolute")
  else
    let? components := parse_loop (S (String.length raw_bytes)) [] raw_bytes in
    Ok (mkRelativePath raw_bytes components).

(** [static_cast<unsigned int>(byte)] in two upper-case hexadecimal digits. *)
Definition upper_hex : string := "0123456789ABCDEF".
Definition display_byte (byte : ascii) : string :=
  let v := Z_of_byte byte in
  if (32 <=? v) && (v <=? 126) && negb (v =? 92) then String byte ""
  else if v =? 92 then "\\"
  else "\x" +:+ String (byte_get upper_hex (Z.to_nat (Z.shiftr v 4)))
                  (String (byte_get upper_hex (Z.to_nat (Z.land v 15))) "").

(** [RelativePath::DisplayString] *)
Fixpoint display_bytes (s : string) : string :=
  match s with
  | EmptyString => ""
  | String c s' => display_byte c +:+ display_bytes s'
  end.
Definition DisplayString (p : RelativePath) : string := display_bytes (raw_bytes p).

(** ** Properties *)

(** Components joined by [/]. *)
Fixpoint join_path (cs : list string) : string :=
  match cs with
  | [] => ""
  | [c] => c
  | c :: cs' => c +:+ String slash (join_path cs')
  end.

(** A component that names an entry inside its directory. *)
Definition normal_component (c : string) : Prop :=
  c <> "" /\ c <> "." /\ c <> ".." /\ str_contains slash c = false /\ str_contains NUL c = false.

(** The values the private constructor can have built. *)
Definition wf_path (p : RelativePath) : Prop := Parse (raw_bytes p) = Ok p.

#[global] Instance wf_path_dec p : Decision (wf_path p).
Proof. unfold wf_path. apply _. Defined.

Lemma str_contains_app c a b : str_contains c (a +:+ b) = str_contains c a || str_contains c b.
Proof. induction a as [|x a IH]; simpl; [done|]. by rewrite IH, orb_assoc. Qed.

Lemma next_component_spec s :
  let (c, rest) := next_component s in
  str_contains slash c = false /\
  match rest with None => s = c | Some r => s = c +:+ String slash r end.
Proof.
  induction s as [|x s IH]; [done|]. simpl.
  destruct (Ascii.eqb_spec x slash) as [->|Hx]; [done|].
  destruct (next_component s) as [c rest]. destruct IH as [Hc Hrest]. simpl.
  rewrite (proj2 (Ascii.eqb_neq x slash) Hx), Hc. split; [done|].
  destruct rest; by rewrite Hrest.
Qed.

Lemma next_component_app c r :
  str_contains slash c = false -> next_component (c +:+ String slash r) = (c, Some r).
Proof.
  induction c as [|x c IH]; simpl; [done|]. intros [Hx Hc]%orb_false_iff.
  rewrite Hx, IH; done.
Qed.

Lemma next_component_whole c : str_contains slash c = false -> next_component c = (c, None).
Proof.
  induction c as [|x c IH]; simpl; [done|]. intros [Hx Hc]%orb_false_iff. by rewrite Hx, IH.
Qed.

Lemma str_empty_false s : str_empty s = false <-> s <> "".
Proof. by destruct s. Qed.

Lemma dot_component_false s : dot_component s = false <-> s <> "." /\ s <> "..".
Proof. unfold dot_component. rewrite orb_false_iff, !bool_decide_eq_false. done. Qed.

Definition plain_component (c : string) : Prop :=
  c <> "" /\ c <> "." /\ c <> ".." /\ str_contains slash c = false.

(** The loop returns the components it split, with enough fuel. *)
Lemma parse_loop_Ok fuel acc s cs :
  (String.length s < fuel)%nat ->
  parse_loop fuel acc s = Ok cs <->
  exists new, cs = acc ++ new /\ new <> [] /\ join_path new = s /\ Forall plain_component new.
Proof.
  revert acc s. induction fuel as [|fuel IH]; intros acc s Hf; [lia|].
  cbn [parse_loop]. pose proof (next_component_spec s) as Hn.
  destruct (next_component s) as [c rest] eqn:En. destruct Hn as [Hc Hrest].
  assert (forall new, new <> [] -> join_path new = s -> Forall plain_component new ->
    exists tl, new = c :: tl /\ plain_component c /\ Forall plain_component tl /\
      match rest with None => tl = [] | Some r => tl <> [] /\ join_path tl = r end) as Hinv.
  { intros [|x [|y tl]] Hne Hj Hall; [done| |].
    - simpl in Hj. subst x. apply Forall_cons in Hall as [Hp _]. destruct Hp as (?&?&?&Hs).
      rewrite next_component_whole in En by done. simplify_eq.
      exists []. by repeat split; auto.
    - apply Forall_cons in Hall as [Hp Htl]. pose proof Hp as (?&?&?&Hs).
      change (x +:+ String slash (join_path (y :: tl)) = s) in Hj. subst s.
      rewrite next_component_app in En by done. simplify_eq.
      exists (y :: tl). by repeat split; auto. }
  destruct (str_empty c) eqn:Hemp.
  { split; [done|]. intros (new&->&Hne&Hj&Hall).
    destruct (Hinv new Hne Hj Hall) as (tl&->&(?&_)&_). by destruct c. }
  destruct (dot_component c) eqn:Hdot.
  { split; [done|]. intros (new&->&Hne&Hj&Hall).
    destruct (Hinv new Hne Hj Hall) as (tl&->&(?&?&?&_)&_).
    by rewrite (proj2 (dot_component_false c)) in Hdot. }
  apply str_empty_false in Hemp. apply dot_component_false in Hdot as [??].
  assert (plain_component c) as Hp by done.
  destruct rest as [r|]; subst s; [rewrite IH|]; clear IH.
  - split.
    + intros (new&->&Hne&Hj&Hall). exists (c :: new).
      repeat split; [by rewrite <- app_assoc|done| |by constructor].
      destruct new; [done|]. by simpl; simpl in Hj; rewrite Hj.
    + intros (new&->&Hne&Hj&Hall). destruct (Hinv new Hne Hj Hall) as (tl&->&_&Htl&?&?).
      exists tl. by repeat split; [rewrite <- app_assoc|..].
  - rewrite str_length_app in Hf. simpl in Hf. lia.
  - split.
    + intros [= <-]. exists [c]. by repeat split; [..|repeat constructor].
    + intros (new&->&Hne&Hj&Hall). by destruct (Hinv new Hne Hj Hall) as (tl&->&_&_&->).
Qed.

Lemma join_path_nul cs :
  str_contains NUL (join_path cs) = false <-> Forall (fun c => str_contains NUL c = false) cs.
Proof.
  induction cs as [|c cs IH]; [done|]. destruct cs as [|d cs].
  - simpl. rewrite Forall_cons. split; [by split|by intros [? _]].
  - change (join_path (c :: d :: cs)) with (c +:+ String slash (join_path (d :: cs))).
    rewrite str_contains_app, Forall_cons, <- IH. cbn [str_contains].
    rewrite orb_false_iff. done.
Qed.

(** What [Parse] accepts: exactly the joins of normal components. *)
Lemma Parse_Ok s p :
  Parse s = Ok p <->
  raw_bytes p = s /\ components p <> [] /\ join_path (components p) = s
  /\ Forall normal_component (components p).
Proof.
  unfold Parse. destruct p as [raw cs]. cbn [raw_bytes components].
  assert (Forall normal_component cs <->
    Forall plain_component cs /\ Forall (fun c => str_contains NUL c = false) cs) as Hnp.
  { unfold normal_component, plain_component. rewrite <- Forall_and.
    apply Forall_iff. naive_solver. }
  assert (forall c tl, plain_component c ->
    str_empty (join_path (c :: tl)) = false /\ starts_with_slash (join_path (c :: tl)) = false) as Hfirst.
  { intros c tl (Hne&_&_&Hs). destruct c as [|x c]; [done|]. simpl in Hs.
    apply orb_false_iff in Hs as [Hx _]. by destruct tl. }
  destruct (str_empty s) eqn:E1.
  { split; [done|]. intros (->&Hne&<-&[Hp _]%Hnp). destruct cs as [|c cs]; [done|].
    apply Forall_cons in Hp as [Hp _]. destruct (Hfirst c cs Hp). congruence. }
  destruct (str_contains NUL s) eqn:E2.
  { split; [done|]. intros (->&Hne&<-&[_ Hnul]%Hnp).
    apply join_path_nul in Hnul. congruence. }
  destruct (starts_with_slash s) eqn:E3.
  { split; [done|]. intros (->&Hne&<-&[Hp _]%Hnp). destruct cs as [|c cs]; [done|].
    apply Forall_cons in Hp as [Hp _]. destruct (Hfirst c cs Hp). congruence. }
  rewrite bind_or_Ok. split.
  - intros (cs'&Hl&[= <- <-]). apply parse_loop_Ok in Hl as (new&->&Hne&Hj&Hall); [|lia].
    rewrite app_nil_l in *.
    repeat split; [done..|]. apply Hnp. split; [done|].
    apply join_path_nul. by rewrite Hj.
  - intros (->&Hne&Hj&[Hp _]%Hnp). exists cs. split; [|done].
    apply parse_loop_Ok; [lia|]. by exists cs.
Qed.

Lemma Parse_wf s p : Parse s = Ok p -> wf_path p.
Proof. intros H. unfold wf_path. pose proof H as Hp. apply Parse_Ok in H as (->&_). done. Qed.

Lemma wf_path_raw_inj p q : wf_path p -> wf_path q -> raw_bytes p = raw_bytes q -> p = q.
Proof. unfold wf_path. intros Hp Hq Heq. rewrite Heq, Hq in Hp. by simplify_eq. Qed.

Lemma wf_path_nonempty p : wf_path p -> str_empty (raw_bytes p) = false.
Proof. unfold wf_path, Parse. by destruct (str_empty (raw_bytes p)). Qed.

Lemma wf_path_no_nul p : wf_path p -> str_contains NUL (raw_bytes p) = false.
Proof.
  unfold wf_path, Parse. destruct (str_empty (raw_bytes p)); [done|].
  by destruct (str_contains NUL (raw_bytes p)).
Qed.

(** The path a join of normal components parses to. *)
Lemma Parse_join cs :
  cs <> [] -> Forall normal_component cs ->
  Parse (join_path cs) = Ok (mkRelativePath (join_path cs) cs).
Proof. intros. apply Parse_Ok. done. Qed.

Lemma parse_loop_error fuel acc s e : parse_loop fuel acc s = Err e -> ok e = false.
Proof.
  revert acc s. induction fuel as [|fuel IH]; intros acc s; simpl; [by intros [= <-]|].
  destruct (next_component s) as [c [r|]]; repeat (split_if; [by intros [= <-]|]); [apply IH|done].
Qed.

Lemma Parse_error s e : Parse s = Err e -> ok e = false.
Proof.
  unfold Parse. repeat (split_if; [by intros [= <-]|]). unfold bind_or.
  destruct (parse_loop _ _ _) eqn:Hl; [done|]. intros [= <-]. by eapply parse_loop_error.
Qed.

(** C40. A path is accepted exactly when it is a non-empty sequence of
    components joined by single slashes, none of them empty, [.] or [..] and
    none containing a NUL; the components are then exactly those, so a parsed
    path names an entry below the directory it is resolved in, and joining
    them gives the bytes back. *)
Theorem paths_cannot_escape s p :
  Parse s = Ok p <->
  raw_bytes p = s /\ components p <> [] /\ join_path (components p) = s
  /\ Forall normal_component (components p).
Proof. apply Parse_Ok. Qed.
