(* ===== verification/Task.v ===== *)
(** * Task: task specifications, identities and lifecycles

    Models include/photobridge/model/task.h and src/model/task.cpp: the
    immutable specification of a task, its stable key, the checks on both,
    and the two state machines the runtime store is meant to follow. *)

From S2P Require Import Prelude Status Bytes RelativePath.

Module TaskType.
Inductive t :=
| kMigrateFile | kWriteAssetManifest | kWriteRelationIndex | kVerifyAsset | kWriteReport.
#[global] Instance eq_dec : EqDecision t.
Proof. solve_decision. Defined.
#[global] Program Instance enum : CppEnum t := {|
  to_int c := match c with
    | kMigrateFile => 0 | kWriteAssetManifest => 1 | kWriteRelationIndex => 2
    | kVerifyAsset => 3 | kWriteReport => 4 end;
  of_int z :=
    if z =? 0 then Some kMigrateFile else if z =? 1 then Some kWriteAssetManifest
    else if z =? 2 then Some kWriteRelationIndex else if z =? 3 then Some kVerifyAsset
    else if z =? 4 then Some kWriteReport else None
|}.
Next Obligation. by intros []. Qed.
Next Obligation. intros z e Hz. simpl in Hz. repeat split_if; simplify_eq; bool_hyps; done. Qed.
End TaskType.

(** [const char* TaskTypeName(TaskType type) noexcept] *)
Definition TaskTypeName (type : TaskType.t) : string :=
  match type with
  | TaskType.kMigrateFile => "MIGRATE_FILE"
  | TaskType.kWriteAssetManifest => "WRITE_ASSET_MANIFEST"
  | TaskType.kWriteRelationIndex => "WRITE_RELATION_INDEX"
  | TaskType.kVerifyAsset => "VERIFY_ASSET"
  | TaskType.kWriteReport => "WRITE_REPORT"
  end.

(** [bool IsKnownTaskType(TaskType type) noexcept] *)
Definition IsKnownTaskType (type : TaskType.t) : bool :=
  byte_get (TaskTypeName type) 0 != "U"%char.

Module TaskState.
Inductive t :=
| kPlanned | kReady | kRunning | kSucceeded | kRetryable
| kFailed | kNeedsReview | kInconsistent | kSkipped.
#[global] Instance eq_dec : EqDecision t.
Proof. solve_decision. Defined.
#[global] Program Instance enum : CppEnum t := {|
  to_int c := match c with
    | kPlanned => 0 | kReady => 1 | kRunning => 2 | kSucceeded => 3 | kRetryable => 4
    | kFailed => 5 | kNeedsReview => 6 | kInconsistent => 7 | kSkipped => 8 end;
  of_int z :=
    if z =? 0 then Some kPlanned else if z =? 1 then Some kReady
    else if z =? 2 then Some kRunning else if z =? 3 then Some kSucceeded
    else if z =? 4 then Some kRetryable else if z =? 5 then Some kFailed
    else if z =? 6 then Some kNeedsReview else if z =? 7 then Some kInconsistent
    else if z =? 8 then Some kSkipped else None
|}.
Next Obligation. by intros []. Qed.
Next Obligation. intros z e Hz. simpl in Hz. repeat split_if; simplify_eq; bool_hyps; done. Qed.

(** [bool IsValidTransition(TaskState from, TaskState to) noexcept] *)
Definition IsValidTransition (from to : t) : bool :=
  match from with
  | kPlanned => (to == kReady) || (to == kSkipped)
  | kReady => (to == kRunning) || (to == kSkipped)
  | kRunning =>
      (to == kSucceeded) || (to == kRetryable) || (to == kFailed)
      || (to == kNeedsReview) || (to == kInconsistent)
  | kRetryable => to == kReady
  | kSucceeded | kFailed | kNeedsReview | kInconsistent | kSkipped => false
  end.
End TaskState.

Module FileAttemptState.
Inductive t :=
| kPlanned | kReady | kRunning | kCommitIntent | kTempWritten | kVerifiedDurable
| kCommitted | kRetryable | kFailed | kNeedsReview | kInconsistent | kSkipped.
#[global] Instance eq_dec : EqDecision t.
Proof. solve_decision. Defined.
#[global] Program Instance enum : CppEnum t := {|
  to_int c := match c with
    | kPlanned => 0 | kReady => 1 | kRunning => 2 | kCommitIntent => 3
    | kTempWritten => 4 | kVerifiedDurable => 5 | kCommitted => 6 | kRetryable => 7
    | kFailed => 8 | kNeedsReview => 9 | kInconsistent => 10 | kSkipped => 11 end;
  of_int z :=
    if z =? 0 then Some kPlanned else if z =? 1 then Some kReady
    else if z =? 2 then Some kRunning else if z =? 3 then Some kCommitIntent
    else if z =? 4 then Some kTempWritten else if z =? 5 then Some kVerifiedDurable
    else if z =? 6 then Some kCommitted else if z =? 7 then Some kRetryable
    else if z =? 8 then Some kFailed else if z =? 9 then Some kNeedsReview
    else if z =? 10 then Some kInconsistent else if z =? 11 then Some kSkipped
    else None
|}.
Next Obligation. by intros []. Qed.
Next Obligation. intros z e Hz. simpl in Hz. repeat split_if; simplify_eq; bool_hyps; done. Qed.

(** [bool IsValidTransition(FileAttemptState from, FileAttemptState to)] *)
Definition IsValidTransition (from to : t) : bool :=
  match from with
  | kPlanned => (to == kReady) || (to == kSkipped)
  | kReady => (to == kRunning) || (to == kSkipped)
  | kRunning =>
      (to == kCommitIntent) || (to == kRetryable) || (to == kFailed)
      || (to == kNeedsReview) || (to == kInconsistent)
  | kCommitIntent =>
      (to == kTempWritten) || (to == kRetryable) || (to == kFailed)
      || (to == kNeedsReview) || (to == kInconsistent)
  | kTempWritten =>
      (to == kVerifiedDurable) || (to == kRetryable) || (to == kFailed)
      || (to == kNeedsReview) || (to == kInconsistent)
  | kVerifiedDurable =>
      (to == kCommitted) || (to == kRetryable) || (to == kFailed)
      || (to == kNeedsReview) || (to == kInconsistent)
  | kRetryable => to == kReady
  | kCommitted | kFailed | kNeedsReview | kInconsistent | kSkipped => false
  end.
End FileAttemptState.

Module FileIdentity.
(** [struct FileIdentity] of include/photobridge/model/file_identity.h *)
Record t := mk {
  device : Z; inode : Z; size : Z;      (* std::uint64_t *)
  mtime_ns : Z; ctime_ns : Z;           (* std::int64_t *)
  mount_id : option Z;
}.
#[global] Instance eq_dec : EqDecision t.
Proof. solve_decision. Defined.
End FileIdentity.

(** The values the C++ type can hold. *)
Definition is_uint64 (z : Z) : Prop := 0 <= z <= uint64_max.
Definition is_int64 (z : Z) : Prop := int64_min <= z <= int64_max.
Definition wf_identity (i : FileIdentity.t) : Prop :=
  is_uint64 (FileIdentity.device i) /\ is_uint64 (FileIdentity.inode i)
  /\ is_uint64 (FileIdentity.size i)
  /\ is_int64 (FileIdentity.mtime_ns i) /\ is_int64 (FileIdentity.ctime_ns i)
  /\ match FileIdentity.mount_id i with Some m => is_uint64 m | None => True end.

Record TaskSpec := mkTaskSpec {
  spec_id : string;
  task_key : string;
  type : TaskType.t;
  asset_id : string;
  source_asset_id : option string;
  target_path : RelativePath;
  estimated_bytes : Z;
  expected_digest : option Digest;
}.

(** [struct TaskRuntime]; an epoch is its [value]. *)
Record TaskRuntime := mkTaskRuntime {
  runtime_id : string;
  state : TaskState.t;
  owner_epoch : Z;
  attempt_id : option string;
  attempt_count : Z;
  last_error : option Status;
}.

(** [value.has_value() && (value.empty() || value.find('\0') != npos)] *)
Definition empty_or_nul (value : option string) : bool :=
  match value with
  | Some v => str_empty v || str_contains NUL v
  | None => false
  end.

Definition ValidateTaskSpec (task : TaskSpec) : Status :=
  if str_empty (spec_id task) then Invalid "task id must not be empty"
  else if str_empty (task_key task) then Invalid "task key must not be empty"
  else if negb (IsKnownTaskType (type task)) then Invalid "task type is unknown"
  else if str_empty (asset_id task) then Invalid "task asset id must not be empty"
  else if str_empty (raw_bytes (target_path task))
  then Invalid "task target path must not be empty"
  else if str_contains NUL (spec_id task) || str_contains NUL (task_key task)
          || str_contains NUL (asset_id task)
  then Invalid "task identifiers must not contain NUL"
  else if empty_or_nul (source_asset_id task)
  then Invalid "task source asset id must be non-empty and NUL-free"
  else if (type task == TaskType.kMigrateFile) && negb (has_value (source_asset_id task))
  then Invalid "file migration task requires a source asset id"
  else Status_Ok.

Definition ValidateTaskRuntime (runtime : TaskRuntime) : Status :=
  if str_empty (runtime_id runtime) then Invalid "task runtime id must not be empty"
  else if str_contains NUL (runtime_id runtime)
  then Invalid "task runtime id must not contain NUL"
  else if empty_or_nul (attempt_id runtime)
  then Invalid "task attempt id must be non-empty and NUL-free"
  else if (state runtime == TaskState.kRunning)
          && ((owner_epoch runtime =? 0) || negb (has_value (attempt_id runtime)))
  then Invalid "running task runtime requires an owner epoch and attempt id"
  else Status_Ok.

Definition kTaskKeySemanticVersion : string := "PB_TASK_V1".

(** The payload [TaskKeyFor] hashes. *)
Definition task_key_payload (task : TaskSpec) : string :=
  let payload := "" +:+ kTaskKeySemanticVersion in
  let payload := AppendLengthPrefixed (asset_id task) payload in
  let payload := AppendLengthPrefixed (TaskTypeName (type task)) payload in
  let payload := AppendLengthPrefixed (raw_bytes (target_path task)) payload in
  AppendOptionalString (source_asset_id task) payload.

Section TaskKey.
Context (Blake3 : string -> Digest).

Definition TaskKeyFor (task : TaskSpec) : StatusOr string :=
  if negb (IsKnownTaskType (type task)) then Err (Invalid "task type is unknown")
  else if str_empty (asset_id task) || str_empty (raw_bytes (target_path task))
  then Err (Invalid "task key requires an asset id and target path")
  else if (match source_asset_id task with Some s => str_empty s | None => false end)
  then Err (Invalid "task key source asset id must not be empty")
  else Ok ("task-" +:+ ToHex (Blake3 (task_key_payload task))).

End TaskKey.

(** ** Properties *)

Lemma TaskTypeName_inj a b : TaskTypeName a = TaskTypeName b -> a = b.
Proof. by destruct a, b. Qed.

Lemma TaskTypeName_sized a : str_sized (TaskTypeName a).
Proof. by destruct a. Qed.

Lemma ToHex_inj a b : ToHex a = ToHex b -> a = b.
Proof.
  intros Heq.
  assert (forall d, FromHex (ToHex d) = Ok d) as Hrt.
  { intros d. apply FromHex_Ok. split; [unfold str_size; by rewrite ToHex_length|].
    intros i Hi. apply hex_byte_of_bytes. by rewrite Digest_length. }
  pose proof (Hrt a) as Ha. rewrite Heq, Hrt in Ha. by simplify_eq.
Qed.

(** The immutable semantics a task key stands for. *)
Definition same_semantics (a b : TaskSpec) : Prop :=
  asset_id a = asset_id b /\ type a = type b
  /\ raw_bytes (target_path a) = raw_bytes (target_path b)
  /\ source_asset_id a = source_asset_id b.

Definition spec_sized (t : TaskSpec) : Prop :=
  str_sized (asset_id t) /\ str_sized (raw_bytes (target_path t)) /\ opt_sized (source_asset_id t).

Lemma task_key_payload_eq t :
  task_key_payload t = kTaskKeySemanticVersion +:+ length_prefixed (asset_id t)
    +:+ length_prefixed (TaskTypeName (type t))
    +:+ length_prefixed (raw_bytes (target_path t)) +:+ optional_string (source_asset_id t) +:+ "".
Proof.
  unfold task_key_payload. rewrite AppendOptionalString_app, !AppendLengthPrefixed_app.
  by rewrite !str_app_assoc, str_app_nil.
Qed.

Lemma task_key_payload_inj a b :
  spec_sized a -> spec_sized b ->
  task_key_payload a = task_key_payload b <-> same_semantics a b.
Proof.
  intros (Ha1&Ha2&Ha3) (Hb1&Hb2&Hb3). rewrite !task_key_payload_eq. split.
  - intros Heq. apply str_app_inj_l in Heq.
    apply length_prefixed_inj in Heq as [H1 Heq]; [|done..].
    apply length_prefixed_inj in Heq as [H2 Heq]; [|apply TaskTypeName_sized..].
    apply length_prefixed_inj in Heq as [H3 Heq]; [|done..].
    apply optional_string_inj in Heq as [H4 _]; [|done..].
    repeat split; auto. by apply TaskTypeName_inj.
  - intros (->&->&->&->). done.
Qed.

(** The key of a specification that has one. *)
Lemma TaskKeyFor_Ok Blake3 t k :
  TaskKeyFor Blake3 t = Ok k -> k = "task-" +:+ ToHex (Blake3 (task_key_payload t)).
Proof. unfold TaskKeyFor. repeat (split_if; [done|]). by intros [= <-]. Qed.

(** The key of a task depends on exactly its immutable semantics (asset,
    type, target path and source asset): equal semantics give equal keys, and
    equal keys of different semantics exhibit a BLAKE3 collision. *)
Lemma task_keys_name_semantics Blake3 a b ka kb :
  spec_sized a -> spec_sized b ->
  TaskKeyFor Blake3 a = Ok ka -> TaskKeyFor Blake3 b = Ok kb ->
  (same_semantics a b -> ka = kb)
  /\ (ka = kb -> same_semantics a b
      \/ (task_key_payload a <> task_key_payload b
          /\ Blake3 (task_key_payload a) = Blake3 (task_key_payload b))).
Proof.
  intros Ha Hb ->%TaskKeyFor_Ok ->%TaskKeyFor_Ok. split.
  - intros Hsame. by rewrite (proj2 (task_key_payload_inj a b Ha Hb) Hsame).
  - intros Heq%str_app_inj_l%ToHex_inj.
    destruct (decide (task_key_payload a = task_key_payload b)) as [Hp|Hp]; [left|by right].
    by apply task_key_payload_inj.
Qed.

Lemma task_keys_name_semantics_witness :
  let spec id := mkTaskSpec id "" TaskType.kMigrateFile "asset" (Some "src")
                   (mkRelativePath "a.jpg" ["a.jpg"]) 3 None in
  let b3 := fun _ => Digest_of (fun _ => NUL) in
  exists ka kb, TaskKeyFor b3 (spec "t1") = Ok ka /\ TaskKeyFor b3 (spec "t2") = Ok kb /\ ka = kb.
Proof.
  intros spec b3. eexists _, _. split; [reflexivity|]. split; [reflexivity|].
  apply (proj1 (task_keys_name_semantics b3 (spec "t1") (spec "t2") _ _
    ltac:(by vm_compute) ltac:(by vm_compute) eq_refl eq_refl)).
  by vm_compute.
Defined.
