(* ===== verification/Reconciler.v ===== *)
(** * Reconciler: the recovery decision after an interrupted commit

    Models include/photobridge/filesystem/reconciler.h and
    src/filesystem/reconciler.cpp.  [Decide] is a pure function from the
    frozen specification, the runtime row, the commit intent, the durable
    receipt and the observed files to one recovery action. *)

From S2P Require Import Prelude Status Bytes RelativePath Task.

Module CommitIntent.
Record t := mk {
  task_id : string;
  attempt_id : string;
  owner_epoch : Z;
  temp_path : string;
  final_path : string;
}.
End CommitIntent.

Module VerifiedReceipt.
Record t := mk {
  task_id : string;
  attempt_id : string;
  owner_epoch : Z;
  temp_path : string;
  final_path : string;
  content_size : Z;
  source_digest : option Digest;
  target_digest : Digest;
  source_identity : option FileIdentity.t;
}.
#[global] Instance eq_dec : EqDecision t.
Proof. solve_decision. Defined.
End VerifiedReceipt.

Module Observed.
(** [struct ObservedFileState] *)
Record t := mk {
  source_available : bool;
  source_changed : bool;
  temp_exists : bool;
  final_exists : bool;
  source_identity : option FileIdentity.t;
  temp_identity : option FileIdentity.t;
  final_identity : option FileIdentity.t;
  temp_size : Z;
  final_size : Z;
  temp_digest : option Digest;
  final_digest : option Digest;
}.
End Observed.

Inductive ReconcileAction :=
| kRetryTask | kResumeCommitFromTemp | kAdoptFinal | kAdoptFinalAndCleanupTemp
| kReverifyCommitted | kTargetConflict | kInconsistent.
#[global] Instance ReconcileAction_eq_dec : EqDecision ReconcileAction.
Proof. solve_decision. Defined.

Record ReconcileDecision := mkDecision {
  action : ReconcileAction;
  reason : string;
}.

Definition ValidateIntent (spec : TaskSpec) (runtime : TaskRuntime) (intent : CommitIntent.t) : Status :=
  if type spec != TaskType.kMigrateFile
  then Invalid "reconciler only accepts file migration tasks"
  else and_then (ValidateTaskSpec spec) (and_then (ValidateTaskRuntime runtime)
  (if str_empty (CommitIntent.task_id intent) || str_empty (CommitIntent.attempt_id intent)
      || str_empty (CommitIntent.temp_path intent) || str_empty (CommitIntent.final_path intent)
  then Invalid "commit intent fields must not be empty"
  else if (CommitIntent.task_id intent != spec_id spec)
          || (CommitIntent.task_id intent != runtime_id runtime)
  then Invalid "commit intent task does not match task runtime"
  else if (match attempt_id runtime with
           | Some attempt => attempt != CommitIntent.attempt_id intent
           | None => false
           end)
  then Invalid "commit intent attempt does not match task runtime"
  else if negb (owner_epoch runtime =? 0)
          && negb (owner_epoch runtime =? CommitIntent.owner_epoch intent)
  then Invalid "commit intent epoch does not match task runtime"
  else if CommitIntent.final_path intent != raw_bytes (target_path spec)
  then Invalid "commit intent final path is not frozen target path"
  else Status_Ok)).

Definition ValidateReceipt (intent : CommitIntent.t) (receipt : option VerifiedReceipt.t) : Status :=
  match receipt with
  | None => Status_Ok
  | Some value =>
      if (VerifiedReceipt.task_id value != CommitIntent.task_id intent)
         || (VerifiedReceipt.attempt_id value != CommitIntent.attempt_id intent)
         || negb (VerifiedReceipt.owner_epoch value =? CommitIntent.owner_epoch intent)
         || (VerifiedReceipt.temp_path value != CommitIntent.temp_path intent)
         || (VerifiedReceipt.final_path value != CommitIntent.final_path intent)
      then Invalid "verified receipt does not match commit intent"
      else Status_Ok
  end.

Definition Matches (exists_ : bool) (size : Z) (digest : option Digest)
    (receipt : VerifiedReceipt.t) : bool :=
  exists_ && (size =? VerifiedReceipt.content_size receipt)
  && match digest with
     | Some d => d == VerifiedReceipt.target_digest receipt
     | None => false
     end.

(** The rules of [Decide], once intent and receipt are valid. *)
Definition DecideRules (runtime : TaskRuntime) (receipt : option VerifiedReceipt.t)
    (observed : Observed.t) : ReconcileDecision :=
  if Observed.source_changed observed
  then mkDecision kInconsistent "SOURCE_CHANGED: source identity differs from the frozen plan"
  else match receipt with
  | None =>
      if Observed.final_exists observed
      then mkDecision kTargetConflict "final exists without a durable verified receipt"
      else mkDecision kRetryTask
        (if Observed.temp_exists observed
         then "intent has no receipt; retry without cleaning unproven temp"
         else "intent has no receipt; create a new attempt")
  | Some verified =>
      let temp_matches := Matches (Observed.temp_exists observed) (Observed.temp_size observed)
                            (Observed.temp_digest observed) verified in
      let final_matches := Matches (Observed.final_exists observed) (Observed.final_size observed)
                            (Observed.final_digest observed) verified in
      if Observed.final_exists observed && negb final_matches
      then mkDecision kTargetConflict "final exists but does not match the verified receipt"
      else if state runtime == TaskState.kSucceeded
      then if final_matches
           then mkDecision kReverifyCommitted "committed task final matches receipt"
           else mkDecision kInconsistent "committed task final is missing or unverifiable"
      else if final_matches && temp_matches
      then mkDecision kAdoptFinalAndCleanupTemp
             "matching final and temp are durable evidence; clean owned temp after commit"
      else if final_matches
      then mkDecision kAdoptFinal "matching final can be adopted from durable receipt"
      else if temp_matches && negb (Observed.final_exists observed)
      then mkDecision kResumeCommitFromTemp
             "matching temp can be re-synced and published under a new epoch"
      else if negb (Observed.temp_exists observed) && negb (Observed.final_exists observed)
      then if Observed.source_available observed
           then mkDecision kRetryTask "receipt exists but files are absent; source can be rechecked"
           else mkDecision kInconsistent "receipt exists but files and source are unavailable"
      else mkDecision kInconsistent
             "observed temp is missing or does not match the verified receipt"
  end.

Definition Decide (spec : TaskSpec) (runtime : TaskRuntime) (intent : CommitIntent.t)
    (receipt : option VerifiedReceipt.t) (observed : Observed.t) : StatusOr ReconcileDecision :=
  check_status (ValidateIntent spec runtime intent)
  (check_status (ValidateReceipt intent receipt)
  (Ok (DecideRules runtime receipt observed))).

(** ** Properties *)

(** A file that carries the bytes the receipt vouches for. *)
Definition proven (exists_ : bool) (size : Z) (digest : option Digest) (r : VerifiedReceipt.t) : Prop :=
  exists_ = true /\ size = VerifiedReceipt.content_size r
  /\ digest = Some (VerifiedReceipt.target_digest r).

Definition final_proven (o : Observed.t) : VerifiedReceipt.t -> Prop :=
  proven (Observed.final_exists o) (Observed.final_size o) (Observed.final_digest o).
Definition temp_proven (o : Observed.t) : VerifiedReceipt.t -> Prop :=
  proven (Observed.temp_exists o) (Observed.temp_size o) (Observed.temp_digest o).

Lemma Matches_true e s d r : Matches e s d r = true <-> proven e s d r.
Proof.
  unfold Matches, proven. rewrite !andb_true_iff, Z.eqb_eq.
  destruct d as [d|]; rewrite ?bool_decide_eq_true; naive_solver.
Qed.

Lemma Matches_reflect e s d r : reflect (proven e s d r) (Matches e s d r).
Proof. apply iff_reflect. symmetry. apply Matches_true. Qed.

(** A valid intent names the task, the attempt and the frozen target. *)
Lemma ValidateIntent_ok spec runtime intent :
  ok (ValidateIntent spec runtime intent) = true ->
  CommitIntent.task_id intent = spec_id spec
  /\ CommitIntent.task_id intent = runtime_id runtime
  /\ CommitIntent.final_path intent = raw_bytes (target_path spec)
  /\ (forall a, attempt_id runtime = Some a -> CommitIntent.attempt_id intent = a)
  /\ (owner_epoch runtime <> 0 -> owner_epoch runtime = CommitIntent.owner_epoch intent)
  /\ type spec = TaskType.kMigrateFile.
Proof.
  unfold ValidateIntent. split_if; [done|]. autorewrite with status. intros H. bool_hyps.
  revert H1. repeat (split_if; [done|]). intros _. bool_hyps.
  repeat split; auto.
  - by intros a Ha; rewrite Ha in *; bool_hyps.
  - intros Hne. apply andb_false_iff in Heqb3 as [?|?]; by bool_hyps.
Qed.

Lemma ValidateReceipt_ok intent r :
  ok (ValidateReceipt intent (Some r)) = true ->
  VerifiedReceipt.task_id r = CommitIntent.task_id intent
  /\ VerifiedReceipt.attempt_id r = CommitIntent.attempt_id intent
  /\ VerifiedReceipt.owner_epoch r = CommitIntent.owner_epoch intent
  /\ VerifiedReceipt.temp_path r = CommitIntent.temp_path intent
  /\ VerifiedReceipt.final_path r = CommitIntent.final_path intent.
Proof. simpl. split_if; [done|]. intros _. by bool_hyps. Qed.

(** What the recovery rules promise of each action, stated on the facts:
    which files exist, which carry the receipt's bytes, what the store says. *)
Definition justified (runtime : TaskRuntime) (receipt : option VerifiedReceipt.t)
    (o : Observed.t) (a : ReconcileAction) : Prop :=
  match a with
  | kRetryTask =>
      Observed.source_changed o = false /\ Observed.final_exists o = false /\
      (receipt = None \/
       (is_Some receipt /\ state runtime <> TaskState.kSucceeded
        /\ Observed.temp_exists o = false /\ Observed.source_available o = true))
  | kResumeCommitFromTemp =>
      Observed.source_changed o = false /\ Observed.final_exists o = false /\
      state runtime <> TaskState.kSucceeded /\ exists r, receipt = Some r /\ temp_proven o r
  | kAdoptFinal =>
      Observed.source_changed o = false /\ state runtime <> TaskState.kSucceeded /\
      exists r, receipt = Some r /\ final_proven o r /\ ~ temp_proven o r
  | kAdoptFinalAndCleanupTemp =>
      Observed.source_changed o = false /\ state runtime <> TaskState.kSucceeded /\
      exists r, receipt = Some r /\ final_proven o r /\ temp_proven o r
  | kReverifyCommitted =>
      Observed.source_changed o = false /\ state runtime = TaskState.kSucceeded /\
      exists r, receipt = Some r /\ final_proven o r
  | kTargetConflict =>
      Observed.source_changed o = false /\ Observed.final_exists o = true /\
      forall r, receipt = Some r -> ~ final_proven o r
  | kInconsistent =>
      Observed.source_changed o = true \/
      (Observed.source_changed o = false /\ Observed.final_exists o = false /\
       exists r, receipt = Some r /\
       (state runtime = TaskState.kSucceeded
        \/ (Observed.temp_exists o = true /\ ~ temp_proven o r)
        \/ (Observed.temp_exists o = false /\ Observed.source_available o = false)))
  end.

Lemma DecideRules_justified runtime receipt o :
  justified runtime receipt o (action (DecideRules runtime receipt o)).
Proof.
  unfold DecideRules.
  destruct (Observed.source_changed o) eqn:Hc; [by left|].
  destruct receipt as [r|].
  2:{ destruct (Observed.final_exists o) eqn:Hf; simpl; naive_solver. }
  destruct (Matches_reflect (Observed.final_exists o) (Observed.final_size o)
    (Observed.final_digest o) r) as [Hfin|Hfin];
  destruct (Matches_reflect (Observed.temp_exists o) (Observed.temp_size o)
    (Observed.temp_digest o) r) as [Htmp|Htmp];
  destruct (Observed.final_exists o) eqn:Hf; simpl;
  destruct (bool_decide_reflect (state runtime = TaskState.kSucceeded)); simpl;
  destruct (Observed.temp_exists o) eqn:Ht; simpl; try destruct (Observed.source_available o) eqn:Hs;
  simpl; rewrite ?Hc, ?Hf, ?Ht, ?Hs; unfold final_proven, temp_proven; rewrite ?Hf, ?Ht;
  try (by destruct Hfin); try (by destruct Htmp); naive_solver.
Qed.

(** The promises exclude each other, so the action is determined by them. *)
Lemma justified_functional runtime receipt o a b :
  justified runtime receipt o a -> justified runtime receipt o b -> a = b.
Proof.
  unfold justified, final_proven, temp_proven, proven, is_Some.
  destruct a, b; try done; intros Ha Hb;
    repeat match goal with
    | H : _ /\ _ |- _ => destruct H
    | H : exists _, _ |- _ => destruct H
    | H : _ \/ _ |- _ => destruct H
    end; simplify_eq; try congruence; exfalso; match goal with
    | H : ~ (_ /\ _) |- _ => by apply H
    | H : forall r, Some _ = Some r -> _ |- _ => by eapply H
    end.
Qed.

(** [Decide] on a valid intent and receipt returns one decision, and each of
    its seven actions is chosen exactly under the conditions that justify it:
    a final file is adopted only when size and digest match the durable
    receipt, a commit is resumed only when no final exists, a task is retried
    only when no final exists, and a changed source is always inconsistent. *)
Lemma Decide_spec spec runtime intent receipt observed :
  ok (ValidateIntent spec runtime intent) = true ->
  ok (ValidateReceipt intent receipt) = true ->
  exists d, Decide spec runtime intent receipt observed = Ok d /\
    forall a, action d = a <-> justified runtime receipt observed a.
Proof.
  intros Hi Hr. unfold Decide, check_status. rewrite Hi, Hr.
  eexists; split; [done|]. intros a.
  pose proof (DecideRules_justified runtime receipt observed) as Hj. split.
  - by intros <-.
  - intros Ha. by apply (justified_functional runtime receipt observed).
Qed.

Module Sample.
Definition path : RelativePath := mkRelativePath "a/b.jpg" ["a"; "b.jpg"].
Definition digest : Digest := Digest_of (fun _ => NUL).
Definition spec : TaskSpec :=
  mkTaskSpec "t1" "k1" TaskType.kMigrateFile "asset" (Some "src") path 3 None.
Definition runtime : TaskRuntime :=
  mkTaskRuntime "t1" TaskState.kRunning 7 (Some "at1") 1 None.
Definition intent : CommitIntent.t := CommitIntent.mk "t1" "at1" 7 "a/.tmp" "a/b.jpg".
Definition receipt : VerifiedReceipt.t :=
  VerifiedReceipt.mk "t1" "at1" 7 "a/.tmp" "a/b.jpg" 3 None digest None.
Definition observed : Observed.t :=
  Observed.mk true false false true None None None 0 3 None (Some digest).
End Sample.

Lemma Decide_spec_witness :
  exists d, Decide Sample.spec Sample.runtime Sample.intent (Some Sample.receipt) Sample.observed = Ok d
    /\ action d = kAdoptFinal.
Proof.
  destruct (Decide_spec Sample.spec Sample.runtime Sample.intent (Some Sample.receipt) Sample.observed
    eq_refl eq_refl) as (d&Hd&Ha).
  exists d. split; [exact Hd|]. apply Ha. simpl.
  repeat split; [done|]. exists Sample.receipt. repeat split. by intros [? _].
Defined.

(** [Decide] refuses exactly the inputs whose intent is invalid for the frozen
    task and runtime, or whose receipt belongs to another intent, always with
    an invalid-argument status; a decision therefore only ever concerns the
    task, attempt, epoch and target path the receipt was written for. *)
Lemma Decide_error spec runtime intent receipt observed :
  match Decide spec runtime intent receipt observed with
  | Err e =>
      code e = StatusCode.kInvalidArgument /\
      (ok (ValidateIntent spec runtime intent) = false \/ ok (ValidateReceipt intent receipt) = false)
  | Ok _ =>
      CommitIntent.task_id intent = spec_id spec /\ runtime_id runtime = spec_id spec
      /\ CommitIntent.final_path intent = raw_bytes (target_path spec)
      /\ type spec = TaskType.kMigrateFile
      /\ forall r, receipt = Some r ->
           VerifiedReceipt.task_id r = spec_id spec
           /\ VerifiedReceipt.attempt_id r = CommitIntent.attempt_id intent
           /\ VerifiedReceipt.owner_epoch r = CommitIntent.owner_epoch intent
           /\ VerifiedReceipt.temp_path r = CommitIntent.temp_path intent
           /\ VerifiedReceipt.final_path r = raw_bytes (target_path spec)
  end.
Proof.
  unfold Decide, check_status.
  destruct (ok (ValidateIntent _ _ _)) eqn:Hi; [destruct (ok (ValidateReceipt _ _)) eqn:Hr|].
  - apply ValidateIntent_ok in Hi as (?&?&?&?&?&?). repeat split; try congruence;
      subst; apply ValidateReceipt_ok in Hr; intuition congruence.
  - split; [|by right]. revert Hr. unfold ValidateReceipt.
    destruct receipt; [|done]. by split_if.
  - split; [|by left]. revert Hi.
    unfold ValidateIntent, and_then, ValidateTaskSpec, ValidateTaskRuntime.
    repeat (split_if; try done).
Qed.
