(* ===== verification/Capability.v ===== *)
(** * Capability: what a target can represent

    Models src/model/capability.cpp and src/model/loss_analysis.cpp: the
    capability contract of a target, its validation, the lookup the planner
    makes and the loss report. *)

From stdpp Require Import pretty.
From S2P Require Import Prelude Status Bytes Order.

Module SupportLevel.
Inductive t := kFull | kPartial | kTransformed | kManifestOnly | kUnsupported | kUnverifiable.
#[global] Instance eq_dec : EqDecision t.
Proof. solve_decision. Defined.
#[global] Program Instance enum : CppEnum t := {|
  to_int c := match c with
    | kFull => 0 | kPartial => 1 | kTransformed => 2 | kManifestOnly => 3
    | kUnsupported => 4 | kUnverifiable => 5 end;
  of_int z :=
    if z =? 0 then Some kFull else if z =? 1 then Some kPartial
    else if z =? 2 then Some kTransformed else if z =? 3 then Some kManifestOnly
    else if z =? 4 then Some kUnsupported else if z =? 5 then Some kUnverifiable else None
|}.
Next Obligation. by intros []. Qed.
Next Obligation. intros z e Hz. simpl in Hz. repeat split_if; simplify_eq; bool_hyps; done. Qed.
End SupportLevel.

Module CapabilityKind.
Inductive t :=
| kRegularFiles | kNestedDirectories | kByteExactContents | kAtomicNoReplacePublish
| kDurableFileAndDirectorySync | kSymlinks | kCaseFoldSemantics | kUnicodeNormalization.
#[global] Instance eq_dec : EqDecision t.
Proof. solve_decision. Defined.
#[global] Program Instance enum : CppEnum t := {|
  to_int c := match c with
    | kRegularFiles => 0 | kNestedDirectories => 1 | kByteExactContents => 2
    | kAtomicNoReplacePublish => 3 | kDurableFileAndDirectorySync => 4 | kSymlinks => 5
    | kCaseFoldSemantics => 6 | kUnicodeNormalization => 7 end;
  of_int z :=
    if z =? 0 then Some kRegularFiles else if z =? 1 then Some kNestedDirectories
    else if z =? 2 then Some kByteExactContents else if z =? 3 then Some kAtomicNoReplacePublish
    else if z =? 4 then Some kDurableFileAndDirectorySync else if z =? 5 then Some kSymlinks
    else if z =? 6 then Some kCaseFoldSemantics else if z =? 7 then Some kUnicodeNormalization
    else None
|}.
Next Obligation. by intros []. Qed.
Next Obligation. intros z e Hz. simpl in Hz. repeat split_if; simplify_eq; bool_hyps; done. Qed.
End CapabilityKind.

Definition CapabilityKindCount : Z := 8.

Record Capability := mkCapability {
  kind : CapabilityKind.t;
  level : SupportLevel.t;
  representation : string;
  reason : string;
}.

Record TargetCapabilities := mkTargetCapabilities {
  version : string;
  entries : list Capability;
}.

#[global] Instance Capability_eq_dec : EqDecision Capability.
Proof. solve_decision. Defined.
#[global] Instance TargetCapabilities_eq_dec : EqDecision TargetCapabilities.
Proof. solve_decision. Defined.

(** [static_cast<std::size_t>(level) <= static_cast<std::size_t>(kUnverifiable)] *)
Definition IsKnownSupportLevel (l : SupportLevel.t) : bool :=
  to_int l <=? to_int SupportLevel.kUnverifiable.

Definition SupportLevelName (l : SupportLevel.t) : string :=
  match l with
  | SupportLevel.kFull => "full"
  | SupportLevel.kPartial => "partial"
  | SupportLevel.kTransformed => "transformed"
  | SupportLevel.kManifestOnly => "manifest-only"
  | SupportLevel.kUnsupported => "unsupported"
  | SupportLevel.kUnverifiable => "unverifiable"
  end.

(** [const Capability* TargetCapabilities::Find(CapabilityKind) const] *)
Fixpoint find_kind (k : CapabilityKind.t) (l : list Capability) : option Capability :=
  match l with
  | [] => None
  | entry :: l => if kind entry == k then Some entry else find_kind k l
  end.
Definition Find (k : CapabilityKind.t) (c : TargetCapabilities) : option Capability :=
  find_kind k (entries c).

(** [Status TargetCapabilities::Require(CapabilityKind, SupportLevel) const] *)
Definition Require_ (k : CapabilityKind.t) (l : SupportLevel.t) (c : TargetCapabilities) : Status :=
  if match Find k c with None => true | Some capability => level capability != l end
  then Invalid ("target capability does not provide required " +:+ pretty (to_int k)
                  +:+ "=" +:+ SupportLevelName l)
  else Status_Ok.

(** The loop of [Validate]: [seen] holds the kinds met, [previous] the last
    one ([first] is [None]). *)
Fixpoint validate_entries (seen : list Z) (previous : option Z) (l : list Capability) : Status :=
  match l with
  | [] => Status_Ok
  | entry :: l =>
      let k := to_int (kind entry) in
      if CapabilityKindCount <=? k then Invalid "target capability contains an unknown kind"
      else if negb (IsKnownSupportLevel (level entry))
      then Invalid "target capability contains an unknown support level"
      else if bool_decide (k ∈ seen) then Invalid "target capability kinds must be unique"
      else if match previous with Some p => k <=? p | None => false end
      then Invalid "target capability entries must be in canonical order"
      else if str_empty (representation entry) || str_empty (reason entry)
      then Invalid "target capability representation and reason must not be empty"
      else validate_entries (k :: seen) (Some k) l
  end.

(** [Status TargetCapabilities::Validate() const] *)
Definition ValidateCapabilities (c : TargetCapabilities) : Status :=
  if str_empty (version c) then Invalid "target capability version must not be empty"
  else match entries c with
  | [] => Invalid "target capabilities must contain at least one entry"
  | _ => validate_entries [] None (entries c)
  end.

Definition LocalDirectoryCapabilitiesV1 : TargetCapabilities :=
  mkTargetCapabilities "directory-v1"
    [ mkCapability CapabilityKind.kRegularFiles SupportLevel.kFull
        "regular-file" "L0 publishes assets as regular files";
      mkCapability CapabilityKind.kNestedDirectories SupportLevel.kFull
        "hierarchical-directory" "relative target paths may contain nested directories";
      mkCapability CapabilityKind.kByteExactContents SupportLevel.kFull
        "byte-exact" "the target stores copied bytes without media transformation";
      mkCapability CapabilityKind.kAtomicNoReplacePublish SupportLevel.kFull
        "same-directory-rename-no-replace"
        "publication uses a temporary file and atomic no-replace rename";
      mkCapability CapabilityKind.kDurableFileAndDirectorySync SupportLevel.kFull
        "fdatasync-and-directory-fsync"
        "the commit protocol can request file and directory durability";
      mkCapability CapabilityKind.kSymlinks SupportLevel.kUnsupported
        "regular-files-only" "L0 does not create or adopt symlink target semantics";
      mkCapability CapabilityKind.kCaseFoldSemantics SupportLevel.kUnverifiable
        "filesystem-dependent" "case folding must be probed or rejected by the path planner";
      mkCapability CapabilityKind.kUnicodeNormalization SupportLevel.kUnverifiable
        "filesystem-dependent"
        "Unicode normalization must not be assumed by the target contract" ].

(** [struct CapabilityLoss] has the fields of [Capability]. *)
Record LossAnalysis := mkLossAnalysis {
  capability_version : string;
  losses : list Capability;
}.

(** [StatusOr<LossAnalysis> AnalyzeCapabilityLoss(const TargetCapabilities&)] *)
Definition AnalyzeCapabilityLoss (c : TargetCapabilities) : StatusOr LossAnalysis :=
  let validation := ValidateCapabilities c in
  if negb (ok validation) then Err validation
  else Ok (mkLossAnalysis (version c)
             (filter (fun capability => level capability <> SupportLevel.kFull) (entries c))).

(** ** Properties *)

(** A contract: kinds strictly increasing, every entry explained. *)
Definition wf_capabilities (c : TargetCapabilities) : Prop :=
  version c <> "" /\ entries c <> []
  /\ StronglySorted Z.lt ((fun e => to_int (kind e)) <$> entries c)
  /\ Forall (fun e => representation e <> "" /\ reason e <> "") (entries c).

Lemma kind_range (k : CapabilityKind.t) : 0 <= to_int k < CapabilityKindCount.
Proof. by destruct k. Qed.

Lemma level_known l : IsKnownSupportLevel l = true.
Proof. by destruct l. Qed.

Lemma validate_entries_ok seen previous l :
  (forall k, k ∈ seen -> exists p, previous = Some p /\ k <= p) ->
  ok (validate_entries seen previous l) = true <->
  StronglySorted Z.lt ((fun e => to_int (kind e)) <$> l)
  /\ Forall (fun e => match previous with Some p => p < to_int (kind e) | None => True end) l
  /\ Forall (fun e => representation e <> "" /\ reason e <> "") l.
Proof.
  revert seen previous. induction l as [|e l IH]; intros seen previous Hseen.
  { simpl. split; [|done]. intros _. split_and!; constructor. }
  simpl. pose proof (kind_range (kind e)) as Hk. rewrite level_known. simpl.
  destruct (Z.leb_spec CapabilityKindCount (to_int (kind e))); [lia|].
  rewrite !Forall_cons. destruct (bool_decide_reflect (to_int (kind e) ∈ seen)) as [Hin|Hin].
  { split; [done|]. intros (_&[Hp _]&_). destruct (Hseen _ Hin) as (p&->&?). lia. }
  destruct (match previous with Some p => to_int (kind e) <=? p | None => false end) eqn:Hprev.
  { split; [done|]. intros (_&[Hp _]&_). destruct previous; [|done]. bool_hyps. lia. }
  destruct (str_empty (representation e) || str_empty (reason e)) eqn:Hstr.
  { split; [done|]. intros (_&_&[[??] _]). apply orb_true_iff in Hstr as [H'|H'];
    by apply str_empty_true in H'. }
  rewrite IH.
  2:{ intros k [->|Hin']%elem_of_cons; exists (to_int (kind e)); (split; [done|]); [lia|].
      destruct (Hseen _ Hin') as (p&->&?). bool_hyps. lia. }
  apply orb_false_iff in Hstr as [Hr1 Hr2].
  assert (representation e <> "" /\ reason e <> "") as Hr.
  { split; intros Hx; [rewrite Hx in Hr1|rewrite Hx in Hr2]; done. }
  split.
  - intros (Hs&Hlt&Hall). split; [constructor; [done|by apply Forall_fmap]|].
    split; [|done]. destruct previous as [p|]; [|by split; [|apply Forall_true]]. bool_hyps.
    split; [done|]. eapply Forall_impl; [exact Hlt|]. simpl. intros. lia.
  - intros ([Hs Hlt]%StronglySorted_inv&_&[_ Hall]). split_and!; [done| |done].
    by apply (Forall_fmap (fun e => to_int (kind e)) (Z.lt (to_int (kind e)))) in Hlt.
Qed.

Lemma ValidateCapabilities_ok c : ok (ValidateCapabilities c) = true <-> wf_capabilities c.
Proof.
  unfold ValidateCapabilities, wf_capabilities. destruct (str_empty (version c)) eqn:Hv.
  { apply str_empty_true in Hv. split; [done|]. by intros [? _]. }
  assert (version c <> "") by (intros Hx; by rewrite Hx in Hv).
  destruct (entries c) as [|e l]; [split; [done|by intros (_&?&_)]|].
  rewrite validate_entries_ok by (by intros k ?%elem_of_nil).
  split; [by intros (?&_&?)|]. intros (_&_&?&?). split_and!; [done|by apply Forall_true|done].
Qed.

(** A target contract is accepted exactly when its kinds are strictly
    increasing (so unique) and every entry is explained; the loss report of
    an accepted contract lists, in order, exactly the entries that are not
    fully supported. *)
Lemma loss_report_is_exact c :
  match AnalyzeCapabilityLoss c with
  | Ok r => wf_capabilities c /\ capability_version r = version c
      /\ sublist (losses r) (entries c)
      /\ (forall e, e ∈ losses r <-> e ∈ entries c /\ level e <> SupportLevel.kFull)
  | Err st => ~ wf_capabilities c /\ ok st = false
  end.
Proof.
  unfold AnalyzeCapabilityLoss. destruct (ok (ValidateCapabilities c)) eqn:Hok; simpl.
  - split; [by apply ValidateCapabilities_ok|]. split; [done|]. split; [apply sublist_filter|].
    intros e. rewrite list_elem_of_filter. tauto.
  - split; [|done]. intros Hwf%ValidateCapabilities_ok. congruence.
Qed.

Lemma LocalDirectoryCapabilitiesV1_ok : wf_capabilities LocalDirectoryCapabilitiesV1.
Proof. by apply ValidateCapabilities_ok. Qed.
