(* ===== verification/Assets.v ===== *)
(** * Assets: physical assets, their classification and logical identities

    Models src/model/asset_classifier.cpp, physical_asset.cpp and
    logical_asset.cpp.  A scanned file becomes a physical asset whose
    identity is its path; a logical asset is a set of physical ones, named by
    the hash of their sorted identities. *)

From S2P Require Import Prelude Status Bytes Order RelativePath Task.

Inductive DirectoryEntryKind := kRegularFile | kDirectory | kSymlink | kOther.

Record DirectoryEntry := mkDirectoryEntry {
  entry_path : RelativePath;
  entry_kind : DirectoryEntryKind;
  entry_identity : FileIdentity.t;
}.

Inductive AssetKind := kMedia | kSidecarJson | kSidecarXmp | kAlbumMetadata | kUnknown.

#[global] Instance DirectoryEntryKind_eq_dec : EqDecision DirectoryEntryKind.
Proof. solve_decision. Defined.
#[global] Instance AssetKind_eq_dec : EqDecision AssetKind.
Proof. solve_decision. Defined.

Record PhysicalAsset := mkPhysicalAsset {
  relative_path : RelativePath;
  identity : FileIdentity.t;
  asset_kind : AssetKind;
  extension : string;
}.

(** ** Classification *)

(** [std::tolower] in the "C" locale, which the program never changes. *)
Definition tolower (c : ascii) : ascii :=
  let v := Z_of_byte c in if (65 <=? v) && (v <=? 90) then byte_of_Z (v + 32) else c.

Fixpoint LowerAscii (value : string) : string :=
  match value with
  | EmptyString => ""
  | String c s => String (tolower c) (LowerAscii s)
  end.

(** [s.rfind(c)] *)
Fixpoint rfind (c : ascii) (s : string) : option nat :=
  match s with
  | EmptyString => None
  | String d s =>
      match rfind c s with
      | Some i => Some (S i)
      | None => if Ascii.eqb d c then Some O else None
      end
  end.

(** [s.substr(n)] *)
Fixpoint substr_from (n : nat) (s : string) : string :=
  match n, s with
  | O, _ => s
  | S n, String _ s => substr_from n s
  | S _, EmptyString => ""
  end.

Definition file_name (path : string) : string :=
  match rfind slash path with
  | None => path
  | Some separator => substr_from (S separator) path
  end.

Definition dot : ascii := "."%char.

Definition ExtensionOf (path : string) : string :=
  let name := file_name path in
  match rfind dot name with
  | None => ""
  | Some d =>
      if (d =? 0)%nat || (S d =? String.length name)%nat then ""
      else LowerAscii (substr_from (S d) name)
  end.

Definition kMediaExtensions : list string :=
  ["arw"; "avi"; "bmp"; "cr2"; "dng"; "gif"; "heic"; "heif"; "jpeg"; "jpg"; "m4v"; "mkv"; "mov";
   "mp4"; "nef"; "png"; "raw"; "tif"; "tiff"; "webm"; "webp"].
Definition IsMediaExtension (ext : string) : bool := existsb (fun c => ext == c) kMediaExtensions.

Definition ClassifyKind (path ext : string) : AssetKind :=
  let lower_name := LowerAscii (file_name path) in
  if lower_name == "metadata.json" then kAlbumMetadata
  else if ext == "json" then kSidecarJson
  else if ext == "xmp" then kSidecarXmp
  else if IsMediaExtension ext then kMedia
  else kUnknown.

(** [std::optional<PhysicalAsset> ClassifyPhysicalAsset(const DirectoryEntry&)] *)
Definition ClassifyPhysicalAsset (entry : DirectoryEntry) : option PhysicalAsset :=
  if bool_decide (entry_kind entry <> kRegularFile) then None
  else
    let ext := ExtensionOf (raw_bytes (entry_path entry)) in
    Some (mkPhysicalAsset (entry_path entry) (entry_identity entry)
            (ClassifyKind (raw_bytes (entry_path entry)) ext) ext).

(** ** Identities *)

(** [HexEncode] is [hex_of_bytes]. *)
Definition PhysicalAssetIdFor (asset : PhysicalAsset) : string :=
  "path-" +:+ hex_of_bytes (raw_bytes (relative_path asset)).

Definition quote : ascii := byte_of_Z 34.
Definition backslash : ascii := "\"%char.

(** The [switch] of [AppendJsonString]. *)
Definition json_byte (c : ascii) : string :=
  let v := Z_of_byte c in
  if v =? 34 then String backslash (String quote "")
  else if v =? 92 then String backslash (String backslash "")
  else if v =? 8 then "\b"
  else if v =? 12 then "\f"
  else if v =? 10 then "\n"
  else if v =? 13 then "\r"
  else if v =? 9 then "\t"
  else if v <? 32 then
    "\u00" +:+ String (byte_get kHex (Z.to_nat (Z.shiftr v 4)))
                (String (byte_get kHex (Z.to_nat (Z.land v 15))) "")
  else String c "".

Fixpoint json_bytes (s : string) : string :=
  match s with EmptyString => "" | String c s => json_byte c +:+ json_bytes s end.

Definition AppendJsonString (value output : string) : string :=
  push_back (push_back output quote +:+ json_bytes value) quote.

(** [CanonicalMembersJson] *)
Fixpoint append_members (first : bool) (members : list string) (result : string) : string :=
  match members with
  | [] => result
  | m :: ms =>
      let result := if first then result else push_back result ","%char in
      append_members false ms (AppendJsonString m result)
  end.
Definition CanonicalMembersJson (members : list string) : string :=
  push_back (append_members true members (push_back "" "["%char)) "]"%char.

Definition kLogicalAssetDomain : string := "PB_LOGICAL_ASSET_V1".

(** What is hashed for a member list that passed the checks. *)
Definition logical_payload (members : list string) : string :=
  kLogicalAssetDomain +:+ CanonicalMembersJson (std_sort str_less members).

Record LogicalAsset := mkLogicalAsset {
  logical_id : string;
  members : list string;
  source_path : option RelativePath;
}.

Section Identity.
Context (Blake3 : string -> Digest).

Definition LogicalAssetIdForMembers (members : list string) : StatusOr string :=
  match members with
  | [] => Err (Invalid "logical asset must contain at least one physical asset")
  | _ =>
      if existsb str_empty members then Err (Invalid "logical asset member id must not be empty")
      else if adjacent_equal (std_sort str_less members)
      then Err (Invalid "logical asset member ids must be unique")
      else Ok ("logical-" +:+ ToHex (Blake3 (logical_payload members)))
  end.

Definition MapPhysicalAssetToLogicalAsset (asset : PhysicalAsset) : StatusOr LogicalAsset :=
  let physical_id := PhysicalAssetIdFor asset in
  let? id := LogicalAssetIdForMembers [physical_id] in
  Ok (mkLogicalAsset id [physical_id] (Some (relative_path asset))).

End Identity.

(** ** Properties *)

(** Reads back one character of a JSON string, [None] at the closing quote. *)
Definition json_unescape (s : string) : option (ascii * string) :=
  match s with
  | EmptyString => None
  | String c r =>
      if Ascii.eqb c quote then None
      else if negb (Ascii.eqb c backslash) then Some (c, r)
      else match r with
      | String e r =>
          if Ascii.eqb e "b"%char then Some (byte_of_Z 8, r)
          else if Ascii.eqb e "f"%char then Some (byte_of_Z 12, r)
          else if Ascii.eqb e "n"%char then Some (byte_of_Z 10, r)
          else if Ascii.eqb e "r"%char then Some (byte_of_Z 13, r)
          else if Ascii.eqb e "t"%char then Some (byte_of_Z 9, r)
          else if Ascii.eqb e "u"%char then
            match r with
            | String _ (String _ (String h (String l r))) =>
                Some (byte_of_Z (Z.lor (Z.shiftl (HexValue h) 4) (HexValue l)), r)
            | _ => None
            end
          else Some (e, r)
      | EmptyString => None
      end
  end.

Lemma json_unescape_byte c x : json_unescape (json_byte c +:+ x) = Some (c, x).
Proof.
  destruct c as [b0 b1 b2 b3 b4 b5 b6 b7].
  by destruct b0, b1, b2, b3, b4, b5, b6, b7.
Qed.

(** The closing quote delimits the text whatever follows. *)
Lemma json_bytes_inj a b x y :
  json_bytes a +:+ String quote x = json_bytes b +:+ String quote y -> a = b /\ x = y.
Proof.
  assert (forall c s z w, String quote z <> (json_byte c +:+ json_bytes s) +:+ w) as Hquote.
  { intros c s z w Heq. apply (f_equal json_unescape) in Heq.
    rewrite str_app_assoc, json_unescape_byte in Heq. done. }
  revert b. induction a as [|c a IH]; intros [|d b]; cbn [json_bytes]; intros Heq.
  - by injection Heq as ->.
  - by apply Hquote in Heq.
  - by apply eq_sym, Hquote in Heq.
  - rewrite !str_app_assoc in Heq. pose proof (f_equal json_unescape Heq) as Hhead.
    rewrite !json_unescape_byte in Hhead. injection Hhead as -> Heq'.
    by apply IH in Heq' as [-> ->].
Qed.

Lemma AppendJsonString_eq v out :
  AppendJsonString v out = out +:+ String quote (json_bytes v +:+ String quote "").
Proof. unfold AppendJsonString, push_back. by rewrite !str_app_assoc. Qed.

(** A list in JSON after its opening bracket. *)
Fixpoint json_list (first : bool) (l : list string) : string :=
  match l with
  | [] => "]"
  | m :: l =>
      (if first then "" else ",") +:+ String quote (json_bytes m +:+ String quote (json_list false l))
  end.

Lemma append_members_eq first l out :
  push_back (append_members first l out) "]"%char = out +:+ json_list first l.
Proof.
  revert first out. induction l as [|m l IH]; intros first out; [done|].
  cbn [append_members]. rewrite IH, AppendJsonString_eq. cbn [json_list].
  destruct first; unfold push_back; rewrite !str_app_assoc; simpl; by rewrite !str_app_assoc.
Qed.

Lemma json_list_inj first a b : json_list first a = json_list first b -> a = b.
Proof.
  revert first b. induction a as [|m a IH]; intros first [|n b]; cbn [json_list]; intros Heq; try done.
  - exfalso. by destruct first.
  - exfalso. by destruct first.
  - apply str_app_inj_l in Heq. injection Heq as Heq. apply json_bytes_inj in Heq as [-> Heq].
    by apply IH in Heq as ->.
Qed.

Lemma CanonicalMembersJson_inj a b : CanonicalMembersJson a = CanonicalMembersJson b -> a = b.
Proof.
  unfold CanonicalMembersJson. rewrite !append_members_eq.
  intros Heq%str_app_inj_l. by apply json_list_inj in Heq.
Qed.

Lemma logical_payload_inj a b : logical_payload a = logical_payload b <-> a ≡ₚ b.
Proof.
  unfold logical_payload. split.
  - intros Heq%str_app_inj_l%CanonicalMembersJson_inj.
    by rewrite <- (std_sort_perm str_less a), Heq, std_sort_perm.
  - intros Hp. by rewrite (sort_total_canonical str_less a b Hp).
Qed.

Lemma LogicalAssetIdForMembers_ok Blake3 a :
  is_ok (LogicalAssetIdForMembers Blake3 a) = true <-> a <> [] /\ Forall (fun m => m <> "") a /\ NoDup a.
Proof.
  unfold LogicalAssetIdForMembers. destruct a as [|m ms]; [split; [done|by intros (?&_)]|].
  set (l := m :: ms). destruct (existsb str_empty l) eqn:He.
  - split; [done|]. intros (_&Hall&_). apply existsb_exists in He as (x&Hx&Hxe).
    rewrite Forall_forall in Hall. apply list_elem_of_In in Hx. specialize (Hall x Hx). by destruct x.
  - assert (Forall (fun m => m <> "") l).
    { apply Forall_forall. intros x Hx ->. apply not_true_iff_false in He. apply He, existsb_exists.
      exists "". split; [by apply list_elem_of_In|done]. }
    rewrite <- (adjacent_equal_sort str_less l).
    destruct (adjacent_equal (std_sort str_less l)); simpl; [split; [done|by intros (_&_&?)]|].
    split; [|done]. intros _. by split_and!.
Qed.

(** A logical asset id exists exactly for a non-empty set of distinct,
    non-empty member ids, and it is a function of the set: the order in which
    associations were found plays no role, and two sets get the same id only
    if BLAKE3 maps two different payloads to one digest. *)
Lemma logical_ids_name_member_sets Blake3 a :
  (is_ok (LogicalAssetIdForMembers Blake3 a) = true <-> a <> [] /\ Forall (fun m => m <> "") a /\ NoDup a)
  /\ (forall b, is_ok (LogicalAssetIdForMembers Blake3 a) = true ->
       is_ok (LogicalAssetIdForMembers Blake3 b) = true ->
       (a ≡ₚ b -> LogicalAssetIdForMembers Blake3 a = LogicalAssetIdForMembers Blake3 b)
       /\ (LogicalAssetIdForMembers Blake3 a = LogicalAssetIdForMembers Blake3 b ->
           a ≡ₚ b \/ (logical_payload a <> logical_payload b
                      /\ Blake3 (logical_payload a) = Blake3 (logical_payload b)))).
Proof.
  assert (forall l, is_ok (LogicalAssetIdForMembers Blake3 l) = true ->
    LogicalAssetIdForMembers Blake3 l = Ok ("logical-" +:+ ToHex (Blake3 (logical_payload l)))) as Heq.
  { intros l. unfold LogicalAssetIdForMembers. destruct l; [done|]. split_if; [done|]. by split_if. }
  split; [apply LogicalAssetIdForMembers_ok|].
  intros b Ha Hb. rewrite (Heq a Ha), (Heq b Hb). split.
  - intros Hp. by apply logical_payload_inj in Hp as ->.
  - intros [= Hid]. apply ToHex_inj in Hid.
    destruct (decide (logical_payload a = logical_payload b)) as [Hp|Hp]; [left|by right].
    by apply logical_payload_inj.
Qed.
