(* ===== verification/PathMapper.v ===== *)
(** * PathMapper: where the files of a plan go

    Models src/model/path_mapper.cpp: the policy, the target path of one
    logical asset, and the mapping of all of them with the collision checks
    that run before anything is written. *)

From S2P Require Import Prelude Status Bytes Order RelativePath Task Capability Assets.

Record MigrationPolicy := mkMigrationPolicy {
  target_prefix : string;
  preserve_source_directories : bool;
  max_component_bytes : Z;   (* std::size_t *)
  max_path_bytes : Z;
}.

#[global] Instance MigrationPolicy_eq_dec : EqDecision MigrationPolicy.
Proof. solve_decision. Defined.

Record PathMapping := mkPathMapping {
  mapping_id : string;
  mapping_path : RelativePath;
}.

#[global] Instance PathMapping_eq_dec : EqDecision PathMapping.
Proof. solve_decision. Defined.

Fixpoint IsNonAscii (value : string) : bool :=
  match value with
  | EmptyString => false
  | String c s => if 128 <=? Z_of_byte c then true else IsNonAscii s
  end.

Fixpoint AsciiCaseFoldKey (value : string) : string :=
  match value with
  | EmptyString => ""
  | String c s => String (if Z_of_byte c <? 128 then tolower c else c) (AsciiCaseFoldKey s)
  end.

(** [BuildTargetPath]; [components().back()] exists for every parsed path. *)
Definition BuildTargetPath (source : RelativePath) (policy : MigrationPolicy) : StatusOr RelativePath :=
  let target := if str_empty (target_prefix policy) then ""
                else push_back (target_prefix policy) slash in
  let target := target +:+ (if preserve_source_directories policy then raw_bytes source
                            else default "" (last (components source))) in
  Parse target.

Definition ValidateTargetPath (target : RelativePath) (policy : MigrationPolicy) : Status :=
  if max_path_bytes policy <? str_size (raw_bytes target)
  then Invalid "mapped target path exceeds the configured byte limit"
  else if existsb (fun c => max_component_bytes policy <? str_size c) (components target)
  then Invalid "mapped target path component exceeds the configured byte limit"
  else Status_Ok.

(** [Status MigrationPolicy::Validate() const] *)
Definition ValidatePolicy (policy : MigrationPolicy) : Status :=
  if (max_component_bytes policy =? 0) || (max_path_bytes policy =? 0)
  then Invalid "target path limits must be greater than zero"
  else if negb (str_empty (target_prefix policy))
  then match Parse (target_prefix policy) with Ok _ => Status_Ok | Err e => e end
  else Status_Ok.

(** [if (!status.ok()) return status;] *)
Definition check {T} (status : Status) (k : StatusOr T) : StatusOr T :=
  if ok status then k else Err status.

(** [TargetPathMapper::Map] *)
Definition Map (asset : LogicalAsset) (capabilities : TargetCapabilities) (policy : MigrationPolicy)
    : StatusOr PathMapping :=
  check (ValidatePolicy policy) (
  check (ValidateCapabilities capabilities) (
  if str_empty (logical_id asset) || (match members asset with [] => true | _ => false end)
  then Err (Invalid "logical asset identity and members must not be empty")
  else match source_path asset with
  | None => Err (Invalid "L0 logical asset is missing its source path")
  | Some source =>
      check (Require_ CapabilityKind.kRegularFiles SupportLevel.kFull capabilities) (
      check (Require_ CapabilityKind.kByteExactContents SupportLevel.kFull capabilities) (
      check (if preserve_source_directories policy || (1 <? length (components source))%nat
                || str_contains slash (target_prefix policy)
             then Require_ CapabilityKind.kNestedDirectories SupportLevel.kFull capabilities
             else Status_Ok) (
      let? target := BuildTargetPath source policy in
      check (ValidateTargetPath target policy) (
      if IsNonAscii (raw_bytes target)
         && (match Find CapabilityKind.kUnicodeNormalization capabilities with
             | None => true
             | Some normalization => level normalization != SupportLevel.kFull
             end)
      then Err (Invalid "Unicode normalization semantics are unverifiable for this target")
      else Ok (mkPathMapping (logical_id asset) target)))))
  end)).

(** The first loop of [MapAll]. *)
Fixpoint map_each (assets : list LogicalAsset) (capabilities : TargetCapabilities)
    (policy : MigrationPolicy) : StatusOr (list PathMapping) :=
  match assets with
  | [] => Ok []
  | asset :: assets =>
      let? mapping := Map asset capabilities policy in
      let? mappings := map_each assets capabilities policy in
      Ok (mapping :: mappings)
  end.

(** The loop over [exact_paths] and [folded_paths]. *)
Fixpoint check_collisions (exact folded : gset string) (mappings : list PathMapping) : Status :=
  match mappings with
  | [] => Status_Ok
  | m :: ms =>
      let exact_key := raw_bytes (mapping_path m) in
      if bool_decide (exact_key ∈ exact)
      then mkStatus StatusCode.kAlreadyExists "multiple logical assets map to the same target path"
      else
        let folded_key := AsciiCaseFoldKey exact_key in
        if bool_decide (folded_key ∈ folded)
        then mkStatus StatusCode.kAlreadyExists "multiple logical assets collide under ASCII case folding"
        else check_collisions ({[exact_key]} ∪ exact) ({[folded_key]} ∪ folded) ms
  end.

Definition mapping_less (a b : PathMapping) : bool := str_less (mapping_id a) (mapping_id b).

(** [TargetPathMapper::MapAll] *)
Definition MapAll (assets : list LogicalAsset) (capabilities : TargetCapabilities)
    (policy : MigrationPolicy) : StatusOr (list PathMapping) :=
  let? mappings := map_each assets capabilities policy in
  let mappings := std_sort mapping_less mappings in
  if adjacent_equal (mapping_id <$> mappings)
  then Err (Invalid "logical asset ids must be unique in a path mapping")
  else check (check_collisions ∅ ∅ mappings) (Ok mappings).

(** ** Properties *)

Lemma check_Ok {T} st (k : StatusOr T) v : check st k = Ok v <-> ok st = true /\ k = Ok v.
Proof. unfold check. destruct (ok st); naive_solver. Qed.

(** Joining two paths joins their components. *)
Lemma join_path_app a b :
  a <> [] -> b <> [] -> join_path (a ++ b) = join_path a +:+ String slash (join_path b).
Proof.
  intros Ha Hb. induction a as [|x a IH]; [done|]. destruct a as [|y a].
  - simpl. by destruct b.
  - change (x +:+ String slash (join_path ((y :: a) ++ b))
      = (x +:+ String slash (join_path (y :: a))) +:+ String slash (join_path b)).
    rewrite IH by done. by rewrite str_app_assoc.
Qed.

Lemma Parse_under p q s :
  Parse p = Ok q -> wf_path s ->
  Parse (p +:+ String slash (raw_bytes s))
    = Ok (mkRelativePath (p +:+ String slash (raw_bytes s)) (components q ++ components s)).
Proof.
  intros (_&Hqne&Hqj&Hq)%Parse_Ok (_&Hsne&Hsj&Hs)%Parse_Ok.
  apply Parse_Ok. simpl. split_and!; [done|by destruct (components q)| |by apply Forall_app].
  by rewrite join_path_app, Hqj, Hsj.
Qed.

(** A component alone is a path of one component. *)
Lemma Parse_component s c :
  wf_path s -> last (components s) = Some c -> Parse c = Ok (mkRelativePath c [c]).
Proof.
  intros (_&_&_&Hs)%Parse_Ok Hlast. apply (Parse_join [c]); [done|].
  apply last_Some in Hlast as [l Hl]. rewrite Hl in Hs. by apply Forall_app in Hs as [_ ?].
Qed.

(** The components of the mapped target. *)
Definition target_components (policy : MigrationPolicy) (source : RelativePath) : list string :=
  (match Parse (target_prefix policy) with Ok p => components p | Err _ => [] end)
  ++ (if preserve_source_directories policy then components source
      else match last (components source) with Some c => [c] | None => [] end).

Lemma BuildTargetPath_ok source policy :
  wf_path source -> ok (ValidatePolicy policy) = true ->
  exists target, BuildTargetPath source policy = Ok target
    /\ components target = target_components policy source /\ wf_path target.
Proof.
  intros Hwf Hpol. unfold BuildTargetPath, target_components, ValidatePolicy in *.
  pose proof Hwf as (_&Hne&_&_)%Parse_Ok.
  destruct (last (components source)) as [c|] eqn:Hlast; [|by apply last_None in Hlast].
  pose proof (Parse_component source c Hwf Hlast) as Hc.
  assert (exists s, (if preserve_source_directories policy then raw_bytes source else c) = raw_bytes s
     /\ wf_path s /\ components s = (if preserve_source_directories policy then components source else [c]))
    as (s&Hs&Hswf&Hscs).
  { destruct (preserve_source_directories policy); [by exists source|].
    by exists (mkRelativePath c [c]). }
  simpl default. rewrite Hs, <- Hscs.
  destruct (str_empty (target_prefix policy)) eqn:Hemp.
  - apply str_empty_true in Hemp. rewrite Hemp. exists s. simpl. split; [exact Hswf|]. done.
  - destruct ((max_component_bytes policy =? 0) || (max_path_bytes policy =? 0)); [done|].
    simpl in Hpol. destruct (Parse (target_prefix policy)) as [q|e] eqn:Hq.
    2:{ by rewrite (Parse_error _ _ Hq) in Hpol. }
    unfold push_back. rewrite str_app_assoc. simpl. rewrite (Parse_under _ q s Hq Hswf).
    eexists. split; [done|]. simpl. split; [done|].
    unfold wf_path. simpl. by apply Parse_under.
Qed.

(** The capability is there and full. *)
Definition supports (c : TargetCapabilities) (k : CapabilityKind.t) : Prop :=
  exists e, Find k c = Some e /\ level e = SupportLevel.kFull.

Lemma Require_ok c k : ok (Require_ k SupportLevel.kFull c) = true <-> supports c k.
Proof.
  unfold Require_, supports. destruct (Find k c) as [e|]; [|split; [done|by intros (?&?&_)]].
  destruct (bool_decide_reflect (level e = SupportLevel.kFull)) as [He|He]; simpl.
  - split; [|done]. intros _. by exists e.
  - split; [done|]. intros (x&[= <-]&Hx). done.
Qed.

(** When an asset has a place at the target, and which. *)
Record mappable (caps : TargetCapabilities) (policy : MigrationPolicy) (asset : LogicalAsset)
    (source : RelativePath) : Prop := {
  mp_limits : max_component_bytes policy <> 0 /\ max_path_bytes policy <> 0;
  mp_prefix : target_prefix policy = "" \/ exists p, Parse (target_prefix policy) = Ok p;
  mp_capabilities : wf_capabilities caps;
  mp_identity : logical_id asset <> "" /\ members asset <> [];
  mp_files : supports caps CapabilityKind.kRegularFiles /\ supports caps CapabilityKind.kByteExactContents;
  mp_nested : preserve_source_directories policy = true \/ (1 < length (components source))%nat
      \/ str_contains slash (target_prefix policy) = true ->
    supports caps CapabilityKind.kNestedDirectories;
  mp_path_size : str_size (join_path (target_components policy source)) <= max_path_bytes policy;
  mp_component_size :
    Forall (fun c => str_size c <= max_component_bytes policy) (target_components policy source);
  mp_unicode : IsNonAscii (join_path (target_components policy source)) = true ->
    supports caps CapabilityKind.kUnicodeNormalization;
}.

Lemma ValidatePolicy_ok policy :
  ok (ValidatePolicy policy) = true <->
  (max_component_bytes policy <> 0 /\ max_path_bytes policy <> 0)
  /\ (target_prefix policy = "" \/ exists p, Parse (target_prefix policy) = Ok p).
Proof.
  unfold ValidatePolicy.
  destruct ((max_component_bytes policy =? 0) || (max_path_bytes policy =? 0)) eqn:Hlim.
  { split; [done|]. intros ([??]&_). apply orb_true_iff in Hlim as [?|?]; bool_hyps; done. }
  bool_hyps. destruct (str_empty (target_prefix policy)) eqn:He; simpl.
  { apply str_empty_true in He. split; [|done]. intros _. split; [done|by left]. }
  destruct (Parse (target_prefix policy)) as [p|e] eqn:Hp.
  - split; [|done]. intros _. split; [done|]. right. by exists p.
  - rewrite (Parse_error _ _ Hp). split; [done|].
    intros (_&[Hx|(q&?)]); [by rewrite Hx in He|congruence].
Qed.

Lemma ValidateTargetPath_ok target policy :
  ok (ValidateTargetPath target policy) = true <->
  str_size (raw_bytes target) <= max_path_bytes policy
  /\ Forall (fun c => str_size c <= max_component_bytes policy) (components target).
Proof.
  unfold ValidateTargetPath. destruct (Z.ltb_spec (max_path_bytes policy) (str_size (raw_bytes target))).
  { split; [done|]. intros [? _]. lia. }
  destruct (existsb _ (components target)) eqn:He.
  - split; [done|]. intros [_ Hall]. apply existsb_exists in He as (c&Hc&Hlt).
    rewrite Forall_forall in Hall. apply list_elem_of_In in Hc. specialize (Hall c Hc). bool_hyps. lia.
  - split; [|done]. intros _. split; [done|]. apply Forall_forall. intros c Hc.
    apply not_true_iff_false in He. apply Z.le_ngt. intros Hlt. apply He, existsb_exists.
    exists c. split; [by apply list_elem_of_In|by apply Z.ltb_lt].
Qed.

(** The two capability guards that depend on the path. *)
Lemma nested_guard_ok s caps policy :
  ok (if preserve_source_directories policy || (1 <? length (components s))%nat
        || str_contains slash (target_prefix policy)
      then Require_ CapabilityKind.kNestedDirectories SupportLevel.kFull caps else Status_Ok) = true
  <-> (preserve_source_directories policy = true \/ (1 < length (components s))%nat
    \/ str_contains slash (target_prefix policy) = true -> supports caps CapabilityKind.kNestedDirectories).
Proof.
  rewrite <- Require_ok, <- Nat.ltb_lt.
  destruct (preserve_source_directories policy), (1 <? length (components s))%nat,
    (str_contains slash (target_prefix policy)); simpl; intuition (done || congruence).
Qed.

Lemma unicode_guard_ok caps (nonascii : bool) :
  nonascii && (match Find CapabilityKind.kUnicodeNormalization caps with
               | None => true | Some n => level n != SupportLevel.kFull end) = false
  <-> (nonascii = true -> supports caps CapabilityKind.kUnicodeNormalization).
Proof.
  unfold supports. destruct nonascii; simpl; [|split; done].
  destruct (Find _ caps) as [n|]; [|split; [done|intros H; by destruct (H eq_refl) as (?&?&_)]].
  destruct (bool_decide_reflect (level n = SupportLevel.kFull)); simpl.
  - split; [|done]. intros _ _. by exists n.
  - split; [done|]. intros H. by destruct (H eq_refl) as (?&[= <-]&?).
Qed.

(** A file is mapped exactly when the policy, the contract and the limits
    allow it, and then to its source path, or its last component, under the
    prefix: the components of the target are those of the prefix and of the
    source, so the target never leaves the target directory. *)
Lemma targets_are_prefix_and_source asset caps policy m :
  (forall s, source_path asset = Some s -> wf_path s) ->
  Map asset caps policy = Ok m <->
  exists source, source_path asset = Some source /\ mappable caps policy asset source
    /\ m = mkPathMapping (logical_id asset)
             (mkRelativePath (join_path (target_components policy source)) (target_components policy source)).
Proof.
  intros Hwf. unfold Map. rewrite !check_Ok, ValidatePolicy_ok, ValidateCapabilities_ok.
  destruct (str_empty (logical_id asset) || match members asset with [] => true | _ => false end) eqn:Hid.
  { split; [by intros (_&_&?)|]. intros (s&_&[]&_). destruct mp_identity0.
    apply orb_true_iff in Hid as [Hid|Hid]; [by apply str_empty_true in Hid|by destruct (members asset)]. }
  apply orb_false_iff in Hid as [Hid Hmem].
  assert (logical_id asset <> "" /\ members asset <> []) as Hident.
  { split; [intros Hx; by rewrite Hx in Hid|intros Hx; by rewrite Hx in Hmem]. }
  destruct (source_path asset) as [s|] eqn:Hsrc; [|split; [by intros (_&_&?)|by intros (?&?&_)]].
  specialize (Hwf s eq_refl). rewrite !check_Ok, !Require_ok, nested_guard_ok.
  destruct (decide (ok (ValidatePolicy policy) = true)) as [Hpol|Hpol].
  2:{ rewrite ValidatePolicy_ok in Hpol. split; [tauto|]. intros (x&_&[]&_). by destruct Hpol. }
  destruct (BuildTargetPath_ok s policy Hwf Hpol) as (target&Hbuild&Hcs&Htwf).
  pose proof Htwf as (_&_&Hjoin&_)%Parse_Ok. rewrite Hcs in Hjoin.
  rewrite Hbuild. simpl bind_or. rewrite check_Ok, ValidateTargetPath_ok, <- Hjoin, Hcs.
  assert (mkRelativePath (join_path (target_components policy s)) (target_components policy s) = target) as Htgt.
  { rewrite Hjoin, <- Hcs. by destruct target. }
  pose proof (unicode_guard_ok caps (IsNonAscii (join_path (target_components policy s)))) as Huni.
  destruct (_ && _); split.
  - by intros (_&_&_&_&_&_&?).
  - intros (s'&[= <-]&[]&_). by apply Huni in mp_unicode0.
  - intros (Hp&Hcap&Hrf&Hbe&Hnest&[Hsz Hcsz]&[= <-]). exists s. split; [done|].
    split; [|by rewrite Htgt]. split; tauto.
  - intros (s'&[= <-]&[]&->). rewrite Htgt. tauto.
Qed.

(** ** All assets *)

Lemma map_each_Ok assets caps policy ms :
  map_each assets caps policy = Ok ms <-> Forall2 (fun a m => Map a caps policy = Ok m) assets ms.
Proof.
  revert ms. induction assets as [|a assets IH]; intros ms; simpl.
  - split; [intros [= <-]; constructor|by intros ->%Forall2_nil_inv_l].
  - rewrite bind_or_Ok. split.
    + intros (m&Hm&Hrest). apply bind_or_Ok in Hrest as (ms'&Hms&[= <-]).
      constructor; [done|by apply IH].
    + intros (m&ms'&Hm&Hms&->)%Forall2_cons_inv_l. exists m. split; [done|].
      apply bind_or_Ok. exists ms'. by rewrite IH.
Qed.

Definition target_key (m : PathMapping) : string := raw_bytes (mapping_path m).
Definition folded_key (m : PathMapping) : string := AsciiCaseFoldKey (target_key m).

Lemma check_collisions_ok exact folded ms :
  ok (check_collisions exact folded ms) = true <->
  Forall (fun m => target_key m ∉ exact /\ folded_key m ∉ folded) ms /\ NoDup (folded_key <$> ms).
Proof.
  revert exact folded. induction ms as [|m ms IH]; intros exact folded; simpl.
  { split; [|done]. intros _. split; constructor. }
  fold (target_key m). rewrite Forall_cons, NoDup_cons.
  destruct (bool_decide_reflect (target_key m ∈ exact)); [split; [done|tauto]|].
  fold (folded_key m). destruct (bool_decide_reflect (folded_key m ∈ folded)); [split; [done|tauto]|].
  rewrite IH. split.
  - intros [Hall Hnd]. rewrite Forall_forall in Hall. split_and!; try done.
    + apply Forall_forall. intros x Hx. specialize (Hall x Hx). set_solver.
    + intros (x&Heq&Hx)%list_elem_of_fmap. specialize (Hall x Hx). set_solver.
  - intros ([_ Hall]&Hnew&Hnd). split; [|done]. rewrite Forall_forall in Hall.
    apply Forall_forall. intros x Hx. destruct (Hall x Hx) as [H1 H2].
    assert (folded_key x <> folded_key m) as Hf.
    { intros Heq. apply Hnew. rewrite <- Heq. by apply list_elem_of_fmap_2. }
    assert (target_key x <> target_key m) as Ht.
    { intros Heq. apply Hf. unfold folded_key. by rewrite Heq. }
    set_solver.
Qed.

#[export] Instance mapping_less_swo : StrictWeakOrder mapping_less.
Proof. apply (key_swo mapping_id str_less), total_swo. Qed.

Lemma mapping_less_separates ms a b :
  NoDup (mapping_id <$> ms) -> a ∈ ms -> b ∈ ms ->
  mapping_less a b = false -> mapping_less b a = false -> a = b.
Proof.
  intros Hnd Ha Hb H1 H2. assert (mapping_id a = mapping_id b) as Heq by (by apply less_total).
  apply list_elem_of_lookup in Ha as [i Hi]. apply list_elem_of_lookup in Hb as [j Hj].
  assert (i = j) as ->; [|congruence].
  apply (NoDup_lookup (mapping_id <$> ms) i j (mapping_id a)); [done| |].
  - by rewrite list_lookup_fmap, Hi.
  - by rewrite list_lookup_fmap, Hj, Heq.
Qed.

(** The plan of all assets: every one has its place, no two share an id or
    a target, not even up to ASCII case. *)
Definition mapping_of (assets : list LogicalAsset) (caps : TargetCapabilities) (policy : MigrationPolicy)
    (ms : list PathMapping) : Prop :=
  (exists each, Forall2 (fun a m => Map a caps policy = Ok m) assets each /\ ms ≡ₚ each)
  /\ StronglySorted (in_order mapping_less) ms
  /\ NoDup (mapping_id <$> ms) /\ NoDup (folded_key <$> ms).

Lemma MapAll_Ok assets caps policy ms :
  MapAll assets caps policy = Ok ms <-> mapping_of assets caps policy ms.
Proof.
  unfold MapAll, mapping_of. rewrite bind_or_Ok.
  assert (forall each, adjacent_equal (mapping_id <$> std_sort mapping_less each) = false
    <-> NoDup (mapping_id <$> std_sort mapping_less each)) as Hadj.
  { intros each. apply (adjacent_equal_sorted str_less).
    pose proof (std_sort_sorted mapping_less each) as Hs. clear -Hs.
    induction Hs as [|m l Hl IH Hm]; simpl; constructor; [done|by apply Forall_fmap]. }
  split.
  - intros (each&Heach%map_each_Ok&Hms). specialize (Hadj each).
    destruct (adjacent_equal _) eqn:Ha; [done|]. apply check_Ok in Hms as [Hc [= <-]].
    apply check_collisions_ok in Hc as [_ Hc]. split_and!; [|apply std_sort_sorted, _|by apply Hadj|done].
    exists each. split; [done|]. apply std_sort_perm.
  - intros ((each&Heach&Hp)&Hs&Hid&Hfold). exists each. split; [by apply map_each_Ok|].
    assert (std_sort mapping_less each = ms) as Heq.
    { symmetry. apply (sorted_unique mapping_less); [|done|apply std_sort_sorted, _|].
      - intros a b. by apply mapping_less_separates.
      - by rewrite std_sort_perm. }
    specialize (Hadj each). rewrite Heq in *. rewrite (proj2 Hadj Hid). apply check_Ok. split; [|done].
    apply check_collisions_ok. split; [|done]. apply Forall_forall. set_solver.
Qed.

(** Mapping all assets succeeds exactly when each can be mapped and no two
    have the same id or, up to ASCII case, the same target; the result then
    lists exactly the mappings of the assets, by id, and is the same whatever
    the order of the assets. *)
Lemma mappings_never_collide assets caps policy ms :
  (MapAll assets caps policy = Ok ms <-> mapping_of assets caps policy ms)
  /\ (MapAll assets caps policy = Ok ms ->
      forall assets', assets ≡ₚ assets' -> MapAll assets' caps policy = Ok ms).
Proof.
  split; [apply MapAll_Ok|]. intros Hok assets' Hp. rewrite MapAll_Ok in *.
  destruct Hok as ((each&Heach&Hms)&Hrest). split; [|done].
  destruct (Permutation_Forall2 Hp Heach) as (each'&Hp'&Heach').
  exists each'. split; [done|]. by rewrite Hms.
Qed.

(** ** Examples *)

Module MapperDemo.
Definition path (s : string) : RelativePath := default (mkRelativePath "" []) (match Parse s with Ok p => Some p | Err _ => None end).
Definition asset (id s : string) : LogicalAsset := mkLogicalAsset id ["path-00"] (Some (path s)).
Definition policy : MigrationPolicy := mkMigrationPolicy "photos" true 255 4096.
End MapperDemo.

Lemma targets_are_prefix_and_source_witness :
  Map (MapperDemo.asset "l1" "2020/a.jpg") LocalDirectoryCapabilitiesV1 MapperDemo.policy
  = Ok (mkPathMapping "l1" (mkRelativePath "photos/2020/a.jpg" ["photos"; "2020"; "a.jpg"])).
Proof.
  apply (targets_are_prefix_and_source (MapperDemo.asset "l1" "2020/a.jpg")).
  - intros s [= <-]. by vm_compute.
  - exists (MapperDemo.path "2020/a.jpg"). split; [done|]. split; [|by vm_compute].
    split; try (by vm_compute); try done.
    + right. by eexists.
    + apply LocalDirectoryCapabilitiesV1_ok.
    + split; by eexists.
    + intros _. by eexists.
    + repeat constructor; by vm_compute.
Defined.

Lemma mappings_never_collide_witness :
  MapAll [MapperDemo.asset "l2" "b.jpg"; MapperDemo.asset "l1" "a.jpg"] LocalDirectoryCapabilitiesV1
    MapperDemo.policy
  = Ok [mkPathMapping "l1" (mkRelativePath "photos/a.jpg" ["photos"; "a.jpg"]);
        mkPathMapping "l2" (mkRelativePath "photos/b.jpg" ["photos"; "b.jpg"])].
Proof.
  apply (proj2 (mappings_never_collide [MapperDemo.asset "l1" "a.jpg"; MapperDemo.asset "l2" "b.jpg"]
    LocalDirectoryCapabilitiesV1 MapperDemo.policy _)); [by vm_compute|apply perm_swap].
Defined.
