(* ===== verification/UnionFind.v ===== *)
(** * UnionFind: the forest of [AssociationGraph::BuildLogicalAssets]

    The [parent] vector, [find_root] with its path compression and the union
    of two roots, and their theory: [find_root] ends and returns the root,
    compression changes no root, and a union merges exactly two classes. *)

From S2P Require Import Prelude.

(** [parent[i]]; every index of the code is in range. *)
Definition parent_of (parent : list nat) (i : nat) : nat := default i (parent !! i).

(** [while (parent[root] != root) root = parent[root];] *)
Fixpoint climb (fuel : nat) (parent : list nat) (root : nat) : nat :=
  match fuel with
  | O => root
  | S fuel =>
      let next := parent_of parent root in
      if (next =? root)%nat then root else climb fuel parent next
  end.

(** [while (parent[index] != index)] ... [parent[index] = root;] *)
Fixpoint compress (fuel : nat) (parent : list nat) (root index : nat) : list nat :=
  match fuel with
  | O => parent
  | S fuel =>
      let next := parent_of parent index in
      if (next =? index)%nat then parent else compress fuel (<[index := root]> parent) root next
  end.

(** The lambda [find_root]; a parent is never after its child, so the number
    of vertices bounds both loops. *)
Definition find_root (parent : list nat) (index : nat) : nat * list nat :=
  let fuel := S (length parent) in
  let root := climb fuel parent index in
  (root, compress fuel parent root index).

(** [std::iota(parent.begin(), parent.end(), 0U)] *)
Definition iota (n : nat) : list nat := seq 0 n.

(** The assignment that joins two roots. *)
Definition join_roots (parent : list nat) (left_root right_root : nat) : list nat :=
  if (left_root =? right_root)%nat then parent
  else if (left_root <? right_root)%nat then <[right_root := left_root]> parent
  else <[left_root := right_root]> parent.

(** ** Theory *)

Definition forest (n : nat) (parent : list nat) : Prop :=
  length parent = n /\ forall i, (parent_of parent i <= i)%nat.

(** The root of a vertex. *)
Definition root (parent : list nat) (i : nat) : nat := climb (S i) parent i.

Lemma parent_of_insert parent i x j :
  (i < length parent)%nat ->
  parent_of (<[i := x]> parent) j = if decide (i = j) then x else parent_of parent j.
Proof.
  intros Hi. unfold parent_of. destruct (decide (i = j)) as [->|Hne].
  - by rewrite list_lookup_insert_eq.
  - by rewrite list_lookup_insert_ne.
Qed.

Lemma forest_insert n parent i x :
  forest n parent -> (i < n)%nat -> (x <= i)%nat -> forest n (<[i := x]> parent).
Proof.
  intros [Hlen Hle] Hi Hx. split; [by rewrite length_insert|]. intros j.
  rewrite parent_of_insert by lia. destruct (decide (i = j)); [lia|apply Hle].
Qed.

Lemma forest_iota n : forest n (iota n).
Proof.
  split; [apply length_seq|]. intros i. unfold parent_of, iota.
  destruct (decide (i < n)%nat).
  - by rewrite lookup_seq_lt.
  - by rewrite lookup_seq_ge by lia.
Qed.

Lemma climb_fuel n parent f1 f2 i :
  forest n parent -> (i < f1)%nat -> (i < f2)%nat -> climb f1 parent i = climb f2 parent i.
Proof.
  intros Hf. revert f2 i. induction f1 as [|f1 IH]; intros f2 i H1 H2; [lia|].
  destruct f2 as [|f2]; [lia|]. simpl.
  destruct (Nat.eqb_spec (parent_of parent i) i); [done|].
  pose proof (proj2 Hf i). apply IH; lia.
Qed.

Lemma root_step n parent i :
  forest n parent ->
  root parent i = if decide (parent_of parent i = i) then i else root parent (parent_of parent i).
Proof.
  intros Hf. unfold root at 1. cbn [climb]. pose proof (proj2 Hf i).
  destruct (Nat.eqb_spec (parent_of parent i) i), (decide (parent_of parent i = i)); try done.
  unfold root. eapply climb_fuel; [done|lia..].
Qed.

(** Induction along the parents. *)
Lemma forest_ind n parent (P : nat -> Prop) :
  forest n parent ->
  (forall i, parent_of parent i = i -> P i) ->
  (forall i, parent_of parent i <> i -> P (parent_of parent i) -> P i) -> forall i, P i.
Proof.
  intros Hf Hroot Hstep i. induction (lt_wf i) as [i _ IH].
  destruct (decide (parent_of parent i = i)) as [|Hne]; [by apply Hroot|].
  apply Hstep; [done|]. apply IH. pose proof (proj2 Hf i). lia.
Qed.

Lemma root_self n parent i : forest n parent -> parent_of parent i = i -> root parent i = i.
Proof. intros Hf Hi. rewrite (root_step n) by done. by destruct (decide (parent_of parent i = i)). Qed.

Lemma root_up n parent i :
  forest n parent -> parent_of parent i <> i -> root parent i = root parent (parent_of parent i).
Proof. intros Hf Hi. rewrite (root_step n) by done. by destruct (decide (parent_of parent i = i)). Qed.

Lemma root_fixed n parent i : forest n parent -> parent_of parent (root parent i) = root parent i.
Proof.
  intros Hf. revert i. apply (forest_ind n parent); [done|..]; intros i Hi.
  - by rewrite (root_self n).
  - by rewrite (root_up n parent i).
Qed.

Lemma root_le n parent i : forest n parent -> (root parent i <= i)%nat.
Proof.
  intros Hf. revert i. apply (forest_ind n parent); [done|..]; intros i Hi.
  - by rewrite (root_self n).
  - rewrite (root_up n parent i) by done. pose proof (proj2 Hf i). lia.
Qed.

Lemma root_idem n parent i : forest n parent -> root parent (root parent i) = root parent i.
Proof. intros Hf. apply (root_self n); [done|]. by apply (root_fixed n). Qed.

Lemma root_iota n i : root (iota n) i = i.
Proof.
  apply (root_self n); [apply forest_iota|]. unfold parent_of, iota. destruct (decide (i < n)%nat).
  - by rewrite lookup_seq_lt.
  - by rewrite lookup_seq_ge by lia.
Qed.

(** Redirecting a vertex to its own root changes no root. *)
Lemma root_redirect n parent i j :
  forest n parent -> (i < n)%nat -> root (<[i := root parent i]> parent) j = root parent j.
Proof.
  intros Hf Hi.
  assert (forest n (<[i := root parent i]> parent)) as Hf'
    by (apply forest_insert; [done|done|by apply (root_le n)]).
  assert (i < length parent)%nat as Hil by (by rewrite (proj1 Hf)).
  induction (lt_wf j) as [j _ IH]. rewrite (root_step n _ j Hf'), parent_of_insert by done.
  destruct (decide (i = j)) as [->|Hne].
  - destruct (decide (root parent j = j)); [done|].
    rewrite IH by (pose proof (root_le n parent j Hf); lia). by apply (root_idem n).
  - rewrite (root_step n parent j Hf). destruct (decide (parent_of parent j = j)); [done|].
    apply IH. pose proof (proj2 Hf j). lia.
Qed.

Lemma compress_spec n parent fuel i :
  forest n parent -> (i < n)%nat ->
  let parent' := compress fuel parent (root parent i) i in
  forest n parent' /\ forall j, root parent' j = root parent j.
Proof.
  revert parent i. induction fuel as [|fuel IH]; intros parent i Hf Hi; [done|]. simpl.
  destruct (Nat.eqb_spec (parent_of parent i) i) as [|Hne]; [done|].
  set (p1 := <[i := root parent i]> parent).
  assert (forest n p1) as Hf1 by (apply forest_insert; [done|done|by apply (root_le n)]).
  assert (forall j, root p1 j = root parent j) as Hr1 by (intros j; by apply (root_redirect n)).
  assert (root parent i = root p1 (parent_of parent i)) as ->.
  { rewrite Hr1. by apply (root_up n). }
  destruct (IH p1 (parent_of parent i)) as [Hf2 Hr2]; [done|pose proof (proj2 Hf i); lia|].
  split; [done|]. intros j. by rewrite Hr2, Hr1.
Qed.

(** [find_root] returns the root; the forest it leaves has the same roots. *)
Lemma find_root_spec n parent i :
  forest n parent -> (i < n)%nat ->
  let (r, parent') := find_root parent i in
  r = root parent i /\ forest n parent' /\ forall j, root parent' j = root parent j.
Proof.
  intros Hf Hi. unfold find_root.
  assert (climb (S (length parent)) parent i = root parent i) as ->.
  { eapply climb_fuel; [done|rewrite (proj1 Hf); lia|lia]. }
  split; [done|]. by apply compress_spec.
Qed.

(** The second loop ends at the root it was given: fuel never runs out. *)
Lemma compress_fuel n parent f1 f2 i :
  forest n parent -> (i < n)%nat -> (i < f1)%nat -> (i < f2)%nat ->
  compress f1 parent (root parent i) i = compress f2 parent (root parent i) i.
Proof.
  revert parent f2 i. induction f1 as [|f1 IH]; intros parent f2 i Hf Hi H1 H2; [lia|].
  destruct f2 as [|f2]; [lia|]. simpl.
  destruct (Nat.eqb_spec (parent_of parent i) i) as [|Hne]; [done|].
  assert (forest n (<[i := root parent i]> parent)) as Hf1
    by (apply forest_insert; [done|done|by apply (root_le n)]).
  assert (root parent i = root (<[i := root parent i]> parent) (parent_of parent i)) as Hr.
  { rewrite (root_redirect n) by done. by apply (root_up n). }
  pose proof (proj2 Hf i). rewrite Hr at 2 4. apply IH; [done|lia..].
Qed.

(** Joining the classes of [a] and [b] merges exactly these two. *)
Lemma join_roots_spec n parent a b :
  forest n parent -> (a < n)%nat -> (b < n)%nat ->
  let parent' := join_roots parent (root parent a) (root parent b) in
  forest n parent' /\ root parent' a = root parent' b /\
  forall i j, root parent' i = root parent' j <->
    root parent i = root parent j
    \/ (root parent i = root parent a /\ root parent j = root parent b)
    \/ (root parent i = root parent b /\ root parent j = root parent a).
Proof.
  intros Hf Ha Hb parent'.
  assert (forall lo hi, (lo < hi)%nat -> (hi < n)%nat -> root parent lo = lo -> root parent hi = hi ->
    forest n (<[hi := lo]> parent) /\
    forall j, root (<[hi := lo]> parent) j = if decide (root parent j = hi) then lo else root parent j)
    as Hlink.
  { intros lo hi Hlt Hhi Hlo Hroot.
    assert (forest n (<[hi := lo]> parent)) as Hf1 by (apply forest_insert; [done|done|lia]).
    assert (hi < length parent)%nat by (by rewrite (proj1 Hf)).
    split; [done|]. intros j. induction (lt_wf j) as [j _ IH].
    rewrite (root_step n _ j Hf1), parent_of_insert by done. destruct (decide (hi = j)) as [<-|Hne].
    - rewrite Hroot. destruct (decide (hi = hi)); [|done]. destruct (decide (lo = hi)); [lia|].
      rewrite IH by lia. rewrite Hlo. by destruct (decide (lo = hi)).
    - destruct (decide (parent_of parent j = j)) as [Hj|Hj].
      + rewrite (root_self n parent j) by done. by destruct (decide (j = hi)).
      + rewrite (root_up n parent j) by done. apply IH. pose proof (proj2 Hf j). lia. }
  pose proof (root_le n parent a Hf) as Hla. pose proof (root_le n parent b Hf) as Hlb.
  pose proof (root_idem n parent a Hf) as Hia. pose proof (root_idem n parent b Hf) as Hib.
  unfold parent', join_roots. destruct (Nat.eqb_spec (root parent a) (root parent b)) as [Heq|Hne].
  { split; [done|]. split; [done|]. intros i j. rewrite Heq. intuition congruence. }
  destruct (Nat.ltb_spec (root parent a) (root parent b)) as [Hlt|Hge].
  - destruct (Hlink (root parent a) (root parent b)) as [Hf1 Hr1]; [lia|lia|done|done|].
    split; [done|]. setoid_rewrite Hr1. split; [by repeat case_decide|].
    intros i j. repeat case_decide; intuition congruence.
  - destruct (Hlink (root parent b) (root parent a)) as [Hf1 Hr1]; [lia|lia|done|done|].
    split; [done|]. setoid_rewrite Hr1. split; [by repeat case_decide|].
    intros i j. repeat case_decide; intuition congruence.
Qed.
