(* ===== verification/Association.v ===== *)
(** * Association: which files make one photo

    Models src/model/association_edge.cpp and association_graph.cpp: the
    edges drawn from relation candidates, the graph of physical assets, and
    the partition of its vertices into logical assets. *)

From S2P Require Import Prelude Status Bytes Order RelativePath Task Assets UnionFind.

Inductive EdgeKind := kComposition | kMetadataAttachment | kAssetRelation.
Module RelationType.
Inductive t := kJsonSidecar | kXmpSidecar | kLivePhotoMotion | kRawJpegPair.
#[global] Instance eq_dec : EqDecision t.
Proof. solve_decision. Defined.
#[global] Program Instance enum : CppEnum t := {|
  to_int c := match c with
    | kJsonSidecar => 0 | kXmpSidecar => 1 | kLivePhotoMotion => 2 | kRawJpegPair => 3 end;
  of_int z :=
    if z =? 0 then Some kJsonSidecar else if z =? 1 then Some kXmpSidecar
    else if z =? 2 then Some kLivePhotoMotion else if z =? 3 then Some kRawJpegPair else None
|}.
Next Obligation. by intros []. Qed.
Next Obligation. intros z e Hz. simpl in Hz. repeat split_if; simplify_eq; bool_hyps; done. Qed.
End RelationType.
Inductive AssociationStatus := kConfirmed | kAmbiguous | kRejected.
Inductive SourceRelationKind :=
| kJsonSidecarForMedia | kXmpSidecarForMedia | kLivePhotoMotionForMedia | kRawJpegPair.

#[global] Instance EdgeKind_eq_dec : EqDecision EdgeKind.
Proof. solve_decision. Defined.
#[global] Instance AssociationStatus_eq_dec : EqDecision AssociationStatus.
Proof. solve_decision. Defined.
#[global] Instance SourceRelationKind_eq_dec : EqDecision SourceRelationKind.
Proof. solve_decision. Defined.

Record Evidence := mkEvidence { evidence_rule : string; detail : string }.

Record AssociationEdge := mkAssociationEdge {
  edge_kind : EdgeKind;
  lhs : string;
  rhs : string;
  relation : RelationType.t;
  rule : string;
  evidence : Evidence;
  edge_status : AssociationStatus;
}.

#[global] Instance Evidence_eq_dec : EqDecision Evidence.
Proof. solve_decision. Defined.
#[global] Instance AssociationEdge_eq_dec : EqDecision AssociationEdge.
Proof. solve_decision. Defined.

Record SourceRelationCandidate := mkSourceRelationCandidate {
  media_asset_id : string;
  sidecar_asset_id : string;
  candidate_relation : SourceRelationKind;
  candidate_rule : string;
  candidate_evidence : string;
}.

(** [AssociationEdge AssociationEdgeFor(const SourceRelationCandidate&)] *)
Definition AssociationEdgeFor (c : SourceRelationCandidate) : AssociationEdge :=
  let r := candidate_relation c in
  mkAssociationEdge
    (if (r == kLivePhotoMotionForMedia) || (r == kRawJpegPair) then kComposition else kMetadataAttachment)
    (media_asset_id c) (sidecar_asset_id c)
    (if r == kLivePhotoMotionForMedia then RelationType.kLivePhotoMotion
     else if r == kRawJpegPair then RelationType.kRawJpegPair
     else if r == kXmpSidecarForMedia then RelationType.kXmpSidecar
     else RelationType.kJsonSidecar)
    (candidate_rule c) (mkEvidence (candidate_rule c) (candidate_evidence c)) kConfirmed.

(** ** The graph *)

Record AssociationGraph := mkAssociationGraph {
  vertices : list string;
  edges : list AssociationEdge;
}.
Definition empty_graph : AssociationGraph := mkAssociationGraph [] [].

Definition ContainsVertex (l : list string) (id : string) : bool := bool_decide (id ∈ l).

(** [SameEdge] compares every field. *)
Definition SameEdge (left right : AssociationEdge) : bool :=
  (edge_kind left == edge_kind right) && (lhs left == lhs right) && (rhs left == rhs right)
  && (relation left == relation right) && (rule left == rule right)
  && (edge_status left == edge_status right)
  && (evidence_rule (evidence left) == evidence_rule (evidence right))
  && (detail (evidence left) == detail (evidence right)).

Definition AddVertex (id : string) (g : AssociationGraph) : Status * AssociationGraph :=
  if str_empty id then (Invalid "association graph vertex id must not be empty", g)
  else if ContainsVertex (vertices g) id
  then (mkStatus StatusCode.kAlreadyExists "association graph vertex already exists", g)
  else (Status_Ok, mkAssociationGraph (vertices g ++ [id]) (edges g)).

Definition AddEdge (edge : AssociationEdge) (g : AssociationGraph) : Status * AssociationGraph :=
  if str_empty (lhs edge) || str_empty (rhs edge)
  then (Invalid "association graph edge endpoints must not be empty", g)
  else if negb (ContainsVertex (vertices g) (lhs edge)) || negb (ContainsVertex (vertices g) (rhs edge))
  then (mkStatus StatusCode.kNotFound "association graph edge references an unknown vertex", g)
  else if lhs edge == rhs edge
  then (Invalid "association graph must not contain a self edge", g)
  else if existsb (fun existing => SameEdge existing edge) (edges g)
  then (mkStatus StatusCode.kAlreadyExists "association graph edge already exists", g)
  else (Status_Ok, mkAssociationGraph (vertices g) (edges g ++ [edge])).

(** [std::lower_bound] on a sorted range: the first element not less. *)
Fixpoint lower_bound (l : list string) (key : string) : nat :=
  match l with
  | [] => O
  | v :: l => if str_less v key then S (lower_bound l key) else O
  end.

Definition composition_less (left right : AssociationEdge) : bool :=
  if lhs left != lhs right then str_less (lhs left) (lhs right)
  else if rhs left != rhs right then str_less (rhs left) (rhs right)
  else if rule left != rule right then str_less (rule left) (rule right)
  else str_less (detail (evidence left)) (detail (evidence right)).

Definition is_composition (edge : AssociationEdge) : bool :=
  (edge_kind edge == kComposition) && (edge_status edge == kConfirmed).

(** The edges that join vertices into one logical asset, in order. *)
Definition composition_edges (g : AssociationGraph) : list AssociationEdge :=
  std_sort composition_less (filter (fun e => is_composition e = true) (edges g)).

(** The loop over [composition_edges]. *)
Fixpoint union_edges (sorted : list string) (es : list AssociationEdge) (parent : list nat)
    : StatusOr (list nat) :=
  match es with
  | [] => Ok parent
  | edge :: es =>
      let left := lower_bound sorted (lhs edge) in
      let right := lower_bound sorted (rhs edge) in
      if bool_decide (sorted !! left <> Some (lhs edge)) || bool_decide (sorted !! right <> Some (rhs edge))
      then Err (Internal "association graph composition edge lost a vertex")
      else
        let (left_root, parent) := find_root parent left in
        let (right_root, parent) := find_root parent right in
        union_edges sorted es (join_roots parent left_root right_root)
  end.

(** [std::map<std::size_t, std::vector<PhysicalAssetId>>]: its entries by key. *)
Fixpoint push_member (root : nat) (v : string) (groups : list (nat * list string)) : list (nat * list string) :=
  match groups with
  | [] => [(root, [v])]
  | (r, ms) :: rest =>
      if (root =? r)%nat then (r, ms ++ [v]) :: rest
      else if (root <? r)%nat then (root, [v]) :: groups
      else (r, ms) :: push_member root v rest
  end.

(** [groups[find_root(index)].push_back(vertices[index])] *)
Fixpoint group_vertices (index : nat) (sorted : list string) (parent : list nat)
    (groups : list (nat * list string)) : list (nat * list string) :=
  match sorted with
  | [] => groups
  | v :: sorted =>
      let (r, parent) := find_root parent index in
      group_vertices (S index) sorted parent (push_member r v groups)
  end.

Section Build.
Context (Blake3 : string -> Digest).

Fixpoint build_assets (groups : list (nat * list string)) : StatusOr (list LogicalAsset) :=
  match groups with
  | [] => Ok []
  | (_, ms) :: groups =>
      let? id := LogicalAssetIdForMembers Blake3 ms in
      let? rest := build_assets groups in
      Ok (mkLogicalAsset id ms None :: rest)
  end.

Definition asset_less (left right : LogicalAsset) : bool := str_less (logical_id left) (logical_id right).

(** [AssociationGraph::BuildLogicalAssets] *)
Definition BuildLogicalAssets (g : AssociationGraph) : StatusOr (list LogicalAsset) :=
  let sorted := std_sort str_less (vertices g) in
  let? parent := union_edges sorted (composition_edges g) (iota (length sorted)) in
  let? result := build_assets (group_vertices 0 sorted parent []) in
  Ok (std_sort asset_less result).

End Build.
