(* ===== verification/AssociationTheorems.v ===== *)
(** * AssociationTheorems: the partition into logical assets

    [BuildLogicalAssets] of any graph the public operations can build never
    fails and returns the connected components of the confirmed composition
    edges. *)

From S2P Require Import Prelude Status Bytes Order RelativePath Task Assets UnionFind Association.

(** ** Graphs the operations build *)

Inductive built : AssociationGraph -> Prop :=
| built_empty : built empty_graph
| built_vertex id g : built g -> built (AddVertex id g).2
| built_edge e g : built g -> built (AddEdge e g).2.

Record wf_graph (g : AssociationGraph) : Prop := {
  wg_ids : Forall (fun v => v <> "") (vertices g);
  wg_unique : NoDup (vertices g);
  wg_edges : Forall (fun e => lhs e ∈ vertices g /\ rhs e ∈ vertices g /\ lhs e <> rhs e) (edges g);
  wg_distinct : NoDup (edges g);
}.

Lemma SameEdge_true a b : SameEdge a b = true <-> a = b.
Proof.
  unfold SameEdge. rewrite !andb_true_iff, !bool_decide_eq_true.
  split; [|by intros ->].
  destruct a as [? ? ? ? ? [? ?] ?], b as [? ? ? ? ? [? ?] ?]; simpl. intros. destruct_and!. by subst.
Qed.

Lemma built_wf g : built g -> wf_graph g.
Proof.
  induction 1 as [|id g _ [H1 H2 H3 H4]|e g _ [H1 H2 H3 H4]].
  - split; constructor.
  - unfold AddVertex. destruct (str_empty id) eqn:He; [done|]. unfold ContainsVertex.
    destruct (bool_decide_reflect (id ∈ vertices g)) as [Hin|Hin]; [done|].
    apply str_empty_false in He. split; simpl; [| | |done].
    + apply Forall_app. by split; [|repeat constructor].
    + apply NoDup_app. split; [done|]. split; [set_solver|apply NoDup_singleton].
    + eapply Forall_impl; [exact H3|]. simpl. set_solver.
  - unfold AddEdge. destruct (str_empty (lhs e) || str_empty (rhs e)); [done|]. unfold ContainsVertex.
    destruct (bool_decide_reflect (lhs e ∈ vertices g)); [|done].
    destruct (bool_decide_reflect (rhs e ∈ vertices g)); simpl; [|done].
    destruct (bool_decide_reflect (lhs e = rhs e)); [done|].
    destruct (existsb _ (edges g)) eqn:Hex; [done|]. split; simpl; [done|done| |].
    + apply Forall_app. by split; [|repeat constructor].
    + apply NoDup_app. split; [done|]. split; [|apply NoDup_singleton].
      intros x Hx ->%list_elem_of_singleton. apply not_true_iff_false in Hex. apply Hex, existsb_exists.
      exists e. split; [by apply list_elem_of_In|by apply SameEdge_true].
Qed.

(** ** Which vertices belong together *)

Definition joined (g : AssociationGraph) (u v : string) : Prop :=
  exists e, e ∈ edges g /\ is_composition e = true /\ lhs e = u /\ rhs e = v.
Definition same_photo (g : AssociationGraph) : string -> string -> Prop := rtsc (joined g).

Lemma elem_of_composition_edges g e :
  e ∈ composition_edges g <-> e ∈ edges g /\ is_composition e = true.
Proof. unfold composition_edges. rewrite elem_of_std_sort, list_elem_of_filter. tauto. Qed.

Lemma lower_bound_found l key :
  StronglySorted (in_order str_less) l -> key ∈ l -> l !! lower_bound l key = Some key.
Proof.
  induction 1 as [|v l Hl IH Hv]; intros Hin; [by apply elem_of_nil in Hin|]. simpl.
  destruct (str_less v key) eqn:Hlt.
  - apply elem_of_cons in Hin as [->|Hin]; [|by apply IH]. exfalso.
    pose proof (less_asym v v Hlt). congruence.
  - simpl. f_equal. apply elem_of_cons in Hin as [|Hin]; [done|].
    rewrite Forall_forall in Hv. apply (less_total (less := str_less)); [done|]. by apply Hv.
Qed.

Section Union.
Context (sorted : list string) (Hsorted : StronglySorted (in_order str_less) sorted).
Context (R : string -> string -> Prop) `{!Equivalence R}.

(** Vertices of one class belong together. *)
Definition sound (parent : list nat) : Prop :=
  forall i j u v, sorted !! i = Some u -> sorted !! j = Some v ->
    root parent i = root parent j -> R u v.

Lemma union_edges_spec es parent :
  forest (length sorted) parent -> sound parent ->
  Forall (fun e => lhs e ∈ sorted /\ rhs e ∈ sorted /\ R (lhs e) (rhs e)) es ->
  exists parent', union_edges sorted es parent = Ok parent'
    /\ forest (length sorted) parent' /\ sound parent'
    /\ (forall i j, root parent i = root parent j -> root parent' i = root parent' j)
    /\ (forall e, e ∈ es ->
          root parent' (lower_bound sorted (lhs e)) = root parent' (lower_bound sorted (rhs e))).
Proof.
  revert parent. induction es as [|e es IH]; intros parent Hf Hs Hes; cbn [union_edges].
  { exists parent. split_and!; try done. by intros e ?%elem_of_nil. }
  apply Forall_cons in Hes as [(Hl&Hr&HR) Hes].
  pose proof (lower_bound_found sorted _ Hsorted Hl) as Hil.
  pose proof (lower_bound_found sorted _ Hsorted Hr) as Hir.
  set (a := lower_bound sorted (lhs e)) in *. set (b := lower_bound sorted (rhs e)) in *.
  rewrite Hil, Hir, !bool_decide_eq_false_2 by (intros ?; done). cbn [orb].
  pose proof (lookup_lt_Some _ _ _ Hil) as Ha. pose proof (lookup_lt_Some _ _ _ Hir) as Hb.
  pose proof (find_root_spec _ parent a Hf Ha) as H1.
  destruct (find_root parent a) as [ra p1]. destruct H1 as (->&Hf1&Hr1).
  pose proof (find_root_spec _ p1 b Hf1 Hb) as H2.
  destruct (find_root p1 b) as [rb p2]. destruct H2 as (->&Hf2&Hr2).
  assert (root parent a = root p2 a) as Hra by (by rewrite Hr2, Hr1).
  assert (root p1 b = root p2 b) as Hrb by (by rewrite Hr2).
  rewrite Hra, Hrb.
  destruct (join_roots_spec _ p2 a b Hf2 Ha Hb) as (Hf3&Hab&Hiff).
  set (p3 := join_roots p2 (root p2 a) (root p2 b)) in *.
  destruct (IH p3) as (p'&Hp'&Hf'&Hs'&Hkeep&Hedges); [done| |done|].
  - intros i j u v Hi Hj Heq. apply Hiff in Heq. rewrite !Hr2, !Hr1 in Heq.
    destruct Heq as [Heq|[[Hia Hjb]|[Hib Hja]]].
    + by apply (Hs i j).
    + transitivity (lhs e); [by apply (Hs i a)|]. transitivity (rhs e); [done|].
      symmetry. by apply (Hs j b).
    + transitivity (rhs e); [by apply (Hs i b)|]. transitivity (lhs e); [done|].
      symmetry. by apply (Hs j a).
  - exists p'. split_and!; [done|done|done| |].
    + intros i j Heq. apply Hkeep, Hiff. left. by rewrite !Hr2, !Hr1.
    + intros x [->|Hx]%elem_of_cons; [by apply Hkeep|by apply Hedges].
Qed.
End Union.

(** ** Grouping *)

Definition keys (groups : list (nat * list string)) : list nat := fst <$> groups.

Lemma push_member_keys_above k r v G :
  (k < r)%nat -> Forall (lt k) (keys G) -> Forall (lt k) (keys (push_member r v G)).
Proof.
  intros Hk. induction G as [|[r' ms] G IH]; simpl; [by repeat constructor|].
  intros [Hk' HG]%Forall_cons. destruct (r =? r')%nat; [by constructor|].
  destruct (r <? r')%nat; simpl; repeat constructor; auto.
Qed.

Lemma push_member_spec r v G :
  StronglySorted lt (keys G) ->
  StronglySorted lt (keys (push_member r v G))
  /\ (list_to_map (push_member r v G) : gmap nat (list string))
     = <[r := default [] ((list_to_map G : gmap nat (list string)) !! r) ++ [v]]> (list_to_map G)
  /\ concat (snd <$> push_member r v G) ≡ₚ v :: concat (snd <$> G).
Proof.
  induction G as [|[r' ms] G IH]; simpl; intros Hs; [by split_and!; [repeat constructor|..]|].
  apply StronglySorted_inv in Hs as [Hs Hall]. destruct (IH Hs) as (IH1&IH2&IH3).
  destruct (Nat.eqb_spec r r') as [<-|Hne]; simpl.
  { split; [by constructor|]. rewrite lookup_insert_eq. simpl. split; [by rewrite insert_insert_eq|].
    rewrite (Permutation_app_comm ms [v]). done. }
  destruct (Nat.ltb_spec r r') as [Hlt|Hge]; simpl.
  - split; [repeat constructor; try done; eapply Forall_impl; [exact Hall|simpl; lia]|].
    rewrite lookup_insert_ne by done.
    assert ((list_to_map G : gmap nat (list string)) !! r = None) as ->; [|done].
    apply not_elem_of_list_to_map. intros Hin. rewrite Forall_forall in Hall. specialize (Hall r Hin). lia.
  - split; [constructor; [done|apply push_member_keys_above; [lia|done]]|].
    rewrite lookup_insert_ne by done. split.
    + rewrite IH2. by rewrite insert_insert_ne.
    + rewrite IH3. by rewrite Permutation_middle.
Qed.

(** The groups of the first [k] vertices. *)
Record grouped (sorted : list string) (rho : nat -> nat) (k : nat) (G : list (nat * list string)) : Prop := {
  gr_keys : StronglySorted lt (keys G);
  gr_members : forall r ms, (list_to_map G : gmap nat (list string)) !! r = Some ms ->
    ms <> [] /\ sublist ms (take k sorted)
    /\ forall v, v ∈ ms <-> exists i, (i < k)%nat /\ sorted !! i = Some v /\ rho i = r;
  gr_total : forall i, (i < k)%nat -> is_Some ((list_to_map G : gmap nat (list string)) !! rho i);
  gr_all : concat (snd <$> G) ≡ₚ take k sorted;
}.

Lemma group_vertices_spec sorted rho k rest parent G :
  sorted = take k sorted ++ rest -> (k + length rest = length sorted)%nat ->
  forest (length sorted) parent -> (forall i, root parent i = rho i) ->
  grouped sorted rho k G -> grouped sorted rho (length sorted) (group_vertices k rest parent G).
Proof.
  revert k parent G. induction rest as [|v rest IH]; intros k parent G Hsplit Hlen Hf Hrho HG;
    cbn [group_vertices].
  { simpl in Hlen. by replace (length sorted) with k by lia. }
  simpl in Hlen. assert (sorted !! k = Some v) as Hk.
  { rewrite Hsplit, lookup_app_r by (rewrite length_take; lia).
    rewrite length_take, Nat.min_l by lia. by rewrite Nat.sub_diag. }
  pose proof (find_root_spec _ parent k Hf ltac:(lia)) as H1.
  destruct (find_root parent k) as [r p1]. destruct H1 as (->&Hf1&Hr1).
  assert (take (S k) sorted = take k sorted ++ [v]) as Htake by (by apply take_S_r).
  apply IH; try done; [by rewrite Htake, <- app_assoc|lia|by intros i; rewrite Hr1|].
  destruct HG as [Hkeys Hmem Htot Hall]. rewrite Hrho.
  destruct (push_member_spec (rho k) v G Hkeys) as (Hkeys'&Hmap&Hperm).
  split; [done| | |].
  - intros r ms. rewrite Hmap. destruct (decide (rho k = r)) as [<-|Hne].
    + rewrite lookup_insert_eq. intros [= <-]. split; [by destruct (default _ _)|].
      destruct (_ !! rho k) as [ms0|] eqn:Hms0; simpl.
      * destruct (Hmem _ _ Hms0) as (_&Hsub&Hin). split; [rewrite Htake; by apply sublist_app|].
        intros x. rewrite elem_of_app, list_elem_of_singleton, Hin. split.
        -- intros [(i&Hi&Hx&Hri)| ->]; [exists i; split; [lia|done]|exists k; split; [lia|done]].
        -- intros (i&Hi&Hx&Hri). destruct (decide (i = k)) as [->|]; [right; congruence|].
           left. exists i. split; [lia|done].
      * split; [rewrite Htake; by apply sublist_inserts_l|].
        intros x. rewrite list_elem_of_singleton. split; [intros ->; exists k; split; [lia|done]|].
        intros (i&Hi&Hx&Hri). destruct (decide (i = k)) as [->|]; [congruence|].
        destruct (Htot i ltac:(lia)) as [ms Hms]. congruence.
    + rewrite lookup_insert_ne by done. intros Hms. destruct (Hmem _ _ Hms) as (Hne'&Hsub&Hin).
      split; [done|]. split; [rewrite Htake; by apply sublist_inserts_r|].
      intros x. rewrite Hin. split; intros (i&Hi&Hx&Hri); exists i; (split; [|done]); [lia|].
      destruct (decide (i = k)) as [->|]; [done|lia].
  - intros i Hi. rewrite Hmap. destruct (decide (rho k = rho i)) as [<-|Hne].
    + rewrite lookup_insert_eq. by eexists.
    + rewrite lookup_insert_ne by done. apply Htot. destruct (decide (i = k)) as [->|]; [done|lia].
  - rewrite Hperm, Hall, Htake. apply Permutation_cons_append.
Qed.

(** ** The result *)

Lemma build_assets_spec Blake3 G :
  Forall (fun g => is_ok (LogicalAssetIdForMembers Blake3 g.2) = true) G ->
  exists result, build_assets Blake3 G = Ok result /\ members <$> result = snd <$> G
    /\ Forall (fun a => LogicalAssetIdForMembers Blake3 (members a) = Ok (logical_id a)
                        /\ source_path a = None) result.
Proof.
  induction 1 as [|[r ms] G Hok HG (result&Hres&Hmem&Hall)]; [by exists []|].
  cbn [build_assets]. cbn [snd] in Hok.
  destruct (LogicalAssetIdForMembers Blake3 ms) as [id|e] eqn:Hid; [|done].
  exists (mkLogicalAsset id ms None :: result). cbn [bind_or]. rewrite Hres, !fmap_cons, Hmem.
  split; [done|]. split; [done|]. by constructor.
Qed.

Lemma sorted_index l i v :
  StronglySorted (in_order str_less) l -> NoDup l -> l !! i = Some v -> i = lower_bound l v.
Proof.
  intros Hs Hnd Hi. apply (NoDup_lookup l i (lower_bound l v) v); [done|done|].
  apply lower_bound_found; [done|]. by eapply list_elem_of_lookup_2.
Qed.

(** Members of the groups of all vertices, by the forest of the edges. *)
Lemma grouped_NoDup sorted rho k G : grouped sorted rho k G -> NoDup (fst <$> G).
Proof.
  intros [Hkeys _ _ _]. unfold keys in Hkeys.
  induction Hkeys as [|x l Hl IH Hk]; constructor; [|done].
  intros Hin. rewrite Forall_forall in Hk. specialize (Hk x Hin). lia.
Qed.

Lemma grouped_same sorted rho G u v :
  StronglySorted (in_order str_less) sorted -> NoDup sorted ->
  grouped sorted rho (length sorted) G -> u ∈ sorted -> v ∈ sorted ->
  rho (lower_bound sorted u) = rho (lower_bound sorted v) <->
  exists r ms, (r, ms) ∈ G /\ u ∈ ms /\ v ∈ ms.
Proof.
  intros Hs Hnd HG Hu Hv. pose proof (grouped_NoDup _ _ _ _ HG) as HndG.
  destruct HG as [_ Hmem Htot _].
  assert (forall x, x ∈ sorted -> exists i, (i < length sorted)%nat /\ sorted !! i = Some x
     /\ i = lower_bound sorted x) as Hidx.
  { intros x Hx. exists (lower_bound sorted x). pose proof (lower_bound_found sorted x Hs Hx) as Hl.
    split; [by eapply lookup_lt_Some|done]. }
  split.
  - intros Heq. destruct (Hidx u Hu) as (i&Hi&Hiu&->), (Hidx v Hv) as (j&Hj&Hjv&->).
    destruct (Htot _ Hi) as [ms Hms]. exists (rho (lower_bound sorted u)), ms.
    split; [by apply elem_of_list_to_map_2|]. destruct (Hmem _ _ Hms) as (_&_&Hin). rewrite !Hin.
    split; [by exists (lower_bound sorted u)|by exists (lower_bound sorted v)].
  - intros (r&ms&Hin&Hum&Hvm). apply elem_of_list_to_map_1 in Hin; [|done].
    destruct (Hmem _ _ Hin) as (_&_&Hiff). apply Hiff in Hum as (i&_&Hi&<-), Hvm as (j&_&Hj&Hr).
    apply sorted_index in Hi as ->; [|done..]. by apply sorted_index in Hj as ->.
Qed.

Lemma concat_perm {A} (l1 l2 : list (list A)) : l1 ≡ₚ l2 -> concat l1 ≡ₚ concat l2.
Proof.
  induction 1 as [|l l1 l2 _ IH|l k l1|l1 l2 l3 _ IH1 _ IH2]; simpl; [done|by rewrite IH| |by rewrite IH1].
  rewrite !(assoc_L (++)). by rewrite (Permutation_app_comm l k).
Qed.

(** The forest after all composition edges: its roots are the photos. *)
Lemma unioned_same_photo g sorted :
  StronglySorted (in_order str_less) sorted -> sorted ≡ₚ vertices g -> Forall (fun e => lhs e ∈ vertices g /\ rhs e ∈ vertices g /\ lhs e <> rhs e) (edges g) ->
  exists parent, union_edges sorted (composition_edges g) (iota (length sorted)) = Ok parent
    /\ forest (length sorted) parent
    /\ forall u v, u ∈ sorted -> v ∈ sorted ->
         same_photo g u v <-> root parent (lower_bound sorted u) = root parent (lower_bound sorted v).
Proof.
  intros Hs Hperm Hedges.
  destruct (union_edges_spec sorted Hs (same_photo g) (composition_edges g) (iota (length sorted)))
    as (parent&Hrun&Hf&Hsound&_&Hjoin).
  - apply forest_iota.
  - intros i j u v Hi Hj. rewrite !root_iota. intros ->. assert (u = v) as -> by congruence. done.
  - apply Forall_forall. intros e [He Hc]%elem_of_composition_edges.
    rewrite Forall_forall in Hedges. destruct (Hedges e He) as (?&?&_). rewrite Hperm.
    split; [done|]. split; [done|]. apply rtc_once. left. by exists e.
  - exists parent. split; [done|]. split; [done|]. intros u v Hu Hv. split.
    + intros Hc. clear Hu Hv.
      induction Hc as [|x y z [(e&He&Hc&<-&<-)|(e&He&Hc&<-&<-)] _ <-]; [done|..];
        [|symmetry]; by apply Hjoin, elem_of_composition_edges.
    + apply Hsound; by apply lower_bound_found.
Qed.

(** Every group of vertices can be named. *)
Lemma grouped_ids Blake3 sorted rho G :
  NoDup sorted -> Forall (fun v => v <> "") sorted -> grouped sorted rho (length sorted) G ->
  Forall (fun g => is_ok (LogicalAssetIdForMembers Blake3 g.2) = true) G.
Proof.
  intros Hnd Hids HG. apply Forall_forall. intros [r ms] Hin. simpl. apply LogicalAssetIdForMembers_ok.
  destruct (gr_members _ _ _ _ HG r ms) as (Hne&Hsub&_).
  { apply elem_of_list_to_map_1; [|done]. by eapply grouped_NoDup. }
  rewrite take_ge in Hsub by done. split; [done|]. split; [|by eapply sublist_NoDup].
  rewrite Forall_forall in Hids. apply Forall_forall. intros x Hx. apply Hids. by eapply elem_of_sublist.
Qed.

(** The whole of [BuildLogicalAssets]. *)
Lemma BuildLogicalAssets_components Blake3 g :
  built g ->
  exists result, BuildLogicalAssets Blake3 g = Ok result
    /\ concat (members <$> result) ≡ₚ vertices g
    /\ (forall u v, u ∈ vertices g -> v ∈ vertices g ->
          same_photo g u v <-> exists a, a ∈ result /\ u ∈ members a /\ v ∈ members a)
    /\ Forall (fun a => LogicalAssetIdForMembers Blake3 (members a) = Ok (logical_id a)
                        /\ source_path a = None) result.
Proof.
  intros [Hids Hnd Hedges _]%built_wf. unfold BuildLogicalAssets.
  set (sorted := std_sort str_less (vertices g)).
  assert (sorted ≡ₚ vertices g) as Hperm by apply std_sort_perm.
  assert (StronglySorted (in_order str_less) sorted) as Hs by (apply std_sort_sorted, total_swo).
  assert (NoDup sorted) as Hnds by (by rewrite Hperm).
  destruct (unioned_same_photo g sorted Hs Hperm Hedges) as (parent&->&Hf&Hsame). simpl.
  set (G := group_vertices 0 sorted parent []).
  assert (grouped sorted (root parent) (length sorted) G) as HG.
  { apply group_vertices_spec; [done|done|done|done|]. split; simpl; [constructor|done|lia|done]. }
  destruct (build_assets_spec Blake3 G) as (result&->&Hmem&Hres).
  { apply (grouped_ids Blake3 sorted (root parent)); [done|by rewrite Hperm|done]. }
  exists (std_sort asset_less result). split; [done|]. split; [|split].
  - rewrite (concat_perm _ (members <$> result)) by (by rewrite std_sort_perm).
    rewrite Hmem, (gr_all _ _ _ _ HG), take_ge by done. done.
  - intros u v Hu Hv. rewrite <- Hperm in Hu, Hv.
    rewrite (Hsame u v Hu Hv), (grouped_same sorted (root parent) G u v) by done.
    setoid_rewrite elem_of_std_sort. split.
    + intros (r&ms&Hin&Hum&Hvm).
      assert (ms ∈ members <$> result) as (a&->&Ha)%list_elem_of_fmap; [|by exists a].
      rewrite Hmem. by apply (list_elem_of_fmap_2 snd _ _ Hin).
    + intros (a&Ha&Hum&Hvm). assert (members a ∈ snd <$> G) as ([r ms]&Heq&Hin)%list_elem_of_fmap.
      { rewrite <- Hmem. by apply list_elem_of_fmap_2. }
      simpl in Heq. rewrite Heq in Hum, Hvm. by exists r, ms.
  - by rewrite std_sort_perm.
Qed.

(** C27. Whatever vertices and edges were added, building the logical assets
    never fails, and it returns the connected components of the confirmed
    composition edges: every physical asset is in exactly one logical asset,
    two are in the same one exactly when a chain of such edges links them,
    and each logical asset carries the id of its members. *)
Theorem logical_assets_are_components Blake3 g :
  built g ->
  exists result, BuildLogicalAssets Blake3 g = Ok result
    /\ concat (members <$> result) ≡ₚ vertices g
    /\ (forall u v, u ∈ vertices g -> v ∈ vertices g ->
          same_photo g u v <-> exists a, a ∈ result /\ u ∈ members a /\ v ∈ members a)
    /\ Forall (fun a => LogicalAssetIdForMembers Blake3 (members a) = Ok (logical_id a)
                        /\ source_path a = None) result.
Proof. apply BuildLogicalAssets_components. Qed.

(** ** Example: a live photo, its motion part and an unrelated file *)

Module GraphDemo.
Definition live : AssociationEdge :=
  AssociationEdgeFor (mkSourceRelationCandidate "b" "a" kLivePhotoMotionForMedia "live" "same stem").
Definition sidecar : AssociationEdge :=
  AssociationEdgeFor (mkSourceRelationCandidate "a" "c" kJsonSidecarForMedia "json" "title").
Definition graph : AssociationGraph :=
  (AddEdge sidecar (AddEdge live (AddVertex "c" (AddVertex "b" (AddVertex "a" empty_graph).2).2).2).2).2.
End GraphDemo.

Lemma logical_assets_are_components_witness :
  exists result, BuildLogicalAssets (fun _ => Digest_of (fun _ => NUL)) GraphDemo.graph = Ok result
    /\ exists a, a ∈ result /\ "a" ∈ members a /\ "b" ∈ members a.
Proof.
  destruct (logical_assets_are_components (fun _ => Digest_of (fun _ => NUL)) GraphDemo.graph)
    as (result&Hres&_&Hsame&_).
  - repeat constructor.
  - exists result. split; [exact Hres|]. apply Hsame.
    + change (vertices GraphDemo.graph) with ["a"; "b"; "c"]. apply list_elem_of_here.
    + change (vertices GraphDemo.graph) with ["a"; "b"; "c"]. apply list_elem_of_further, list_elem_of_here.
    + apply rtc_once. right. exists GraphDemo.live.
      change (edges GraphDemo.graph) with [GraphDemo.live; GraphDemo.sidecar].
      split; [apply list_elem_of_here|]. split; [|split]; reflexivity.
Defined.
