(* ===== verification/Photo.v ===== *)
(** * Photo: the canonical photo of a logical asset

    Models src/model/photo_ir.cpp: the projection of one logical asset, the
    physical assets and the association edges to the first semantic value. *)

From S2P Require Import Prelude Status Bytes Order RelativePath Task Assets Association.

Record PhotoMediaComponent := mkPhotoMediaComponent {
  component_id : string;
  component_path : RelativePath;
  component_kind : AssetKind;
  component_extension : string;
}.

Record PhotoRelationship := mkPhotoRelationship {
  rel_lhs : string;
  rel_rhs : string;
  rel_relation : RelationType.t;
  rel_status : AssociationStatus;
  rel_rule : string;
  rel_evidence : Evidence;
}.

Record CanonicalPhoto := mkCanonicalPhoto {
  photo_id : string;
  photo_members : list string;
  media_components : list PhotoMediaComponent;
  relationships : list PhotoRelationship;
}.

Definition RelationshipLess (left right : PhotoRelationship) : bool :=
  if rel_lhs left != rel_lhs right then str_less (rel_lhs left) (rel_lhs right)
  else if rel_rhs left != rel_rhs right then str_less (rel_rhs left) (rel_rhs right)
  else if rel_relation left != rel_relation right
       then to_int (rel_relation left) <? to_int (rel_relation right)
  else if rel_rule left != rel_rule right then str_less (rel_rule left) (rel_rule right)
  else if evidence_rule (rel_evidence left) != evidence_rule (rel_evidence right)
       then str_less (evidence_rule (rel_evidence left)) (evidence_rule (rel_evidence right))
  else str_less (detail (rel_evidence left)) (detail (rel_evidence right)).

Definition component_less (left right : PhotoMediaComponent) : bool :=
  str_less (component_id left) (component_id right).

(** The loop that fills [by_id]; [None] where an id occurs twice. *)
Fixpoint index_assets (l : list PhysicalAsset) (by_id : gmap string PhysicalAsset)
    : option (gmap string PhysicalAsset) :=
  match l with
  | [] => Some by_id
  | asset :: l =>
      let id := PhysicalAssetIdFor asset in
      match by_id !! id with
      | Some _ => None
      | None => index_assets l (<[id := asset]> by_id)
      end
  end.

(** The loop over the members. *)
Fixpoint check_members (l : list string) (member_set : gset string) (by_id : gmap string PhysicalAsset)
    : Status :=
  match l with
  | [] => Status_Ok
  | member :: l =>
      if bool_decide (member ∈ member_set)
      then Invalid "canonical photo logical asset members must be unique"
      else match by_id !! member with
      | None => mkStatus StatusCode.kNotFound "canonical photo logical asset member is missing"
      | Some _ => check_members l ({[member]} ∪ member_set) by_id
      end
  end.

Definition component_of (by_id : gmap string PhysicalAsset) (member : string) : option PhotoMediaComponent :=
  asset ← by_id !! member;
  if bool_decide (asset_kind asset <> kMedia) then None
  else Some (mkPhotoMediaComponent member (relative_path asset) (asset_kind asset) (extension asset)).

Definition relationship_of (members : list string) (edge : AssociationEdge) : option PhotoRelationship :=
  if bool_decide (edge_status edge <> kConfirmed) then None
  else if bool_decide (lhs edge ∉ members) || bool_decide (rhs edge ∉ members) then None
  else Some (mkPhotoRelationship (lhs edge) (rhs edge) (relation edge) (edge_status edge)
               (rule edge) (evidence edge)).

Section Photo.
Context (Blake3 : string -> Digest).

(** [BuildCanonicalPhoto] *)
Definition BuildCanonicalPhoto (logical : LogicalAsset) (physical : list PhysicalAsset)
    (edges : list AssociationEdge) : StatusOr CanonicalPhoto :=
  if str_empty (logical_id logical) || (match members logical with [] => true | _ => false end)
  then Err (Invalid "canonical photo requires a non-empty logical asset")
  else
    let? expected_id := LogicalAssetIdForMembers Blake3 (members logical) in
    if expected_id != logical_id logical
    then Err (Invalid "canonical photo logical asset id does not match members")
    else match index_assets physical ∅ with
    | None => Err (Invalid "canonical photo physical asset ids must be unique")
    | Some by_id =>
        let status := check_members (members logical) ∅ by_id in
        if negb (ok status) then Err status
        else
          let sorted := std_sort str_less (members logical) in
          Ok (mkCanonicalPhoto (logical_id logical) sorted
                (std_sort component_less (omap (component_of by_id) sorted))
                (std_sort RelationshipLess (omap (relationship_of (members logical)) edges)))
    end.

End Photo.

(** ** Properties *)

Lemma hex_of_bytes_inj a b : hex_of_bytes a = hex_of_bytes b -> a = b.
Proof.
  revert b. induction a as [|c a IH]; intros [|d b]; cbn [hex_of_bytes]; try done; intros Heq.
  pose proof (f_equal (fun s => hex_byte s 0) Heq) as Hb. cbn beta in Hb.
  rewrite !hex_byte_of_byte in Hb. injection Hb as ->. apply str_app_inj_l in Heq. by apply IH in Heq as ->.
Qed.

(** The identity of a file is its path. *)
Lemma PhysicalAssetIdFor_inj a b :
  PhysicalAssetIdFor a = PhysicalAssetIdFor b <->
  raw_bytes (relative_path a) = raw_bytes (relative_path b).
Proof.
  unfold PhysicalAssetIdFor. split; [|by intros ->].
  intros Heq%str_app_inj_l. by apply hex_of_bytes_inj.
Qed.

Lemma index_assets_Some l by_id m :
  index_assets l by_id = Some m <->
  NoDup (PhysicalAssetIdFor <$> l) /\ (forall a, a ∈ l -> by_id !! PhysicalAssetIdFor a = None)
  /\ m = foldl (fun m a => <[PhysicalAssetIdFor a := a]> m) by_id l.
Proof.
  revert by_id. induction l as [|a l IH]; intros by_id; simpl.
  { split; [intros [= <-]; split_and!; [constructor|by intros a ?%elem_of_nil|done]|by intros (_&_&->)]. }
  rewrite NoDup_cons. destruct (by_id !! PhysicalAssetIdFor a) as [x|] eqn:Hx.
  - split; [done|]. intros (_&Hnone&_). specialize (Hnone a (list_elem_of_here _ _)). congruence.
  - rewrite IH. split.
    + intros (Hnd&Hnone&->). split_and!; [|done| |done].
      * intros (y&Hy&Hin)%list_elem_of_fmap. specialize (Hnone y Hin). rewrite Hy in Hnone.
        by rewrite lookup_insert_eq in Hnone.
      * intros y [->|Hin]%elem_of_cons; [done|]. specialize (Hnone y Hin).
        by apply lookup_insert_None in Hnone as [? _].
    + intros ([Hnew Hnd]&Hnone&->). split_and!; [done| |done]. intros y Hin.
      rewrite lookup_insert_ne; [apply Hnone; by apply list_elem_of_further|].
      intros Heq. apply Hnew. rewrite Heq. by apply list_elem_of_fmap_2.
Qed.

Lemma foldl_insert_lookup l (by_id : gmap string PhysicalAsset) id a :
  NoDup (PhysicalAssetIdFor <$> l) ->
  foldl (fun m a => <[PhysicalAssetIdFor a := a]> m) by_id l !! id = Some a <->
  (a ∈ l /\ PhysicalAssetIdFor a = id) \/ (by_id !! id = Some a /\ id ∉ PhysicalAssetIdFor <$> l).
Proof.
  revert by_id. induction l as [|x l IH]; intros by_id; simpl; [set_solver|].
  intros [Hnew Hnd]%NoDup_cons. rewrite IH by done.
  destruct (decide (PhysicalAssetIdFor x = id)) as [<-|Hne].
  - rewrite lookup_insert_eq. split.
    + intros [[Hin Heq]|[[= ->] _]]; [left; split; [by apply list_elem_of_further|done]|].
      left. split; [apply list_elem_of_here|done].
    + intros [[Hin Heq]|[_ Hno]]; [|exfalso; apply Hno, list_elem_of_here].
      apply elem_of_cons in Hin as [->|Hin]; [right; by split|left; by split].
  - rewrite lookup_insert_ne by done. rewrite elem_of_cons, not_elem_of_cons.
    split; [intros [[? ?]|[? ?]]; [left; tauto|right; split_and!; done || congruence]|].
    intros [[[->|?] ?]|[? [? ?]]]; [done|left; by split|right; by split].
Qed.

Lemma check_members_ok l seen by_id :
  ok (check_members l seen by_id) = true <->
  NoDup l /\ Forall (fun m => m ∉ seen /\ is_Some (by_id !! m)) l.
Proof.
  revert seen. induction l as [|m l IH]; intros seen; simpl.
  { split; [|done]. intros _. split; constructor. }
  rewrite NoDup_cons, Forall_cons.
  destruct (bool_decide_reflect (m ∈ seen)); [split; [done|tauto]|].
  destruct (by_id !! m) as [a|]; [|split; [done|by intros (_&[_ [? ?]]&_)]].
  rewrite IH. split.
  - intros [Hnd Hall]. rewrite Forall_forall in Hall. split_and!; try done.
    + intros Hin. destruct (Hall m Hin) as [Hm _]. set_solver.
    + apply Forall_forall. intros x Hx. destruct (Hall x Hx). split; [set_solver|done].
  - intros ([Hnew Hnd]&_&Hall). split; [done|]. rewrite Forall_forall in Hall. apply Forall_forall.
    intros x Hx. destruct (Hall x Hx). split; [|done]. set_solver.
Qed.

Lemma component_of_Some by_id m c :
  component_of by_id m = Some c <->
  exists a, by_id !! m = Some a /\ asset_kind a = kMedia
    /\ c = mkPhotoMediaComponent m (relative_path a) kMedia (extension a).
Proof.
  unfold component_of. destruct (by_id !! m) as [a|]; simpl; [|naive_solver].
  destruct (bool_decide_reflect (asset_kind a <> kMedia)) as [|Hk]; [naive_solver|].
  apply dec_stable in Hk. rewrite Hk. naive_solver.
Qed.

Lemma relationship_of_Some l e r :
  relationship_of l e = Some r <->
  edge_status e = kConfirmed /\ lhs e ∈ l /\ rhs e ∈ l
  /\ r = mkPhotoRelationship (lhs e) (rhs e) (relation e) kConfirmed (rule e) (evidence e).
Proof.
  unfold relationship_of.
  destruct (bool_decide_reflect (edge_status e <> kConfirmed)) as [|Hs]; [naive_solver|].
  destruct (bool_decide_reflect (lhs e ∉ l)) as [|Hl]; [naive_solver|].
  destruct (bool_decide_reflect (rhs e ∉ l)) as [|Hr]; simpl; [naive_solver|].
  apply dec_stable in Hs, Hl, Hr. rewrite Hs. naive_solver.
Qed.

(** When a photo can be composed: the id is that of the members, the files
    have distinct identities, and every member is one of them. *)
Definition composable (Blake3 : string -> Digest) (logical : LogicalAsset) (physical : list PhysicalAsset) : Prop :=
  LogicalAssetIdForMembers Blake3 (members logical) = Ok (logical_id logical)
  /\ NoDup (PhysicalAssetIdFor <$> physical)
  /\ Forall (fun m => exists a, a ∈ physical /\ PhysicalAssetIdFor a = m) (members logical).

Lemma index_assets_lookup physical by_id i a :
  index_assets physical ∅ = Some by_id ->
  by_id !! i = Some a <-> a ∈ physical /\ PhysicalAssetIdFor a = i.
Proof.
  intros (Hnd&_&->)%index_assets_Some. rewrite foldl_insert_lookup by done. rewrite lookup_empty. naive_solver.
Qed.

(** The value composed, and that it is composed exactly when it can be. *)
Lemma BuildCanonicalPhoto_Ok Blake3 logical physical edges photo :
  BuildCanonicalPhoto Blake3 logical physical edges = Ok photo <->
  composable Blake3 logical physical
  /\ exists by_id, index_assets physical ∅ = Some by_id
     /\ let sorted := std_sort str_less (members logical) in
        photo = mkCanonicalPhoto (logical_id logical) sorted
                  (std_sort component_less (omap (component_of by_id) sorted))
                  (std_sort RelationshipLess (omap (relationship_of (members logical)) edges)).
Proof.
  unfold BuildCanonicalPhoto, composable.
  destruct (LogicalAssetIdForMembers Blake3 (members logical)) as [id|] eqn:Hid;
    [|split_if; (split; [done|by intros ((?&_)&_)])].
  pose proof (proj1 (LogicalAssetIdForMembers_ok Blake3 (members logical))) as Hmem.
  rewrite Hid in Hmem. destruct (Hmem eq_refl) as (Hne&_&Hnd). clear Hmem.
  destruct (str_empty (logical_id logical) || _) eqn:Hempty.
  { split; [done|]. intros (([= ->]&_)&_). exfalso.
    apply orb_true_iff in Hempty as [He|He]; [|by destruct (members logical)].
    apply str_empty_true in He. revert Hid. unfold LogicalAssetIdForMembers. rewrite He.
    destruct (members logical); [done|]. split_if; [done|]. by split_if. }
  cbn [bind_or]. destruct (bool_decide_reflect (id = logical_id logical)) as [->|Hdiff]; cbn [negb];
    [|split; [done|by intros (([=]&_)&_)]].
  destruct (index_assets physical ∅) as [by_id|] eqn:Hidx.
  2:{ split; [done|]. by intros (_&?&?&_). }
  assert (ok (check_members (members logical) ∅ by_id) = true <->
    Forall (fun m => exists a, a ∈ physical /\ PhysicalAssetIdFor a = m) (members logical)) as Hc.
  { rewrite check_members_ok, !Forall_forall. split.
    - intros [_ H] m Hm. destruct (H m Hm) as [_ [a Ha]]. exists a. by apply (index_assets_lookup _ by_id).
    - intros H. split; [done|]. intros m Hm. split; [set_solver|].
      destruct (H m Hm) as (a&Ha). exists a. by apply (index_assets_lookup physical). }
  pose proof (proj1 (index_assets_Some _ _ _) Hidx) as (Hids&_).
  destruct (ok (check_members _ _ _)); cbn [negb].
  - split; [intros [= <-]|intros (_&?&[= <-]&->)]; [|done]. split; [by rewrite <- Hc|]. by exists by_id.
  - split; [done|]. intros ((_&_&H)&_). by apply Hc in H.
Qed.

(** The canonical photo exists exactly when the logical id belongs to the
    members, the physical files have distinct paths and every member is one
    of them; it then shows the sorted members, exactly the media files among
    them, and exactly the confirmed relations between them. *)
Lemma canonical_photo_is_exact Blake3 logical physical edges :
  (is_ok (BuildCanonicalPhoto Blake3 logical physical edges) = true <-> composable Blake3 logical physical)
  /\ forall photo, BuildCanonicalPhoto Blake3 logical physical edges = Ok photo ->
  photo_id photo = logical_id logical
  /\ photo_members photo ≡ₚ members logical
  /\ StronglySorted (in_order str_less) (photo_members photo)
  /\ (forall c, c ∈ media_components photo <->
       exists a, a ∈ physical /\ PhysicalAssetIdFor a ∈ members logical /\ asset_kind a = kMedia
         /\ c = mkPhotoMediaComponent (PhysicalAssetIdFor a) (relative_path a) kMedia (extension a))
  /\ (forall r, r ∈ relationships photo <->
       exists e, e ∈ edges /\ edge_status e = kConfirmed /\ lhs e ∈ members logical /\ rhs e ∈ members logical
         /\ r = mkPhotoRelationship (lhs e) (rhs e) (relation e) kConfirmed (rule e) (evidence e)).
Proof.
  split.
  - rewrite is_ok_exists. setoid_rewrite BuildCanonicalPhoto_Ok. split; [by intros (?&?&_)|].
    intros H. destruct (index_assets physical ∅) as [by_id|] eqn:Hidx; [eexists; split; [done|by exists by_id]|].
    exfalso. destruct H as (_&Hnd&_).
    pose proof (index_assets_Some physical ∅ (foldl (fun m a => <[PhysicalAssetIdFor a := a]> m) ∅ physical)) as Hs.
    rewrite Hidx in Hs. by discriminate (proj2 Hs (conj Hnd (conj (fun a _ => lookup_empty _) eq_refl))).
  - intros photo (_&by_id&Hidx&->)%BuildCanonicalPhoto_Ok. simpl.
    pose proof (fun i a => index_assets_lookup physical by_id i a Hidx) as Hlook.
    split; [done|]. split; [apply std_sort_perm|]. split; [apply std_sort_sorted, total_swo|]. split.
    + intros c. rewrite elem_of_std_sort, list_elem_of_omap. setoid_rewrite component_of_Some.
      setoid_rewrite Hlook. setoid_rewrite elem_of_std_sort. naive_solver.
    + intros r. rewrite elem_of_std_sort, list_elem_of_omap. by setoid_rewrite relationship_of_Some.
Qed.

(** ** Example *)

Module PhotoDemo.
Definition b3 (_ : string) : Digest := Digest_of (fun _ => NUL).
Definition file : PhysicalAsset :=
  mkPhysicalAsset (mkRelativePath "a.jpg" ["a.jpg"]) (FileIdentity.mk 1 2 3 4 5 None) kMedia "jpg".
Definition logical : LogicalAsset :=
  default (mkLogicalAsset "" [] None)
    (match MapPhysicalAssetToLogicalAsset b3 file with Ok l => Some l | Err _ => None end).
Definition photo : CanonicalPhoto :=
  default (mkCanonicalPhoto "" [] [] [])
    (match BuildCanonicalPhoto b3 logical [file] [] with Ok p => Some p | Err _ => None end).
End PhotoDemo.

Lemma canonical_photo_is_exact_witness :
  photo_members PhotoDemo.photo ≡ₚ ["path-612e6a7067"].
Proof.
  assert (BuildCanonicalPhoto PhotoDemo.b3 PhotoDemo.logical [PhotoDemo.file] [] = Ok PhotoDemo.photo) as Hok
    by (vm_compute; reflexivity).
  exact (proj1 (proj2 (proj2 (canonical_photo_is_exact PhotoDemo.b3 PhotoDemo.logical
    [PhotoDemo.file] []) PhotoDemo.photo Hok))).
Defined.
