(* ===== verification/Metadata.v ===== *)
(** * Metadata: candidates, rules, resolution and provenance

    Models src/model/metadata_candidate.cpp, metadata_rules.cpp,
    metadata_resolver.cpp, resolution_record.cpp and provenance.cpp: how the
    values that different rules extracted for one field of one photo become
    one value, and how that is recorded.  A [double] is an IEEE binary64
    value ([spec_float]). *)

From Stdlib Require Import SpecFloat.
From S2P Require Import Prelude Status Bytes Order.

Inductive MetadataField := kTitle | kDescription | kFavorite | kTakenTime.
Inductive MetadataSource := kGoogleTakeoutJson.
Inductive TimePrecision := kSecond.
Inductive MetadataValueKind := kString | kInt64 | kDouble | kBool | kTimeCandidate | kGeoPoint.

#[global] Instance MetadataField_eq_dec : EqDecision MetadataField.
Proof. solve_decision. Defined.
#[global] Instance MetadataSource_eq_dec : EqDecision MetadataSource.
Proof. solve_decision. Defined.
#[global] Instance TimePrecision_eq_dec : EqDecision TimePrecision.
Proof. solve_decision. Defined.
#[global] Instance MetadataValueKind_eq_dec : EqDecision MetadataValueKind.
Proof. solve_decision. Defined.

(** [std::variant<AbsoluteTime, LocalDateTime>] *)
Inductive TimeValue :=
| AbsoluteTime (unix_ns : Z)
| LocalDateTime (year month day hour minute second nanosecond : Z).

Record TimeCandidate := mkTimeCandidate {
  time_value : TimeValue;
  utc_offset_minutes : option Z;
  precision : TimePrecision;
  time_source : MetadataSource;
  raw_value : string;
}.

(** [std::variant<std::string, std::int64_t, double, bool, TimeCandidate, GeoPoint>] *)
Inductive MetadataValue :=
| VString (s : string)
| VInt64 (z : Z)
| VDouble (d : spec_float)
| VBool (b : bool)
| VTime (t : TimeCandidate)
| VGeo (latitude longitude : spec_float).

#[global] Instance TimeValue_eq_dec : EqDecision TimeValue.
Proof. solve_decision. Defined.
#[global] Instance spec_float_eq_dec : EqDecision spec_float.
Proof. solve_decision. Defined.
#[global] Instance TimeCandidate_eq_dec : EqDecision TimeCandidate.
Proof. solve_decision. Defined.
#[global] Instance MetadataValue_eq_dec : EqDecision MetadataValue.
Proof. solve_decision. Defined.

Record MetadataCandidate := mkMetadataCandidate {
  asset_id : string;
  field : MetadataField;
  value : MetadataValue;
  source : MetadataSource;
  extraction_rule : string;
  evidence : string;
}.

Definition out_of (low high z : Z) : bool := (z <? low) || (high <? z).

(** [Status ValidateTimeCandidate(const TimeCandidate&) noexcept] *)
Definition ValidateTimeCandidate (c : TimeCandidate) : Status :=
  if str_empty (raw_value c) then Invalid "time candidate raw value must not be empty"
  else if precision c != kSecond then Invalid "unsupported time candidate precision"
  else if time_source c != kGoogleTakeoutJson then Invalid "unsupported time candidate source"
  else if match utc_offset_minutes c with
          | Some offset => (offset <? -14 * 60) || (14 * 60 <? offset)
          | None => false
          end
  then Invalid "time candidate UTC offset is outside the supported range"
  else match time_value c with
  | LocalDateTime year month day hour minute second nanosecond =>
      if out_of 1 9999 year || out_of 1 12 month || out_of 1 31 day || out_of 0 23 hour
         || out_of 0 59 minute || out_of 0 59 second || out_of 0 999999999 nanosecond
      then Invalid "local time candidate has an invalid calendar component"
      else Status_Ok
  | AbsoluteTime _ => Status_Ok
  end.

Definition MetadataValueKindOf (v : MetadataValue) : MetadataValueKind :=
  match v with
  | VString _ => kString | VInt64 _ => kInt64 | VDouble _ => kDouble
  | VBool _ => kBool | VTime _ => kTimeCandidate | VGeo _ _ => kGeoPoint
  end.

Definition IsMetadataValueCompatible (f : MetadataField) (v : MetadataValue) : bool :=
  let kind := MetadataValueKindOf v in
  match f with
  | kTitle | kDescription => kind == kString
  | kFavorite => kind == kBool
  | kTakenTime => kind == kTimeCandidate
  end.

Definition same_time (a b : TimeValue) : bool :=
  match a, b with
  | AbsoluteTime x, AbsoluteTime y => x =? y
  | LocalDateTime y1 mo1 d1 h1 mi1 s1 n1, LocalDateTime y2 mo2 d2 h2 mi2 s2 n2 =>
      (y1 =? y2) && (mo1 =? mo2) && (d1 =? d2) && (h1 =? h2) && (mi1 =? mi2) && (s1 =? s2) && (n1 =? n2)
  | _, _ => false
  end.

(** [bool MetadataValuesEqual(left, right) noexcept]; doubles compare as
    IEEE values, so a NaN differs from itself. *)
Definition MetadataValuesEqual (left right : MetadataValue) : bool :=
  if MetadataValueKindOf left != MetadataValueKindOf right then false
  else match left, right with
  | VString a, VString b => a == b
  | VInt64 a, VInt64 b => a =? b
  | VDouble a, VDouble b => SFeqb a b
  | VBool a, VBool b => Bool.eqb a b
  | VTime a, VTime b =>
      same_time (time_value a) (time_value b) && (utc_offset_minutes a == utc_offset_minutes b)
      && (precision a == precision b) && (time_source a == time_source b) && (raw_value a == raw_value b)
  | VGeo lat1 lon1, VGeo lat2 lon2 => SFeqb lat1 lat2 && SFeqb lon1 lon2
  | _, _ => false
  end.

(** ** Rules *)

Record MetadataRule := mkMetadataRule {
  rule_id_ : string;
  rule_field : MetadataField;
  rule_source : MetadataSource;
}.

Record MetadataRuleset := mkMetadataRuleset {
  ruleset_version : string;
  chain : list MetadataRule;
}.

Definition GoogleTakeoutMetadataRuleset : MetadataRuleset :=
  mkMetadataRuleset "takeout-metadata-v1"
    [ mkMetadataRule "takeout.json.title.v1" kTitle kGoogleTakeoutJson;
      mkMetadataRule "takeout.json.description.v1" kDescription kGoogleTakeoutJson;
      mkMetadataRule "takeout.json.favorited.v1" kFavorite kGoogleTakeoutJson;
      mkMetadataRule "takeout.json.photoTakenTime.timestamp.v1" kTakenTime kGoogleTakeoutJson ].

Fixpoint validate_rules (rules all : list MetadataRule) : Status :=
  match rules with
  | [] => Status_Ok
  | r :: rules =>
      if str_empty (rule_id_ r) then Invalid "metadata rule id must not be empty"
      else if negb (length (filter (fun other => rule_id_ other = rule_id_ r) all) =? 1)%nat
      then Invalid "metadata rule ids must be unique"
      else validate_rules rules all
  end.

Definition ValidateMetadataRuleset (rs : MetadataRuleset) : Status :=
  if str_empty (ruleset_version rs) || (match chain rs with [] => true | _ => false end)
  then Invalid "metadata ruleset must have a version and at least one rule"
  else validate_rules (chain rs) (chain rs).

Definition IsMetadataRuleCompatible (rs : MetadataRuleset) (f : MetadataField) (s : MetadataSource)
    (id : string) : bool :=
  existsb (fun r => (rule_id_ r == id) && (rule_field r == f) && (rule_source r == s)) (chain rs).

(** ** Resolution *)

Fixpoint rule_rank (rules : list MetadataRule) (id : string) : nat :=
  match rules with
  | [] => O
  | r :: rules => if rule_id_ r == id then O else S (rule_rank rules id)
  end.
Definition RuleRank (rs : MetadataRuleset) (id : string) : nat := rule_rank (chain rs) id.

Definition CandidateLess (rs : MetadataRuleset) (left right : MetadataCandidate) : bool :=
  let left_rank := RuleRank rs (extraction_rule left) in
  let right_rank := RuleRank rs (extraction_rule right) in
  if bool_decide (left_rank <> right_rank) then (left_rank <? right_rank)%nat
  else if asset_id left != asset_id right then str_less (asset_id left) (asset_id right)
  else if extraction_rule left != extraction_rule right
       then str_less (extraction_rule left) (extraction_rule right)
  else str_less (evidence left) (evidence right).

Record ResolutionRecord := mkResolutionRecord {
  record_field : MetadataField;
  selected_value : option MetadataValue;
  selected_source : option MetadataSource;
  rule_id : string;
  rule_version : string;
  candidates : list MetadataCandidate;
  conflict : bool;
  reason : string;
}.

Definition candidate_valid (rs : MetadataRuleset) (f : MetadataField) (c : MetadataCandidate) : bool :=
  (field c == f) && negb (str_empty (asset_id c))
  && IsMetadataRuleCompatible rs (field c) (source c) (extraction_rule c)
  && IsMetadataValueCompatible (field c) (value c).

(** [MetadataResolver::Resolve] *)
Definition Resolve (f : MetadataField) (cands : list MetadataCandidate) (rs : MetadataRuleset)
    : StatusOr ResolutionRecord :=
  let ruleset_status := ValidateMetadataRuleset rs in
  if negb (ok ruleset_status) then Err ruleset_status
  else if existsb (fun c => negb (candidate_valid rs f c)) cands
  then Err (Invalid "metadata candidate is not valid for the requested ruleset")
  else
    let sorted := std_sort (CandidateLess rs) cands in
    match sorted with
    | [] => Ok (mkResolutionRecord f None None "" (ruleset_version rs) [] false "no candidates")
    | selected :: _ =>
        let conflict := existsb (fun c => negb (MetadataValuesEqual (value c) (value selected))) sorted in
        Ok (mkResolutionRecord f (Some (value selected)) (Some (source selected))
              (extraction_rule selected) (ruleset_version rs) sorted conflict
              (if conflict
               then "multiple distinct values; canonical tie-break selected the first candidate"
               else "single canonical value"))
    end.

(** [Status ValidateResolutionRecord(const ResolutionRecord&) noexcept] *)
Definition ValidateResolutionRecord (r : ResolutionRecord) : Status :=
  if bool_decide (has_value (selected_value r) <> has_value (selected_source r))
  then Invalid "resolution selected value and source must be provided together"
  else if match selected_value r with
          | Some v => negb (IsMetadataValueCompatible (record_field r) v) | None => false end
  then Invalid "resolution selected value is incompatible with its field"
  else if has_value (selected_value r) && (str_empty (rule_id r) || str_empty (rule_version r))
  then Invalid "resolution selection must identify its rule and version"
  else if conflict r && str_empty (reason r)
  then Invalid "conflicted resolution must include a reason"
  else if existsb (fun c => str_empty (asset_id c) || (field c != record_field r)
                            || str_empty (extraction_rule c)
                            || negb (IsMetadataValueCompatible (field c) (value c))) (candidates r)
  then Invalid "resolution candidate is invalid for the record"
  else Status_Ok.

(** ** Provenance *)

Inductive ProvenanceOutcome := kSelected | kRejected.
#[global] Instance ProvenanceOutcome_eq_dec : EqDecision ProvenanceOutcome.
Proof. solve_decision. Defined.

Record ProvenanceRecord := mkProvenanceRecord {
  prov_field : MetadataField;
  prov_asset_id : string;
  prov_value : MetadataValue;
  prov_source : MetadataSource;
  prov_rule_id : string;
  prov_rule_version : string;
  prov_evidence : string;
  outcome : ProvenanceOutcome;
  prov_reason : string;
}.

Definition provenance_less (left right : MetadataCandidate) : bool :=
  if asset_id left != asset_id right then str_less (asset_id left) (asset_id right)
  else if extraction_rule left != extraction_rule right
       then str_less (extraction_rule left) (extraction_rule right)
  else str_less (evidence left) (evidence right).

Definition is_selection (r : ResolutionRecord) (c : MetadataCandidate) : bool :=
  match selected_value r, selected_source r with
  | Some v, Some s => (source c == s) && (extraction_rule c == rule_id r) && MetadataValuesEqual (value c) v
  | _, _ => false
  end.

(** The loop of [BuildProvenance]. *)
Fixpoint provenance_loop (r : ResolutionRecord) (selected_written : bool) (l : list MetadataCandidate)
    : list ProvenanceRecord :=
  match l with
  | [] => []
  | c :: l =>
      let is_selected := negb selected_written && is_selection r c in
      mkProvenanceRecord (field c) (asset_id c) (value c) (source c) (extraction_rule c)
        (rule_version r) (evidence c)
        (if is_selected then kSelected else kRejected)
        (if is_selected then "selected by canonical resolver order"
         else if conflict r then "rejected by conflict tie-break" else "not selected")
      :: provenance_loop r (selected_written || is_selected) l
  end.

(** [StatusOr<std::vector<ProvenanceRecord>> BuildProvenance(const ResolutionRecord&)] *)
Definition BuildProvenance (r : ResolutionRecord) : StatusOr (list ProvenanceRecord) :=
  let validation := ValidateResolutionRecord r in
  if negb (ok validation) then Err validation
  else Ok (provenance_loop r false (std_sort provenance_less (candidates r))).
