(* ===== verification/MetadataTheorems.v ===== *)
(** * MetadataTheorems: one value per field, and why

    Resolution picks the candidate of the earliest rule, reports a conflict
    exactly when candidates disagree, does not depend on the order in which
    the candidates were found, and its provenance marks one candidate. *)

From S2P Require Import Prelude Status Bytes Order Metadata.

Record wf_ruleset (rs : MetadataRuleset) : Prop := {
  wr_version : ruleset_version rs <> "";
  wr_chain : chain rs <> [];
  wr_ids : Forall (fun r => rule_id_ r <> "") (chain rs);
  wr_unique : NoDup (rule_id_ <$> chain rs);
}.

Lemma validate_rules_ok rules all :
  ok (validate_rules rules all) = true <->
  Forall (fun r => rule_id_ r <> "" /\ length (filter (fun o => rule_id_ o = rule_id_ r) all) = 1%nat) rules.
Proof.
  induction rules as [|r rules IH]; simpl; [by split; [constructor|]|]. rewrite Forall_cons, <- IH.
  destruct (str_empty (rule_id_ r)) eqn:He.
  { apply str_empty_true in He. split; [done|]. by intros [[? _] _]. }
  destruct (Nat.eqb_spec (length (filter (fun o => rule_id_ o = rule_id_ r) all)) 1); simpl.
  - split; [|by intros [_ ?]]. intros H. split; [|done]. split; [|done].
    intros Hx. by rewrite Hx in He.
  - split; [done|]. by intros [[_ ?] _].
Qed.

Lemma filter_id_count (l : list MetadataRule) id :
  id ∈ rule_id_ <$> l -> NoDup (rule_id_ <$> l) -> length (filter (fun o => rule_id_ o = id) l) = 1%nat.
Proof.
  induction l as [|r l IH]; simpl; [by intros ?%elem_of_nil|]. intros Hin [Hnew Hnd]%NoDup_cons.
  rewrite filter_cons. destruct (decide (rule_id_ r = id)) as [<-|Hne].
  - simpl. f_equal. apply length_zero_iff_nil.
    destruct (filter (fun o => rule_id_ o = rule_id_ r) l) as [|x xs] eqn:Hf; [done|].
    exfalso. assert (x ∈ filter (fun o => rule_id_ o = rule_id_ r) l) as Hx by (rewrite Hf; apply list_elem_of_here).
    apply list_elem_of_filter in Hx as [Heq Hx]. apply Hnew. rewrite <- Heq. by apply list_elem_of_fmap_2.
  - apply IH; [|done]. apply elem_of_cons in Hin as [|]; [congruence|done].
Qed.

Lemma filter_id_unique (l : list MetadataRule) :
  Forall (fun r => length (filter (fun o => rule_id_ o = rule_id_ r) l) = 1%nat) l -> NoDup (rule_id_ <$> l).
Proof.
  intros Hall. apply NoDup_alt. intros i j id Hi Hj.
  rewrite list_lookup_fmap in Hi, Hj.
  destruct (l !! i) as [r|] eqn:Hr; [|done]. destruct (l !! j) as [r'|] eqn:Hr'; [|done].
  simpl in Hi, Hj. injection Hi as Hid. injection Hj as Hid'.
  rewrite Forall_forall in Hall. specialize (Hall r (list_elem_of_lookup_2 _ _ _ Hr)).
  destruct (decide (i = j)) as [|Hne]; [done|]. exfalso.
  assert (forall (a b : nat) x y, (a < b)%nat -> l !! a = Some x -> l !! b = Some y ->
     rule_id_ x = rule_id_ r -> rule_id_ y = rule_id_ r ->
     (2 <= length (filter (fun o => rule_id_ o = rule_id_ r) l))%nat) as Htwo.
  { clear. intros a b x y Hab Ha Hb Hx Hy.
    rewrite <- (take_drop_middle l a x Ha), filter_app, length_app.
    rewrite filter_cons, decide_True by done. cbn [length].
    assert (y ∈ filter (fun o => rule_id_ o = rule_id_ r) (drop (S a) l)) as Hin.
    { apply list_elem_of_filter. split; [done|]. apply (list_elem_of_lookup_2 _ (b - S a)).
      rewrite lookup_drop. by replace (S a + (b - S a))%nat with b by lia. }
    destruct (filter _ (drop (S a) l)); [by apply elem_of_nil in Hin|]. simpl. lia. }
  destruct (Nat.lt_ge_cases i j).
  - pose proof (Htwo i j r r' ltac:(lia) Hr Hr' eq_refl ltac:(congruence)). lia.
  - pose proof (Htwo j i r' r ltac:(lia) Hr' Hr ltac:(congruence) eq_refl). lia.
Qed.

Lemma ValidateMetadataRuleset_ok rs : ok (ValidateMetadataRuleset rs) = true <-> wf_ruleset rs.
Proof.
  unfold ValidateMetadataRuleset.
  destruct (str_empty (ruleset_version rs)) eqn:Hv.
  { apply str_empty_true in Hv. simpl. split; [done|]. by intros []. }
  destruct (chain rs) as [|r l] eqn:Hc; simpl orb; cbn iota.
  { split; [done|]. intros []. by rewrite Hc in wr_chain0. }
  rewrite <- Hc, validate_rules_ok. split.
  - intros Hall. split; [intros Hx; by rewrite Hx in Hv|by rewrite Hc| |].
    + eapply Forall_impl; [exact Hall|]. by intros ? [].
    + apply filter_id_unique. eapply Forall_impl; [exact Hall|]. by intros ? [].
  - intros []. apply Forall_forall. intros x Hx. rewrite Forall_forall in wr_ids0. split; [by apply wr_ids0|].
    apply filter_id_count; [by apply list_elem_of_fmap_2|done].
Qed.

#[export] Instance CandidateLess_swo rs : StrictWeakOrder (CandidateLess rs).
Proof.
  assert (StrictTotalOrder Nat.ltb) as Hnat.
  { split; [split|]; intros *; rewrite ?Nat.ltb_lt, ?Nat.ltb_ge; lia. }
  pose proof (lex_swo asset_id str_less _ str_less_total
    (lex_swo extraction_rule str_less _ str_less_total
      (key_swo evidence str_less (total_swo (less := str_less))))) as Hrest.
  pose proof (lex_swo (fun c => RuleRank rs (extraction_rule c)) Nat.ltb _ Hnat Hrest) as Hall.
  clear Hrest. destruct Hall as [H1 H2].
  assert (forall a b, CandidateLess rs a b =
    (if RuleRank rs (extraction_rule a) != RuleRank rs (extraction_rule b)
     then (RuleRank rs (extraction_rule a) <? RuleRank rs (extraction_rule b))%nat
     else if asset_id a != asset_id b then str_less (asset_id a) (asset_id b)
     else if extraction_rule a != extraction_rule b then str_less (extraction_rule a) (extraction_rule b)
     else str_less (evidence a) (evidence b))) as Heq.
  { intros a b. unfold CandidateLess. by rewrite bool_decide_not. }
  split; intros *; rewrite !Heq; [apply H1|apply H2].
Qed.

#[export] Instance provenance_less_swo : StrictWeakOrder provenance_less.
Proof.
  apply (lex_swo asset_id str_less _ str_less_total
    (lex_swo extraction_rule str_less _ str_less_total
      (key_swo evidence str_less (total_swo (less := str_less))))).
Qed.

(** Values of a field a rule exists for compare equal to themselves. *)
Lemma compatible_refl f v : IsMetadataValueCompatible f v = true -> MetadataValuesEqual v v = true.
Proof.
  intros Hc. unfold MetadataValuesEqual. rewrite bool_decide_eq_true_2 by done. simpl.
  destruct v as [s|z|d|b|t|la lo]; try by destruct f.
  - by apply bool_decide_eq_true.
  - by destruct b.
  - rewrite !bool_decide_eq_true_2 by done. rewrite !andb_true_r.
    destruct (time_value t); simpl; by rewrite ?Z.eqb_refl.
Qed.

(** What a candidate must be for the field and the ruleset. *)
Definition admissible (rs : MetadataRuleset) (f : MetadataField) (c : MetadataCandidate) : Prop :=
  field c = f /\ asset_id c <> ""
  /\ (exists r, r ∈ chain rs /\ rule_id_ r = extraction_rule c /\ rule_field r = f /\ rule_source r = source c)
  /\ IsMetadataValueCompatible f (value c) = true.

Lemma candidate_valid_true rs f c : candidate_valid rs f c = true <-> admissible rs f c.
Proof.
  unfold candidate_valid, admissible, IsMetadataRuleCompatible.
  rewrite !andb_true_iff, bool_decide_eq_true, negb_true_iff, existsb_exists.
  assert (str_empty (asset_id c) = false <-> asset_id c <> "") as -> by (by destruct (asset_id c)).
  split.
  - intros [[[<- Ha] (r&Hr&Heq)] Hv]. split_and!; try done.
    rewrite !andb_true_iff, !bool_decide_eq_true in Heq. destruct Heq as [[? ?] ?].
    exists r. by rewrite list_elem_of_In.
  - intros (<-&Ha&(r&Hr&Hid&Hf&Hs)&Hv). split_and!; try done.
    exists r. rewrite list_elem_of_In in Hr. split; [done|].
    by rewrite !bool_decide_eq_true_2.
Qed.

Lemma all_valid rs f l :
  existsb (fun c => negb (candidate_valid rs f c)) l = false <-> Forall (admissible rs f) l.
Proof.
  rewrite <- not_true_iff_false, existsb_exists, Forall_forall. split.
  - intros Hno c Hc. apply candidate_valid_true. destruct (candidate_valid rs f c) eqn:Hv; [done|].
    exfalso. apply Hno. exists c. split; [by apply list_elem_of_In|by rewrite Hv].
  - intros Hall (c&Hc&Hv). apply list_elem_of_In in Hc. apply Hall, candidate_valid_true in Hc.
    by rewrite Hc in Hv.
Qed.

(** The candidate the resolution is about: of the earliest rule, and among
    those the least by asset, rule and evidence. *)
Definition winner (rs : MetadataRuleset) (cands : list MetadataCandidate) (c : MetadataCandidate) : Prop :=
  c ∈ cands /\ forall c', c' ∈ cands -> CandidateLess rs c' c = false.

(** What a resolution of admissible candidates says. *)
Definition resolves (f : MetadataField) (cands : list MetadataCandidate) (rs : MetadataRuleset)
    (r : ResolutionRecord) : Prop :=
  record_field r = f /\ rule_version r = ruleset_version rs /\ candidates r ≡ₚ cands
  /\ StronglySorted (in_order (CandidateLess rs)) (candidates r)
  /\ ((cands = [] /\ selected_value r = None /\ selected_source r = None /\ conflict r = false)
      \/ exists c, winner rs cands c /\ selected_value r = Some (value c)
         /\ selected_source r = Some (source c) /\ rule_id r = extraction_rule c
         /\ (conflict r = true <-> exists c', c' ∈ cands /\ MetadataValuesEqual (value c') (value c) = false)).

Lemma Resolve_spec f cands rs :
  match Resolve f cands rs with
  | Ok r => wf_ruleset rs /\ Forall (admissible rs f) cands /\ resolves f cands rs r
      /\ (reason r <> "")
  | Err st => ok st = false /\ ~ (wf_ruleset rs /\ Forall (admissible rs f) cands)
  end.
Proof.
  unfold Resolve. destruct (ok (ValidateMetadataRuleset rs)) eqn:Hrs; simpl.
  2:{ split; [done|]. intros [Hwf _]. apply ValidateMetadataRuleset_ok in Hwf. congruence. }
  apply ValidateMetadataRuleset_ok in Hrs.
  destruct (existsb (fun c => negb (candidate_valid rs f c)) cands) eqn:Hv.
  { split; [done|]. intros [_ Hall]. apply all_valid in Hall. congruence. }
  apply all_valid in Hv.
  pose proof (std_sort_perm (CandidateLess rs) cands) as Hp.
  pose proof (std_sort_sorted (CandidateLess rs) cands) as Hs.
  destruct (std_sort (CandidateLess rs) cands) as [|c l] eqn:Hsort.
  - apply Permutation_nil_l in Hp. subst cands.
    split; [done|]. split; [done|]. split; [|done]. split; [done|]. split; [done|]. split; [done|].
    split; [constructor|by left].
  - split; [done|]. split; [done|]. split; [|cbn [reason]; by destruct (existsb _ _)].
    split; [done|]. split; [done|]. split; [done|]. split; [done|].
    right. exists c. split; [|split; [done|split; [done|split; [done|]]]].
    + split; [rewrite <- Hp; apply list_elem_of_here|]. intros c' Hc'. rewrite <- Hp in Hc'.
      apply elem_of_cons in Hc' as [->|Hc'].
      * destruct (CandidateLess rs c c) eqn:H; [|done]. pose proof (less_asym c c H). congruence.
      * apply StronglySorted_inv in Hs as [_ Hall]. rewrite Forall_forall in Hall. by apply Hall.
    + cbn [conflict]. rewrite existsb_exists. split.
      * intros (c'&Hc'&Hne). exists c'. split; [rewrite <- Hp; by apply list_elem_of_In|by apply negb_true_iff].
      * intros (c'&Hc'&Hne). exists c'. rewrite <- Hp in Hc'. apply list_elem_of_In in Hc'.
        split; [done|by rewrite Hne].
Qed.

(** Candidates that agree on asset, rule and evidence are the same: the order
    of others is not determined by [std::sort]. *)
Definition separated (cands : list MetadataCandidate) : Prop :=
  forall a b, a ∈ cands -> b ∈ cands -> asset_id a = asset_id b ->
    extraction_rule a = extraction_rule b -> evidence a = evidence b -> a = b.

Lemma str_less_ties (a b : string) : a = b \/ str_less a b = true \/ str_less b a = true.
Proof.
  destruct (str_less a b) eqn:H1; [auto|]. destruct (str_less b a) eqn:H2; [auto|].
  left. by apply less_total.
Qed.

(** A comparison of a key first leaves ties in the key and in the rest. *)
Lemma lex_ties {A} (f : A -> string) (less : A -> A -> bool) a b :
  (if f a != f b then str_less (f a) (f b) else less a b) = false ->
  (if f b != f a then str_less (f b) (f a) else less b a) = false ->
  f a = f b /\ less a b = false /\ less b a = false.
Proof.
  destruct (decide (f a = f b)) as [He|Hne].
  - rewrite He, bool_decide_eq_true_2 by done. done.
  - rewrite !bool_decide_eq_false_2 by congruence. simpl.
    destruct (str_less_ties (f a) (f b)) as [|[|]]; congruence.
Qed.

Lemma provenance_less_ties a b :
  provenance_less a b = false -> provenance_less b a = false ->
  asset_id a = asset_id b /\ extraction_rule a = extraction_rule b /\ evidence a = evidence b.
Proof.
  pose (by_evidence a b := str_less (evidence a) (evidence b)).
  pose (by_rule a b := if extraction_rule a != extraction_rule b
                       then str_less (extraction_rule a) (extraction_rule b) else by_evidence a b).
  intros H1 H2. destruct (lex_ties asset_id by_rule a b H1 H2) as (Ha&H3&H4).
  destruct (lex_ties extraction_rule by_evidence a b H3 H4) as (Hr&H5&H6).
  split_and!; [done|done|]. by apply less_total.
Qed.

Lemma CandidateLess_ties rs a b :
  CandidateLess rs a b = false -> CandidateLess rs b a = false ->
  provenance_less a b = false /\ provenance_less b a = false.
Proof.
  unfold CandidateLess.
  destruct (decide (RuleRank rs (extraction_rule a) = RuleRank rs (extraction_rule b))) as [He|Hne].
  - rewrite He, !bool_decide_eq_false_2 by (intros H; by apply H).
    intros H1 H2. split; [exact H1|exact H2].
  - rewrite !bool_decide_eq_true_2 by congruence. rewrite !Nat.ltb_ge. lia.
Qed.

Lemma candidates_canonical rs a b :
  separated a -> a ≡ₚ b -> std_sort (CandidateLess rs) a = std_sort (CandidateLess rs) b.
Proof.
  intros Hsep Hp. apply std_sort_canonical; [apply _| |done]. intros x y Hx Hy H1 H2.
  destruct (CandidateLess_ties rs x y H1 H2) as [H3 H4].
  destruct (provenance_less_ties x y H3 H4) as (?&?&?). by apply Hsep.
Qed.

(** A field is resolved exactly when the ruleset is well-formed and every
    candidate is admissible for it; the value selected is that of the
    earliest rule, ties broken by asset, rule and evidence, a conflict is
    reported exactly when some candidate disagrees with it, every candidate
    is kept, and the result does not depend on the order of the candidates. *)
Lemma resolution_follows_the_rules f cands rs :
  (match Resolve f cands rs with
   | Ok r => wf_ruleset rs /\ Forall (admissible rs f) cands /\ resolves f cands rs r /\ reason r <> ""
   | Err st => ok st = false /\ ~ (wf_ruleset rs /\ Forall (admissible rs f) cands)
   end)
  /\ (separated cands -> forall cands', cands ≡ₚ cands' -> Resolve f cands' rs = Resolve f cands rs).
Proof.
  split; [apply Resolve_spec|]. intros Hsep cands' Hp. unfold Resolve.
  rewrite (candidates_canonical rs cands cands') by done.
  assert (existsb (fun c => negb (candidate_valid rs f c)) cands'
    = existsb (fun c => negb (candidate_valid rs f c)) cands) as ->; [|done].
  apply eq_bool_prop_intro. rewrite !Is_true_true, !existsb_exists.
  split; intros (c&Hc&Hv); exists c; (split; [|done]); rewrite <- list_elem_of_In in *; by rewrite Hp in *.
Qed.

(** The records the loop writes: one per candidate, the first selection is
    the selected one. *)
Lemma provenance_loop_spec r written l :
  length (provenance_loop r written l) = length l
  /\ length (filter (fun p => outcome p = kSelected) (provenance_loop r written l))
     = (if written then 0 else if existsb (is_selection r) l then 1 else 0)%nat
  /\ Forall (fun p => outcome p = kSelected -> exists c, c ∈ l /\ is_selection r c = true
       /\ prov_asset_id p = asset_id c /\ prov_value p = value c /\ prov_rule_id p = extraction_rule c)
     (provenance_loop r written l).
Proof.
  revert written. induction l as [|c l IH]; intros written; simpl.
  { split; [done|]. split; [by destruct written|constructor]. }
  destruct (IH (written || negb written && is_selection r c)) as (IH1&IH2&IH3).
  split; [by rewrite IH1|]. split.
  - rewrite filter_cons. cbn [outcome].
    destruct written; simpl in *; [by rewrite IH2|].
    destruct (is_selection r c); simpl in *; by rewrite IH2.
  - constructor.
    + cbn [outcome prov_asset_id prov_value prov_rule_id].
      destruct (negb written && is_selection r c) eqn:Hs; [|done]. intros _. exists c.
      apply andb_true_iff in Hs as [_ Hs]. split; [apply list_elem_of_here|done].
    + eapply Forall_impl; [exact IH3|]. simpl. intros p Hp Ho. destruct (Hp Ho) as (c'&Hc'&?).
      exists c'. split; [by apply list_elem_of_further|done].
Qed.

(** A resolution of the resolver is a valid record. *)
Lemma Resolve_valid f cands rs r :
  Resolve f cands rs = Ok r -> ok (ValidateResolutionRecord r) = true.
Proof.
  intros Hr. pose proof (Resolve_spec f cands rs) as H. rewrite Hr in H.
  destruct H as (Hrs&Hall&(Hf&Hver&Hp&_&Hsel)&Hreason).
  assert (forall c, admissible rs f c -> extraction_rule c <> "") as Hrule.
  { intros c (_&_&(x&Hx&<-&_)&_). destruct Hrs. rewrite Forall_forall in wr_ids0. by apply wr_ids0. }
  unfold ValidateResolutionRecord.
  assert (existsb (fun c => str_empty (asset_id c) || (field c != record_field r)
     || str_empty (extraction_rule c) || negb (IsMetadataValueCompatible (field c) (value c))) (candidates r)
     = false) as ->.
  { apply not_true_iff_false. rewrite existsb_exists. intros (c&Hc&Hbad).
    apply list_elem_of_In in Hc. rewrite Hp in Hc. rewrite Forall_forall in Hall. specialize (Hall c Hc).
    pose proof (Hrule c Hall) as Hne. destruct Hall as (Hcf&Ha&_&Hv). rewrite Hf, Hcf, Hv in Hbad.
    rewrite bool_decide_eq_true_2 in Hbad by done. simpl in Hbad.
    destruct (str_empty (asset_id c)) eqn:E1; [by apply str_empty_true in E1|].
    destruct (str_empty (extraction_rule c)) eqn:E2; [by apply str_empty_true in E2|]. done. }
  assert (conflict r && str_empty (reason r) = false) as ->.
  { destruct (str_empty (reason r)) eqn:E; [by apply str_empty_true in E|]. by rewrite andb_false_r. }
  destruct Hsel as [(_&Hv&Hs&_)|(c&[Hc _]&Hv&Hs&Hid&_)]; rewrite Hv, Hs; simpl.
  - done.
  - rewrite Forall_forall in Hall. specialize (Hall c Hc). rewrite Hf.
    destruct (Hall) as (_&_&_&->). simpl. rewrite Hid, Hver.
    destruct (str_empty (extraction_rule c)) eqn:E; [apply str_empty_true in E; by apply Hrule in E|].
    destruct (str_empty (ruleset_version rs)) eqn:E'; [|done].
    apply str_empty_true in E'. by destruct Hrs.
Qed.

(** The provenance of a resolution always exists, has one record per
    candidate, and marks exactly one as selected when there is a candidate:
    one of the resolved rule, with the resolved value. *)
Lemma provenance_marks_one_selection f cands rs r :
  Resolve f cands rs = Ok r ->
  exists records, BuildProvenance r = Ok records /\ length records = length cands
    /\ length (filter (fun p => outcome p = kSelected) records) = (match cands with [] => 0 | _ => 1 end)%nat
    /\ Forall (fun p => outcome p = kSelected ->
         exists c v, c ∈ cands /\ prov_value p = value c /\ prov_rule_id p = rule_id r
           /\ selected_value r = Some v /\ MetadataValuesEqual (prov_value p) v = true) records.
Proof.
  intros Hr. pose proof (Resolve_valid f cands rs r Hr) as Hvalid.
  pose proof (Resolve_spec f cands rs) as H. rewrite Hr in H.
  destruct H as (Hrs&Hall&(Hf&Hver&Hp&_&Hsel)&_).
  unfold BuildProvenance. rewrite Hvalid. simpl. eexists. split; [done|].
  destruct (provenance_loop_spec r false (std_sort provenance_less (candidates r))) as (Hlen&Hcount&Hforall).
  assert (std_sort provenance_less (candidates r) ≡ₚ cands) as Hperm by (by rewrite std_sort_perm).
  rewrite Hlen, Hcount. split; [by rewrite Hperm|]. split.
  - destruct Hsel as [(->&_)|(c&[Hc Hwin]&Hv&Hs&Hid&_)].
    + apply Permutation_nil_r in Hperm. by rewrite Hperm.
    + assert (existsb (is_selection r) (std_sort provenance_less (candidates r)) = true) as ->.
      { apply existsb_exists. exists c. split; [apply list_elem_of_In; by rewrite Hperm|].
        unfold is_selection. rewrite Hv, Hs, Hid, !bool_decide_eq_true_2 by done. simpl.
        rewrite Forall_forall in Hall. destruct (Hall c Hc) as (_&_&_&Hcomp).
        by eapply compatible_refl. }
      destruct cands; [by apply elem_of_nil in Hc|done].
  - eapply Forall_impl; [exact Hforall|]. simpl. intros p Hsp Ho.
    destruct (Hsp Ho) as (c&Hc&Hi&_&Hpv&Hpr). rewrite Hperm in Hc.
    unfold is_selection in Hi. destruct (selected_value r) as [v|]; [|done].
    destruct (selected_source r); [|done]. rewrite !andb_true_iff, !bool_decide_eq_true in Hi.
    destruct Hi as [[_ Hi1] Hi2]. exists c, v. rewrite Hpv, Hpr. by split_and!.
Qed.

(** ** Examples *)

Module MetadataDemo.
Definition title (asset ev v : string) : MetadataCandidate :=
  mkMetadataCandidate asset kTitle (VString v) kGoogleTakeoutJson "takeout.json.title.v1" ev.
Definition titles : list MetadataCandidate := [title "b" "b.json" "Beach"; title "a" "a.json" "Sea"].
End MetadataDemo.

Lemma resolution_follows_the_rules_witness :
  Resolve kTitle (rev MetadataDemo.titles) GoogleTakeoutMetadataRuleset
  = Resolve kTitle MetadataDemo.titles GoogleTakeoutMetadataRuleset.
Proof.
  apply (proj2 (resolution_follows_the_rules kTitle MetadataDemo.titles GoogleTakeoutMetadataRuleset));
    [|apply perm_swap].
  intros a b Ha Hb. unfold MetadataDemo.titles in *. rewrite !elem_of_cons, elem_of_nil in *.
  destruct Ha as [->|[->|[]]], Hb as [->|[->|[]]]; done.
Defined.

Lemma provenance_marks_one_selection_witness :
  exists r records, Resolve kTitle MetadataDemo.titles GoogleTakeoutMetadataRuleset = Ok r
    /\ conflict r = true /\ BuildProvenance r = Ok records /\ length records = 2%nat.
Proof.
  eexists. destruct (provenance_marks_one_selection kTitle MetadataDemo.titles GoogleTakeoutMetadataRuleset _
    ltac:(by vm_compute)) as (records&Hrec&Hlen&_).
  exists records. split; [by vm_compute|]. split; [by vm_compute|]. split; [exact Hrec|exact Hlen].
Defined.
