(* ===== verification/Diff.v ===== *)
(** * Diff: expected against observed files

    Models src/model/diff_engine.cpp: the differences reported by recovery
    and audit. *)

From S2P Require Import Prelude Status Bytes Order.

Record DiffFileState := mkDiffFileState {
  path : string;
  state_size : Z;
  state_digest : option Digest;
}.

Module DiffKind.
Inductive t := kAdded | kRemoved | kChanged.
#[global] Instance eq_dec : EqDecision t.
Proof. solve_decision. Defined.
#[global] Program Instance enum : CppEnum t := {|
  to_int c := match c with kAdded => 0 | kRemoved => 1 | kChanged => 2 end;
  of_int z := if z =? 0 then Some kAdded else if z =? 1 then Some kRemoved
              else if z =? 2 then Some kChanged else None
|}.
Next Obligation. by intros []. Qed.
Next Obligation. intros z e Hz. simpl in Hz. repeat split_if; simplify_eq; bool_hyps; done. Qed.
End DiffKind.

Record DiffEntry := mkDiffEntry { entry_path : string; entry_kind : DiffKind.t }.

#[global] Instance DiffFileState_eq_dec : EqDecision DiffFileState.
Proof. solve_decision. Defined.
#[global] Instance DiffEntry_eq_dec : EqDecision DiffEntry.
Proof. solve_decision. Defined.

(** [std::map<std::string, const DiffFileState*>::emplace] keeps the first. *)
Definition emplace (m : gmap string DiffFileState) (s : DiffFileState) : gmap string DiffFileState :=
  match m !! path s with Some _ => m | None => <[path s := s]> m end.
Definition by_path (states : list DiffFileState) : gmap string DiffFileState := foldl emplace ∅ states.

(** The keys of a [std::map], in order. *)
Definition keys_of (m : gmap string DiffFileState) : list string :=
  std_sort str_less (fst <$> map_to_list m).

Definition differs (expected observed : DiffFileState) : bool :=
  negb (state_size expected =? state_size observed) || (state_digest expected != state_digest observed).

(** The two loops of [DiffFileStates]. *)
Definition expected_entry (expected observed : gmap string DiffFileState) (p : string) : option DiffEntry :=
  state ← expected !! p;
  match observed !! p with
  | None => Some (mkDiffEntry p DiffKind.kRemoved)
  | Some actual => if differs state actual then Some (mkDiffEntry p DiffKind.kChanged) else None
  end.
Definition observed_entry (expected : gmap string DiffFileState) (p : string) : option DiffEntry :=
  match expected !! p with None => Some (mkDiffEntry p DiffKind.kAdded) | Some _ => None end.

Definition diff_less (left right : DiffEntry) : bool :=
  if entry_path left != entry_path right then str_less (entry_path left) (entry_path right)
  else to_int (entry_kind left) <? to_int (entry_kind right).

Definition DiffFileStates (expected observed : list DiffFileState) : list DiffEntry :=
  let expected_by_path := by_path expected in
  let observed_by_path := by_path observed in
  std_sort diff_less
    (omap (expected_entry expected_by_path observed_by_path) (keys_of expected_by_path)
     ++ omap (observed_entry expected_by_path) (keys_of observed_by_path)).

(** ** Properties *)

(** The state a list gives for a path: the first one. *)
Definition state_at (states : list DiffFileState) (p : string) : option DiffFileState :=
  head (filter (fun s => path s = p) states).

Lemma by_path_lookup states p : by_path states !! p = state_at states p.
Proof.
  unfold by_path. assert (forall m, foldl emplace m states !! p =
    match m !! p with Some s => Some s | None => state_at states p end) as Hgen.
  { unfold state_at. induction states as [|s l IH]; intros m; simpl; [by destruct (m !! p)|].
    rewrite IH, filter_cons. unfold emplace.
    destruct (decide (path s = p)) as [<-|Hne].
    - destruct (m !! path s) eqn:Hm; [by rewrite Hm|]. by rewrite lookup_insert_eq.
    - destruct (m !! path s); [done|]. by rewrite lookup_insert_ne. }
  rewrite Hgen. by rewrite lookup_empty.
Qed.

Lemma elem_of_keys m p : p ∈ keys_of m <-> is_Some (m !! p).
Proof.
  unfold keys_of. rewrite elem_of_std_sort, list_elem_of_fmap. split.
  - intros ([q s]&->&Hin). apply elem_of_map_to_list in Hin. by exists s.
  - intros [s Hs]. exists (p, s). split; [done|by apply elem_of_map_to_list].
Qed.

Lemma keys_NoDup m : NoDup (keys_of m).
Proof. unfold keys_of. rewrite std_sort_perm. apply NoDup_fst_map_to_list. Qed.

#[export] Instance diff_less_total : StrictTotalOrder diff_less.
Proof.
  split.
  - apply (lex_swo entry_path str_less (fun a b => to_int (entry_kind a) <? to_int (entry_kind b)));
      [apply _|]. apply (key_swo (fun e => to_int (entry_kind e)) Z.ltb), total_swo.
  - intros a b. unfold diff_less.
    destruct (decide (entry_path a = entry_path b)) as [He|Hne].
    + rewrite He, bool_decide_eq_true_2 by done. simpl. intros H1 H2.
      assert (to_int (entry_kind a) = to_int (entry_kind b)) as Hk%to_int_inj by (by apply less_total).
      destruct a, b; simpl in *; by subst.
    + rewrite !bool_decide_eq_false_2 by congruence. simpl. intros H1 H2.
      by destruct Hne; apply less_total.
Qed.

(** What is to be reported for a path. *)
Definition change_of (expected observed : option DiffFileState) : option DiffKind.t :=
  match expected, observed with
  | Some _, None => Some DiffKind.kRemoved
  | None, Some _ => Some DiffKind.kAdded
  | Some e, Some o =>
      if decide (state_size e = state_size o /\ state_digest e = state_digest o)
      then None else Some DiffKind.kChanged
  | None, None => None
  end.

Lemma differs_change e o :
  differs e o = negb (bool_decide (state_size e = state_size o /\ state_digest e = state_digest o)).
Proof.
  unfold differs. destruct (Z.eqb_spec (state_size e) (state_size o)) as [H1|H1];
    destruct (bool_decide_reflect (state_digest e = state_digest o)) as [H2|H2]; simpl;
    destruct (bool_decide_reflect (state_size e = state_size o /\ state_digest e = state_digest o)); tauto.
Qed.

Lemma expected_entry_Some E O q p k :
  expected_entry E O q = Some (mkDiffEntry p k) <->
  q = p /\ is_Some (E !! p) /\ change_of (E !! p) (O !! p) = Some k.
Proof.
  unfold expected_entry, change_of. split.
  - destruct (E !! q) as [e|] eqn:He; [|done]. simpl. destruct (O !! q) as [o|] eqn:Ho.
    + rewrite differs_change. destruct (bool_decide_reflect (state_size e = state_size o
        /\ state_digest e = state_digest o)) as [Hs|Hs]; simpl; [done|]. intros [= <- <-].
      rewrite He, Ho. by rewrite decide_False.
    + intros [= <- <-]. by rewrite He, Ho.
  - intros (->&[e He]&Hk). rewrite He in *. simpl. destruct (O !! p) as [o|]; [|by injection Hk as <-].
    rewrite differs_change. destruct (decide _) as [|Hne] in Hk; [done|]. injection Hk as <-.
    by rewrite bool_decide_eq_false_2.
Qed.

Lemma observed_entry_Some E q p k :
  observed_entry E q = Some (mkDiffEntry p k) <-> q = p /\ E !! p = None /\ k = DiffKind.kAdded.
Proof.
  unfold observed_entry. split.
  - destruct (E !! q) eqn:He; [done|]. by intros [= <- <-].
  - by intros (->&->&->).
Qed.

Lemma elem_of_report expected observed p k :
  mkDiffEntry p k ∈ DiffFileStates expected observed <->
  change_of (state_at expected p) (state_at observed p) = Some k.
Proof.
  rewrite <- !by_path_lookup. unfold DiffFileStates.
  rewrite elem_of_std_sort, elem_of_app, !list_elem_of_omap. split.
  - intros [(q&_&(->&_&Hk)%expected_entry_Some)|(q&Ho%elem_of_keys&(->&He&->)%observed_entry_Some)]; [done|].
    rewrite He. destruct Ho as [o Ho]. by rewrite Ho.
  - intros Hk. destruct (by_path expected !! p) as [e|] eqn:He.
    + left. exists p. split; [apply elem_of_keys; by eexists|]. apply expected_entry_Some.
      by rewrite He.
    + right. exists p. destruct (by_path observed !! p) as [o|] eqn:Ho; [|done]. injection Hk as <-.
      split; [apply elem_of_keys; by eexists|]. by apply observed_entry_Some.
Qed.

Lemma NoDup_omap {A B} (f : A -> option B) (l : list A) :
  (forall x y z, f x = Some z -> f y = Some z -> x = y) -> NoDup l -> NoDup (omap f l).
Proof.
  intros Hinj. induction 1 as [|x l Hx Hnd IH]; [constructor|]. simpl.
  destruct (f x) as [z|] eqn:Hf; [|done]. constructor; [|done].
  intros (y&Hy&Hfy)%list_elem_of_omap. by rewrite (Hinj x y z) in Hx.
Qed.

Lemma report_NoDup expected observed : NoDup (DiffFileStates expected observed).
Proof.
  unfold DiffFileStates. rewrite std_sort_perm. apply NoDup_app. split_and!.
  - apply NoDup_omap; [|apply keys_NoDup]. intros p q [x k] (->&_)%expected_entry_Some.
    by intros (->&_)%expected_entry_Some.
  - intros [x k]. rewrite !list_elem_of_omap.
    intros (p&_&(->&[e He]&_)%expected_entry_Some) (q&_&(->&Hn&_)%observed_entry_Some). congruence.
  - apply NoDup_omap; [|apply keys_NoDup]. intros p q [x k] (->&_)%observed_entry_Some.
    by intros (->&_)%observed_entry_Some.
Qed.

(** The report lists exactly the paths on which expectation and
    observation differ, each once with the right kind, sorted by path; so it
    is empty exactly when every path has the same size and digest on both
    sides. *)
Lemma diff_is_exact expected observed :
  let report := DiffFileStates expected observed in
  (forall p k, mkDiffEntry p k ∈ report <-> change_of (state_at expected p) (state_at observed p) = Some k)
  /\ NoDup (entry_path <$> report)
  /\ StronglySorted (in_order diff_less) report
  /\ (report = [] <-> forall p, change_of (state_at expected p) (state_at observed p) = None).
Proof.
  intros report. pose proof (elem_of_report expected observed) as Hin.
  pose proof (report_NoDup expected observed) as Hnd. fold report in Hin, Hnd.
  split_and!; [done| |apply std_sort_sorted, total_swo|].
  - apply NoDup_fmap_2_strong; [|done]. intros [p k] [q k'] Hp Hq. simpl. intros ->.
    apply Hin in Hp, Hq. congruence.
  - split.
    + intros Hnil p. destruct (change_of _ _) as [k|] eqn:Hk; [|done].
      apply Hin in Hk. rewrite Hnil in Hk. by apply elem_of_nil in Hk.
    + intros Hnone. destruct report as [|[p k] l]; [done|].
      assert (mkDiffEntry p k ∈ mkDiffEntry p k :: l) as Hx by apply list_elem_of_here.
      apply Hin in Hx. by rewrite Hnone in Hx.
Qed.
