(* ===== verification/CanonicalPlan.v ===== *)
(** * CanonicalPlan: the frozen meaning of a migration plan

    Models src/model/canonical_plan.cpp: the checks on a plan's input, its
    canonical order, and the binary payload whose hash identifies the plan. *)

From S2P Require Import Prelude Status Bytes Order RelativePath Task Capability Assets PathMapper.

Definition kCanonicalMinimalPlanVersion : Z := 1.

Record MinimalPlanAsset := mkMinimalPlanAsset {
  plan_logical_id : string;
  plan_source_id : string;
  plan_source_path : RelativePath;
  plan_target_path : RelativePath;
  source_identity : FileIdentity.t;
}.

Record MinimalPlanInput := mkMinimalPlanInput {
  source_manifest_id : string;
  source_manifest_digest : Digest;
  target_root : string;
  capabilities : TargetCapabilities;
  policy : MigrationPolicy;
  assets : list MinimalPlanAsset;
}.

#[global] Instance MinimalPlanAsset_eq_dec : EqDecision MinimalPlanAsset.
Proof. solve_decision. Defined.
#[global] Instance MinimalPlanInput_eq_dec : EqDecision MinimalPlanInput.
Proof. solve_decision. Defined.

(** ** Building *)

(** The loop of [ValidatePlanInput] over the assets. *)
Fixpoint validate_plan_assets (l : list MinimalPlanAsset) : Status :=
  match l with
  | [] => Status_Ok
  | asset :: l =>
      if str_empty (plan_logical_id asset) || str_empty (plan_source_id asset)
      then Invalid "minimal plan asset ids must not be empty"
      else if str_empty (raw_bytes (plan_source_path asset)) || str_empty (raw_bytes (plan_target_path asset))
      then Invalid "minimal plan asset paths must not be empty"
      else validate_plan_assets l
  end.

Definition ValidatePlanInput (input : MinimalPlanInput) : Status :=
  if str_empty (source_manifest_id input) then Invalid "minimal plan source manifest id must not be empty"
  else if str_contains NUL (source_manifest_id input)
  then Invalid "minimal plan source manifest id must not contain NUL"
  else if str_empty (target_root input) then Invalid "minimal plan target root must not be empty"
  else if str_contains NUL (target_root input) then Invalid "minimal plan target root must not contain NUL"
  else
    and_then (ValidateCapabilities (capabilities input)) (
    and_then (ValidatePolicy (policy input)) (
    and_then (validate_plan_assets (assets input)) (
    if adjacent_equal (std_sort str_less (plan_logical_id <$> assets input))
    then Invalid "minimal plan logical asset ids must be unique"
    else if adjacent_equal (std_sort str_less (plan_source_id <$> assets input))
    then Invalid "minimal plan source asset ids must be unique"
    else Status_Ok))).

Definition plan_asset_less (lhs rhs : MinimalPlanAsset) : bool :=
  if plan_logical_id lhs != plan_logical_id rhs
  then str_less (plan_logical_id lhs) (plan_logical_id rhs)
  else str_less (plan_source_id lhs) (plan_source_id rhs).

(** The constructor of [CanonicalMinimalPlan], whose only member is the
    sorted input. *)
Definition CanonicalMinimalPlan_of (input : MinimalPlanInput) : MinimalPlanInput :=
  mkMinimalPlanInput (source_manifest_id input) (source_manifest_digest input) (target_root input)
    (capabilities input) (policy input) (std_sort plan_asset_less (assets input)).

(** [CanonicalMinimalPlan::Build] *)
Definition Build (input : MinimalPlanInput) : StatusOr MinimalPlanInput :=
  check (ValidatePlanInput input) (Ok (CanonicalMinimalPlan_of input)).

(** ** The payload *)

Definition AppendBool (value : bool) (output : string) : string :=
  push_back output (if value then Ascii.one else Ascii.zero).

Definition AppendFileIdentity (i : FileIdentity.t) (output : string) : string :=
  let output := AppendUint64 (FileIdentity.device i) output in
  let output := AppendUint64 (FileIdentity.inode i) output in
  let output := AppendUint64 (FileIdentity.size i) output in
  let output := AppendUint64 (to_uint64 (FileIdentity.mtime_ns i)) output in
  let output := AppendUint64 (to_uint64 (FileIdentity.ctime_ns i)) output in
  let output := AppendBool (has_value (FileIdentity.mount_id i)) output in
  match FileIdentity.mount_id i with
  | Some mount_id => AppendUint64 mount_id output
  | None => output
  end.

Definition append_capability (payload : string) (c : Capability) : string :=
  let payload := AppendUint64 (to_int (kind c)) payload in
  let payload := AppendUint64 (to_int (level c)) payload in
  let payload := AppendLengthPrefixed (representation c) payload in
  AppendLengthPrefixed (reason c) payload.

Definition append_asset (payload : string) (a : MinimalPlanAsset) : string :=
  let payload := AppendLengthPrefixed (plan_logical_id a) payload in
  let payload := AppendLengthPrefixed (plan_source_id a) payload in
  let payload := AppendLengthPrefixed (raw_bytes (plan_source_path a)) payload in
  let payload := AppendLengthPrefixed (raw_bytes (plan_target_path a)) payload in
  AppendFileIdentity (source_identity a) payload.

(** [std::string CanonicalMinimalPlan::CanonicalPlanPayload() const] *)
Definition CanonicalPlanPayload (plan : MinimalPlanInput) : string :=
  let payload := AppendLengthPrefixed "PB_CANONICAL_MINIMAL_PLAN_V1" "" in
  let payload := AppendUint64 kCanonicalMinimalPlanVersion payload in
  let payload := AppendLengthPrefixed (source_manifest_id plan) payload in
  let payload := payload +:+ bytes (source_manifest_digest plan) in
  let payload := AppendLengthPrefixed (target_root plan) payload in
  let payload := AppendLengthPrefixed (version (capabilities plan)) payload in
  let payload := AppendLengthPrefixed (target_prefix (policy plan)) payload in
  let payload := AppendBool (preserve_source_directories (policy plan)) payload in
  let payload := AppendUint64 (max_component_bytes (policy plan)) payload in
  let payload := AppendUint64 (max_path_bytes (policy plan)) payload in
  let payload := AppendUint64 (Z.of_nat (length (entries (capabilities plan)))) payload in
  let payload := foldl append_capability payload (entries (capabilities plan)) in
  let payload := AppendUint64 (Z.of_nat (length (assets plan))) payload in
  foldl append_asset payload (assets plan).

(** ** Canonical order *)

#[export] Instance plan_asset_less_swo : StrictWeakOrder plan_asset_less.
Proof.
  apply (lex_swo plan_logical_id str_less (fun a b => str_less (plan_source_id a) (plan_source_id b)));
    [apply _|apply (key_swo plan_source_id), total_swo].
Qed.

(** What the checks accept. *)
Record valid_plan (input : MinimalPlanInput) : Prop := {
  vp_manifest : source_manifest_id input <> "" /\ str_contains NUL (source_manifest_id input) = false;
  vp_root : target_root input <> "" /\ str_contains NUL (target_root input) = false;
  vp_capabilities : wf_capabilities (capabilities input);
  vp_policy : ok (ValidatePolicy (policy input)) = true;
  vp_assets : Forall (fun a => plan_logical_id a <> "" /\ plan_source_id a <> ""
    /\ raw_bytes (plan_source_path a) <> "" /\ raw_bytes (plan_target_path a) <> "") (assets input);
  vp_logical_ids : NoDup (plan_logical_id <$> assets input);
  vp_source_ids : NoDup (plan_source_id <$> assets input);
}.

Lemma validate_plan_assets_ok l :
  ok (validate_plan_assets l) = true <->
  Forall (fun a => plan_logical_id a <> "" /\ plan_source_id a <> ""
    /\ raw_bytes (plan_source_path a) <> "" /\ raw_bytes (plan_target_path a) <> "") l.
Proof.
  induction l as [|a l IH]; simpl; [by split; [constructor|]|].
  rewrite Forall_cons, <- IH, <- !str_empty_false.
  destruct (str_empty (plan_logical_id a)), (str_empty (plan_source_id a)),
    (str_empty (raw_bytes (plan_source_path a))), (str_empty (raw_bytes (plan_target_path a)));
    simpl; intuition (done || congruence).
Qed.

Lemma ValidatePlanInput_ok input : ok (ValidatePlanInput input) = true <-> valid_plan input.
Proof.
  unfold ValidatePlanInput.
  destruct (str_empty (source_manifest_id input)) eqn:H1.
  { apply str_empty_true in H1. split; [done|]. by intros [[? _]]. }
  destruct (str_contains NUL (source_manifest_id input)) eqn:H2.
  { split; [done|]. intros [[_ ?]]. congruence. }
  destruct (str_empty (target_root input)) eqn:H3.
  { apply str_empty_true in H3. split; [done|]. by intros [_ [? _]]. }
  destruct (str_contains NUL (target_root input)) eqn:H4.
  { split; [done|]. intros [_ [_ ?]]. congruence. }
  apply str_empty_false in H1. apply str_empty_false in H3.
  rewrite !and_then_ok, !andb_true_iff, ValidateCapabilities_ok, validate_plan_assets_ok.
  pose proof (adjacent_equal_sort str_less (plan_logical_id <$> assets input)) as Hl.
  pose proof (adjacent_equal_sort str_less (plan_source_id <$> assets input)) as Hs.
  destruct (adjacent_equal (std_sort str_less (plan_logical_id <$> assets input))).
  { split; [by intros (_&_&_&?)|]. intros []. destruct Hl as [_ Hl]. by specialize (Hl vp_logical_ids0). }
  destruct (adjacent_equal (std_sort str_less (plan_source_id <$> assets input))).
  { split; [by intros (_&_&_&?)|]. intros []. destruct Hs as [_ Hs]. by specialize (Hs vp_source_ids0). }
  split.
  - intros (?&?&?&_). split; try done; [by apply Hl|by apply Hs].
  - intros []. by split_and!.
Qed.

Lemma plan_assets_separate (l : list MinimalPlanAsset) a b :
  NoDup (plan_logical_id <$> l) -> a ∈ l -> b ∈ l ->
  plan_asset_less a b = false -> plan_asset_less b a = false -> a = b.
Proof.
  intros Hnd Ha Hb. unfold plan_asset_less.
  destruct (bool_decide_reflect (plan_logical_id a = plan_logical_id b)) as [Heq|Hne]; simpl.
  - intros _ _. apply list_elem_of_lookup in Ha as [i Hi]. apply list_elem_of_lookup in Hb as [j Hj].
    assert (i = j) as ->; [|congruence].
    apply (NoDup_lookup (plan_logical_id <$> l) i j (plan_logical_id a)); [done| |].
    + by rewrite list_lookup_fmap, Hi.
    + by rewrite list_lookup_fmap, Hj, Heq.
  - rewrite bool_decide_eq_false_2 by congruence. simpl. intros H1 H2.
    by destruct Hne; apply less_total.
Qed.

(** Building again changes nothing. *)
Lemma Build_Ok input plan : Build input = Ok plan -> valid_plan plan /\ Build plan = Ok plan.
Proof.
  unfold Build. intros H. destruct (ok (ValidatePlanInput input)) eqn:Hv; [|by unfold check in H; rewrite Hv in H].
  unfold check in H. rewrite Hv in H. injection H as <-. apply ValidatePlanInput_ok in Hv.
  assert (valid_plan (CanonicalMinimalPlan_of input)) as Hv'.
  { destruct Hv. split; simpl; try done; by rewrite std_sort_perm. }
  split; [done|]. unfold check. rewrite (proj2 (ValidatePlanInput_ok _) Hv'). f_equal.
  unfold CanonicalMinimalPlan_of. simpl. f_equal. apply std_sort_fixed.
  - apply _.
  - intros a b. apply plan_assets_separate. apply Hv'.
  - apply std_sort_sorted, _.
Qed.

Definition with_assets (input : MinimalPlanInput) (l : list MinimalPlanAsset) : MinimalPlanInput :=
  mkMinimalPlanInput (source_manifest_id input) (source_manifest_digest input) (target_root input)
    (capabilities input) (policy input) l.

(** A plan is built exactly from valid input, keeps everything of it, and
    is the same whatever the order in which the assets were listed: so are
    its payload and the hash that names it. *)
Lemma plans_are_canonical input :
  (forall plan, Build input = Ok plan <->
     valid_plan input /\ plan = with_assets input (assets plan) /\ assets plan ≡ₚ assets input
     /\ StronglySorted (in_order plan_asset_less) (assets plan))
  /\ (forall l, assets input ≡ₚ l -> is_ok (Build input) = true ->
       Build (with_assets input l) = Build input).
Proof.
  assert (forall plan, valid_plan input ->
     (plan = CanonicalMinimalPlan_of input <->
      plan = with_assets input (assets plan) /\ assets plan ≡ₚ assets input
      /\ StronglySorted (in_order plan_asset_less) (assets plan))) as Hcanon.
  { intros plan Hv. unfold CanonicalMinimalPlan_of. split.
    - intros ->. simpl. split; [done|]. split; [apply std_sort_perm|apply std_sort_sorted, _].
    - intros (Heq&Hp&Hs). rewrite Heq. unfold with_assets. f_equal.
      apply (sorted_unique plan_asset_less); [|done|apply std_sort_sorted, _|].
      + intros a b. apply plan_assets_separate. rewrite Hp. apply Hv.
      + by rewrite std_sort_perm. }
  split.
  - intros plan. unfold Build. rewrite check_Ok, ValidatePlanInput_ok. split.
    + intros [Hv [= <-]]. split; [done|]. by apply Hcanon.
    + intros (Hv&Hrest). split; [done|]. f_equal. symmetry. by apply Hcanon.
  - intros l Hp Hok. unfold Build in *.
    destruct (ok (ValidatePlanInput input)) eqn:Hv; unfold check in *; rewrite Hv in *; [|done].
    apply ValidatePlanInput_ok in Hv.
    assert (valid_plan (with_assets input l)) as Hv'.
    { destruct Hv. split; simpl; try done; by rewrite <- Hp. }
    rewrite (proj2 (ValidatePlanInput_ok (with_assets input l)) Hv'). f_equal.
    unfold CanonicalMinimalPlan_of, with_assets. simpl. f_equal.
    apply std_sort_canonical; [apply _| |done]. intros a b. apply plan_assets_separate. apply Hv'.
Qed.

(** ** The payload determines the plan *)

Definition enc_identity (i : FileIdentity.t) : string :=
  le64 (FileIdentity.device i) +:+ le64 (FileIdentity.inode i) +:+ le64 (FileIdentity.size i)
  +:+ le64 (to_uint64 (FileIdentity.mtime_ns i)) +:+ le64 (to_uint64 (FileIdentity.ctime_ns i))
  +:+ bool_byte (has_value (FileIdentity.mount_id i))
  +:+ (match FileIdentity.mount_id i with Some m => le64 m | None => "" end).

Definition enc_capability (c : Capability) : string :=
  le64 (to_int (kind c)) +:+ le64 (to_int (level c)) +:+ length_prefixed (representation c)
  +:+ length_prefixed (reason c).

Definition enc_asset (a : MinimalPlanAsset) : string :=
  length_prefixed (plan_logical_id a) +:+ length_prefixed (plan_source_id a)
  +:+ length_prefixed (raw_bytes (plan_source_path a)) +:+ length_prefixed (raw_bytes (plan_target_path a))
  +:+ enc_identity (source_identity a).

(** Values of the types the code has. *)
Definition capability_sized (c : Capability) : Prop := str_sized (representation c) /\ str_sized (reason c).
Definition plan_asset_sized (a : MinimalPlanAsset) : Prop :=
  str_sized (plan_logical_id a) /\ str_sized (plan_source_id a)
  /\ wf_path (plan_source_path a) /\ str_sized (raw_bytes (plan_source_path a))
  /\ wf_path (plan_target_path a) /\ str_sized (raw_bytes (plan_target_path a))
  /\ wf_identity (source_identity a).
Record plan_sized (p : MinimalPlanInput) : Prop := {
  ps_strings : str_sized (source_manifest_id p) /\ str_sized (target_root p)
    /\ str_sized (version (capabilities p)) /\ str_sized (target_prefix (policy p));
  ps_limits : is_uint64 (max_component_bytes (policy p)) /\ is_uint64 (max_path_bytes (policy p));
  ps_entries : Z.of_nat (length (entries (capabilities p))) < 2 ^ 64
    /\ Forall capability_sized (entries (capabilities p));
  ps_assets : Z.of_nat (length (assets p)) < 2 ^ 64 /\ Forall plan_asset_sized (assets p);
}.

Lemma uint64_range z : is_uint64 z <-> 0 <= z < 2 ^ 64.
Proof. unfold is_uint64, uint64_max. lia. Qed.

Lemma to_uint64_inj a b : is_int64 a -> is_int64 b -> to_uint64 a = to_uint64 b -> a = b.
Proof.
  unfold is_int64, int64_min, int64_max, to_uint64. intros Ha Hb Heq.
  assert ((a - b) mod 2 ^ 64 = 0) as Hm by (rewrite Zminus_mod, Heq, Z.sub_diag; done).
  apply Z.mod_divide in Hm as [k Hk]; [|done]. nia.
Qed.

Lemma to_uint64_range a : 0 <= to_uint64 a < 2 ^ 64.
Proof. by apply Z.mod_pos_bound. Qed.

Lemma delimited_identity : delimited wf_identity enc_identity.
Proof.
  intros a b x y (Hd1&Hi1&Hs1&Hm1&Hc1&Ho1) (Hd2&Hi2&Hs2&Hm2&Hc2&Ho2).
  unfold enc_identity. rewrite uint64_range in *. rewrite !str_app_assoc. intros Heq.
  apply delimited_uint64 in Heq as [Hd Heq]; [|done..].
  apply delimited_uint64 in Heq as [Hi Heq]; [|done..].
  apply delimited_uint64 in Heq as [Hs Heq]; [|done..].
  apply delimited_uint64 in Heq as [Hm Heq]; [|apply to_uint64_range..].
  apply delimited_uint64 in Heq as [Hc Heq]; [|apply to_uint64_range..].
  apply to_uint64_inj in Hm; [|done..]. apply to_uint64_inj in Hc; [|done..].
  apply delimited_bool in Heq as [Hb Heq]; [|done..].
  destruct a as [d1 i1 s1 m1 c1 [o1|]], b as [d2 i2 s2 m2 c2 [o2|]];
    cbn [FileIdentity.device FileIdentity.inode FileIdentity.size FileIdentity.mtime_ns
         FileIdentity.ctime_ns FileIdentity.mount_id has_value] in *; try done; subst; [|done].
  rewrite uint64_range in *. by apply delimited_uint64 in Heq as [-> ->].
Qed.

Lemma delimited_capability : delimited capability_sized enc_capability.
Proof.
  intros a b x y [Hr1 He1] [Hr2 He2]. unfold enc_capability. rewrite !str_app_assoc. intros Heq.
  assert (forall k : CapabilityKind.t, 0 <= to_int k < 2 ^ 64) as Hk by (by intros []).
  assert (forall l : SupportLevel.t, 0 <= to_int l < 2 ^ 64) as Hl by (by intros []).
  apply delimited_uint64 in Heq as [Hkind%to_int_inj Heq]; [|done..].
  apply delimited_uint64 in Heq as [Hlevel%to_int_inj Heq]; [|done..].
  apply delimited_string in Heq as [Hrep Heq]; [|done..].
  apply delimited_string in Heq as [Hreason ->]; [|done..].
  split; [|done]. destruct a as [k1 l1 p1 r1], b as [k2 l2 p2 r2].
  cbn [kind level representation reason] in *. by subst.
Qed.

Lemma delimited_asset : delimited plan_asset_sized enc_asset.
Proof.
  intros a b x y (Hl1&Hs1&Hp1&Hps1&Ht1&Hts1&Hi1) (Hl2&Hs2&Hp2&Hps2&Ht2&Hts2&Hi2).
  unfold enc_asset. rewrite !str_app_assoc. intros Heq.
  apply delimited_string in Heq as [Hl Heq]; [|done..].
  apply delimited_string in Heq as [Hs Heq]; [|done..].
  apply delimited_string in Heq as [Hp Heq]; [|done..].
  apply delimited_string in Heq as [Ht Heq]; [|done..].
  apply wf_path_raw_inj in Hp; [|done..]. apply wf_path_raw_inj in Ht; [|done..].
  apply delimited_identity in Heq as [Hi ->]; [|done..]. split; [|done].
  destruct a as [l1 s1 p1 t1 i1], b as [l2 s2 p2 t2 i2].
  cbn [plan_logical_id plan_source_id plan_source_path plan_target_path source_identity] in *. by subst.
Qed.

Lemma AppendFileIdentity_app i out : AppendFileIdentity i out = out +:+ enc_identity i.
Proof.
  unfold AppendFileIdentity, AppendBool, push_back, enc_identity.
  destruct (FileIdentity.mount_id i); rewrite !AppendUint64_app, !str_app_assoc; done.
Qed.

Lemma append_capability_app out c : append_capability out c = out +:+ enc_capability c.
Proof.
  unfold append_capability, enc_capability.
  by rewrite !AppendLengthPrefixed_app, !AppendUint64_app, !str_app_assoc.
Qed.

Lemma append_asset_app out a : append_asset out a = out +:+ enc_asset a.
Proof.
  unfold append_asset, enc_asset.
  by rewrite AppendFileIdentity_app, !AppendLengthPrefixed_app, !str_app_assoc.
Qed.

Lemma CanonicalPlanPayload_eq p :
  CanonicalPlanPayload p =
    length_prefixed "PB_CANONICAL_MINIMAL_PLAN_V1" +:+ le64 kCanonicalMinimalPlanVersion
    +:+ length_prefixed (source_manifest_id p) +:+ bytes (source_manifest_digest p)
    +:+ length_prefixed (target_root p) +:+ length_prefixed (version (capabilities p))
    +:+ length_prefixed (target_prefix (policy p)) +:+ bool_byte (preserve_source_directories (policy p))
    +:+ le64 (max_component_bytes (policy p)) +:+ le64 (max_path_bytes (policy p))
    +:+ counted enc_capability (entries (capabilities p)) +:+ counted enc_asset (assets p) +:+ "".
Proof.
  unfold CanonicalPlanPayload, AppendBool, push_back, counted.
  rewrite (foldl_append append_asset enc_asset) by apply append_asset_app.
  rewrite (foldl_append append_capability enc_capability) by apply append_capability_app.
  rewrite !AppendLengthPrefixed_app, !AppendUint64_app. by rewrite !str_app_assoc, str_app_nil.
Qed.

(** The canonical payload determines the plan: two plans with the same
    payload agree in every field, every capability and every asset, so only a
    BLAKE3 collision can give two plans one semantic digest. *)
Lemma payload_determines_plan p q :
  plan_sized p -> plan_sized q -> CanonicalPlanPayload p = CanonicalPlanPayload q -> p = q.
Proof.
  intros [(Hm1&Hr1&Hv1&Hx1) [Hc1 Hp1] He1 Ha1] [(Hm2&Hr2&Hv2&Hx2) [Hc2 Hp2] He2 Ha2].
  rewrite !CanonicalPlanPayload_eq. rewrite uint64_range in *. intros Heq.
  apply str_app_inj_l, str_app_inj_l in Heq.
  apply delimited_string in Heq as [Hm Heq]; [|done..].
  apply delimited_digest in Heq as [Hd Heq]; [|done..].
  apply delimited_string in Heq as [Hr Heq]; [|done..].
  apply delimited_string in Heq as [Hv Heq]; [|done..].
  apply delimited_string in Heq as [Hx Heq]; [|done..].
  apply delimited_bool in Heq as [Hb Heq]; [|done..].
  apply delimited_uint64 in Heq as [Hc Heq]; [|done..].
  apply delimited_uint64 in Heq as [Hp Heq]; [|done..].
  apply (delimited_counted _ _ delimited_capability) in Heq as [He Heq]; [|done..].
  apply (delimited_counted _ _ delimited_asset) in Heq as [Ha _]; [|done..].
  clear -Hm Hd Hr Hv Hx Hb Hc Hp He Ha.
  destruct p as [pm pd pr [pv pe] [px pb pc pp] pa], q as [qm qd qr [qv qe] [qx qb qc qp] qa].
  simpl in *. by subst.
Qed.

(** ** Examples *)

Module PlanDemo.
Definition asset (id source s : string) : MinimalPlanAsset :=
  mkMinimalPlanAsset id source (MapperDemo.path s) (MapperDemo.path s)
    (FileIdentity.mk 1 2 3 (-4) 5 (Some 6)).
Definition input (l : list MinimalPlanAsset) : MinimalPlanInput :=
  mkMinimalPlanInput "manifest" (Digest_of (fun _ => NUL)) "/target" LocalDirectoryCapabilitiesV1
    MapperDemo.policy l.
Definition forwards : MinimalPlanInput := input [asset "l1" "s1" "a.jpg"; asset "l2" "s2" "b.jpg"].
Definition backwards : MinimalPlanInput := input [asset "l2" "s2" "b.jpg"; asset "l1" "s1" "a.jpg"].
Definition plan (i : MinimalPlanInput) : MinimalPlanInput := CanonicalMinimalPlan_of i.
End PlanDemo.

Lemma plans_are_canonical_witness : Build PlanDemo.backwards = Build PlanDemo.forwards.
Proof.
  apply (proj2 (plans_are_canonical PlanDemo.forwards) (assets PlanDemo.backwards));
    [apply perm_swap|by vm_compute].
Defined.

Lemma demo_plan_sized i : i = PlanDemo.forwards \/ i = PlanDemo.backwards -> plan_sized (PlanDemo.plan i).
Proof.
  intros [->| ->]; (split; [by vm_compute|by vm_compute| |]); (split; [by vm_compute|]);
    repeat constructor; by vm_compute.
Qed.

Lemma payload_determines_plan_witness : PlanDemo.plan PlanDemo.forwards = PlanDemo.plan PlanDemo.backwards.
Proof.
  apply payload_determines_plan; [apply demo_plan_sized; by left|apply demo_plan_sized; by right|].
  by vm_compute.
Defined.
