(* ===== verification/PlanArtifact.v ===== *)
(** * PlanArtifact: the frozen plan as a JSON Lines file

    Models src/model/plan_artifact.cpp: one JSON record per line (a header,
    the assets, four fixed sections, an end record), the reader with every
    check in its order, and the two digests of the file.  The JSON printer
    and parser and BLAKE3 are parameters. *)

From stdpp Require Import pretty.
From S2P Require Import Prelude Status Bytes Order Base64 Json RelativePath Task Capability Assets PathMapper CanonicalPlan.

Definition kMaxJsonLineBytes : Z := Z.shiftl 1 20.
Definition kSemanticDomain : string := "PB_PLAN_SEMANTIC_V1".
Definition kCanonicalPlanSemanticVersion : string := "canonical-plan-semantic-v1".

Record FrozenPlanFile := mkFrozenPlanFile {
  frozen_plan_id : string;
  frozen_bytes : string;
  artifact_digest : Digest;
  semantic_digest : Digest;
  frozen_plan : MinimalPlanInput;
}.

(** ** Records as JSON values *)

(** [CheckRecord(object, record)] *)
Definition CheckRecord (object : Json) (record : string) : Status :=
  if negb (is_object object) then Invalid "plan JSON line must be an object"
  else match RequiredString object "record" with
  | Err status => status
  | Ok actual =>
      if actual != record then Invalid "unexpected plan JSON record type" else Status_Ok
  end.

Definition IdentityJson (identity : FileIdentity.t) : Json :=
  add_field "mount_id"
    (match FileIdentity.mount_id identity with
     | Some mount_id => JString (pretty mount_id)
     | None => JNull
     end)
    (Json_object [
      ("ctime_ns", JString (pretty (FileIdentity.ctime_ns identity)));
      ("device", JString (pretty (FileIdentity.device identity)));
      ("inode", JString (pretty (FileIdentity.inode identity)));
      ("mtime_ns", JString (pretty (FileIdentity.mtime_ns identity)));
      ("size", JString (pretty (FileIdentity.size identity)))]).

Definition ParseIdentity (object : Json) : StatusOr FileIdentity.t :=
  if negb (is_object object) then Err (Invalid "plan source_identity must be an object")
  else
    let? device := RequiredUint64 object "device" in
    let? inode := RequiredUint64 object "inode" in
    let? size := RequiredUint64 object "size" in
    let? mtime := RequiredString object "mtime_ns" in
    let? ctime := RequiredString object "ctime_ns" in
    let? mtime_value := ParseSigned mtime in
    let? ctime_value := ParseSigned ctime in
    match json_find object "mount_id" with
    | None => Err (Invalid "plan source_identity is missing mount_id")
    | Some JNull => Ok (FileIdentity.mk device inode size mtime_value ctime_value None)
    | Some (JString _) =>
        let? mount_value := RequiredUint64 object "mount_id" in
        Ok (FileIdentity.mk device inode size mtime_value ctime_value (Some mount_value))
    | Some _ => Err (Invalid "plan mount_id must be a string or null")
    end.

Definition CapabilityJson (capability : Capability) : Json :=
  Json_object [
    ("kind", JString (pretty (to_int (kind capability))));
    ("level", JString (pretty (to_int (level capability))));
    ("reason", JString (reason capability));
    ("representation", JString (representation capability))].

Definition ParseCapability (object : Json) : StatusOr Capability :=
  if negb (is_object object) then Err (Invalid "plan capability must be an object")
  else
    let? kind := RequiredUint64 object "kind" in
    let? level := RequiredUint64 object "level" in
    let? representation := RequiredString object "representation" in
    let? reason := RequiredString object "reason" in
    if (7 <? kind) || (5 <? level)
    then Err (Invalid "plan capability enum value is out of range")
    else match of_int kind, of_int level with
    | Some k, Some l => Ok (mkCapability k l representation reason)
    | _, _ => Err (Internal "unreachable: every value up to the bound is an enumerator")
    end.

Definition policy_json (policy : MigrationPolicy) : Json :=
  Json_object [
    ("max_component_bytes", JString (pretty (max_component_bytes policy)));
    ("max_path_bytes", JString (pretty (max_path_bytes policy)));
    ("preserve_source_directories", JBool (preserve_source_directories policy));
    ("target_prefix_b64", JString (Base64Encode (target_prefix policy)))].

Definition HeaderJson (plan : MinimalPlanInput) (plan_id : string) : Json :=
  Json_object [
    ("capabilities", JArray (CapabilityJson <$> entries (capabilities plan)));
    ("format_version", JString (pretty kCanonicalMinimalPlanVersion));
    ("plan_id", JString plan_id);
    ("policy", policy_json (policy plan));
    ("record", JString "header");
    ("semantic_version", JString kCanonicalPlanSemanticVersion);
    ("capability_version", JString (version (capabilities plan)));
    ("source_manifest_digest", JString (ToHex (source_manifest_digest plan)));
    ("source_manifest_id", JString (source_manifest_id plan));
    ("target_root_b64", JString (Base64Encode (target_root plan)))].

Definition AssetJson (asset : MinimalPlanAsset) : Json :=
  Json_object [
    ("logical_asset_id", JString (plan_logical_id asset));
    ("record", JString "asset");
    ("source_asset_id", JString (plan_source_id asset));
    ("source_identity", IdentityJson (source_identity asset));
    ("source_path_b64", JString (Base64Encode (raw_bytes (plan_source_path asset))));
    ("target_path_b64", JString (Base64Encode (raw_bytes (plan_target_path asset))))].

Definition section_json (section : string) : Json :=
  Json_object [("record", JString "section"); ("section", JString section)].
Definition kSections : list string := ["outputs"; "tasks"; "dependencies"; "losses"].
Definition end_json : Json := Json_object [("record", JString "end")].

(** The records of an artifact, in order. *)
Definition plan_records (plan : MinimalPlanInput) (plan_id : string) : list Json :=
  HeaderJson plan plan_id :: (AssetJson <$> assets plan) ++ (section_json <$> kSections) ++ [end_json].

(** ** Lines *)

(** The lines of a text, each ended by LF; what follows the last is dropped. *)
Fixpoint lines_of (current s : string) : list string :=
  match s with
  | EmptyString => []
  | String c s => if Ascii.eqb c LF then current :: lines_of "" s else lines_of (push_back current c) s
  end.

Definition last_byte (s : string) : option ascii := String.get (String.length s - 1) s.

(** Refused by the reader: empty, oversized, or with a CR at either end. *)
Definition bad_line (line : string) : bool :=
  str_empty line || (kMaxJsonLineBytes <? str_size line)
  || bool_decide (String.get 0 line = Some CR) || bool_decide (last_byte line = Some CR).

Section Artifact.
Context (Blake3 : string -> Digest).
Context (dump : Json -> Exn string) (parse : string -> Exn Json).

(** [Serialize(plan, plan_id)]: the loop over the records. *)
Fixpoint serialize_records (records : list Json) : Exn string :=
  match records with
  | [] => inr ""
  | record :: records =>
      let! line := dump record in
      let! rest := serialize_records records in
      inr (line +:+ String LF rest)
  end.
Definition Serialize (plan : MinimalPlanInput) (plan_id : string) : Exn string :=
  serialize_records (plan_records plan plan_id).

(** The loop over the lines, inside its try block. *)
Fixpoint parse_lines (lines : list string) : Exn (list Json) :=
  match lines with
  | [] => inr []
  | line :: lines =>
      let! record := parse line in
      let! records := parse_lines lines in
      inr (record :: records)
  end.

(** ** Reading *)

(** The loop over the capability array. *)
Fixpoint parse_capabilities (l : list Json) : StatusOr (list Capability) :=
  match l with
  | [] => Ok []
  | value :: l =>
      let? capability := ParseCapability value in
      let? capabilities := parse_capabilities l in
      Ok (capability :: capabilities)
  end.

(** The header: the plan id and the plan without its assets. *)
Definition parse_header (header : Json) : StatusOr (string * MinimalPlanInput) :=
  check (CheckRecord header "header") (
  let? plan_id := RequiredString header "plan_id" in
  if negb (RequiredUint64 header "format_version" == Ok 1)
  then Err (Invalid "unsupported minimal plan format version")
  else
  let? manifest_id := RequiredString header "source_manifest_id" in
  let? manifest_digest := RequiredString header "source_manifest_digest" in
  let? target_root := RequiredString header "target_root_b64" in
  if negb (RequiredString header "semantic_version" == Ok kCanonicalPlanSemanticVersion)
  then Err (Invalid "unsupported canonical plan semantic version")
  else if str_empty plan_id then Err (Invalid "plan id must not be empty")
  else
  let? decoded_root := Base64Decode target_root in
  let? digest := FromHex manifest_digest in
  match json_find header "policy", json_find header "capabilities" with
  | Some policy_json, Some capability_json =>
      match is_object policy_json, capability_json with
      | true, JArray capability_values =>
          let? target_prefix := RequiredString policy_json "target_prefix_b64" in
          match json_find policy_json "preserve_source_directories" with
          | Some (JBool preserve) =>
              let? max_component := RequiredUint64 policy_json "max_component_bytes" in
              let? max_path := RequiredUint64 policy_json "max_path_bytes" in
              let? decoded_prefix := Base64Decode target_prefix in
              let? capability_version := RequiredString header "capability_version" in
              let? entries := parse_capabilities capability_values in
              Ok (plan_id, mkMinimalPlanInput manifest_id digest decoded_root
                    (mkTargetCapabilities capability_version entries)
                    (mkMigrationPolicy decoded_prefix preserve max_component max_path) [])
          | _ => Err (Invalid "plan preserve_source_directories must be boolean")
          end
      | _, _ => Err (Invalid "plan policy or capabilities has the wrong type")
      end
  | _, _ => Err (Invalid "plan header is missing policy or capabilities")
  end).

Definition parse_asset (record : Json) : StatusOr MinimalPlanAsset :=
  if negb (is_object record) then Err (Invalid "plan asset record must be an object")
  else
  let? logical_id := RequiredString record "logical_asset_id" in
  let? source_id := RequiredString record "source_asset_id" in
  let? source_path := RequiredString record "source_path_b64" in
  let? target_path := RequiredString record "target_path_b64" in
  let? decoded_source := Base64Decode source_path in
  let? decoded_target := Base64Decode target_path in
  let? parsed_source_path := RelativePath.Parse decoded_source in
  let? parsed_target_path := RelativePath.Parse decoded_target in
  match json_find record "source_identity" with
  | None => Err (Invalid "plan asset is missing source_identity")
  | Some identity =>
      let? parsed_identity := ParseIdentity identity in
      Ok (mkMinimalPlanAsset logical_id source_id parsed_source_path parsed_target_path parsed_identity)
  end.

(** The loop over the asset records; it stops at the first other record. *)
Fixpoint parse_assets (records : list Json) : StatusOr (list MinimalPlanAsset * list Json) :=
  match records with
  | [] => Ok ([], [])
  | record :: rest =>
      let? record_type := RequiredString record "record" in
      if record_type == "asset"
      then
        let? asset := parse_asset record in
        let? parsed := parse_assets rest in let (assets, rest) := parsed in
        Ok (asset :: assets, rest)
      else Ok ([], records)
  end.

(** The loop over the fixed sections. *)
Fixpoint parse_sections (sections : list string) (records : list Json) : StatusOr (list Json) :=
  match sections with
  | [] => Ok records
  | section :: sections =>
      match records with
      | [] => Err (Invalid "plan is missing a fixed section")
      | record :: records =>
          check (CheckRecord record "section") (
          let? actual_section := RequiredString record "section" in
          if actual_section != section then Err (Invalid "plan sections are out of order")
          else parse_sections sections records)
      end
  end.

(** [Parse(bytes, plan_id)]: the plan and its id. *)
Definition Parse (bytes : string) : StatusOr (string * MinimalPlanInput) :=
  if str_empty bytes || negb (bool_decide (last_byte bytes = Some LF))
  then Err (Invalid "plan JSON Lines artifact must end with LF")
  else
  let lines := lines_of "" bytes in
  if existsb bad_line lines
  then Err (Invalid "plan JSON Lines contains an empty, oversized, or CRLF line")
  else if match lines with [] => true | _ => false end
  then Err (Invalid "plan JSON Lines artifact has no records")
  else match parse_lines lines with
  | inl what => Err (Invalid ("plan JSON Lines parse failed: " +:+ what))
  | inr [] => Err (Internal "unreachable: one record per line")
  | inr (header :: records) =>
      let? parsed := parse_header header in let (plan_id, input) := parsed in
      let? parsed := parse_assets records in let (plan_assets, records) := parsed in
      let? records := parse_sections kSections records in
      match records with
      | [record] =>
          check (CheckRecord record "end") (
          let? plan := Build (mkMinimalPlanInput (source_manifest_id input) (source_manifest_digest input)
                                (target_root input) (capabilities input) (policy input) plan_assets) in
          Ok (plan_id, plan))
      | _ => Err (Invalid "plan has unexpected records after fixed sections")
      end
  end.

(** ** Digests, writing and reading a file *)

(** [Blake3Digest(domain, payload)]: two updates of one hasher. *)
Definition Blake3Digest (domain payload : string) : Digest := Blake3 (domain +:+ payload).
Definition ArtifactDigestFor (bytes : string) : Digest := Blake3Digest "" bytes.
Definition SemanticDigestFor (plan : MinimalPlanInput) : Digest :=
  Blake3Digest kSemanticDomain (CanonicalPlanPayload plan).

Definition WriteFrozenPlan (plan : MinimalPlanInput) (plan_id : string) : Exn (StatusOr FrozenPlanFile) :=
  if str_empty plan_id || str_contains NUL plan_id
  then inr (Err (Invalid "plan id must be non-empty and must not contain NUL"))
  else
    let! bytes := Serialize plan plan_id in
    inr (Ok (mkFrozenPlanFile plan_id bytes (ArtifactDigestFor bytes) (SemanticDigestFor plan) plan)).

Definition ReadFrozenPlan (bytes : string) : StatusOr FrozenPlanFile :=
  let? parsed := Parse bytes in let (plan_id, plan) := parsed in
  Ok (mkFrozenPlanFile plan_id bytes (ArtifactDigestFor bytes) (SemanticDigestFor plan) plan).

End Artifact.
