(* ===== verification/PlanArtifactTheorems.v ===== *)
(** * PlanArtifactTheorems: writing and reading frozen plans

    Each encoder of PlanArtifact.v has the lemma that its decoder reads it
    back; the artifact's round trip composes them.  The file ends with a small
    JSON library that meets the laws of [JsonLibrary], for the examples. *)

From stdpp Require Import pretty countable.
From S2P Require Import Prelude Status Bytes Order Base64 Json RelativePath Task Capability Assets PathMapper CanonicalPlan PlanArtifact.

(** ** Each record reads back *)

(** A decimal field of a record that was printed from a 64-bit value. *)
Ltac read_uint64 H := rewrite (RequiredUint64_pretty _ _ _ H) by reflexivity; cbn [bind_or].

Lemma ParseIdentity_IdentityJson i : wf_identity i -> ParseIdentity (IdentityJson i) = Ok i.
Proof.
  destruct i as [device inode size mtime ctime mount]. unfold wf_identity. simpl.
  rewrite !uint64_range. intros (Hd&Hi&Hs&Hm&Hc&Hmount).
  unfold ParseIdentity. change (is_object _) with true. cbn [negb].
  read_uint64 Hd. read_uint64 Hi. read_uint64 Hs.
  change (RequiredString _ "mtime_ns") with (Ok (pretty mtime)).
  change (RequiredString _ "ctime_ns") with (Ok (pretty ctime)). cbn [bind_or].
  rewrite !ParseSigned_pretty by done. cbn [bind_or].
  destruct mount as [m|]; [|done]. rewrite uint64_range in Hmount.
  change (json_find _ "mount_id") with (Some (JString (pretty m))). cbn iota. by read_uint64 Hmount.
Qed.

Lemma ParseCapability_CapabilityJson c : ParseCapability (CapabilityJson c) = Ok c.
Proof.
  destruct c as [k l rep why]. unfold ParseCapability. change (is_object _) with true. cbn [negb].
  assert (0 <= to_int k <= 7) as Hk by by destruct k.
  assert (0 <= to_int l <= 5) as Hl by by destruct l.
  rewrite (RequiredUint64_pretty _ "kind" (to_int k)) by (reflexivity || lia). cbn [bind_or].
  rewrite (RequiredUint64_pretty _ "level" (to_int l)) by (reflexivity || lia). cbn [bind_or].
  change (RequiredString _ "representation") with (Ok rep).
  change (RequiredString _ "reason") with (Ok why). cbn [bind_or].
  destruct (Z.ltb_spec 7 (to_int k)); [lia|]. destruct (Z.ltb_spec 5 (to_int l)); [lia|]. cbn [orb].
  by rewrite !of_to_int.
Qed.

Lemma parse_capabilities_fmap l : parse_capabilities (CapabilityJson <$> l) = Ok l.
Proof.
  induction l as [|c l IH]; [done|]. rewrite fmap_cons. cbn [parse_capabilities].
  by rewrite ParseCapability_CapabilityJson, IH.
Qed.

Lemma FromHex_ToHex d : FromHex (ToHex d) = Ok d.
Proof.
  apply FromHex_Ok. split; [unfold str_size; by rewrite ToHex_length|].
  intros i Hi. apply hex_byte_of_bytes. by rewrite Digest_length.
Qed.

Lemma parse_header_HeaderJson p id :
  id <> "" -> plan_sized p -> parse_header (HeaderJson p id) = Ok (id, with_assets p []).
Proof.
  intros Hid [_ [Hcomp Hpath] _ _]. rewrite uint64_range in Hcomp, Hpath. unfold parse_header.
  change (CheckRecord _ "header") with Status_Ok.
  change (RequiredString _ "plan_id") with (Ok id).
  change (RequiredUint64 _ "format_version") with (Ok 1).
  change (RequiredString _ "source_manifest_id") with (Ok (source_manifest_id p)).
  change (RequiredString _ "source_manifest_digest") with (Ok (ToHex (source_manifest_digest p))).
  change (RequiredString _ "target_root_b64") with (Ok (Base64Encode (target_root p))).
  change (RequiredString _ "semantic_version") with (Ok kCanonicalPlanSemanticVersion).
  change (RequiredString _ "capability_version") with (Ok (version (capabilities p))).
  unfold check. change (ok Status_Ok) with true. cbn [bind_or]. rewrite bool_decide_eq_true_2 by done.
  rewrite bool_decide_eq_true_2 by done. cbn [negb].
  assert (str_empty id = false) as -> by by destruct id.
  rewrite Base64_round_trip, FromHex_ToHex. cbn [bind_or].
  change (json_find _ "policy") with (Some (policy_json (policy p))).
  change (json_find _ "capabilities") with (Some (JArray (CapabilityJson <$> entries (capabilities p)))).
  cbn iota. change (is_object (policy_json _)) with true. cbn iota.
  change (RequiredString _ "target_prefix_b64") with (Ok (Base64Encode (target_prefix (policy p)))).
  cbn [bind_or].
  change (json_find _ "preserve_source_directories")
    with (Some (JBool (preserve_source_directories (policy p)))). cbn iota.
  read_uint64 Hcomp. read_uint64 Hpath.
  rewrite Base64_round_trip, parse_capabilities_fmap. cbn [bind_or].
  unfold with_assets. destruct p as [? ? ? [] [] ?]. done.
Qed.

Lemma parse_asset_AssetJson a : plan_asset_sized a -> parse_asset (AssetJson a) = Ok a.
Proof.
  intros (_&_&Hsrc&_&Htgt&_&Hid). unfold parse_asset. change (is_object _) with true. cbn [negb].
  change (RequiredString _ "logical_asset_id") with (Ok (plan_logical_id a)).
  change (RequiredString _ "source_asset_id") with (Ok (plan_source_id a)).
  change (RequiredString _ "source_path_b64") with (Ok (Base64Encode (raw_bytes (plan_source_path a)))).
  change (RequiredString _ "target_path_b64") with (Ok (Base64Encode (raw_bytes (plan_target_path a)))).
  cbn [bind_or]. rewrite !Base64_round_trip. cbn [bind_or]. rewrite Hsrc, Htgt. cbn [bind_or].
  change (json_find _ "source_identity") with (Some (IdentityJson (source_identity a))). cbn iota.
  rewrite ParseIdentity_IdentityJson by done. by destruct a.
Qed.

Lemma parse_assets_fmap l rest :
  Forall plan_asset_sized l -> parse_assets rest = Ok ([], rest) ->
  parse_assets ((AssetJson <$> l) ++ rest) = Ok (l, rest).
Proof.
  intros Hl Hrest. induction Hl as [|a l Ha Hl IH]; [done|].
  rewrite fmap_cons. cbn [app parse_assets].
  change (RequiredString _ "record") with (Ok "asset"). cbn [bind_or].
  rewrite bool_decide_eq_true_2 by done. rewrite parse_asset_AssetJson by done. cbn [bind_or].
  by rewrite IH.
Qed.

Lemma parse_sections_fmap sections rest :
  parse_sections sections ((section_json <$> sections) ++ rest) = Ok rest.
Proof.
  induction sections as [|s l IH]; [done|]. rewrite fmap_cons. cbn [app parse_sections].
  change (CheckRecord _ "section") with Status_Ok. change (RequiredString _ "section") with (Ok s).
  unfold check. change (ok Status_Ok) with true. cbn [bind_or]. by rewrite bool_decide_eq_true_2 by done.
Qed.

(** ** The records are values of the library *)

Lemma wf_IdentityJson i : wf_json (IdentityJson i) = true.
Proof. unfold IdentityJson. by destruct (FileIdentity.mount_id i). Qed.

Lemma wf_HeaderJson p id : wf_json (HeaderJson p id) = true.
Proof.
  assert (forallb wf_json (CapabilityJson <$> entries (capabilities p)) = true) as Hc.
  { induction (entries (capabilities p)) as [|c l IH]; [done|]. by rewrite fmap_cons. }
  transitivity (forallb wf_json (CapabilityJson <$> entries (capabilities p)) && true); [|by rewrite Hc].
  done.
Qed.

Lemma wf_AssetJson a : wf_json (AssetJson a) = true.
Proof.
  transitivity (wf_json (IdentityJson (source_identity a)) && true); [done|].
  by rewrite wf_IdentityJson.
Qed.

Lemma wf_plan_records p id : Forall (fun j => wf_json j = true) (plan_records p id).
Proof.
  unfold plan_records. constructor; [apply wf_HeaderJson|]. apply Forall_app. split.
  - apply Forall_fmap, Forall_true, wf_AssetJson.
  - repeat constructor.
Qed.

(** ** Lines *)

(** Each line followed by LF. *)
Definition unlines (lines : list string) : string := foldr (fun line rest => line +:+ String LF rest) "" lines.

Lemma lines_of_line line current rest :
  str_contains LF line = false ->
  lines_of current (line +:+ String LF rest) = (current +:+ line) :: lines_of "" rest.
Proof.
  revert current. induction line as [|c line IH]; intros current; cbn [str_contains String.append lines_of].
  - intros _. rewrite Ascii.eqb_refl. by rewrite str_app_nil.
  - intros [Hc Hl]%orb_false_iff. rewrite Hc, IH by done. unfold push_back. by rewrite str_app_assoc.
Qed.

Lemma lines_of_unlines lines :
  Forall (fun l => str_contains LF l = false) lines -> lines_of "" (unlines lines) = lines.
Proof.
  induction 1 as [|l lines Hl _ IH]; [done|]. cbn [unlines foldr].
  rewrite lines_of_line by done. fold (unlines lines). by rewrite IH.
Qed.

Lemma last_byte_append a c b : last_byte (a +:+ String c b) = last_byte (String c b).
Proof.
  assert (forall x y s, last_byte (String x (String y s)) = last_byte (String y s)) as Hcons.
  { intros x y s. unfold last_byte. simpl. by rewrite Nat.sub_0_r. }
  induction a as [|x a IH]; [done|]. rewrite <- IH. cbn [String.append].
  destruct (a +:+ String c b) as [|y s] eqn:Hs; [by destruct a|apply Hcons].
Qed.

Lemma last_byte_unlines line lines : last_byte (unlines (line :: lines)) = Some LF.
Proof.
  revert line. induction lines as [|l lines IH]; intros line; cbn [unlines foldr] in *;
    rewrite last_byte_append; [done|].
  specialize (IH l). cbn [unlines foldr] in IH. rewrite <- IH.
  change (String LF (l +:+ ?r)) with (String LF l +:+ r). rewrite !last_byte_append. done.
Qed.

Lemma str_get_contains c s i : str_contains c s = false -> String.get i s <> Some c.
Proof.
  revert i. induction s as [|d s IH]; intros i; [by destruct i|]. cbn [str_contains].
  intros [Hd Hs]%orb_false_iff. destruct i as [|i]; simpl; [|by apply IH].
  intros [= ->]. by rewrite Ascii.eqb_refl in Hd.
Qed.

Section Library.
Context (Blake3 : string -> Digest) (dump : Json -> Exn string) (parse : string -> Exn Json).

Lemma serialize_records_lines records s :
  serialize_records dump records = inr s <->
  exists lines, Forall2 (fun j l => dump j = inr l) records lines /\ s = unlines lines.
Proof.
  revert s. induction records as [|j records IH]; intros s; cbn [serialize_records].
  - split; [intros [= <-]; by exists []|]. by intros (lines&->%Forall2_nil_inv_l&->).
  - rewrite exn_bind_inr. split.
    + intros (l&Hl&(rest&(lines&Hlines&->)%IH&[= <-])%exn_bind_inr). exists (l :: lines). split; [by constructor|done].
    + intros (lines&(l&ls&Hl&Hls&->)%Forall2_cons_inv_l&->). exists l. split; [done|].
      apply exn_bind_inr. exists (unlines ls). split; [|done]. apply IH. by exists ls.
Qed.

Context `{!JsonLibrary dump parse}.

Lemma dumped_bad_line j l :
  dump j = inr l -> bad_line l = false <-> str_size l <= kMaxJsonLineBytes.
Proof.
  intros (Hne&_&Hcr)%dump_line. unfold bad_line.
  assert (str_empty l = false) as -> by by destruct l.
  rewrite bool_decide_eq_false_2 by by apply str_get_contains.
  rewrite bool_decide_eq_false_2 by (unfold last_byte; by apply str_get_contains).
  cbn [orb]. rewrite !orb_false_r. apply Z.ltb_ge.
Qed.

Lemma parse_dumped_lines records lines :
  Forall (fun j => wf_json j = true) records -> Forall2 (fun j l => dump j = inr l) records lines ->
  parse_lines parse lines = inr records.
Proof.
  intros Hwf Hl. induction Hl as [|j l records lines Hd _ IH]; [done|].
  apply Forall_cons in Hwf as [Hj Hwf]. cbn [parse_lines]. rewrite (parse_dump j l) by done.
  cbn [exn_bind]. by rewrite IH.
Qed.

(** The reader on a printed plan: all but the check of the lines succeeds. *)
Lemma Parse_records p id lines :
  Build p = Ok p -> plan_sized p -> id <> "" ->
  Forall2 (fun j l => dump j = inr l) (plan_records p id) lines ->
  Parse parse (unlines lines) =
    if existsb bad_line lines
    then Err (Invalid "plan JSON Lines contains an empty, oversized, or CRLF line")
    else Ok (id, p).
Proof.
  intros Hbuild Hsz Hid Hlines. unfold Parse.
  assert (Forall (fun l => str_contains LF l = false) lines) as Hlf.
  { apply Forall_forall. intros l Hl. apply list_elem_of_lookup in Hl as [i Hi].
    destruct (Forall2_lookup_r _ _ _ _ _ Hlines Hi) as (j&_&Hj). by apply dump_line in Hj as (_&?&_). }
  destruct lines as [|l0 lines]; [by apply Forall2_nil_inv_r in Hlines|].
  rewrite last_byte_unlines, lines_of_unlines by done.
  assert (str_empty (unlines (l0 :: lines)) = false) as ->.
  { cbn [unlines foldr]. by destruct l0. }
  rewrite bool_decide_eq_true_2 by done. cbn [orb negb].
  destruct (existsb bad_line (l0 :: lines)); [done|].
  rewrite (parse_dumped_lines (plan_records p id)) by (done || apply wf_plan_records).
  unfold plan_records. rewrite parse_header_HeaderJson by done. cbn [bind_or].
  rewrite parse_assets_fmap; [|apply Hsz|done]. cbn [bind_or].
  rewrite parse_sections_fmap. cbn [bind_or]. change (CheckRecord _ "end") with Status_Ok.
  unfold check. change (ok Status_Ok) with true. cbn [with_assets].
  change (mkMinimalPlanInput _ _ _ _ _ (assets p)) with (with_assets p (assets p)).
  assert (with_assets p (assets p) = p) as -> by by destruct p. by rewrite Hbuild.
Qed.
End Library.

(** C36. A plan that was built and written is read back from its bytes exactly
    as it was, with the same digests, precisely when no line of the artifact
    is longer than the reader's limit of 1 MiB, whatever printer and parser
    the JSON library has, as long as they are inverse on one line. *)
Theorem frozen_plans_round_trip Blake3 dump parse input plan id file :
  JsonLibrary dump parse -> Build input = Ok plan -> plan_sized plan ->
  WriteFrozenPlan Blake3 dump plan id = inr (Ok file) ->
  ReadFrozenPlan Blake3 parse (frozen_bytes file) = Ok file
  <-> Forall (fun l => str_size l <= kMaxJsonLineBytes) (lines_of "" (frozen_bytes file)).
Proof.
  intros Hlib Hb Hsz. unfold WriteFrozenPlan. destruct (str_empty id || _) eqn:Hid; [done|].
  apply orb_false_iff in Hid as [Hid _]. apply Build_Ok in Hb as [_ Hb].
  intros (s&Hs&[= <-])%exn_bind_inr. cbn [frozen_bytes].
  apply serialize_records_lines in Hs as (lines&Hlines&->). unfold ReadFrozenPlan.
  rewrite (Parse_records dump parse plan id lines) by (done || by intros ->).
  rewrite lines_of_unlines.
  2:{ apply Forall_forall. intros l [i Hi]%list_elem_of_lookup.
      destruct (Forall2_lookup_r _ _ _ _ _ Hlines Hi) as (j&_&Hj). by apply dump_line in Hj as (_&?&_). }
  assert (existsb bad_line lines = false <-> Forall (fun l => str_size l <= kMaxJsonLineBytes) lines) as Hfit.
  { clear Hsz Hb. induction Hlines as [|j l js ls Hj _ IH]; [done|]. simpl existsb.
    rewrite orb_false_iff, Forall_cons, IH. by rewrite (dumped_bad_line dump parse j l Hj). }
  destruct (existsb bad_line lines); rewrite <- Hfit; done.
Qed.

(** ** What the reader accepts *)

Lemma digits_loop_range invalid overflow s v z :
  is_uint64 v -> digits_loop invalid overflow s v = Ok z -> is_uint64 z.
Proof.
  revert v. induction s as [|c s IH]; intros v Hv; cbn [digits_loop]; [by intros [= <-]|].
  destruct (_ || _); [done|]. destruct (_ <? v); [done|]. apply IH. apply uint64_range, to_uint64_range.
Qed.

Lemma RequiredUint64_range j key z : RequiredUint64 j key = Ok z -> is_uint64 z.
Proof.
  unfold RequiredUint64. intros (s&_&H)%bind_or_Ok. destruct (str_empty s); [done|].
  apply digits_loop_range in H; [done|]. by split.
Qed.

Lemma ParseSigned_range s z : ParseSigned s = Ok z -> is_int64 z.
Proof.
  unfold ParseSigned, is_int64. destruct s as [|c rest]; [done|]. cbn zeta.
  destruct (str_empty _); [done|]. intros (m&Hm&H)%bind_or_Ok.
  apply digits_loop_range in Hm; [|by split]. destruct Hm as [Hm0 Hm1].
  unfold uint64_max, int64_max, int64_min in *.
  destruct (Ascii.eqb c "-"); cbn [negb andb orb] in H; split_if; try done; bool_hyps.
  - split_if; injection H as <-; bool_hyps; lia.
  - injection H as <-. lia.
Qed.

Lemma ParseIdentity_range j i : ParseIdentity j = Ok i -> wf_identity i.
Proof.
  unfold ParseIdentity, wf_identity. destruct (negb _); [done|].
  intros (d&Hd&(n&Hn&(s&Hs&(m&_&(c&_&(mv&Hm&(cv&Hc&H)%bind_or_Ok)%bind_or_Ok)%bind_or_Ok)%bind_or_Ok)%bind_or_Ok)%bind_or_Ok)%bind_or_Ok.
  apply RequiredUint64_range in Hd, Hn, Hs. apply ParseSigned_range in Hm, Hc.
  destruct (json_find j "mount_id") as [[]|]; try done; [by injection H as <-|].
  apply bind_or_Ok in H as (v&Hv%RequiredUint64_range&[= <-]). done.
Qed.

(** Paths that were parsed and an identity of machine integers. *)
Definition typed_asset (a : MinimalPlanAsset) : Prop :=
  wf_path (plan_source_path a) /\ wf_path (plan_target_path a) /\ wf_identity (source_identity a).

Lemma parse_asset_typed j a : parse_asset j = Ok a -> typed_asset a.
Proof.
  unfold parse_asset, typed_asset. destruct (negb _); [done|].
  intros (l&_&(s&_&(sp&_&(tp&_&(ds&_&(dt&_&(ps&Hps&(pt&Hpt&H)%bind_or_Ok)%bind_or_Ok)%bind_or_Ok)%bind_or_Ok)%bind_or_Ok)%bind_or_Ok)%bind_or_Ok)%bind_or_Ok.
  apply Parse_wf in Hps, Hpt. destruct (json_find j "source_identity"); [|done].
  by apply bind_or_Ok in H as (i&Hi%ParseIdentity_range&[= <-]).
Qed.

Lemma parse_assets_typed records l rest : parse_assets records = Ok (l, rest) -> Forall typed_asset l.
Proof.
  revert l rest. induction records as [|j records IH]; intros l rest; cbn [parse_assets].
  { intros [= <- <-]. constructor. }
  intros (ty&_&H)%bind_or_Ok. destruct (ty == "asset"); [|injection H as <- <-; constructor].
  apply bind_or_Ok in H as (a&Ha&([l' rest']&Hl&[= <- <-])%bind_or_Ok).
  constructor; [by eapply parse_asset_typed|by eapply IH].
Qed.

Lemma parse_header_Ok j id p :
  parse_header j = Ok (id, p) ->
  id <> "" /\ is_uint64 (max_component_bytes (policy p)) /\ is_uint64 (max_path_bytes (policy p)).
Proof.
  unfold parse_header, check. destruct (ok _); [|done]. intros (pid&_&H)%bind_or_Ok.
  destruct (negb _); [done|]. apply bind_or_Ok in H as (mid&_&(md&_&(tr&_&H)%bind_or_Ok)%bind_or_Ok).
  destruct (negb _); [done|]. destruct (str_empty pid) eqn:Hid; [done|].
  apply bind_or_Ok in H as (root&_&(d&_&H)%bind_or_Ok).
  destruct (json_find j "policy") as [pj|]; [|done]. destruct (json_find j "capabilities") as [cj|]; [|done].
  destruct (is_object pj); [|done]. destruct cj; try done. apply bind_or_Ok in H as (px&_&H).
  destruct (json_find pj _) as [[]|]; try done.
  apply bind_or_Ok in H as (mc&Hmc%RequiredUint64_range&(mp&Hmp%RequiredUint64_range&H)%bind_or_Ok).
  apply bind_or_Ok in H as (dp&_&(cv&_&(es&_&[= <- <-])%bind_or_Ok)%bind_or_Ok).
  split; [by intros ->|done].
Qed.

(** C37. Whatever bytes it is given and whatever the JSON parser does, the
    reader accepts only valid plans in canonical order: a plan that building
    accepts and does not change, with a non-empty id, parsed paths and
    integers of their machine widths; the digests it reports are those of
    the bytes and of the plan. *)
Theorem accepted_plans_are_valid Blake3 parse bytes file :
  ReadFrozenPlan Blake3 parse bytes = Ok file ->
  frozen_plan_id file <> "" /\ frozen_bytes file = bytes
  /\ artifact_digest file = Blake3 bytes
  /\ semantic_digest file = Blake3 (kSemanticDomain +:+ CanonicalPlanPayload (frozen_plan file))
  /\ valid_plan (frozen_plan file) /\ Build (frozen_plan file) = Ok (frozen_plan file)
  /\ is_uint64 (max_component_bytes (policy (frozen_plan file)))
  /\ is_uint64 (max_path_bytes (policy (frozen_plan file)))
  /\ Forall typed_asset (assets (frozen_plan file)).
Proof.
  unfold ReadFrozenPlan, Parse. intros ([id p]&H&[= <-])%bind_or_Ok. cbn.
  destruct (_ || _); [done|]. destruct (existsb _ _); [done|]. destruct (lines_of "" bytes) as [|l0 ls]; [done|].
  destruct (parse_lines _ _) as [|[|header records]]; try done.
  apply bind_or_Ok in H as ([pid input]&Hh&([l rest]&Hl&(rest'&_&H)%bind_or_Ok)%bind_or_Ok).
  destruct rest' as [|r []]; try done. unfold check in H. destruct (ok _); [|done].
  apply bind_or_Ok in H as (plan&Hb&[= <- <-]).
  pose proof (Build_Ok _ _ Hb) as [Hv Hb']. apply parse_header_Ok in Hh as (Hid&Hc&Hp).
  apply parse_assets_typed in Hl. unfold Build, check in Hb. destruct (ok _); [|done].
  injection Hb as <-. split_and!; try done. simpl. by rewrite std_sort_perm.
Qed.

(** ** Example: a JSON library that meets the laws

    Values become trees of strings, trees numbers, and numbers text in binary. *)

Module JsonDemo.

Fixpoint to_tree (j : Json) : gen_tree string :=
  match j with
  | JNull => GenNode 0 []
  | JBool b => GenNode (if b then 1 else 2) []
  | JNumber literal => GenNode 3 [GenLeaf literal]
  | JString s => GenLeaf s
  | JArray l => GenNode 4 (to_tree <$> l)
  | JObject fields => GenNode 5 ((fun kv : string * Json => GenNode 6 [GenLeaf kv.1; to_tree kv.2]) <$> fields)
  end.

Fixpoint of_tree (t : gen_tree string) : Json :=
  match t with
  | GenLeaf s => JString s
  | GenNode 1 _ => JBool true
  | GenNode 2 _ => JBool false
  | GenNode 3 [GenLeaf literal] => JNumber literal
  | GenNode 4 l => JArray (of_tree <$> l)
  | GenNode 5 l => JObject ((fun t => match t with
      | GenNode 6 [GenLeaf k; v] => (k, of_tree v)
      | _ => ("", JNull)
      end) <$> l)
  | _ => JNull
  end.

Fixpoint of_to_tree (j : Json) : of_tree (to_tree j) = j.
Proof.
  destruct j as [|[]| | |l|fields]; [done..| |]; cbn [to_tree of_tree]; f_equal.
  - induction l as [|j l IH]; [done|]. rewrite !fmap_cons. by rewrite of_to_tree, IH.
  - induction fields as [|[k j] l IH]; [done|]. rewrite !fmap_cons. cbn [fst snd]. by rewrite of_to_tree, IH.
Qed.

Fixpoint pos_text (p : positive) : string :=
  match p with xH => "1" | xO p => String "0" (pos_text p) | xI p => String "1" (pos_text p) end.
Fixpoint text_pos (s : string) : option positive :=
  match s with
  | String c EmptyString => Some xH
  | String c s => p ← text_pos s; Some (if Ascii.eqb c "0" then xO p else xI p)
  | EmptyString => None
  end.

Lemma text_pos_text p : text_pos (pos_text p) = Some p.
Proof.
  assert (forall p, exists c s, pos_text p = String c s) as Hne by (intros []; by eexists _, _).
  induction p as [p IH|p IH|]; [..|done]; cbn [pos_text text_pos];
    destruct (Hne p) as (c&s&Hs); rewrite Hs in *; by rewrite IH.
Qed.

Definition dump (j : Json) : Exn string := inr (pos_text (encode (to_tree j))).
Definition parse (s : string) : Exn Json :=
  match text_pos s ≫= decode with Some t => inr (of_tree t) | None => inl "syntax error" end.

Lemma library : JsonLibrary dump parse.
Proof.
  split.
  - intros j s _ [= <-]. unfold parse. rewrite text_pos_text. cbn [mbind option_bind].
    by rewrite decode_encode, of_to_tree.
  - intros j s [= <-]. assert (forall p, pos_text p <> "" /\ str_contains LF (pos_text p) = false
      /\ str_contains CR (pos_text p) = false) as H; [|apply H].
    intros p. induction p as [p (_&IH1&IH2)|p (_&IH1&IH2)|]; by split_and!.
Qed.

Definition Blake3 (s : string) : Digest := Digest_of (fun i => byte_get s i).
Definition plan : MinimalPlanInput :=
  mkMinimalPlanInput "manifest" (Blake3 "") "/target" (mkTargetCapabilities "v1" (take 1 (entries LocalDirectoryCapabilitiesV1)))
    (mkMigrationPolicy "" true 255 4096) [PlanDemo.asset "l1" "s1" "a.jpg"].
Definition written : Exn (StatusOr FrozenPlanFile) := WriteFrozenPlan Blake3 dump plan "plan".
Definition file : FrozenPlanFile :=
  match written with
  | inr (Ok f) => f
  | _ => mkFrozenPlanFile "" "" (Blake3 "") (Blake3 "") PlanDemo.forwards
  end.
Definition read : StatusOr FrozenPlanFile := ReadFrozenPlan Blake3 parse (frozen_bytes file).
Definition read_file : FrozenPlanFile := match read with Ok f => f | Err _ => file end.
End JsonDemo.

Lemma demo_written : JsonDemo.written = inr (Ok JsonDemo.file).
Proof.
  assert (match JsonDemo.written with inr (Ok _) => true | _ => false end = true) as H
    by (vm_compute; reflexivity).
  unfold JsonDemo.file. by destruct JsonDemo.written as [|[]].
Qed.

Lemma demo_json_plan_sized : plan_sized JsonDemo.plan.
Proof. split; [by vm_compute|by vm_compute| |]; (split; [by vm_compute|]); repeat constructor; by vm_compute. Qed.

Lemma demo_read_back : JsonDemo.read = Ok JsonDemo.read_file.
Proof.
  assert (is_ok JsonDemo.read = true) as H by (vm_compute; reflexivity).
  unfold JsonDemo.read_file. by destruct JsonDemo.read.
Qed.

Lemma frozen_plans_round_trip_witness : JsonDemo.read = Ok JsonDemo.file.
Proof.
  apply (frozen_plans_round_trip JsonDemo.Blake3 JsonDemo.dump JsonDemo.parse JsonDemo.plan
    JsonDemo.plan "plan" JsonDemo.file JsonDemo.library).
  - vm_compute. reflexivity.
  - exact demo_json_plan_sized.
  - exact demo_written.
  - assert (forallb (fun l => str_size l <=? kMaxJsonLineBytes) (lines_of "" (frozen_bytes JsonDemo.file)) = true)
      as Hall by (vm_compute; reflexivity).
    apply Forall_forall. intros l Hl.
    rewrite forallb_forall in Hall. apply list_elem_of_In, Hall in Hl. by apply Z.leb_le.
Defined.

Lemma accepted_plans_are_valid_witness : Build (frozen_plan JsonDemo.read_file) = Ok (frozen_plan JsonDemo.read_file).
Proof.
  exact (proj1 (proj2 (proj2 (proj2 (proj2 (proj2
    (accepted_plans_are_valid JsonDemo.Blake3 JsonDemo.parse (frozen_bytes JsonDemo.file) JsonDemo.read_file
      demo_read_back))))))).
Defined.

(** ** Integers beyond 64 bits *)

Definition is_digit (c : ascii) : bool := (48 <=? Z_of_byte c) && (Z_of_byte c <=? 57).

(** The number a string of digits denotes, after the digits of [value]. *)
Fixpoint decimal (s : string) (value : Z) : Z :=
  match s with
  | EmptyString => value
  | String c rest => decimal rest (value * 10 + (Z_of_byte c - 48))
  end.
Fixpoint all_digits (s : string) : bool :=
  match s with
  | EmptyString => true
  | String c rest => is_digit c && all_digits rest
  end.

Lemma decimal_mono s v : 0 <= v -> all_digits s = true -> v <= decimal s v.
Proof.
  revert v. induction s as [|c s IH]; intros v Hv Hd; [done|]. cbn in *. unfold is_digit in Hd. bool_hyps.
  etrans; [|apply IH; [lia|done]]. lia.
Qed.

Lemma decimal_mod s v w : v mod 2 ^ 64 = w mod 2 ^ 64 -> decimal s v mod 2 ^ 64 = decimal s w mod 2 ^ 64.
Proof.
  revert v w. induction s as [|c s IH]; intros v w Hvw; [done|]. cbn [decimal]. apply IH.
  by rewrite (Z.add_mod (v * 10)), (Z.mul_mod v), Hvw, <- Z.mul_mod, <- Z.add_mod by done.
Qed.

(** The loop computes the number modulo 2^64, whatever its guard lets pass. *)
Lemma digits_loop_mod invalid overflow s v r :
  0 <= v < 2 ^ 64 -> digits_loop invalid overflow s v = Ok r ->
  all_digits s = true /\ 0 <= r < 2 ^ 64 /\ r = decimal s v mod 2 ^ 64.
Proof.
  revert v. induction s as [|c s IH]; intros v Hv; cbn [digits_loop decimal all_digits].
  - intros [= <-]. by rewrite Z.mod_small.
  - unfold is_digit. destruct (Z.ltb_spec (Z_of_byte c) 48); [done|].
    destruct (Z.ltb_spec 57 (Z_of_byte c)); [done|]. cbn [orb].
    destruct (Z.ltb_spec (to_uint64 (v * 10 + (Z_of_byte c - 48))) v); [done|]. intros Hr.
    apply IH in Hr as (Hs&Hr&Heq); [|apply Z.mod_pos_bound; lia].
    rewrite Hs. split; [by destruct (Z.leb_spec 48 (Z_of_byte c)), (Z.leb_spec (Z_of_byte c) 57); lia|].
    split; [done|]. rewrite Heq. apply decimal_mod. unfold to_uint64. by rewrite Z.mod_mod.
Qed.

Lemma digits_loop_exact invalid overflow s v :
  0 <= v -> all_digits s = true -> decimal s v < 2 ^ 64 -> digits_loop invalid overflow s v = Ok (decimal s v).
Proof.
  revert v. induction s as [|c s IH]; intros v Hv; cbn [digits_loop decimal all_digits]; [done|].
  unfold is_digit. intros Hs Hlt. bool_hyps.
  destruct (Z.ltb_spec (Z_of_byte c) 48); [lia|]. destruct (Z.ltb_spec 57 (Z_of_byte c)); [lia|]. cbn [orb].
  pose proof (decimal_mono s (v * 10 + (Z_of_byte c - 48)) ltac:(lia) ltac:(done)) as Hle.
  unfold to_uint64. rewrite Z.mod_small by lia.
  destruct (Z.ltb_spec (v * 10 + (Z_of_byte c - 48)) v); [lia|]. apply IH; [lia|done|lia].
Qed.

(** C39. An integer field of a plan record is read as the number its digits
    denote modulo 2^64: exactly that number when it fits in 64 bits, and a
    digit string is the only thing accepted.  The guard [next < value] does
    not see every wrap, so some larger numbers are accepted as smaller ones,
    in unsigned and in signed fields. *)
Theorem wrapped_integers_are_accepted object key :
  match RequiredUint64 object key with
  | Ok r => exists s, RequiredString object key = Ok s /\ s <> "" /\ all_digits s = true
              /\ 0 <= r < 2 ^ 64 /\ r = decimal s 0 mod 2 ^ 64
  | Err e => forall s, RequiredString object key = Ok s -> s <> "" -> all_digits s = true -> 2 ^ 64 <= decimal s 0
  end
  /\ RequiredUint64 (Json_object [("size", JString "30000000000000000000")]) "size" = Ok 11553255926290448384
  /\ ParseSigned "25000000000000000000" = Ok 6553255926290448384.
Proof.
  split; [|by vm_compute]. unfold RequiredUint64. destruct (RequiredString object key) as [s|e]; cbn [bind_or]; [|done].
  destruct (str_empty s) eqn:He; [by destruct s; intros ? [= <-]|].
  assert (s <> "") as Hne by (by intros ->).
  destruct (digits_loop _ _ s 0) as [r|e] eqn:Hl.
  - apply digits_loop_mod in Hl; [|lia]. by exists s.
  - intros s' [= <-] _ Hs. apply Z.nlt_ge. intros Hlt.
    by rewrite digits_loop_exact in Hl.
Qed.
