(* ===== verification/Sqlite.v ===== *)
(** * Sqlite: the connection, its transactions and its failures

    SQLite is a library the program calls, so its engine is not modelled
    beyond what its documentation promises of the calls the sources make:
    - a statement runs on the open transaction's database when there is
      one, and commits by itself otherwise;
    - [BEGIN IMMEDIATE] / [COMMIT] / [ROLLBACK] open, publish and drop the
      transaction's database, and fail when there is nothing to open or close;
    - any call (prepare, bind, step, exec) may fail; which ones do is read
      from the connection's [faults], a list the theorems quantify over.  A
      failure may also roll the open transaction back, as SQLite does on
      I/O, full-disk and out-of-memory errors;
    - a statement that violates a constraint fails and changes nothing.

    Models src/app/sqlite_connection.cpp ([Execute]) and the [Rollback] /
    commit idiom of the repositories; the meaning of each SQL text is a
    function on the tables of the file that models its caller. *)

From S2P Require Import Prelude Status.

(** A failing call: SQLite's message, and whether the failure rolled the
    open transaction back. *)
Record Fault := mkFault { errmsg : string; rolls_back : bool }.

Record Conn (DB : Type) := mkConn {
  committed : DB;               (* what another connection or a restart reads *)
  working : option DB;          (* the open transaction *)
  changes : Z;                  (* sqlite3_changes *)
  faults : list (option Fault); (* outcome of the next calls; [] is "no fault" *)
  times : list Z;               (* what CurrentTimeNanoseconds returns next *)
}.
Arguments mkConn {DB}.
Arguments committed {DB}.
Arguments working {DB}.
Arguments changes {DB}.
Arguments faults {DB}.
Arguments times {DB}.

(** ** State and error monad *)

Definition M (St A : Type) : Type := St -> StatusOr A * St.

Definition ret {St A} (a : A) : M St A := fun s => (Ok a, s).
Definition throw {St A} (e : Status) : M St A := fun s => (Err e, s).
Definition bind {St A B} (c : M St A) (k : A -> M St B) : M St B :=
  fun s => match c s with
           | (Ok a, s') => k a s'
           | (Err e, s') => (Err e, s')
           end.

Notation "'let*' x ':=' c 'in' k" := (bind c (fun x => k))
  (at level 10, x pattern, c at level 100, k at level 200) : pb_scope.
Notation "'do*' c ; k" := (bind c (fun _ => k))
  (at level 10, c at level 100, k at level 200) : pb_scope.

(** [if (!condition) return error;] *)
Definition require {St} (condition : bool) (error : Status) : M St unit :=
  if condition then ret tt else throw error.
(** [if (!status.ok()) return status;] *)
Definition require_ok {St} (status : Status) : M St unit :=
  if ok status then ret tt else throw status.
(** [if (!x.ok()) return x.status();] on a pure [StatusOr]. *)
Definition lift {St A} (x : StatusOr A) : M St A := fun s => (x, s).

(** A result that the program inspects itself. *)
Definition outcome {St A} (c : M St A) : M St (StatusOr A) := fun s => let (r, s') := c s in (Ok r, s').

Section Calls.
Context {DB : Type}.
Implicit Types s : Conn DB.

Definition set_working (w : option DB) s : Conn DB :=
  mkConn (committed s) w (changes s) (faults s) (times s).
Definition set_faults (fs : list (option Fault)) s : Conn DB :=
  mkConn (committed s) (working s) (changes s) fs (times s).

(** The database a statement sees, and the effect of a statement that
    changed [n] rows. *)
Definition current_db s : DB :=
  match working s with Some w => w | None => committed s end.
Definition write_db (db : DB) (n : Z) s : Conn DB :=
  match working s with
  | Some _ => mkConn (committed s) (Some db) n (faults s) (times s)
  | None => mkConn db None n (faults s) (times s)
  end.

(** The outcome of the next SQLite call. *)
Definition next_fault s : option Fault * Conn DB :=
  match faults s with
  | [] => (None, s)
  | None :: fs => (None, set_faults fs s)
  | Some f :: fs =>
      (Some f, set_faults fs (if rolls_back f then set_working None s else s))
  end.

(** A call whose only effect is to succeed or fail: prepare, reset, bind. *)
Definition api_call (err : string -> Status) : M (Conn DB) unit :=
  fun s => match next_fault s with
           | (None, s') => (Ok tt, s')
           | (Some f, s') => (Err (err (errmsg f)), s')
           end.

Inductive StepResult (A : Type) :=
| STEP_OK (a : A) | STEP_CONSTRAINT (msg : string) | STEP_ERROR (msg : string).
Arguments STEP_OK {A} a.
Arguments STEP_CONSTRAINT {A} msg.
Arguments STEP_ERROR {A} msg.

(** [sqlite3_step] of an INSERT or UPDATE: [None] is a constraint violation. *)
Definition step_dml (stmt : DB -> option (DB * Z)) s : StepResult unit * Conn DB :=
  match next_fault s with
  | (Some f, s') => (STEP_ERROR (errmsg f), s')
  | (None, s') =>
      match stmt (current_db s') with
      | None => (STEP_CONSTRAINT "constraint failed", s')
      | Some (db, n) => (STEP_OK tt, write_db db n s')
      end
  end.

(** [sqlite3_step] of a SELECT. *)
Definition step_query {A} (stmt : DB -> A) s : StepResult A * Conn DB :=
  match next_fault s with
  | (Some f, s') => (STEP_ERROR (errmsg f), s')
  | (None, s') => (STEP_OK (stmt (current_db s')), s')
  end.

Definition sqlite3_changes : M (Conn DB) Z := fun s => (Ok (changes s), s).

Definition CurrentTimeNanoseconds : M (Conn DB) Z :=
  fun s => (Ok (hd 0 (times s)),
            mkConn (committed s) (working s) (changes s) (faults s) (tl (times s))).

(** The three transaction commands. *)
Inductive TxnCommand := BEGIN_IMMEDIATE | COMMIT | ROLLBACK.

Definition ExecuteError (msg : string) : Status :=
  mkStatus StatusCode.kIoError ("execute SQLite statement: " +:+ msg).

(** [sqlite3_exec]; [error] is what the caller makes of the message. *)
Definition transact (error : string -> Status) (sql : TxnCommand) : M (Conn DB) unit :=
  fun s => match next_fault s with
  | (Some f, s') => (Err (error (errmsg f)), s')
  | (None, s') =>
      match sql, working s' with
      | BEGIN_IMMEDIATE, None => (Ok tt, set_working (Some (committed s')) s')
      | BEGIN_IMMEDIATE, Some _ =>
          (Err (error "cannot start a transaction within a transaction"), s')
      | COMMIT, Some w =>
          (Ok tt, mkConn w None (changes s') (faults s') (times s'))
      | COMMIT, None =>
          (Err (error "cannot commit - no transaction is active"), s')
      | ROLLBACK, Some _ => (Ok tt, set_working None s')
      | ROLLBACK, None =>
          (Err (error "cannot rollback - no transaction is active"), s')
      end
  end.

(** [SqliteConnection::Execute] *)
Definition Execute : TxnCommand -> M (Conn DB) unit := transact ExecuteError.

(** [Rollback(connection, status)]: the result of ROLLBACK is ignored. *)
Definition Rollback {A} (status : Status) : M (Conn DB) A :=
  fun s => (Err status, (Execute ROLLBACK s).2).

(** [if (!status.ok()) return Rollback(connection, status);] around every
    statement of [c]. *)
Definition OrRollback {A} (c : M (Conn DB) A) : M (Conn DB) A :=
  fun s => match c s with
           | (Ok a, s') => (Ok a, s')
           | (Err e, s') => Rollback e s'
           end.

(** [status = Execute("COMMIT;"); if (!status.ok()) Execute("ROLLBACK;");] *)
Definition CommitOrRollback : M (Conn DB) unit := OrRollback (Execute COMMIT).

(** The shape shared by every write operation of the repositories. *)
Definition Transaction {A} (body : M (Conn DB) A) : M (Conn DB) A :=
  do* Execute BEGIN_IMMEDIATE;
  let* a := OrRollback body in
  do* CommitOrRollback;
  ret a.

End Calls.
Arguments STEP_OK {A} a.
Arguments STEP_CONSTRAINT {A} msg.
Arguments STEP_ERROR {A} msg.

(** [SqliteError(database, operation)] *)
Definition SqliteError (operation msg : string) : Status :=
  mkStatus StatusCode.kIoError (operation +:+ ": " +:+ msg).

Section Statements.
Context {DB : Type}.

(** Prepare and reset of a cached statement. *)
Definition prepare (operation : string) : M (Conn DB) unit :=
  api_call (SqliteError operation).
(** A bind whose failure the code reports with a fixed message. *)
Definition bind_call (msg : string) : M (Conn DB) unit :=
  api_call (fun _ => Internal msg).
Definition BindText (value : string) : M (Conn DB) unit :=
  bind_call "SQLite failed to bind text".
Definition BindBlob (value : string) : M (Conn DB) unit :=
  bind_call "SQLite failed to bind blob".
Definition BindEpoch (epoch : Z) : M (Conn DB) unit :=
  bind_call "SQLite failed to bind epoch".

(** [if (sqlite3_step(...) != SQLITE_DONE) return SqliteError(...)] *)
Definition run_dml (operation : string) (stmt : DB -> option (DB * Z)) : M (Conn DB) unit :=
  fun s => match step_dml stmt s with
           | (STEP_OK _, s') => (Ok tt, s')
           | (STEP_CONSTRAINT m, s') => (Err (SqliteError operation m), s')
           | (STEP_ERROR m, s') => (Err (SqliteError operation m), s')
           end.
(** The same where a constraint violation has an error of its own. *)
Definition run_insert (refused : Status) (operation : string) (stmt : DB -> option (DB * Z)) : M (Conn DB) unit :=
  fun s => match step_dml stmt s with
           | (STEP_OK _, s') => (Ok tt, s')
           | (STEP_CONSTRAINT _, s') => (Err refused, s')
           | (STEP_ERROR m, s') => (Err (SqliteError operation m), s')
           end.
Definition run_query {A} (operation : string) (stmt : DB -> A) : M (Conn DB) A :=
  fun s => match step_query stmt s with
           | (STEP_OK a, s') => (Ok a, s')
           | (STEP_CONSTRAINT m, s') => (Err (SqliteError operation m), s')
           | (STEP_ERROR m, s') => (Err (SqliteError operation m), s')
           end.

End Statements.

(** ** What the theorems about programs of this monad say

    [quiet s] is [s] with a connection that never fails.  A program is
    [tolerant] when, whatever calls fail, it either ends exactly as on the
    quiet connection or a failure was reported and it returns an error.  It
    is [txn_safe] when inside a transaction it never touches the committed
    database, and leaves the transaction open if it succeeds. *)

Section Tolerance.
Context {DB : Type}.
Implicit Types s : Conn DB.

Definition quiet s : Conn DB := set_faults [] s.

Definition silent s s' : Prop :=
  exists pre, faults s = pre ++ faults s' /\ Forall (eq None) pre.
Definition fired s s' : Prop :=
  exists pre f, faults s = pre ++ faults s' /\ Some f ∈ pre.

Definition tolerant {A} (c : M (Conn DB) A) : Prop :=
  forall s,
    (silent s (c s).2 /\ c (quiet s) = ((c s).1, quiet (c s).2))
    \/ (fired s (c s).2 /\ is_ok (c s).1 = false).

Definition txn_safe {A} (c : M (Conn DB) A) : Prop :=
  forall s, working s <> None ->
    committed (c s).2 = committed s
    /\ (is_ok (c s).1 = true -> working (c s).2 <> None).

(** An operation that owns its transaction: it leaves none open on success
    and publishes nothing when it returns an error. *)
Definition atomic {A} (c : M (Conn DB) A) : Prop :=
  forall s, working s = None ->
    (is_ok (c s).1 = true -> working (c s).2 = None)
    /\ (is_ok (c s).1 = false -> committed (c s).2 = committed s).

Lemma silent_refl s : silent s s.
Proof. exists []. by split. Qed.

Lemma silent_trans s1 s2 s3 : silent s1 s2 -> silent s2 s3 -> silent s1 s3.
Proof.
  intros (p1&E1&H1) (p2&E2&H2). exists (p1 ++ p2). rewrite <- app_assoc, <- E2.
  split; [done|by apply Forall_app].
Qed.

Lemma fired_l s1 s2 s3 : fired s1 s2 -> (silent s2 s3 \/ fired s2 s3) -> fired s1 s3.
Proof.
  intros (p1&f&E1&H1) [(p2&E2&_)|(p2&?&E2&_)]; exists (p1 ++ p2), f;
    rewrite <- app_assoc, <- E2; (split; [done|set_solver]).
Qed.

Lemma fired_r s1 s2 s3 : silent s1 s2 -> fired s2 s3 -> fired s1 s3.
Proof.
  intros (p1&E1&_) (p2&f&E2&H2). exists (p1 ++ p2), f.
  rewrite <- app_assoc, <- E2. split; [done|set_solver].
Qed.

Lemma tolerant_faults {A} (c : M (Conn DB) A) s :
  tolerant c -> silent s (c s).2 \/ fired s (c s).2.
Proof. intros Hc. destruct (Hc s) as [[? _]|[? _]]; eauto. Qed.

(** The three ways [next_fault] goes. *)
Lemma next_fault_cases s :
  (exists s', next_fault s = (None, s') /\ silent s s' /\ next_fault (quiet s) = (None, quiet s')
     /\ quiet s' = quiet s /\ working s' = working s /\ committed s' = committed s
     /\ current_db s' = current_db s)
  \/ (exists f s', next_fault s = (Some f, s') /\ fired s s' /\ committed s' = committed s).
Proof.
  destruct s as [c w n [|[f|] fs] ts]; unfold next_fault; simpl.
  - left. eexists; repeat split. exists []; by split.
  - right. exists f; eexists; repeat split.
    + exists [Some f], f. split; [done|set_solver].
    + by destruct (rolls_back f).
  - left. eexists; repeat split. exists [None]; split; [done|by repeat constructor].
Qed.

Lemma quiet_set_faults s fs : quiet (set_faults fs s) = quiet s.
Proof. done. Qed.

Lemma tolerant_ret {A} (a : A) : tolerant (ret a).
Proof. intros s. left. split; [apply silent_refl|done]. Qed.

Lemma tolerant_throw {A} e : tolerant (throw (A := A) e).
Proof. intros s. left. split; [apply silent_refl|done]. Qed.

Lemma tolerant_lift {A} (x : StatusOr A) : tolerant (lift x).
Proof. intros s. left. split; [apply silent_refl|done]. Qed.

Lemma tolerant_require b e : tolerant (require b e).
Proof. destruct b; [apply tolerant_ret|apply tolerant_throw]. Qed.

Lemma tolerant_require_ok st : tolerant (require_ok st).
Proof. unfold require_ok. destruct (ok st); [apply tolerant_ret|apply tolerant_throw]. Qed.

Lemma tolerant_bind {A B} (c : M (Conn DB) A) (k : A -> M (Conn DB) B) :
  tolerant c -> (forall a, tolerant (k a)) -> tolerant (bind c k).
Proof.
  intros Hc Hk s. unfold bind. destruct (Hc s) as [[Hs Hq]|[Hf He]].
  - rewrite Hq. destruct (c s) as [[a|e] s'] eqn:Ec; simpl in *; [|by left].
    destruct (Hk a s') as [[Hs' ->]|[Hf' He']]; [left|right].
    + split; [by eapply silent_trans|done].
    + split; [by eapply fired_r|done].
  - right. by destruct (c s) as [[a|e] s'].
Qed.

Lemma tolerant_api_call err : tolerant (api_call (DB := DB) err).
Proof.
  intros s. unfold api_call.
  destruct (next_fault_cases s) as [(s'&->&?&->&_)|(f&s'&->&?&_)]; [by left|by right].
Qed.

Lemma tolerant_run_dml op stmt : tolerant (run_dml (DB := DB) op stmt).
Proof.
  intros s. unfold run_dml, step_dml.
  destruct (next_fault_cases s) as [(s'&->&Hs&->&Hq&Hw&_)|(f&s'&->&?&_)]; [|by right].
  assert (current_db (quiet s') = current_db s') as -> by done.
  destruct (stmt (current_db s')) as [[db n]|]; left; simpl; [|done].
  unfold write_db. simpl. by destruct (working s').
Qed.

Lemma tolerant_run_insert refused op stmt : tolerant (run_insert (DB := DB) refused op stmt).
Proof.
  intros s. unfold run_insert, step_dml.
  destruct (next_fault_cases s) as [(s'&->&Hs&->&Hq&Hw&_)|(f&s'&->&?&_)]; [|by right].
  assert (current_db (quiet s') = current_db s') as -> by done.
  destruct (stmt (current_db s')) as [[db n]|]; left; simpl; [|done].
  unfold write_db. simpl. by destruct (working s').
Qed.

Lemma tolerant_run_query {A} op (stmt : DB -> A) : tolerant (run_query op stmt).
Proof.
  intros s. unfold run_query, step_query.
  destruct (next_fault_cases s) as [(s'&->&Hs&->&Hq&Hw&_)|(f&s'&->&?&_)]; [by left|by right].
Qed.

Lemma tolerant_changes : tolerant (sqlite3_changes (DB := DB)).
Proof. intros s. left. split; [apply silent_refl|done]. Qed.

Lemma tolerant_now : tolerant (CurrentTimeNanoseconds (DB := DB)).
Proof. intros s. left. split; [exists []; by split|done]. Qed.

Lemma tolerant_execute cmd : tolerant (Execute (DB := DB) cmd).
Proof.
  intros s. unfold Execute, transact.
  destruct (next_fault_cases s) as [(s'&->&Hs&->&Hq&Hw&_)|(f&s'&->&?&_)]; [left|by right].
  assert (working (quiet s') = working s') as -> by done.
  destruct cmd, (working s'); simpl; done.
Qed.

Lemma tolerant_or_rollback {A} (c : M (Conn DB) A) : tolerant c -> tolerant (OrRollback c).
Proof.
  intros Hc s. unfold OrRollback, Rollback. destruct (Hc s) as [[Hs Hq]|[Hf He]].
  - rewrite Hq. destruct (c s) as [[a|e] s'] eqn:Ec; simpl in *; [by left|].
    destruct (tolerant_execute ROLLBACK s') as [[Hs' ->]|[Hf' He']]; [left|right]; simpl.
    + split; [by eapply silent_trans|done].
    + split; [by eapply fired_r|done].
  - right. destruct (c s) as [[a|e] s']; simpl in *; [done|].
    split; [|done]. eapply fired_l; [done|]. apply tolerant_faults, tolerant_execute.
Qed.

Lemma tolerant_transaction {A} (body : M (Conn DB) A) :
  tolerant body -> tolerant (Transaction body).
Proof.
  intros Hb. apply tolerant_bind; [apply tolerant_execute|intros _].
  apply tolerant_bind; [by apply tolerant_or_rollback|intros a].
  apply tolerant_bind; [apply tolerant_or_rollback, tolerant_execute|intros _].
  apply tolerant_ret.
Qed.

Lemma txn_safe_ret {A} (a : A) : txn_safe (ret a).
Proof. done. Qed.

Lemma txn_safe_throw {A} e : txn_safe (throw (A := A) e).
Proof. done. Qed.

Lemma txn_safe_lift {A} (x : StatusOr A) : txn_safe (lift x).
Proof. done. Qed.

Lemma txn_safe_require b e : txn_safe (require b e).
Proof. by destruct b. Qed.

Lemma txn_safe_require_ok st : txn_safe (require_ok st).
Proof. unfold require_ok. by destruct (ok st). Qed.

Lemma txn_safe_bind {A B} (c : M (Conn DB) A) (k : A -> M (Conn DB) B) :
  txn_safe c -> (forall a, txn_safe (k a)) -> txn_safe (bind c k).
Proof.
  intros Hc Hk s Hw. unfold bind. destruct (Hc s Hw) as [Hcom Hw'].
  destruct (c s) as [[a|e] s']; simpl in *; [|done].
  destruct (Hk a s' (Hw' eq_refl)) as [-> ?]. done.
Qed.

Lemma txn_safe_api_call err : txn_safe (api_call (DB := DB) err).
Proof.
  intros s Hw. unfold api_call.
  destruct (next_fault_cases s) as [(s'&->&?&?&?&Hw'&?&_)|(f&s'&->&?&?)]; [|done].
  simpl. by rewrite Hw'.
Qed.

Lemma txn_safe_run_dml op stmt : txn_safe (run_dml (DB := DB) op stmt).
Proof.
  intros s Hw. unfold run_dml, step_dml.
  destruct (next_fault_cases s) as [(s'&->&?&?&?&Hw'&Hc&_)|(f&s'&->&?&?)]; [|done].
  destruct (stmt _) as [[db n]|]; [|done].
  unfold write_db. simpl. destruct (working s') eqn:E; [done|congruence].
Qed.

Lemma txn_safe_run_insert refused op stmt : txn_safe (run_insert (DB := DB) refused op stmt).
Proof.
  intros s Hw. unfold run_insert, step_dml.
  destruct (next_fault_cases s) as [(s'&->&?&?&?&Hw'&Hc&_)|(f&s'&->&?&?)]; [|done].
  destruct (stmt _) as [[db n]|]; [|done].
  unfold write_db. simpl. destruct (working s') eqn:E; [done|congruence].
Qed.

Lemma txn_safe_run_query {A} op (stmt : DB -> A) : txn_safe (run_query op stmt).
Proof.
  intros s Hw. unfold run_query, step_query.
  destruct (next_fault_cases s) as [(s'&->&?&?&?&Hw'&?&_)|(f&s'&->&?&?)]; [|done].
  simpl. by rewrite Hw'.
Qed.

Lemma txn_safe_changes : txn_safe (sqlite3_changes (DB := DB)).
Proof. done. Qed.

Lemma txn_safe_now : txn_safe (CurrentTimeNanoseconds (DB := DB)).
Proof. done. Qed.

(** Only COMMIT publishes. *)
Lemma execute_committed cmd s :
  cmd <> COMMIT \/ working s = None -> committed (Execute cmd s).2 = committed s.
Proof.
  intros Hcmd. unfold Execute, transact.
  destruct (next_fault_cases s) as [(s'&->&?&?&?&Hw&Hc&_)|(f&s'&->&?&?)]; [|done].
  rewrite Hw. destruct cmd, (working s); simpl; by intuition.
Qed.

Lemma commit_outcome s :
  working s <> None ->
  (is_ok (Execute COMMIT s).1 = true -> working (Execute COMMIT s).2 = None)
  /\ (is_ok (Execute COMMIT s).1 = false -> committed (Execute COMMIT s).2 = committed s).
Proof.
  intros Hopen. unfold Execute, transact.
  destruct (next_fault_cases s) as [(s'&->&?&?&?&Hw&Hc&_)|(f&s'&->&?&?)]; [|done].
  rewrite Hw. by destruct (working s).
Qed.

Lemma begin_outcome s :
  (is_ok (Execute BEGIN_IMMEDIATE s).1 = true ->
     working s = None /\ working (Execute BEGIN_IMMEDIATE s).2 = Some (committed s))
  /\ committed (Execute BEGIN_IMMEDIATE s).2 = committed s.
Proof.
  unfold Execute, transact.
  destruct (next_fault_cases s) as [(s'&->&?&?&?&Hw&Hc&_)|(f&s'&->&?&?)]; [|done].
  rewrite Hw. destruct (working s); simpl; [done|]. by rewrite Hc.
Qed.

(** Body, COMMIT and the rollbacks of a transaction that is already open. *)
Lemma transaction_tail {A} (body : M (Conn DB) A) s :
  txn_safe body -> working s <> None ->
  let res := (let* a := OrRollback body in do* CommitOrRollback; ret a) s in
  (is_ok res.1 = true -> working res.2 = None) /\
  (is_ok res.1 = false -> committed res.2 = committed s).
Proof.
  intros Hb Hw. destruct (Hb s Hw) as [Hcom Hw'].
  unfold bind, OrRollback, CommitOrRollback, OrRollback, Rollback, ret.
  destruct (body s) as [[a|e] s2]; simpl in *.
  - destruct (commit_outcome s2 (Hw' eq_refl)) as [Hok Herr].
    destruct (Execute COMMIT s2) as [[[]|e] s3]; simpl in *; [split; [by apply Hok|done]|].
    split; [done|intros _]. rewrite execute_committed by (by left). rewrite Herr; done.
  - split; [done|intros _]. by rewrite execute_committed by (by left).
Qed.

Lemma atomic_transaction {A} (body : M (Conn DB) A) :
  txn_safe body -> atomic (Transaction body).
Proof.
  intros Hb s _. change (Transaction body s) with
    (match Execute BEGIN_IMMEDIATE s with
     | (Ok _, s1) => (let* a := OrRollback body in do* CommitOrRollback; ret a) s1
     | (Err e, s1) => (Err e, s1) end).
  destruct (begin_outcome s) as [Hok Hcom].
  destruct (Execute BEGIN_IMMEDIATE s) as [[[]|e] s1]; simpl in *; [|done].
  destruct (Hok eq_refl) as [Hnone Hw1].
  destruct (transaction_tail body s1 Hb) as [H1 H2]; [by rewrite Hw1|].
  rewrite Hcom in H2. naive_solver.
Qed.
End Tolerance.

(** The program-shaped side conditions are closed by these databases. *)
Create HintDb sqlite.
#[export] Hint Resolve tolerant_ret tolerant_throw tolerant_lift tolerant_require
  tolerant_require_ok tolerant_bind tolerant_api_call tolerant_run_dml
  tolerant_run_query tolerant_changes tolerant_now tolerant_execute
  tolerant_or_rollback tolerant_transaction : sqlite.
#[export] Hint Resolve txn_safe_ret txn_safe_throw txn_safe_lift txn_safe_require
  txn_safe_require_ok txn_safe_bind txn_safe_api_call txn_safe_run_dml txn_safe_run_insert
  txn_safe_run_query txn_safe_changes txn_safe_now atomic_transaction : sqlite.
#[export] Hint Extern 1 (tolerant (match ?x with _ => _ end)) => destruct x : sqlite.
#[export] Hint Extern 1 (txn_safe (match ?x with _ => _ end)) => destruct x : sqlite.
