(* ===== verification/Logic.v ===== *)
(** * Logic: reasoning about operations of a fallible connection

    [wp c Q w n]: whenever [c] succeeds from a connection whose current
    database is [w] (and whose last change count is [n]), whatever calls the
    engine could have failed, its result and the database it leaves satisfy
    [Q].  [commits c Q db] is the same for a whole operation that starts and
    ends outside a transaction, stated on the committed database. *)

From S2P Require Import Prelude Status Sqlite.

Section Logic.
Context {DB : Type}.
Implicit Types (s : Conn DB) (w : DB) (n : Z).

Definition wp {A} (c : M (Conn DB) A) (Q : A -> DB -> Z -> Prop) w n : Prop :=
  forall s a s', current_db s = w -> changes s = n -> c s = (Ok a, s') ->
    (working s' = None <-> working s = None)
    /\ (working s <> None -> committed s' = committed s)
    /\ Q a (current_db s') (changes s').

Definition commits {A} (c : M (Conn DB) A) (Q : A -> DB -> Prop) (db : DB) : Prop :=
  forall s a s', working s = None -> committed s = db -> c s = (Ok a, s') ->
    working s' = None /\ Q a (committed s').

Lemma next_fault_none s s' :
  next_fault s = (None, s') ->
  working s' = working s /\ committed s' = committed s /\ changes s' = changes s
  /\ current_db s' = current_db s.
Proof.
  unfold next_fault. destruct s as [? ? ? [|[f|] fs] ?]; simpl; intros [= <-]; done.
Qed.

Lemma wp_ret {A} (a : A) Q w n : Q a w n -> wp (ret a) Q w n.
Proof. intros HQ s b s' <- <- [= <- <-]. done. Qed.

Lemma wp_throw {A} e (Q : A -> DB -> Z -> Prop) w n : wp (throw e) Q w n.
Proof. by intros s b s' _ _ [=]. Qed.

Lemma wp_lift {A} (x : StatusOr A) Q w n : (forall a, x = Ok a -> Q a w n) -> wp (lift x) Q w n.
Proof. intros HQ s b s' <- <- [= -> <-]. split_and!; [done|done|by apply HQ]. Qed.

Lemma wp_require b e Q w n : (b = true -> Q tt w n) -> wp (require b e) Q w n.
Proof. destruct b; intros HQ; [apply wp_ret; auto|apply wp_throw]. Qed.

Lemma wp_require_ok st Q w n : (ok st = true -> Q tt w n) -> wp (require_ok st) Q w n.
Proof. unfold require_ok. destruct (ok st); intros HQ; [apply wp_ret; auto|apply wp_throw]. Qed.

Lemma wp_bind {A B} (c : M (Conn DB) A) (k : A -> M (Conn DB) B) Q w n :
  wp c (fun a w n => wp (k a) Q w n) w n -> wp (bind c k) Q w n.
Proof.
  intros Hc s b s' Hw Hn. unfold bind.
  destruct (c s) as [[a|e] s1] eqn:Hcs; [|done]. intros Hk.
  destruct (Hc s a s1 Hw Hn Hcs) as (Hm1&Hc1&H1).
  destruct (H1 s1 b s' eq_refl eq_refl Hk) as (Hm2&Hc2&HQ).
  split_and!; [by rewrite Hm2| |done].
  intros Hopen. rewrite Hc2, Hc1; [done..|]. by rewrite Hm1.
Qed.

Lemma wp_mono {A} (c : M (Conn DB) A) (P Q : A -> DB -> Z -> Prop) w n :
  wp c P w n -> (forall a w' n', P a w' n' -> Q a w' n') -> wp c Q w n.
Proof. intros Hc HPQ s a s' Hw Hn Hcs. destruct (Hc s a s' Hw Hn Hcs) as (?&?&?). auto. Qed.

Lemma wp_api err Q w n : Q tt w n -> wp (api_call err) Q w n.
Proof.
  intros HQ s a s' <- <-. unfold api_call.
  destruct (next_fault s) as [[f|] s1] eqn:Hf; [done|].
  apply next_fault_none in Hf as (Hw&Hc&Hn&Hd). intros [= <- <-].
  by rewrite Hw, Hd, Hn.
Qed.

Lemma wp_query {A} what (stmt : DB -> A) Q w n : Q (stmt w) w n -> wp (run_query what stmt) Q w n.
Proof.
  intros HQ s a s' <- <-. unfold run_query, step_query.
  destruct (next_fault s) as [[f|] s1] eqn:Hf; [done|].
  apply next_fault_none in Hf as (Hw&Hc&Hn&Hd). intros [= <- <-].
  by rewrite Hw, Hd, Hn.
Qed.

Lemma wp_dml what stmt Q w n :
  (forall w' n', stmt w = Some (w', n') -> Q tt w' n') -> wp (run_dml what stmt) Q w n.
Proof.
  intros HQ s a s' <- <-. unfold run_dml, step_dml.
  destruct (next_fault s) as [[f|] s1] eqn:Hf; [done|].
  apply next_fault_none in Hf as (Hw&Hc&Hn&Hd). rewrite Hd.
  destruct (stmt (current_db s)) as [[db k]|] eqn:Hs; [|done]. intros [= <- <-].
  specialize (HQ db k eq_refl). unfold write_db. rewrite <- Hw, <- Hc.
  destruct (working s1); split_and!; done.
Qed.

Lemma wp_insert refused what stmt Q w n :
  (forall w' n', stmt w = Some (w', n') -> Q tt w' n') -> wp (run_insert refused what stmt) Q w n.
Proof.
  intros HQ s a s' Hw Hn. unfold run_insert. intros Hrun. apply (wp_dml what stmt Q w n HQ s a s' Hw Hn).
  unfold run_dml. by destruct (step_dml stmt s) as [[[]| |] s1].
Qed.

Lemma wp_changes Q w n : Q n w n -> wp sqlite3_changes Q w n.
Proof. intros HQ s a s' <- <- [= <- <-]. done. Qed.

Lemma wp_now Q w n : (forall t, Q t w n) -> wp CurrentTimeNanoseconds Q w n.
Proof. intros HQ s a s' <- <- [= <- <-]. split_and!; [done|done|apply HQ]. Qed.

Lemma wp_or_rollback {A} (c : M (Conn DB) A) Q w n : wp c Q w n -> wp (OrRollback c) Q w n.
Proof.
  intros Hc s a s' Hw Hn. unfold OrRollback.
  destruct (c s) as [[b|e] s1] eqn:Hcs; [|done]. intros [= -> ->]. by apply (Hc s a s').
Qed.

Lemma commits_wp {A} (c : M (Conn DB) A) Q db :
  (forall n, wp c (fun a w _ => Q a w) db n) -> commits c Q db.
Proof.
  intros Hc s a s' Hw <- Hcs. destruct (Hc (changes s) s a s') as (Hm&_&HQ); [|done..|].
  - unfold current_db. by rewrite Hw.
  - split; [by apply Hm|]. revert HQ. unfold current_db. by rewrite (proj2 Hm Hw).
Qed.

Lemma commits_transaction {A} (body : M (Conn DB) A) Q db :
  (forall n, wp body (fun a w _ => Q a w) db n) -> commits (Transaction body) Q db.
Proof.
  intros Hb s a s' Hw <-. unfold Transaction, bind at 1.
  destruct (Execute BEGIN_IMMEDIATE s) as [[[]|e] s1] eqn:Hbegin; [|done].
  destruct (begin_outcome s) as [Hok _]. rewrite Hbegin in Hok. simpl in Hok.
  destruct (Hok eq_refl) as [_ Hw1]. unfold bind, OrRollback at 1.
  destruct (body s1) as [[b|e] s2] eqn:Hbody; [|done].
  destruct (Hb (changes s1) s1 b s2) as (Hm&_&HQ); [|done..|].
  { unfold current_db. by rewrite Hw1. }
  unfold CommitOrRollback, OrRollback, Execute, transact.
  destruct (next_fault s2) as [[f|] s3] eqn:Hf; [done|].
  apply next_fault_none in Hf as (Hw3&_&_&_). rewrite Hw3.
  destruct (working s2) as [w2|] eqn:Hw2; [|done].
  intros [= <- <-]. split; [done|]. simpl. revert HQ. unfold current_db. by rewrite Hw2.
Qed.

(** Whatever fails, from whatever connection: a transaction that returns an
    error published nothing. *)
Lemma transaction_outcome {A} (body : M (Conn DB) A) (Q : A -> DB -> Prop) s :
  txn_safe body -> (forall n, wp body (fun a w _ => Q a w) (committed s) n) ->
  match Transaction body s with
  | (Ok a, s') => Q a (committed s')
  | (Err _, s') => committed s' = committed s
  end.
Proof.
  intros Hsafe Hbody. destruct (Transaction body s) as [[a|e] s'] eqn:Hrun.
  - destruct (working s) eqn:Hw.
    + revert Hrun. unfold Transaction, bind at 1. destruct (begin_outcome s) as [Hok _].
      destruct (Execute BEGIN_IMMEDIATE s) as [[[]|e] s1]; [|done]. by destruct (Hok eq_refl) as [? _]; congruence.
    + by apply (commits_transaction body Q _ Hbody s a s' Hw eq_refl Hrun).
  - destruct (working s) eqn:Hw.
    + revert Hrun. unfold Transaction, bind at 1. destruct (begin_outcome s) as [Hok Hcom].
      destruct (Execute BEGIN_IMMEDIATE s) as [[[]|e'] s1]; simpl in *.
      * by destruct (Hok eq_refl) as [? _]; congruence.
      * by intros [= _ <-].
    + destruct (atomic_transaction body Hsafe s Hw) as [_ He]. rewrite Hrun in He. by apply He.
Qed.

Lemma commits_bind {A B} (c : M (Conn DB) A) (k : A -> M (Conn DB) B) Q db :
  commits c (fun a db1 => commits (k a) Q db1) db -> commits (bind c k) Q db.
Proof.
  intros Hc s b s' Hw Hdb. unfold bind.
  destruct (c s) as [[a|e] s1] eqn:Hcs; [|done]. intros Hk.
  destruct (Hc s a s1 Hw Hdb Hcs) as [Hw1 H1]. by apply (H1 s1 b s').
Qed.

Lemma commits_require_ok st Q db : (ok st = true -> Q tt db) -> commits (require_ok st) Q db.
Proof. intros HQ. apply commits_wp. intros n. by apply wp_require_ok. Qed.

Lemma commits_require b e Q db : (b = true -> Q tt db) -> commits (require b e) Q db.
Proof. intros HQ. apply commits_wp. intros n. by apply wp_require. Qed.

Lemma commits_throw {A} e (Q : A -> DB -> Prop) db : commits (throw e) Q db.
Proof. by intros s b s' _ _ [=]. Qed.

Lemma commits_ret {A} (a : A) (Q : A -> DB -> Prop) db : Q a db -> commits (ret a) Q db.
Proof. intros HQ. apply commits_wp. intros n. by apply wp_ret. Qed.

(** ** Operations without a transaction of their own *)

(** [reads c]: outside a transaction, [c] opens none and changes nothing. *)
Definition reads {A} (c : M (Conn DB) A) : Prop :=
  forall s, working s = None -> working (c s).2 = None /\ committed (c s).2 = committed s.

Lemma reads_atomic {A} (c : M (Conn DB) A) : reads c -> atomic c.
Proof. intros Hc s Hw. by destruct (Hc s Hw). Qed.

Lemma reads_pure {A} (c : M (Conn DB) A) :
  (forall s, working (c s).2 = working s /\ committed (c s).2 = committed s) -> reads c.
Proof. intros Hc s Hw. by rewrite <- Hw. Qed.

Lemma reads_ret {A} (a : A) : reads (ret a).
Proof. by apply reads_pure. Qed.
Lemma reads_throw {A} e : reads (throw (A := A) e).
Proof. by apply reads_pure. Qed.
Lemma reads_lift {A} (x : StatusOr A) : reads (lift x).
Proof. by apply reads_pure. Qed.
Lemma reads_require b e : reads (require b e).
Proof. by destruct b; apply reads_pure. Qed.
Lemma reads_require_ok st : reads (require_ok st).
Proof. unfold require_ok. by destruct (ok st); apply reads_pure. Qed.
Lemma reads_changes : reads sqlite3_changes.
Proof. by apply reads_pure. Qed.
Lemma reads_now : reads CurrentTimeNanoseconds.
Proof. by apply reads_pure. Qed.

Lemma next_fault_reads s :
  working s = None -> working (next_fault s).2 = None /\ committed (next_fault s).2 = committed s.
Proof.
  unfold next_fault. destruct s as [? ? ? [|[f|] fs] ?]; simpl; [done| |done].
  by destruct (rolls_back f).
Qed.

Lemma reads_api_call err : reads (api_call err).
Proof.
  intros s Hw. unfold api_call. pose proof (next_fault_reads s Hw).
  by destruct (next_fault s) as [[f|] s1].
Qed.
Lemma reads_query {A} what (stmt : DB -> A) : reads (run_query what stmt).
Proof.
  intros s Hw. unfold run_query, step_query. pose proof (next_fault_reads s Hw).
  by destruct (next_fault s) as [[f|] s1].
Qed.

Lemma reads_bind {A B} (c : M (Conn DB) A) (k : A -> M (Conn DB) B) :
  reads c -> (forall a, reads (k a)) -> reads (bind c k).
Proof.
  intros Hc Hk s Hw. unfold bind. destruct (Hc s Hw) as [Hw1 Hcom].
  destruct (c s) as [[a|e] s1]; simpl in *; [|done].
  destruct (Hk a s1 Hw1) as [? Hcom2]. by rewrite Hcom2.
Qed.

Lemma atomic_bind_reads {A B} (c : M (Conn DB) A) (k : A -> M (Conn DB) B) :
  reads c -> (forall a, atomic (k a)) -> atomic (bind c k).
Proof.
  intros Hc Hk s Hw. unfold bind. destruct (Hc s Hw) as [Hw1 Hcom].
  destruct (c s) as [[a|e] s1]; simpl in *; [|done].
  destruct (Hk a s1 Hw1) as [? Hcom2]. by rewrite <- Hcom.
Qed.

(** A statement followed by a check of the change count that fails only when
    the statement changed nothing. *)
Lemma atomic_checked_dml what stmt e (check : Z -> bool) :
  (forall w w' n, stmt w = Some (w', n) -> check n = false -> w' = w) ->
  atomic (let* changes := (do* run_dml what stmt; sqlite3_changes) in require (check changes) e).
Proof.
  intros Hstmt s Hw. unfold bind, run_dml, step_dml.
  pose proof (next_fault_reads s Hw) as Hr.
  destruct (next_fault s) as [[f|] s1]; simpl in *; [by destruct Hr|].
  destruct Hr as [Hw1 Hc1]. unfold current_db. rewrite Hw1.
  destruct (stmt (committed s1)) as [[w' n]|] eqn:Hs; simpl; [|done].
  unfold write_db. rewrite Hw1. simpl. unfold require.
  destruct (check n) eqn:Hn; simpl; [done|].
  split; [done|]. intros _. rewrite (Hstmt _ _ _ Hs Hn). done.
Qed.

Lemma atomic_run_insert refused what stmt : atomic (run_insert (DB := DB) refused what stmt).
Proof.
  intros s Hw. unfold run_insert, step_dml. pose proof (next_fault_reads s Hw) as Hr.
  destruct (next_fault s) as [[f|] s1]; simpl in *; [by destruct Hr|]. destruct Hr as [Hw1 Hc1].
  unfold current_db. rewrite Hw1. destruct (stmt (committed s1)) as [[w' n]|]; simpl; [|done].
  unfold write_db. by rewrite Hw1.
Qed.

Lemma bind_assoc {A B C} (c : M (Conn DB) A) (f : A -> M (Conn DB) B) (g : B -> M (Conn DB) C) s :
  bind (bind c f) g s = bind c (fun a => bind (f a) g) s.
Proof. unfold bind. by destruct (c s) as [[a|e] s1]. Qed.

(** ** Total correctness on a connection that does not fail

    [twp c Q w n]: with no failure ahead, [c] succeeds from the current
    database [w], and what it returns and leaves satisfies [Q]; [completes]
    is the same of a whole operation. *)

Definition twp {A} (c : M (Conn DB) A) (Q : A -> DB -> Z -> Prop) w n : Prop :=
  forall s, faults s = [] -> current_db s = w -> changes s = n ->
    exists a s', c s = (Ok a, s') /\ faults s' = [] /\ (working s' = None <-> working s = None)
      /\ Q a (current_db s') (changes s').

Definition completes {A} (c : M (Conn DB) A) (Q : A -> DB -> Prop) (db : DB) : Prop :=
  forall s, faults s = [] -> working s = None -> committed s = db ->
    exists a s', c s = (Ok a, s') /\ faults s' = [] /\ working s' = None /\ Q a (committed s').

Lemma next_fault_quiet s : faults s = [] -> next_fault s = (None, s).
Proof. unfold next_fault. by intros ->. Qed.

(** Evaluation of the head of a program on such a connection. *)
Lemma run_api {B} err (k : unit -> M (Conn DB) B) s :
  faults s = [] -> bind (api_call err) k s = k tt s.
Proof. intros Hf. unfold bind, api_call. by rewrite next_fault_quiet. Qed.

Lemma run_require_ok {B} st (k : unit -> M (Conn DB) B) s :
  ok st = true -> bind (require_ok st) k s = k tt s.
Proof. unfold bind, require_ok. by intros ->. Qed.

Lemma run_require {B} b e (k : unit -> M (Conn DB) B) s :
  bind (require b e) k s = if b then k tt s else (Err e, s).
Proof. by destruct b. Qed.

Lemma run_select {A B} what (stmt : DB -> A) (k : A -> M (Conn DB) B) s :
  faults s = [] -> bind (run_query what stmt) k s = k (stmt (current_db s)) s.
Proof. intros Hf. unfold bind, run_query, step_query. by rewrite next_fault_quiet. Qed.

Lemma twp_ret {A} (a : A) Q w n : Q a w n -> twp (ret a) Q w n.
Proof. intros HQ s Hf <- <-. by exists a, s. Qed.

Lemma twp_lift {A} (x : StatusOr A) Q w n : (exists a, x = Ok a /\ Q a w n) -> twp (lift x) Q w n.
Proof. intros (a&->&HQ) s Hf <- <-. by exists a, s. Qed.

Lemma twp_require b e Q w n : b = true -> Q tt w n -> twp (require b e) Q w n.
Proof. intros -> HQ. by apply twp_ret. Qed.

Lemma twp_require_ok st Q w n : ok st = true -> Q tt w n -> twp (require_ok st) Q w n.
Proof. unfold require_ok. intros -> HQ. by apply twp_ret. Qed.

Lemma twp_bind {A B} (c : M (Conn DB) A) (k : A -> M (Conn DB) B) Q w n :
  twp c (fun a w n => twp (k a) Q w n) w n -> twp (bind c k) Q w n.
Proof.
  intros Hc s Hf Hw Hn. destruct (Hc s Hf Hw Hn) as (a&s1&Hs1&Hf1&Hm1&Hk).
  destruct (Hk s1 Hf1 eq_refl eq_refl) as (b&s2&Hs2&Hf2&Hm2&HQ).
  exists b, s2. unfold bind. rewrite Hs1, Hs2. split_and!; try done. by rewrite Hm2.
Qed.

Lemma twp_mono {A} (c : M (Conn DB) A) (P Q : A -> DB -> Z -> Prop) w n :
  twp c P w n -> (forall a w' n', P a w' n' -> Q a w' n') -> twp c Q w n.
Proof.
  intros Hc HPQ s Hf Hw Hn. destruct (Hc s Hf Hw Hn) as (a&s1&?&?&?&?).
  exists a, s1. eauto.
Qed.

Lemma twp_api err Q w n : Q tt w n -> twp (api_call err) Q w n.
Proof.
  intros HQ s Hf <- <-. exists tt, s. unfold api_call. by rewrite next_fault_quiet.
Qed.

Lemma twp_query {A} what (stmt : DB -> A) Q w n : Q (stmt w) w n -> twp (run_query what stmt) Q w n.
Proof.
  intros HQ s Hf <- <-. exists (stmt (current_db s)), s. unfold run_query, step_query.
  by rewrite next_fault_quiet.
Qed.

Lemma twp_dml what stmt w' n' Q w n :
  stmt w = Some (w', n') -> Q tt w' n' -> twp (run_dml what stmt) Q w n.
Proof.
  intros Hs HQ s Hf <- <-. exists tt, (write_db w' n' s). unfold run_dml, step_dml.
  rewrite next_fault_quiet, Hs by done. unfold write_db. by destruct (working s).
Qed.

Lemma twp_insert refused what stmt w' n' Q w n :
  stmt w = Some (w', n') -> Q tt w' n' -> twp (run_insert refused what stmt) Q w n.
Proof.
  intros Hs HQ s Hf <- <-. exists tt, (write_db w' n' s). unfold run_insert, step_dml.
  rewrite next_fault_quiet, Hs by done. unfold write_db. by destruct (working s).
Qed.

Lemma twp_changes Q w n : Q n w n -> twp sqlite3_changes Q w n.
Proof. intros HQ s Hf <- <-. by exists (changes s), s. Qed.

Lemma twp_now Q w n : (forall t, Q t w n) -> twp CurrentTimeNanoseconds Q w n.
Proof. intros HQ s Hf <- <-. exists (hd 0 (times s)). eexists. split; [done|].
  split; [done|]. split; [done|]. apply HQ. Qed.

Lemma twp_or_rollback {A} (c : M (Conn DB) A) Q w n : twp c Q w n -> twp (OrRollback c) Q w n.
Proof.
  intros Hc s Hf Hw Hn. destruct (Hc s Hf Hw Hn) as (a&s1&Hs1&?).
  exists a, s1. unfold OrRollback. by rewrite Hs1.
Qed.

Lemma completes_twp {A} (c : M (Conn DB) A) Q db :
  (forall n, twp c (fun a w _ => Q a w) db n) -> completes c Q db.
Proof.
  intros Hc s Hf Hw <-. destruct (Hc (changes s) s Hf) as (a&s1&Hs1&Hf1&Hm&HQ); [|done|].
  - unfold current_db. by rewrite Hw.
  - exists a, s1. split_and!; [done|done|by apply Hm|].
    revert HQ. unfold current_db. by rewrite (proj2 Hm Hw).
Qed.

Lemma completes_transaction {A} (body : M (Conn DB) A) Q db :
  (forall n, twp body (fun a w _ => Q a w) db n) -> completes (Transaction body) Q db.
Proof.
  intros Hb s Hf Hw <-. set (s0 := set_working (Some (committed s)) s).
  destruct (Hb (changes s) s0 Hf) as (a&s1&Hs1&Hf1&Hm&HQ); [done|done|].
  destruct (working s1) as [w1|] eqn:Hw1; [|discriminate (proj1 Hm eq_refl)].
  exists a, (mkConn w1 None (changes s1) [] (times s1)).
  assert (Execute BEGIN_IMMEDIATE s = (Ok tt, s0)) as Hbegin.
  { unfold Execute, transact. by rewrite next_fault_quiet, Hw. }
  assert (Execute COMMIT s1 = (Ok tt, mkConn w1 None (changes s1) [] (times s1))) as Hcommit.
  { unfold Execute, transact. by rewrite next_fault_quiet, Hw1, Hf1. }
  unfold Transaction, bind, CommitOrRollback, OrRollback. rewrite Hbegin, Hs1, Hcommit.
  split_and!; try done. simpl. revert HQ. unfold current_db. by rewrite Hw1.
Qed.

Lemma completes_bind {A B} (c : M (Conn DB) A) (k : A -> M (Conn DB) B) Q db :
  completes c (fun a db1 => completes (k a) Q db1) db -> completes (bind c k) Q db.
Proof.
  intros Hc s Hf Hw Hdb. destruct (Hc s Hf Hw Hdb) as (a&s1&Hs1&Hf1&Hw1&Hk).
  destruct (Hk s1 Hf1 Hw1 eq_refl) as (b&s2&Hs2&HQ). exists b, s2.
  unfold bind. by rewrite Hs1, Hs2.
Qed.

Lemma completes_require_ok st Q db : ok st = true -> Q tt db -> completes (require_ok st) Q db.
Proof. intros Hok HQ. apply completes_twp. intros n. by apply twp_require_ok. Qed.

Lemma completes_require b e Q db : b = true -> Q tt db -> completes (require b e) Q db.
Proof. intros Hb HQ. apply completes_twp. intros n. by apply twp_require. Qed.

Lemma completes_ret {A} (a : A) (Q : A -> DB -> Prop) db : Q a db -> completes (ret a) Q db.
Proof. intros HQ. apply completes_twp. intros n. by apply twp_ret. Qed.

End Logic.

#[export] Hint Resolve reads_ret reads_throw reads_lift reads_require reads_require_ok
  reads_changes reads_now reads_api_call reads_query reads_bind : sqlite.
#[export] Hint Extern 1 (reads (match ?x with _ => _ end)) => destruct x : sqlite.

(** One step of a [wp] goal: the rule for the head of the program. *)
Ltac wp_step :=
  lazymatch goal with
  | |- wp (bind _ _) _ _ _ => apply wp_bind
  | |- wp (ret _) _ _ _ => apply wp_ret
  | |- wp (throw _) _ _ _ => apply wp_throw
  | |- wp (lift _) _ _ _ => apply wp_lift; intros ? ?
  | |- wp (require _ _) _ _ _ => apply wp_require; intros ?
  | |- wp (require_ok _) _ _ _ => apply wp_require_ok; intros ?
  | |- wp (prepare _) _ _ _ => apply wp_api
  | |- wp (bind_call _) _ _ _ => apply wp_api
  | |- wp (BindText _) _ _ _ => apply wp_api
  | |- wp (BindBlob _) _ _ _ => apply wp_api
  | |- wp (BindEpoch _) _ _ _ => apply wp_api
  | |- wp (api_call _) _ _ _ => apply wp_api
  | |- wp (run_query _ _) _ _ _ => apply wp_query
  | |- wp (run_dml _ _) _ _ _ => apply wp_dml; intros ? ? ?
  | |- wp (run_insert _ _ _) _ _ _ => apply wp_insert; intros ? ? ?
  | |- wp sqlite3_changes _ _ _ => apply wp_changes
  | |- wp CurrentTimeNanoseconds _ _ _ => apply wp_now; intros ?
  | |- wp (OrRollback _) _ _ _ => apply wp_or_rollback
  end.
Ltac wp_run := repeat wp_step.

(** The same for [twp]; guards and change counts are left as goals. *)
Ltac twp_step :=
  lazymatch goal with
  | |- twp (bind _ _) _ _ _ => apply twp_bind
  | |- twp (ret _) _ _ _ => apply twp_ret
  | |- twp (prepare _) _ _ _ => apply twp_api
  | |- twp (bind_call _) _ _ _ => apply twp_api
  | |- twp (BindText _) _ _ _ => apply twp_api
  | |- twp (BindBlob _) _ _ _ => apply twp_api
  | |- twp (BindEpoch _) _ _ _ => apply twp_api
  | |- twp (run_query _ _) _ _ _ => apply twp_query
  | |- twp sqlite3_changes _ _ _ => apply twp_changes
  | |- twp CurrentTimeNanoseconds _ _ _ => apply twp_now; intros ?
  | |- twp (OrRollback _) _ _ _ => apply twp_or_rollback
  end.
Ltac twp_run := repeat twp_step.
