(* ===== verification/Schema.v ===== *)
(** * Schema: opening the runtime database and upgrading its schema

    Models src/app/sqlite_connection.cpp ([Open] and its pragmas) and
    src/app/sqlite_schema.cpp ([EnsureSchema]).  A [Catalog] is what the
    database declares: its tables with their columns and constraints, its
    indexes, and the rows of [schema_version]; a declaration fails when its
    name is taken.  The tables of versions 3 to 5 are those of Tables.v. *)

From stdpp Require Import pretty.
From S2P Require Import Prelude Status Bytes Sqlite Logic.

(** ** The connection *)

Inductive SqlValue := SqlNull | SqlText (s : string) | SqlInteger (z : Z) | SqlOther.

(** The calls of [Open]: an error carries SQLite's message. *)
Class Library (W : Type) := {
  sqlite3_open : string -> M W unit;
  sqlite3_exec : string -> M W unit;
  sqlite3_rows : string -> M W (list SqlValue);
  sqlite3_busy_timeout : Z -> M W unit;
}.

Section Open.
Context {W : Type} `{Library W}.

(** A failing call, reported with the name of the operation. *)
Definition or_sqlite_error {A} (operation : string) (c : M W A) : M W A :=
  let* r := outcome c in
  match r with Ok a => ret a | Err e => throw (SqliteError operation (message e)) end.

(** [sqlite3_column_text]: numbers are converted. *)
Definition column_text (v : SqlValue) : option string :=
  match v with SqlNull => None | SqlText s => Some (c_str s) | SqlInteger z => Some (pretty z) | SqlOther => Some "" end.

(** [ReadTextPragma(database, sql, operation)] *)
Definition ReadTextPragma (sql operation : string) : M W string :=
  let* rows := or_sqlite_error operation (sqlite3_rows sql) in
  match rows with
  | [] => throw (SqliteError operation "no more rows available")
  | value :: rest =>
      match column_text value with
      | None => throw (Internal (operation +:+ " returned NULL"))
      | Some result =>
          do* require (bool_decide (rest = [])) (SqliteError operation "another row available");
          ret result
      end
  end.

(** [ReadIntegerPragma(database, sql, operation)] *)
Definition ReadIntegerPragma (sql operation : string) : M W Z :=
  let* rows := or_sqlite_error operation (sqlite3_rows sql) in
  match rows with
  | [] => throw (SqliteError operation "no more rows available")
  | SqlInteger value :: rest =>
      do* require (bool_decide (rest = [])) (SqliteError operation "another row available");
      ret (to_int32 value)
  | _ => throw (Internal (operation +:+ " returned a non-integer value"))
  end.

(** [std::tolower] in the "C" locale. *)
Definition to_lower (c : ascii) : ascii :=
  let v := Z_of_byte c in if (65 <=? v) && (v <=? 90) then byte_of_Z (v + 32) else c.
Fixpoint lower (s : string) : string :=
  match s with EmptyString => "" | String c s => String (to_lower c) (lower s) end.

(** [Configure(database)] *)
Definition Configure : M W unit :=
  do* or_sqlite_error "configure SQLite journal mode" (sqlite3_exec "PRAGMA journal_mode=WAL;");
  let* journal_mode := ReadTextPragma "PRAGMA journal_mode;" "read SQLite journal mode" in
  do* require (lower journal_mode == "wal")
    (mkStatus StatusCode.kIoError ("SQLite journal mode is not WAL: " +:+ lower journal_mode));
  do* or_sqlite_error "configure SQLite synchronous mode" (sqlite3_exec "PRAGMA synchronous=FULL;");
  let* synchronous := ReadIntegerPragma "PRAGMA synchronous;" "read SQLite synchronous mode" in
  do* require (synchronous =? 2) (mkStatus StatusCode.kIoError "SQLite synchronous mode is not FULL");
  do* or_sqlite_error "configure SQLite foreign keys" (sqlite3_exec "PRAGMA foreign_keys=ON;");
  let* foreign_keys := ReadIntegerPragma "PRAGMA foreign_keys;" "read SQLite foreign keys" in
  do* require (foreign_keys =? 1) (mkStatus StatusCode.kIoError "SQLite foreign keys are not enabled");
  or_sqlite_error "configure SQLite busy timeout" (sqlite3_busy_timeout 5000).

(** [SqliteConnection::Open] *)
Definition SqliteConnection_Open (path : string) : M W unit :=
  do* require (negb (str_empty path)) (Invalid "SQLite database path must not be empty");
  do* or_sqlite_error "open SQLite database" (sqlite3_open path);
  Configure.

End Open.

(** ** The catalog *)

Inductive ColumnType := TEXT | BLOB | INTEGER.
Inductive ColumnConstraint :=
  NOT_NULL | PRIMARY_KEY | AUTOINCREMENT | DEFAULT_INTEGER (z : Z) | DEFAULT_TEXT (s : string) | CHECK (e : string).
Record Column := col { column_name : string; column_type : ColumnType; column_constraints : list ColumnConstraint }.
Inductive TableConstraint :=
  | TPrimaryKey (columns : list string)
  | TUnique (columns : list string)
  | TForeignKey (columns : list string) (table : string) (referenced : list string).

Record Catalog := mkCatalog {
  tables : list (string * (list Column * list TableConstraint));
  indexes : list (string * (string * list string));
  versions : option (list SqlValue);    (* the rows of schema_version *)
}.

Inductive Statement :=
  | CreateTable (name : string) (columns : list Column) (constraints : list TableConstraint)
  | CreateIndex (name table : string) (columns : list string)
  | SetVersion (version : Z)
  | CreateSchemaVersion
  | InsertVersion (version : Z).

Definition taken (name : string) (c : Catalog) : bool :=
  bool_decide (name ∈ (tables c).*1) || bool_decide (name ∈ (indexes c).*1)
  || ((name == "schema_version") && has_value (versions c)).

(** The rows of [schema_version] after an update of all. *)
Definition run_statement (statement : Statement) (c : Catalog) : option (Catalog * Z) :=
  match statement with
  | CreateTable name columns constraints =>
      if taken name c then None
      else Some (mkCatalog (tables c ++ [(name, (columns, constraints))]) (indexes c) (versions c), 0)
  | CreateIndex name table columns =>
      if taken name c || negb (bool_decide (table ∈ (tables c).*1)) then None
      else Some (mkCatalog (tables c) (indexes c ++ [(name, (table, columns))]) (versions c), 0)
  | SetVersion version =>
      match versions c with
      | None => None
      | Some rows => Some (mkCatalog (tables c) (indexes c) (Some ((fun _ => SqlInteger version) <$> rows)),
                           Z.of_nat (length rows))
      end
  | CreateSchemaVersion =>
      if taken "schema_version" c then None else Some (mkCatalog (tables c) (indexes c) (Some []), 0)
  | InsertVersion version =>
      match versions c with
      | None => None
      | Some rows => Some (mkCatalog (tables c) (indexes c) (Some (rows ++ [SqlInteger version])), 1)
      end
  end.

(** [connection.Execute(sql)] *)
Definition execute (statement : Statement) : M (Conn Catalog) unit :=
  run_dml "execute SQLite statement" (run_statement statement).
Fixpoint run_all (l : list Statement) : M (Conn Catalog) unit :=
  match l with [] => ret tt | statement :: l => do* execute statement; run_all l end.

(** [ApplySchemaV2] *)
Definition statements_v2 : list Statement := [
    CreateTable "source_manifest"
      [col "manifest_id" TEXT [PRIMARY_KEY];
       col "source_id" TEXT [NOT_NULL];
       col "source_type" TEXT [NOT_NULL];
       col "source_root" BLOB [NOT_NULL];
       col "state" INTEGER [NOT_NULL];
       col "manifest_digest" BLOB [];
       col "created_at_ns" INTEGER [NOT_NULL]]
      [];
    CreateTable "physical_asset"
      [col "manifest_id" TEXT [NOT_NULL];
       col "asset_id" TEXT [NOT_NULL];
       col "relative_path" BLOB [NOT_NULL];
       col "display_path" TEXT [NOT_NULL];
       col "device" INTEGER [NOT_NULL];
       col "inode" INTEGER [NOT_NULL];
       col "size" INTEGER [NOT_NULL];
       col "mtime_ns" INTEGER [NOT_NULL];
       col "ctime_ns" INTEGER [NOT_NULL];
       col "kind" INTEGER [NOT_NULL]]
      [TPrimaryKey ["manifest_id"; "asset_id"];
       TUnique ["manifest_id"; "relative_path"];
       TForeignKey ["manifest_id"] "source_manifest" ["manifest_id"]];
    SetVersion 2
  ].
Definition ApplySchemaV2 : M (Conn Catalog) unit := run_all statements_v2.

(** [ApplySchemaV3] *)
Definition statements_v3 : list Statement := [
    CreateTable "migration"
      [col "migration_id" TEXT [PRIMARY_KEY];
       col "source_manifest_id" TEXT [NOT_NULL];
       col "target_root" BLOB [NOT_NULL];
       col "state" INTEGER [NOT_NULL];
       col "current_epoch" INTEGER [NOT_NULL; DEFAULT_INTEGER 0];
       col "created_at_ns" INTEGER [NOT_NULL]]
      [];
    CreateTable "migration_plan"
      [col "plan_id" TEXT [PRIMARY_KEY];
       col "migration_id" TEXT [NOT_NULL];
       col "plan_path" BLOB [NOT_NULL];
       col "artifact_digest" BLOB [NOT_NULL];
       col "semantic_digest" BLOB [NOT_NULL];
       col "semantic_profile_version" INTEGER [NOT_NULL];
       col "format_version" INTEGER [NOT_NULL];
       col "state" INTEGER [NOT_NULL];
       col "created_at_ns" INTEGER [NOT_NULL]]
      [TForeignKey ["migration_id"] "migration" ["migration_id"]];
    CreateTable "plan_task"
      [col "plan_id" TEXT [NOT_NULL];
       col "task_id" TEXT [NOT_NULL];
       col "task_key" TEXT [NOT_NULL];
       col "type" INTEGER [NOT_NULL];
       col "state" INTEGER [NOT_NULL];
       col "owner_epoch" INTEGER [];
       col "active_attempt_id" TEXT [];
       col "attempt_count" INTEGER [NOT_NULL; DEFAULT_INTEGER 0];
       col "target_path" BLOB [NOT_NULL];
       col "expected_size" INTEGER [];
       col "expected_digest" BLOB [];
       col "last_error_code" INTEGER [];
       col "last_error_message" TEXT []]
      [TPrimaryKey ["plan_id"; "task_id"];
       TUnique ["plan_id"; "task_key"];
       TForeignKey ["plan_id"] "migration_plan" ["plan_id"]];
    CreateTable "task_dependency"
      [col "plan_id" TEXT [NOT_NULL];
       col "task_id" TEXT [NOT_NULL];
       col "depends_on_task_id" TEXT [NOT_NULL]]
      [TPrimaryKey ["plan_id"; "task_id"; "depends_on_task_id"];
       TForeignKey ["plan_id"; "task_id"] "plan_task" ["plan_id"; "task_id"];
       TForeignKey ["plan_id"; "depends_on_task_id"] "plan_task" ["plan_id"; "task_id"]];
    CreateTable "task_attempt"
      [col "attempt_id" TEXT [PRIMARY_KEY];
       col "plan_id" TEXT [NOT_NULL];
       col "task_id" TEXT [NOT_NULL];
       col "owner_epoch" INTEGER [NOT_NULL];
       col "file_state" INTEGER [];
       col "started_at_ns" INTEGER [NOT_NULL];
       col "finished_at_ns" INTEGER [];
       col "result" INTEGER [];
       col "error_code" INTEGER [];
       col "error_message" TEXT []]
      [TForeignKey ["plan_id"; "task_id"] "plan_task" ["plan_id"; "task_id"]];
    SetVersion 3
  ].
Definition ApplySchemaV3 : M (Conn Catalog) unit := run_all statements_v3.

(** [ApplySchemaV4] *)
Definition statements_v4 : list Statement := [
    CreateTable "task_event"
      [col "event_id" INTEGER [PRIMARY_KEY; AUTOINCREMENT];
       col "plan_id" TEXT [NOT_NULL];
       col "task_id" TEXT [NOT_NULL];
       col "event_type" TEXT [NOT_NULL];
       col "owner_epoch" INTEGER [];
       col "attempt_id" TEXT [];
       col "detail" TEXT [NOT_NULL; DEFAULT_TEXT EmptyString];
       col "created_at_ns" INTEGER [NOT_NULL; DEFAULT_INTEGER 0]]
      [TForeignKey ["plan_id"; "task_id"] "plan_task" ["plan_id"; "task_id"]];
    CreateIndex "task_event_plan_task_idx" "task_event" ["plan_id"; "task_id"; "event_id"];
    SetVersion 4
  ].
Definition ApplySchemaV4 : M (Conn Catalog) unit := run_all statements_v4.

(** [ApplySchemaV5] *)
Definition statements_v5 : list Statement := [
    CreateTable "verified_receipt"
      [col "plan_id" TEXT [NOT_NULL];
       col "task_id" TEXT [NOT_NULL];
       col "attempt_id" TEXT [NOT_NULL];
       col "owner_epoch" INTEGER [NOT_NULL];
       col "temp_path" BLOB [NOT_NULL];
       col "final_path" BLOB [NOT_NULL];
       col "content_size" INTEGER [NOT_NULL; CHECK "content_size >= 0"];
       col "source_digest" BLOB [NOT_NULL; CHECK "length(source_digest) = 32"];
       col "target_digest" BLOB [NOT_NULL; CHECK "length(target_digest) = 32"];
       col "source_identity" BLOB [NOT_NULL]]
      [TPrimaryKey ["plan_id"; "task_id"; "attempt_id"];
       TForeignKey ["plan_id"; "task_id"] "plan_task" ["plan_id"; "task_id"];
       TForeignKey ["attempt_id"] "task_attempt" ["attempt_id"]];
    CreateIndex "verified_receipt_task_idx" "verified_receipt" ["plan_id"; "task_id"; "attempt_id"];
    SetVersion 5
  ].
Definition ApplySchemaV5 : M (Conn Catalog) unit := run_all statements_v5.

(** ** [EnsureSchema] *)

Definition kCurrentSchemaVersion : Z := 5.

(** [HasSchemaVersionTable(database)] *)
Definition HasSchemaVersionTable : M (Conn Catalog) bool :=
  do* prepare "inspect SQLite schema";
  run_query "inspect SQLite schema" (fun c => has_value (versions c)).

(** [ReadSchemaVersion(database)]: two steps of one query. *)
Definition ReadSchemaVersion : M (Conn Catalog) (option Z) :=
  do* prepare "read SQLite schema version";
  let* rows := run_query "read SQLite schema version" (fun c => default [] (versions c)) in
  match rows with
  | [] => ret None
  | SqlInteger version :: rest =>
      do* api_call (SqliteError "read SQLite schema version");
      do* require (bool_decide (rest = [])) (Internal "SQLite schema version table must contain exactly one row");
      ret (Some version)
  | _ :: _ => throw (Internal "SQLite schema version is not an integer")
  end.

(** The version the database is at, created at 1 where there is none. *)
Definition current_version : M (Conn Catalog) Z :=
  let* table_exists := HasSchemaVersionTable in
  if negb table_exists then
    do* execute CreateSchemaVersion;
    do* execute (InsertVersion 1);
    ret 1
  else
    let* version := ReadSchemaVersion in
    match version with
    | None => throw (Internal "SQLite schema version table is empty")
    | Some version =>
        do* require (negb (kCurrentSchemaVersion <? version)) (Internal "SQLite schema version is newer than this binary");
        ret version
    end.

(** [while (version_value < kCurrentSchemaVersion)]: each turn adds one, so
    that five are enough. *)
Fixpoint upgrade (turns : nat) (version_value : Z) : M (Conn Catalog) unit :=
  match turns with
  | O => ret tt
  | S turns =>
      if negb (version_value <? kCurrentSchemaVersion) then ret tt
      else if version_value =? 1 then do* ApplySchemaV2; upgrade turns 2
      else if version_value =? 2 then do* ApplySchemaV3; upgrade turns 3
      else if version_value =? 3 then do* ApplySchemaV4; upgrade turns 4
      else if version_value =? 4 then do* ApplySchemaV5; upgrade turns 5
      else throw (Internal "SQLite schema version is unsupported by this binary")
  end.

(** [EnsureSchema(connection)]; [RollbackAndReturn] is [Rollback]. *)
Definition EnsureBody : M (Conn Catalog) unit :=
  let* version_value := current_version in
  upgrade 5 version_value.
Definition EnsureSchema : M (Conn Catalog) unit := Transaction EnsureBody.

(** ** Properties *)

Lemma tolerant_run_all l : tolerant (run_all l).
Proof. induction l as [|x l IH]; [apply tolerant_ret|]. apply tolerant_bind; [apply tolerant_run_dml|done]. Qed.
Lemma txn_safe_run_all l : txn_safe (run_all l).
Proof. induction l as [|x l IH]; [apply txn_safe_ret|]. apply txn_safe_bind; [apply txn_safe_run_dml|done]. Qed.

Create HintDb schema.
#[export] Hint Resolve tolerant_ret tolerant_throw tolerant_require tolerant_bind tolerant_api_call tolerant_run_dml
  tolerant_run_query tolerant_run_all txn_safe_ret txn_safe_throw txn_safe_require txn_safe_bind txn_safe_api_call
  txn_safe_run_dml txn_safe_run_query txn_safe_run_all : schema.

Lemma EnsureBody_safe : tolerant EnsureBody /\ txn_safe EnsureBody.
Proof.
  assert (forall n v, tolerant (upgrade n v) /\ txn_safe (upgrade n v)) as Hup.
  { induction n as [|n IH]; intros v; cbn [upgrade]; [by eauto with schema|].
    split; repeat case_match; eauto with schema; (apply tolerant_bind || apply txn_safe_bind);
      eauto with schema; intros []; apply IH. }
  split; [apply tolerant_bind|apply txn_safe_bind]; [|intros; apply Hup| |intros; apply Hup];
    [apply tolerant_bind|apply txn_safe_bind]; try (unfold HasSchemaVersionTable, prepare; by eauto with schema);
    intros []; cbn [negb]; unfold execute, ReadSchemaVersion, prepare; eauto 10 with schema;
    (apply tolerant_bind || apply txn_safe_bind); try (intros []; by eauto with schema).
  - apply tolerant_bind; [by eauto with schema|intros _]. apply tolerant_bind; [by eauto with schema|intros [|[] ?]]; eauto with schema.
  - apply txn_safe_bind; [by eauto with schema|intros _]. apply txn_safe_bind; [by eauto with schema|intros [|[] ?]]; eauto with schema.
Qed.

(** What the statements of a version declare. *)
Fixpoint declared (l : list Statement) (c : Catalog) : Catalog :=
  match l with
  | [] => c
  | statement :: l => declared l (match run_statement statement c with Some (c, _) => c | None => c end)
  end.

(** The databases of each version; a new file is at version 0. *)
Definition catalog_at (version : nat) : Catalog :=
  match version with
  | O => mkCatalog [] [] None
  | S v => declared (concat (take v [statements_v2; statements_v3; statements_v4; statements_v5]))
             (mkCatalog [] [] (Some [SqlInteger 1]))
  end.

(** On a connection that does not fail, each of them is brought to version 5. *)
Lemma EnsureSchema_quiet version n ts :
  (version <= 5)%nat ->
  exists m, EnsureSchema (mkConn (catalog_at version) None n [] ts) = (Ok tt, mkConn (catalog_at 5) None m [] ts).
Proof.
  intros Hv. do 6 (destruct version as [|version]; [eexists; vm_compute; reflexivity|]). lia.
Qed.

(** A table of versions that [EnsureSchema] does not take. *)
Definition unsupported (rows : list SqlValue) : bool :=
  match rows with [SqlInteger v] => (v <? 1) || (kCurrentSchemaVersion <? v) | _ => true end.

Lemma unsupported_refused s rows a s' :
  versions (committed s) = Some rows -> unsupported rows = true -> working s = None -> EnsureSchema s <> (Ok a, s').
Proof.
  intros Hrows Hun Hw Hrun.
  assert (commits EnsureSchema (fun _ _ => False) (committed s)) as Hc; [|by destruct (Hc s a s' Hw eq_refl Hrun)].
  apply commits_transaction. intros n. unfold EnsureBody, current_version, HasSchemaVersionTable, ReadSchemaVersion, prepare.
  do 2 apply wp_bind. apply wp_bind, wp_api, wp_query. rewrite Hrows. cbn [has_value negb].
  apply wp_bind. apply wp_bind, wp_api, wp_bind, wp_query. rewrite Hrows. cbn [default].
  destruct rows as [|[| |v|] rest]; [apply wp_ret; apply wp_throw|apply wp_throw|apply wp_throw| |apply wp_throw].
  apply wp_bind, wp_api, wp_bind, wp_require. intros Hrest. apply bool_decide_eq_true in Hrest as ->.
  apply wp_ret, wp_bind, wp_require. intros Hnew. apply wp_ret. cbn [unsupported] in Hun.
  cbn [upgrade]. bool_hyps. rewrite (proj2 (Z.ltb_ge _ _) Hnew), orb_false_r in Hun. bool_hyps.
  unfold kCurrentSchemaVersion in *. rewrite (proj2 (Z.ltb_lt _ _)) by lia. cbn [negb].
  repeat (rewrite (proj2 (Z.eqb_neq _ _)) by lia). apply wp_throw.
Qed.

(** C24. Whatever SQLite calls fail, [EnsureSchema] takes a new database, or
    one of any earlier version, to the tables, indexes and version row of
    version 5 in one transaction, or leaves it as it was and says so; on a
    connection that does not fail it succeeds, again on a database that is up
    to date.  A database of a newer or unknown version is refused unchanged. *)
Theorem schemas_upgrade_atomically version (s : Conn Catalog) :
  working s = None ->
  (committed s = catalog_at version -> (version <= 5)%nat ->
   (let (r, s') := EnsureSchema s in
    match r with
    | Ok _ => committed s' = catalog_at 5 /\ working s' = None
    | Err _ => committed s' = catalog_at version
    end)
   /\ (faults s = [] -> is_ok (EnsureSchema s).1 = true))
  /\ (forall rows, versions (committed s) = Some rows -> unsupported rows = true ->
      is_ok (EnsureSchema s).1 = false /\ committed (EnsureSchema s).2 = committed s).
Proof.
  intros Hw. destruct EnsureBody_safe as [Htol Hsafe]. destruct (atomic_transaction _ Hsafe s Hw) as [Hok Herr].
  fold EnsureSchema in Hok, Herr. split.
  - intros Hc Hv. destruct (EnsureSchema_quiet version (changes s) (times s) Hv) as [m Hq].
    assert (quiet s = mkConn (catalog_at version) None (changes s) [] (times s)) as Hqs.
    { unfold quiet, set_faults. by rewrite Hc, Hw. }
    split.
    + destruct (tolerant_transaction _ Htol s) as [[_ Hrun]|[_ He]]; fold EnsureSchema in *.
      * rewrite Hqs, Hq in Hrun. destruct (EnsureSchema s) as [r s']. cbn [fst snd] in Hrun.
        apply pair_equal_spec in Hrun as [<- Hs'].
        split; [exact (eq_sym (f_equal committed Hs'))|exact (eq_sym (f_equal working Hs'))].
      * destruct (EnsureSchema s) as [[[]|e] s']; [discriminate He|]. cbn [fst snd] in Herr. by rewrite Herr.
    + intros Hf. assert (s = quiet s) as Hs by (unfold quiet, set_faults; rewrite <- Hf; by destruct s).
      by rewrite Hs, Hqs, Hq.
  - intros rows Hrows Hun. assert (is_ok (EnsureSchema s).1 = false) as He.
    { destruct (EnsureSchema s) as [[a|e] s'] eqn:Hrun; [|done]. by destruct (unsupported_refused s rows a s'). }
    split; [done|by apply Herr].
Qed.

(** A failing call in the middle of the upgrade of a version 2 database. *)
Definition failing_at (n : nat) : Conn Catalog :=
  mkConn (catalog_at 2) None 0 (replicate n None ++ [Some (mkFault "disk I/O error" true)]) [].

Lemma schemas_upgrade_atomically_witness :
  working (failing_at 7) = None /\ is_ok (EnsureSchema (failing_at 7)).1 = false
  /\ (let (r, s') := EnsureSchema (failing_at 7) in
      match r with
      | Ok _ => committed s' = catalog_at 5 /\ working s' = None
      | Err _ => committed s' = catalog_at 2
      end)
  /\ is_ok (EnsureSchema (mkConn (catalog_at 2) None 0 [] [])).1 = true.
Proof.
  split; [done|]. split; [by vm_compute|]. split.
  - apply (schemas_upgrade_atomically 2 (failing_at 7) eq_refl); [done|lia].
  - apply (schemas_upgrade_atomically 2 (mkConn (catalog_at 2) None 0 [] []) eq_refl); [done|lia|done].
Defined.

(** An open connection is in WAL mode with full synchronisation and foreign
    keys. *)
Lemma Open_configured {W} `{Library W} path (w w' : W) :
  SqliteConnection_Open path w = (Ok tt, w') -> path <> "" /\ exists w1 w2 mode v1 v2,
    ReadTextPragma "PRAGMA journal_mode;" "read SQLite journal mode" w1 = (Ok mode, w2) /\ lower mode = "wal"
    /\ v1 = 2 /\ v2 = 1
    /\ exists w3 w4, ReadIntegerPragma "PRAGMA synchronous;" "read SQLite synchronous mode" w3 = (Ok v1, w4)
    /\ exists w5 w6, ReadIntegerPragma "PRAGMA foreign_keys;" "read SQLite foreign keys" w5 = (Ok v2, w6).
Proof.
  unfold SqliteConnection_Open, Configure, bind, require.
  destruct (str_empty path) eqn:Hp; [done|]. cbn [negb ret].
  destruct (or_sqlite_error _ (sqlite3_open path) w) as [[[]|] wa]; [|done].
  destruct (or_sqlite_error _ _ wa) as [[[]|] w1]; [|done].
  destruct (ReadTextPragma _ _ w1) as [[mode|] w2] eqn:H1; [|done].
  destruct (bool_decide_reflect (lower mode = "wal")) as [Hm|]; [|done]. cbn [ret].
  destruct (or_sqlite_error _ _ w2) as [[[]|] w3]; [|done].
  destruct (ReadIntegerPragma _ _ w3) as [[v1|] w4] eqn:H2; [|done].
  destruct (Z.eqb_spec v1 2) as [->|]; [|done]. cbn [ret].
  destruct (or_sqlite_error _ _ w4) as [[[]|] w5]; [|done].
  destruct (ReadIntegerPragma _ _ w5) as [[v2|] w6] eqn:H3; [|done].
  destruct (Z.eqb_spec v2 1) as [->|]; [|done]. intros _.
  split; [by intros ->|]. exists w1, w2, mode, 2, 1. eauto 12.
Qed.
