(* ===== verification/Tables.v ===== *)
(** * Tables: the runtime database and its SQL statements

    The tables src/app/sqlite_schema.cpp creates at versions 2 to 5 ([physical_asset]
    apart), as
    finite maps keyed by their primary keys, and one function per SQL text of
    src/app/task_runtime_repository.cpp and src/pipeline/: a SELECT is a function of the
    database; an INSERT or UPDATE returns the new database with the number of
    changed rows, or [None] when a declared constraint (primary key, UNIQUE,
    CHECK, FOREIGN KEY) refuses it.

    Columns keep SQLite's storage: enumerations are the integers they are
    bound as, digests and identities are blobs, NULLable columns are options. *)

From S2P Require Import Prelude Status Bytes RelativePath Task.

(** source_manifest *)
Record ManifestRow := mkManifestRow {
  man_source_id : string;
  man_source_type : string;
  man_source_root : string;
  man_state : Z;
  man_digest : option string;
  man_created_at_ns : Z;
}.

(** migration *)
Record MigrationRow := mkMigration {
  mig_source_manifest_id : string;
  mig_target_root : string;
  mig_state : Z;
  current_epoch : Z;
  mig_created_at_ns : Z;
}.
Definition with_epoch (epoch : Z) (m : MigrationRow) : MigrationRow :=
  mkMigration (mig_source_manifest_id m) (mig_target_root m) (mig_state m) epoch (mig_created_at_ns m).

(** migration_plan *)
Record PlanRow := mkPlan {
  plan_migration_id : string;
  pl_path : string;
  pl_artifact_digest : string;
  pl_semantic_digest : string;
  pl_semantic_profile_version : Z;
  pl_format_version : Z;
  pl_state : Z;
  pl_created_at_ns : Z;
}.

(** plan_task *)
Record TaskRow := mkTaskRow {
  row_task_key : string;
  row_type : Z;
  row_state : Z;
  row_owner_epoch : option Z;
  row_active_attempt_id : option string;
  row_attempt_count : Z;
  row_target_path : string;
  row_expected_size : option Z;
  row_expected_digest : option string;
  row_last_error_code : option Z;
  row_last_error_message : option string;
}.

(** task_attempt *)
Record AttemptRow := mkAttemptRow {
  att_plan_id : string;
  att_task_id : string;
  att_owner_epoch : Z;
  att_file_state : option Z;
  att_started_at_ns : Z;
  att_finished_at_ns : option Z;
  att_result : option Z;
  att_error_code : option Z;
  att_error_message : option string;
}.

(** task_event, in insertion order (AUTOINCREMENT) *)
Record EventRow := mkEventRow {
  ev_plan_id : string;
  ev_task_id : string;
  ev_type : string;
  ev_owner_epoch : Z;
  ev_attempt_id : string;
  ev_detail : string;
  ev_created_at_ns : Z;
}.

(** verified_receipt *)
Record ReceiptRow := mkReceiptRow {
  rc_owner_epoch : Z;
  rc_temp_path : string;
  rc_final_path : string;
  rc_content_size : Z;
  rc_source_digest : string;
  rc_target_digest : string;
  rc_source_identity : string;
}.

Record Db := mkDb {
  source_manifest : gmap string ManifestRow;
  migration : gmap string MigrationRow;
  migration_plan : gmap string PlanRow;
  plan_task : gmap (string * string) TaskRow;
  task_dependency : gset (string * string * string);
  task_attempt : gmap string AttemptRow;
  task_event : list EventRow;
  verified_receipt : gmap (string * string * string) ReceiptRow;
}.

#[global] Instance ManifestRow_eq_dec : EqDecision ManifestRow.
Proof. solve_decision. Defined.
#[global] Instance MigrationRow_eq_dec : EqDecision MigrationRow.
Proof. solve_decision. Defined.
#[global] Instance PlanRow_eq_dec : EqDecision PlanRow.
Proof. solve_decision. Defined.
#[global] Instance TaskRow_eq_dec : EqDecision TaskRow.
Proof. solve_decision. Defined.
#[global] Instance AttemptRow_eq_dec : EqDecision AttemptRow.
Proof. solve_decision. Defined.
#[global] Instance EventRow_eq_dec : EqDecision EventRow.
Proof. solve_decision. Defined.
#[global] Instance ReceiptRow_eq_dec : EqDecision ReceiptRow.
Proof. solve_decision. Defined.

Definition set_source_manifest m db :=
  mkDb m (migration db) (migration_plan db) (plan_task db) (task_dependency db)
    (task_attempt db) (task_event db) (verified_receipt db).
Definition set_migration m db :=
  mkDb (source_manifest db) m (migration_plan db) (plan_task db) (task_dependency db)
    (task_attempt db) (task_event db) (verified_receipt db).
Definition set_migration_plan m db :=
  mkDb (source_manifest db) (migration db) m (plan_task db) (task_dependency db)
    (task_attempt db) (task_event db) (verified_receipt db).
Definition set_plan_task m db :=
  mkDb (source_manifest db) (migration db) (migration_plan db) m (task_dependency db)
    (task_attempt db) (task_event db) (verified_receipt db).
Definition set_task_dependency m db :=
  mkDb (source_manifest db) (migration db) (migration_plan db) (plan_task db) m
    (task_attempt db) (task_event db) (verified_receipt db).
Definition set_task_attempt m db :=
  mkDb (source_manifest db) (migration db) (migration_plan db) (plan_task db)
    (task_dependency db) m (task_event db) (verified_receipt db).
Definition set_task_event m db :=
  mkDb (source_manifest db) (migration db) (migration_plan db) (plan_task db)
    (task_dependency db) (task_attempt db) m (verified_receipt db).
Definition set_verified_receipt m db :=
  mkDb (source_manifest db) (migration db) (migration_plan db) (plan_task db)
    (task_dependency db) (task_attempt db) (task_event db) m.

(** ** SELECT *)

(** SELECT migration.current_epoch FROM migration_plan JOIN migration ... *)
Definition select_current_epoch (plan_id : string) (db : Db) : option Z :=
  p ← migration_plan db !! plan_id;
  m ← migration db !! plan_migration_id p;
  Some (current_epoch m).

(** SELECT ... FROM plan_task WHERE plan_id = ?1 AND task_id = ?2 *)
Definition select_task (plan_id task_id : string) (db : Db) : option TaskRow :=
  plan_task db !! (plan_id, task_id).

(** SELECT file_state FROM task_attempt WHERE plan_id = ?1 AND task_id = ?2
    AND attempt_id = ?3 AND owner_epoch = ?4 *)
Definition attempt_matches (plan_id task_id : string) (epoch : Z) (a : AttemptRow) : bool :=
  (att_plan_id a == plan_id) && (att_task_id a == task_id) && (att_owner_epoch a =? epoch).
Definition select_attempt (plan_id task_id attempt_id : string) (epoch : Z) (db : Db)
    : option AttemptRow :=
  a ← task_attempt db !! attempt_id;
  if attempt_matches plan_id task_id epoch a then Some a else None.

(** [NOT EXISTS (SELECT 1 FROM task_dependency d JOIN plan_task dependency ...
    AND dependency.state != SUCCEEDED)] *)
Definition dependency_blocks (plan_id task_id : string) (db : Db)
    (d : string * string * string) : bool :=
  let '(p, t, depends_on) := d in
  (p == plan_id) && (t == task_id)
  && match plan_task db !! (plan_id, depends_on) with
     | Some dependency => negb (row_state dependency =? to_int TaskState.kSucceeded)
     | None => false
     end.
Definition dependencies_succeeded (plan_id task_id : string) (db : Db) : bool :=
  negb (existsb (dependency_blocks plan_id task_id db) (elements (task_dependency db))).

(** SELECT task_id, attempt_count FROM plan_task pt WHERE pt.plan_id = ?1 AND
    pt.state = ?2 AND NOT EXISTS (...) ORDER BY pt.task_id LIMIT 1 *)
Definition claimable (plan_id : string) (db : Db) (key : string * string) (row : TaskRow) : bool :=
  (key.1 == plan_id) && (row_state row =? to_int TaskState.kReady)
  && dependencies_succeeded plan_id key.2 db.
Definition claimable_ids (plan_id : string) (db : Db) : list string :=
  omap (fun kr : (string * string) * TaskRow =>
    if claimable plan_id db kr.1 kr.2 then Some kr.1.2 else None)
    (map_to_list (plan_task db)).
Definition least_id (ids : list string) : option string :=
  foldr (fun id best => match best with
    | Some b => Some (if String.leb id b then id else b)
    | None => Some id end) None ids.
Definition select_claimable (plan_id : string) (db : Db) : option (string * Z) :=
  task_id ← least_id (claimable_ids plan_id db);
  row ← plan_task db !! (plan_id, task_id);
  Some (task_id, row_attempt_count row).

(** WITH RECURSIVE ancestors(task_id) AS (SELECT ?3 UNION SELECT
    d.depends_on_task_id FROM task_dependency d JOIN ancestors a ...): each
    round adds the dependencies of what is known; [UNION] keeps a set, so the
    rounds stop after at most one per dependency row. *)
Definition dependencies_of (plan_id : string) (db : Db) (known : gset string) : gset string :=
  list_to_set (omap (fun d : string * string * string =>
    if (d.1.1 == plan_id) && bool_decide (d.1.2 ∈ known) then Some d.2 else None)
    (elements (task_dependency db))).
Fixpoint ancestors_rounds (fuel : nat) (plan_id : string) (db : Db) (known : gset string)
    : gset string :=
  match fuel with
  | O => known
  | S fuel => ancestors_rounds fuel plan_id db (known ∪ dependencies_of plan_id db known)
  end.
Definition ancestors (plan_id depends_on : string) (db : Db) : gset string :=
  ancestors_rounds (size (task_dependency db)) plan_id db {[depends_on]}.
Definition select_cycle (plan_id task depends_on : string) (db : Db) : bool :=
  bool_decide (task ∈ ancestors plan_id depends_on db).

(** ** INSERT and UPDATE *)

(** Foreign keys *)
Definition has_plan (plan_id : string) (db : Db) : bool :=
  bool_decide (is_Some (migration_plan db !! plan_id)).
Definition has_task (plan_id task_id : string) (db : Db) : bool :=
  bool_decide (is_Some (plan_task db !! (plan_id, task_id))).
Definition has_attempt (attempt_id : string) (db : Db) : bool :=
  bool_decide (is_Some (task_attempt db !! attempt_id)).

(** UNIQUE (plan_id, task_key) *)
Definition task_key_used (plan_id key : string) (db : Db) : bool :=
  existsb (fun kr : (string * string) * TaskRow =>
    (kr.1.1 == plan_id) && (row_task_key kr.2 == key)) (map_to_list (plan_task db)).

Definition insert_task_row (plan_id task_id : string) (row : TaskRow) (db : Db) : option (Db * Z) :=
  if has_task plan_id task_id db || task_key_used plan_id (row_task_key row) db
     || negb (has_plan plan_id db)
  then None
  else Some (set_plan_task (<[(plan_id, task_id) := row]> (plan_task db)) db, 1).

(** INSERT INTO task_dependency SELECT ?1, ?2, ?3 WHERE EXISTS(...) AND EXISTS(...) *)
Definition insert_dependency_row (plan_id task depends_on : string) (db : Db) : option (Db * Z) :=
  if negb (has_task plan_id task db && has_task plan_id depends_on db) then Some (db, 0)
  else if bool_decide ((plan_id, task, depends_on) ∈ task_dependency db) then None
  else Some (set_task_dependency ({[(plan_id, task, depends_on)]} ∪ task_dependency db) db, 1).

(** An UPDATE of one plan_task row under a condition on it. *)
Definition update_task (plan_id task_id : string) (condition : TaskRow -> bool)
    (assign : TaskRow -> TaskRow) (db : Db) : option (Db * Z) :=
  match plan_task db !! (plan_id, task_id) with
  | Some row =>
      if condition row
      then Some (set_plan_task (<[(plan_id, task_id) := assign row]> (plan_task db)) db, 1)
      else Some (db, 0)
  | None => Some (db, 0)
  end.

(** SET state, owner_epoch, active_attempt_id, attempt_count, last_error_... *)
Definition assign_runtime (state : Z) (owner_epoch : option Z) (active_attempt_id : option string)
    (attempt_count : Z) (error_code : option Z) (error_message : option string)
    (row : TaskRow) : TaskRow :=
  mkTaskRow (row_task_key row) (row_type row) state owner_epoch active_attempt_id attempt_count
    (row_target_path row) (row_expected_size row) (row_expected_digest row)
    error_code error_message.

Definition update_ready (plan_id task_id : string) (db : Db) : option (Db * Z) :=
  update_task plan_id task_id
    (fun row =>
      ((row_state row =? to_int TaskState.kPlanned) || (row_state row =? to_int TaskState.kRetryable))
      && dependencies_succeeded plan_id task_id db)
    (fun row => assign_runtime (to_int TaskState.kReady) None None (row_attempt_count row)
       None None row) db.

Definition update_claim (plan_id task_id : string) (epoch : Z) (attempt_id : string) (db : Db)
    : option (Db * Z) :=
  update_task plan_id task_id
    (fun row => (row_state row =? to_int TaskState.kReady)
      && negb (has_value (row_active_attempt_id row)))
    (fun row => assign_runtime (to_int TaskState.kRunning) (Some epoch) (Some attempt_id)
       (row_attempt_count row + 1) None None row) db.

(** WHERE plan_id = ?1 AND task_id = ?2 AND owner_epoch = ?3 AND
    active_attempt_id = ?4 AND state = RUNNING *)
Definition owned_by (epoch : Z) (attempt_id : string) (row : TaskRow) : bool :=
  (row_owner_epoch row == Some epoch) && (row_active_attempt_id row == Some attempt_id)
  && (row_state row =? to_int TaskState.kRunning).
Definition update_finish (plan_id task_id : string) (epoch : Z) (attempt_id : string) (next_state : Z)
    (error_code : option Z) (error_message : option string) (db : Db) : option (Db * Z) :=
  update_task plan_id task_id (owned_by epoch attempt_id)
    (fun row => assign_runtime next_state None None (row_attempt_count row)
       error_code error_message row) db.

Definition update_epoch (plan_id : string) (next : Z) (db : Db) : option (Db * Z) :=
  match migration_plan db !! plan_id with
  | Some p =>
      match migration db !! plan_migration_id p with
      | Some m => Some (set_migration (<[plan_migration_id p := with_epoch next m]> (migration db)) db, 1)
      | None => Some (db, 0)
      end
  | None => Some (db, 0)
  end.

Definition insert_attempt_row (attempt_id : string) (row : AttemptRow) (db : Db) : option (Db * Z) :=
  if has_attempt attempt_id db || negb (has_task (att_plan_id row) (att_task_id row) db) then None
  else Some (set_task_attempt (<[attempt_id := row]> (task_attempt db)) db, 1).

Definition update_attempt (plan_id task_id attempt_id : string) (epoch : Z) (file_state : Z)
    (finished_at result error_code : option Z) (error_message : option string) (db : Db)
    : option (Db * Z) :=
  match select_attempt plan_id task_id attempt_id epoch db with
  | Some a =>
      Some (set_task_attempt (<[attempt_id :=
        mkAttemptRow (att_plan_id a) (att_task_id a) (att_owner_epoch a) (Some file_state)
          (att_started_at_ns a) finished_at result error_code error_message]>
        (task_attempt db)) db, 1)
  | None => Some (db, 0)
  end.

Definition insert_event_row (event : EventRow) (db : Db) : option (Db * Z) :=
  if has_task (ev_plan_id event) (ev_task_id event) db
  then Some (set_task_event (task_event db ++ [event]) db, 1)
  else None.

(** INSERT INTO verified_receipt ... ON CONFLICT(...) DO NOTHING *)
Definition insert_receipt_row (plan_id task_id attempt_id : string) (row : ReceiptRow) (db : Db)
    : option (Db * Z) :=
  if negb (0 <=? rc_content_size row)
     || negb (str_size (rc_source_digest row) =? 32)
     || negb (str_size (rc_target_digest row) =? 32)
  then None
  else if bool_decide (is_Some (verified_receipt db !! (plan_id, task_id, attempt_id)))
  then Some (db, 0)
  else if negb (has_task plan_id task_id db) || negb (has_attempt attempt_id db) then None
  else Some (set_verified_receipt
         (<[(plan_id, task_id, attempt_id) := row]> (verified_receipt db)) db, 1).

Definition select_receipt (plan_id task_id attempt_id : string) (db : Db) : option ReceiptRow :=
  verified_receipt db !! (plan_id, task_id, attempt_id).

(** ** The statements of the pipeline *)

(** SELECT source_root FROM source_manifest WHERE manifest_id = ?1 *)
Definition select_source_root (manifest_id : string) (db : Db) : option string :=
  man_source_root <$> source_manifest db !! manifest_id.

(** SELECT ... FROM migration_plan WHERE plan_id = ?1 *)
Definition select_plan (plan_id : string) (db : Db) : option PlanRow := migration_plan db !! plan_id.

(** SELECT state, COUNT( * ) FROM plan_task WHERE plan_id = ?1 GROUP BY state
    ORDER BY state *)
Definition states_of_plan (plan_id : string) (db : Db) : list Z :=
  omap (fun kr : (string * string) * TaskRow =>
    if kr.1.1 == plan_id then Some (row_state kr.2) else None) (map_to_list (plan_task db)).
Definition select_state_counts (plan_id : string) (db : Db) : list (Z * Z) :=
  let states := states_of_plan plan_id db in
  (fun state => (state, Z.of_nat (length (filter (eq state) states))))
    <$> merge_sort Z.le (remove_dups states).

(** INSERT INTO migration, INSERT INTO migration_plan *)
Definition insert_migration_row (migration_id : string) (row : MigrationRow) (db : Db) : option (Db * Z) :=
  if bool_decide (is_Some (migration db !! migration_id)) then None
  else Some (set_migration (<[migration_id := row]> (migration db)) db, 1).
Definition insert_plan_row (plan_id : string) (row : PlanRow) (db : Db) : option (Db * Z) :=
  if has_plan plan_id db || negb (bool_decide (is_Some (migration db !! plan_migration_id row))) then None
  else Some (set_migration_plan (<[plan_id := row]> (migration_plan db)) db, 1).
