(* ===== verification/TaskRepository.v ===== *)
(** * TaskRepository: the durable task state machine

    Models every operation of [class TaskRuntimeRepository]
    (include/photobridge/app/task_runtime_repository.h and
    src/app/task_runtime_repository.cpp): one Definition per function, each
    SQLite call in the order of the source.  A write batch in progress is the
    [WriteBatch] argument of the operations that look it up
    ([BatchedEpochFor]); the operations that open and close a batch work on
    the pair of batch and connection, [Repo]. *)

From stdpp Require Import pretty.
From S2P Require Import Prelude Status Bytes RelativePath Task Reconciler Sqlite Tables.

Abbreviation op := (M (Conn Db)).

Definition IsNul (s : string) : bool := str_contains NUL s.

(** [Status CheckIds(std::string_view plan_id, std::string_view task_id)] *)
Definition CheckIds (plan_id task_id : string) : Status :=
  if str_empty plan_id || str_empty task_id
  then Invalid "plan and task ids must not be empty"
  else if IsNul plan_id || IsNul task_id
  then Invalid "plan and task ids must not contain NUL"
  else Status_Ok.

(** [Status CheckEpochAttempt(ExecutionEpoch epoch, std::string_view attempt_id)] *)
Definition CheckEpochAttempt (epoch : Z) (attempt_id : string) : Status :=
  if (epoch =? 0) || str_empty attempt_id || IsNul attempt_id
  then Invalid "task claim requires a positive epoch and attempt id"
  else if int64_max <? epoch
  then Invalid "execution epoch exceeds SQLite integer range"
  else Status_Ok.

(** ** Identity blobs: 49 bytes, little-endian fields and a marker *)

Definition EncodeIdentity (identity : FileIdentity.t) : string :=
  le64 (FileIdentity.device identity) +:+ le64 (FileIdentity.inode identity)
  +:+ le64 (FileIdentity.size identity) +:+ le64 (FileIdentity.mtime_ns identity)
  +:+ le64 (FileIdentity.ctime_ns identity)
  +:+ match FileIdentity.mount_id identity with
      | Some mount_id => String Ascii.one (le64 mount_id)
      | None => String Ascii.zero (le64 0)
      end.

(** [std::memcpy(&field, bytes + offset, 8)] *)
Definition read_u64 (data : string) (offset : nat) : Z := le_value (String.substring offset 8 data).

Definition DecodeIdentity (data : string) : StatusOr FileIdentity.t :=
  if negb (str_size data =? 49)
  then Err (Internal "verified receipt has an invalid source identity")
  else
    let identity mount_id := FileIdentity.mk (read_u64 data 0) (read_u64 data 8) (read_u64 data 16)
      (to_int64 (read_u64 data 24)) (to_int64 (read_u64 data 32)) mount_id in
    let marker := Z_of_byte (byte_get data 40) in
    if marker =? 1 then Ok (identity (Some (read_u64 data 41)))
    else if negb (marker =? 0)
    then Err (Internal "verified receipt has an invalid mount id marker")
    else Ok (identity None).

Definition SameVerifiedReceipt (left right : VerifiedReceipt.t) : bool :=
  (VerifiedReceipt.task_id left == VerifiedReceipt.task_id right)
  && (VerifiedReceipt.attempt_id left == VerifiedReceipt.attempt_id right)
  && (VerifiedReceipt.owner_epoch left =? VerifiedReceipt.owner_epoch right)
  && (VerifiedReceipt.temp_path left == VerifiedReceipt.temp_path right)
  && (VerifiedReceipt.final_path left == VerifiedReceipt.final_path right)
  && (VerifiedReceipt.content_size left =? VerifiedReceipt.content_size right)
  && (VerifiedReceipt.source_digest left == VerifiedReceipt.source_digest right)
  && (VerifiedReceipt.target_digest left == VerifiedReceipt.target_digest right)
  && (VerifiedReceipt.source_identity left == VerifiedReceipt.source_identity right).

(** ** Statements shared by the operations *)

Definition AppendTaskEvent (plan_id task_id event_type : string) (epoch : Z)
    (attempt_id detail : string) : op unit :=
  do* prepare "prepare task event insert";
  do* BindText plan_id;
  do* BindText task_id;
  do* BindText event_type;
  do* BindEpoch epoch;
  do* BindText attempt_id;
  do* BindText detail;
  let* now := CurrentTimeNanoseconds in
  do* bind_call "SQLite failed to bind task event timestamp";
  run_dml "insert task event"
    (insert_event_row
       (mkEventRow plan_id task_id event_type (to_int64 epoch) attempt_id detail now)).

Definition UpdateAttemptState (plan_id task_id attempt_id : string) (owner_epoch : Z)
    (state : FileAttemptState.t) (result : option TaskState.t) (error : option Status)
    (finish : bool) : op unit :=
  do* prepare "prepare task attempt update";
  do* BindText plan_id;
  do* BindText task_id;
  do* BindText attempt_id;
  do* BindEpoch owner_epoch;
  do* bind_call "SQLite failed to bind attempt state";
  let* finished_at :=
    (if finish
     then let* now := CurrentTimeNanoseconds in
          do* bind_call "SQLite failed to bind attempt finish timestamp";
          ret (Some now)
     else do* bind_call "SQLite failed to clear attempt finish timestamp";
          ret None) in
  do* match result with
      | None => bind_call "SQLite failed to clear attempt result"
      | Some _ => bind_call "SQLite failed to bind attempt result"
      end;
  do* match error with
      | None =>
          do* bind_call "SQLite failed to clear attempt error";
          bind_call "SQLite failed to clear attempt error"
      | Some e =>
          do* bind_call "SQLite failed to bind attempt error code";
          BindText (message e)
      end;
  do* run_dml "update task attempt"
    (update_attempt plan_id task_id attempt_id (to_int64 owner_epoch) (to_int state)
       finished_at (to_int <$> result) ((fun e => to_int (code e)) <$> error)
       (message <$> error));
  let* changes := sqlite3_changes in
  require (changes =? 1) (Invalid "task attempt was not found for state update").

(** The row checks of [ReadRuntimeWithStatement]. *)
Definition runtime_of_row (task_id : string) (row : TaskRow) : StatusOr TaskRuntime :=
  match of_int (E := TaskState.t) (to_int32 (row_state row)) with
  | None => Err (Internal "unknown persisted task state")
  | Some state =>
      let count := row_attempt_count row in
      if (count <? 0) || (uint32_max <? count)
      then Err (Internal "invalid persisted attempt count")
      else
        let? owner_epoch :=
          match row_owner_epoch row with
          | None => Ok 0
          | Some epoch =>
              if epoch <? 0 then Err (Internal "invalid persisted owner epoch") else Ok epoch
          end in
        let? last_error :=
          match row_last_error_code row, row_last_error_message row with
          | None, None => Ok None
          | Some c, Some m =>
              let error_code := to_int32 c in
              if (error_code <=? to_int StatusCode.kOk) || (to_int StatusCode.kInternal <? error_code)
              then Err (Internal "unknown persisted error code")
              else match of_int error_code with
                   | Some sc => Ok (Some (mkStatus sc (c_str m)))
                   | None => Err (Internal "unreachable")
                   end
          | _, _ => Err (Internal "invalid persisted task error")
          end in
        Ok (mkTaskRuntime (c_str task_id) state owner_epoch (c_str <$> row_active_attempt_id row)
              count last_error)
  end.

Definition ReadRuntimeWithStatement (plan_id task_id : string) : op TaskRuntime :=
  do* prepare "prepare task runtime query";
  do* BindText plan_id;
  do* BindText task_id;
  let* row := run_query "read task runtime" (select_task plan_id task_id) in
  match row with
  | None => throw (mkStatus StatusCode.kNotFound "task runtime was not found")
  | Some row => lift (runtime_of_row task_id row)
  end.

Definition ReadCurrentEpochForPlan (plan_id : string) : op Z :=
  do* prepare "prepare current epoch query";
  do* BindText plan_id;
  let* epoch := run_query "read current epoch" (select_current_epoch plan_id) in
  match epoch with
  | None => throw (mkStatus StatusCode.kNotFound "migration plan was not found")
  | Some epoch =>
      do* require (negb (epoch <? 0)) (Internal "persisted current epoch is negative");
      ret epoch
  end.

Definition CheckTaskOwnership (plan_id task_id : string) (epoch : Z) (attempt_id : string) : op unit :=
  do* prepare "prepare task ownership query";
  do* BindText plan_id;
  do* BindText task_id;
  let* row := run_query "read task ownership" (select_task plan_id task_id) in
  match row with
  | None => throw (mkStatus StatusCode.kNotFound "task was not found")
  | Some row =>
      match row_owner_epoch row, row_active_attempt_id row with
      | Some owner_epoch, Some active_attempt_id =>
          require
            ((to_int32 (row_state row) =? to_int TaskState.kRunning)
             && (owner_epoch =? to_int64 epoch) && (c_str active_attempt_id == attempt_id))
            (Invalid "task ownership is stale or does not match receipt")
      | _, _ => throw (Internal "task ownership has invalid columns")
      end
  end.

(** ** Write batches *)

Record WriteBatch := mkWriteBatch {
  write_batch_active : bool;
  write_batch_plan_id : string;
  write_batch_epoch : Z;
}.
Definition no_batch : WriteBatch := mkWriteBatch false "" 0.

(** [const ExecutionEpoch* BatchedEpochFor(std::string_view plan_id) const] *)
Definition BatchedEpochFor (batch : WriteBatch) (plan_id : string) : option Z :=
  if write_batch_active batch && (write_batch_plan_id batch == plan_id)
  then Some (write_batch_epoch batch)
  else None.

(** [owns_transaction]: BEGIN and COMMIT are left to the batch when there is
    one, but a failing statement rolls back in either case. *)
Definition in_transaction {A} (batched_epoch : option Z) (body : op A) : op A :=
  match batched_epoch with
  | None => Transaction body
  | Some _ => OrRollback body
  end.

Definition CurrentEpoch (batched_epoch : option Z) (plan_id : string) : op Z :=
  match batched_epoch with
  | None => ReadCurrentEpochForPlan plan_id
  | Some epoch => ret epoch
  end.

(** The error columns bound by FinishTask and RecoverTask. *)
Definition bind_error (error : option Status) (clear bind : string) : op unit :=
  match error with
  | None => do* bind_call clear; bind_call clear
  | Some e => do* bind_call bind; BindText (message e)
  end.

(** The statements of [FinishTask] between BEGIN and COMMIT. *)
Definition FinishTaskBody (plan_id task_id : string) (epoch : Z) (attempt_id : string)
    (next_state : TaskState.t) (error : option Status) (batched_epoch : option Z) : op unit :=
  let* current_epoch := CurrentEpoch batched_epoch plan_id in
  do* require (current_epoch =? epoch) (Invalid "stale executor epoch cannot finish a task");
  do* prepare "prepare task completion";
  do* BindText plan_id;
  do* BindText task_id;
  do* BindEpoch epoch;
  do* BindText attempt_id;
  do* bind_call "SQLite failed to bind completion state";
  do* bind_call "SQLite failed to bind completion state";
  do* bind_error error "SQLite failed to clear task error" "SQLite failed to bind task error code";
  do* run_dml "complete task"
    (update_finish plan_id task_id (to_int64 epoch) attempt_id (to_int next_state)
       ((fun e => to_int (code e)) <$> error) (message <$> error));
  let* changes := sqlite3_changes in
  do* require (changes =? 1) (Invalid "task completion claim is stale or has an unexpected state");
  do* UpdateAttemptState plan_id task_id attempt_id epoch
    (if next_state == TaskState.kSucceeded then FileAttemptState.kCommitted
     else FileAttemptState.kRetryable)
    (Some next_state) error true;
  AppendTaskEvent plan_id task_id
    (if next_state == TaskState.kSucceeded then "SUCCEEDED" else "RETRYABLE")
    epoch attempt_id
    (match error with None => "completed" | Some e => message e end).

Definition FinishTask (plan_id task_id : string) (epoch : Z) (attempt_id : string)
    (next_state : TaskState.t) (error : option Status) (batched_epoch : option Z) : op unit :=
  in_transaction batched_epoch
    (FinishTaskBody plan_id task_id epoch attempt_id next_state error batched_epoch).

(** The statements of [RecoverTask] between BEGIN and COMMIT. *)
Definition RecoverTaskBody (plan_id task_id : string) (recovery_epoch expected_old_epoch : Z)
    (expected_old_attempt_id : string) (next_state : TaskState.t)
    (attempt_state : FileAttemptState.t) (event_type reason : string)
    (error : option Status) : op unit :=
  let* current := ReadCurrentEpochForPlan plan_id in
  do* require (current =? recovery_epoch)
    (Invalid "stale recovery epoch cannot transition a task");
  do* prepare "prepare recovery transition";
  do* BindText plan_id;
  do* BindText task_id;
  do* BindEpoch expected_old_epoch;
  do* BindText expected_old_attempt_id;
  do* bind_call "SQLite failed to bind recovery transition state";
  do* bind_call "SQLite failed to bind recovery transition state";
  do* bind_error error "SQLite failed to clear recovery task error"
    "SQLite failed to bind recovery task error code";
  do* run_dml "apply recovery transition"
    (update_finish plan_id task_id (to_int64 expected_old_epoch) expected_old_attempt_id
       (to_int next_state) ((fun e => to_int (code e)) <$> error) (message <$> error));
  let* changes := sqlite3_changes in
  do* require (changes =? 1) (Invalid "recovery ownership is stale or task is not running");
  do* UpdateAttemptState plan_id task_id expected_old_attempt_id expected_old_epoch
    attempt_state (Some next_state) error true;
  AppendTaskEvent plan_id task_id event_type recovery_epoch expected_old_attempt_id
    ("old_epoch=" +:+ pretty expected_old_epoch +:+ " old_attempt=" +:+ expected_old_attempt_id
     +:+ " reason=" +:+ reason).

Definition RecoverTask (plan_id task_id : string) (recovery_epoch expected_old_epoch : Z)
    (expected_old_attempt_id : string) (next_state : TaskState.t)
    (attempt_state : FileAttemptState.t) (event_type reason : string)
    (error : option Status) : op unit :=
  Transaction (RecoverTaskBody plan_id task_id recovery_epoch expected_old_epoch
    expected_old_attempt_id next_state attempt_state event_type reason error).

(** The statements of [AdvanceAttempt] between BEGIN and COMMIT. *)
Definition AdvanceAttemptBody (plan_id task_id : string) (epoch : Z) (attempt_id : string)
    (next_state : FileAttemptState.t) (event_type : string) (batched_epoch : option Z) : op unit :=
  let* current_epoch := CurrentEpoch batched_epoch plan_id in
  do* require (current_epoch =? epoch) (Invalid "stale executor epoch cannot advance an attempt");
  do* CheckTaskOwnership plan_id task_id epoch attempt_id;
  do* prepare "prepare attempt state query";
  do* BindText plan_id;
  do* BindText task_id;
  do* BindText attempt_id;
  do* BindEpoch epoch;
  let* row := run_query "read attempt state"
                (select_attempt plan_id task_id attempt_id (to_int64 epoch)) in
  match row with
  | None => throw (mkStatus StatusCode.kNotFound "task attempt was not found")
  | Some row =>
      match att_file_state row with
      | None => throw (Internal "persisted attempt state is not an integer")
      | Some persisted =>
          match of_int (E := FileAttemptState.t) (to_int32 persisted) with
          | None => throw (Internal "unknown persisted attempt state")
          | Some previous =>
              if previous == next_state then ret tt
              else
                do* require (FileAttemptState.IsValidTransition previous next_state)
                  (Invalid "invalid task attempt lifecycle transition");
                do* UpdateAttemptState plan_id task_id attempt_id epoch next_state None None false;
                AppendTaskEvent plan_id task_id event_type epoch attempt_id "attempt lifecycle"
          end
      end
  end.

Definition AdvanceAttempt (plan_id task_id : string) (epoch : Z) (attempt_id : string)
    (next_state : FileAttemptState.t) (event_type : string) (batched_epoch : option Z) : op unit :=
  in_transaction batched_epoch
    (AdvanceAttemptBody plan_id task_id epoch attempt_id next_state event_type batched_epoch).

(** ** Epochs and the task graph *)

Definition check_plan_id (plan_id : string) : Status :=
  if str_empty plan_id || IsNul plan_id
  then Invalid "plan id must be non-empty and NUL-free" else Status_Ok.

(** The statements of [AcquireNextExecutionEpoch] between BEGIN and COMMIT. *)
Definition AcquireBody (plan_id : string) : op Z :=
  let* current := ReadCurrentEpochForPlan plan_id in
  do* require (negb (int64_max <=? current)) (Invalid "execution epoch overflow");
  let next := current + 1 in
  do* prepare "prepare current epoch update";
  do* BindText plan_id;
  do* BindEpoch next;
  do* run_dml "advance current epoch" (update_epoch plan_id (to_int64 next));
  let* changes := sqlite3_changes in
  do* require (changes =? 1) (Invalid "migration plan epoch update changed no rows");
  ret next.

Definition AcquireNextExecutionEpoch (plan_id : string) : op Z :=
  do* require_ok (check_plan_id plan_id);
  Transaction (AcquireBody plan_id).

Definition ReadCurrentEpoch (plan_id : string) : op Z :=
  do* require_ok (check_plan_id plan_id);
  ReadCurrentEpochForPlan plan_id.

Definition AddTask (plan_id : string) (task : TaskSpec) : op unit :=
  do* require_ok (CheckIds plan_id (spec_id task));
  do* require_ok (ValidateTaskSpec task);
  do* require (negb (int64_max <? estimated_bytes task))
    (Invalid "estimated task bytes exceed SQLite integer range");
  do* prepare "prepare task insert";
  do* BindText plan_id;
  do* BindText (spec_id task);
  do* BindText (task_key task);
  do* bind_call "SQLite failed to bind task fields";
  do* bind_call "SQLite failed to bind task fields";
  do* bind_call "SQLite failed to bind task fields";
  do* bind_call "SQLite failed to bind target path";
  do* (if expected_digest task is Some _
       then bind_call "SQLite failed to bind digest"
       else bind_call "SQLite failed to bind null digest");
  run_insert (mkStatus StatusCode.kAlreadyExists "task id or task key already exists in this plan")
    "insert task"
    (insert_task_row plan_id (spec_id task)
      (mkTaskRow (task_key task) (to_int (type task)) (to_int TaskState.kPlanned) None None 0
         (raw_bytes (target_path task)) (Some (to_int64 (estimated_bytes task)))
         (bytes <$> expected_digest task) None None)).

Definition AddDependency (plan_id task depends_on : string) : op unit :=
  do* require_ok (CheckIds plan_id task);
  do* require_ok (CheckIds plan_id depends_on);
  do* require (task != depends_on) (Invalid "task graph must not contain a self dependency");
  do* prepare "prepare dependency cycle check";
  do* BindText plan_id;
  do* BindText task;
  do* BindText depends_on;
  let* cycle := run_query "check dependency cycle" (select_cycle plan_id task depends_on) in
  do* require (negb cycle) (Invalid "task graph dependency would create a cycle");
  do* prepare "prepare dependency insert";
  do* BindText plan_id;
  do* BindText task;
  do* BindText depends_on;
  do* run_dml "insert dependency" (insert_dependency_row plan_id task depends_on);
  let* changes := sqlite3_changes in
  require (negb (changes =? 0))
    (mkStatus StatusCode.kNotFound "dependency references an unknown task").

Definition SetReady (plan_id task_id : string) : op unit :=
  do* require_ok (CheckIds plan_id task_id);
  do* prepare "prepare ready update";
  do* BindText plan_id;
  do* BindText task_id;
  do* bind_call "SQLite failed to bind ready update";
  do* bind_call "SQLite failed to bind ready update";
  do* bind_call "SQLite failed to bind ready update";
  do* bind_call "SQLite failed to bind ready update";
  do* run_dml "set task ready" (update_ready plan_id task_id);
  let* changes := sqlite3_changes in
  require (negb (changes =? 0)) (Invalid "task is not eligible for READY state").

(** ** Claims *)

Record ClaimedTask := mkClaimed { claimed_task_id : string; claimed_runtime : TaskRuntime }.

(** ["attempt-" + plan_id + "-" + task_id + "-" + std::to_string(count + 1)] *)
Definition generated_attempt_id (plan_id task_id : string) (count : Z) : string :=
  "attempt-" +:+ plan_id +:+ "-" +:+ task_id +:+ "-" +:+ pretty (count + 1).

(** The statements of [ClaimNextReadyImpl] between BEGIN and COMMIT. *)
Definition ClaimBody (plan_id : string) (epoch : Z) (supplied_attempt_id : option string)
    : op ClaimedTask :=
  let* current := ReadCurrentEpochForPlan plan_id in
  do* require (current =? epoch) (Invalid "stale executor epoch cannot claim a ready task");
  do* prepare "prepare ready task query";
  do* BindText plan_id;
  do* bind_call "SQLite failed to bind ready query";
  do* bind_call "SQLite failed to bind ready query";
  let* selected := run_query "select ready task" (select_claimable plan_id) in
  match selected with
  | None => throw (mkStatus StatusCode.kNotFound "no eligible ready task exists")
  | Some (id, count) =>
      let task_id := c_str id in
      do* require (negb ((count <? 0) || (uint32_max <=? count)))
        (Invalid "task attempt count is invalid");
      let attempt_id :=
        match supplied_attempt_id with
        | None => generated_attempt_id plan_id task_id count
        | Some attempt_id => attempt_id
        end in
      do* prepare "prepare task claim";
      do* BindText plan_id;
      do* BindText task_id;
      do* bind_call "SQLite failed to bind task claim state";
      do* bind_call "SQLite failed to bind task claim state";
      do* BindEpoch epoch;
      do* BindText attempt_id;
      do* run_dml "claim ready task" (update_claim plan_id task_id (to_int64 epoch) attempt_id);
      let* changes := sqlite3_changes in
      do* require (changes =? 1) (Invalid "ready task claim was lost");
      do* prepare "prepare task attempt insert";
      do* BindText attempt_id;
      do* BindText plan_id;
      do* BindText task_id;
      do* BindEpoch epoch;
      do* bind_call "SQLite failed to bind task attempt lifecycle fields";
      let* now := CurrentTimeNanoseconds in
      do* bind_call "SQLite failed to bind task attempt lifecycle fields";
      do* run_dml "insert task attempt"
        (insert_attempt_row attempt_id
           (mkAttemptRow plan_id task_id (to_int64 epoch)
              (Some (to_int FileAttemptState.kRunning)) now None None None None));
      do* AppendTaskEvent plan_id task_id "RUNNING" epoch attempt_id "claim";
      let* runtime := ReadRuntimeWithStatement plan_id task_id in
      ret (mkClaimed task_id runtime)
  end.

Definition ClaimNextReadyImpl (plan_id : string) (epoch : Z) (supplied_attempt_id : option string)
    : op ClaimedTask :=
  do* require_ok (CheckIds plan_id "claim");
  do* require_ok (CheckEpochAttempt epoch (default "generated" supplied_attempt_id));
  Transaction (ClaimBody plan_id epoch supplied_attempt_id).

Definition ClaimNextReady (plan_id : string) (epoch : Z) : op ClaimedTask :=
  ClaimNextReadyImpl plan_id epoch None.
Definition ClaimNextReadyWithAttempt (plan_id : string) (epoch : Z) (attempt_id : string) : op ClaimedTask :=
  ClaimNextReadyImpl plan_id epoch (Some attempt_id).

(** ** The executor's transitions *)

Definition MarkCommitIntent (batch : WriteBatch) (plan_id task_id : string) (epoch : Z)
    (attempt_id : string) : op unit :=
  do* require_ok (CheckIds plan_id task_id);
  do* require_ok (CheckEpochAttempt epoch attempt_id);
  AdvanceAttempt plan_id task_id epoch attempt_id FileAttemptState.kCommitIntent
    "COMMIT_INTENT" (BatchedEpochFor batch plan_id).

Definition MarkTempWritten (batch : WriteBatch) (plan_id task_id : string) (epoch : Z)
    (attempt_id : string) : op unit :=
  do* require_ok (CheckIds plan_id task_id);
  do* require_ok (CheckEpochAttempt epoch attempt_id);
  AdvanceAttempt plan_id task_id epoch attempt_id FileAttemptState.kTempWritten
    "TEMP_WRITTEN" (BatchedEpochFor batch plan_id).

Definition MarkSucceeded (batch : WriteBatch) (plan_id task_id : string) (epoch : Z)
    (attempt_id : string) : op unit :=
  do* require_ok (CheckIds plan_id task_id);
  do* require_ok (CheckEpochAttempt epoch attempt_id);
  FinishTask plan_id task_id epoch attempt_id TaskState.kSucceeded None
    (BatchedEpochFor batch plan_id).

Definition MarkRetryable (batch : WriteBatch) (plan_id task_id : string) (epoch : Z)
    (attempt_id : string) (error : Status) : op unit :=
  do* require_ok (CheckIds plan_id task_id);
  do* require_ok (CheckEpochAttempt epoch attempt_id);
  do* require (negb (ok error)) (Invalid "retryable task result requires an error");
  FinishTask plan_id task_id epoch attempt_id TaskState.kRetryable (Some error)
    (BatchedEpochFor batch plan_id).

(** The checks shared by the three Recover operations. *)
Definition check_recovery (plan_id task_id : string) (recovery_epoch expected_old_epoch : Z)
    (expected_old_attempt_id reason : string) : op unit :=
  do* require_ok (CheckIds plan_id task_id);
  do* require_ok (CheckEpochAttempt recovery_epoch expected_old_attempt_id);
  do* require_ok (CheckEpochAttempt expected_old_epoch expected_old_attempt_id);
  require (negb (str_empty reason)) (Invalid "recovery reason must not be empty").

Definition RecoverSucceeded (plan_id task_id : string) (recovery_epoch expected_old_epoch : Z)
    (expected_old_attempt_id reason : string) : op unit :=
  do* check_recovery plan_id task_id recovery_epoch expected_old_epoch expected_old_attempt_id reason;
  RecoverTask plan_id task_id recovery_epoch expected_old_epoch expected_old_attempt_id
    TaskState.kSucceeded FileAttemptState.kCommitted "RECOVER_SUCCEEDED" reason None.

Definition RecoverRetryable (plan_id task_id : string) (recovery_epoch expected_old_epoch : Z)
    (expected_old_attempt_id reason : string) : op unit :=
  do* check_recovery plan_id task_id recovery_epoch expected_old_epoch expected_old_attempt_id reason;
  RecoverTask plan_id task_id recovery_epoch expected_old_epoch expected_old_attempt_id
    TaskState.kRetryable FileAttemptState.kRetryable "RECOVER_RETRYABLE" reason
    (Some (mkStatus StatusCode.kIoError reason)).

Definition RecoverInconsistent (plan_id task_id : string) (recovery_epoch expected_old_epoch : Z)
    (expected_old_attempt_id reason : string) : op unit :=
  do* check_recovery plan_id task_id recovery_epoch expected_old_epoch expected_old_attempt_id reason;
  RecoverTask plan_id task_id recovery_epoch expected_old_epoch expected_old_attempt_id
    TaskState.kInconsistent FileAttemptState.kInconsistent "RECOVER_INCONSISTENT" reason
    (Some (mkStatus StatusCode.kInternal reason)).

(** ** Receipts *)

Definition receipt_of_row (task_id attempt_id : string) (row : ReceiptRow) : StatusOr VerifiedReceipt.t :=
  if (rc_owner_epoch row <=? 0) || (rc_content_size row <? 0)
  then Err (Internal "verified receipt has an invalid epoch or content size")
  else match digest_of_blob (rc_source_digest row), digest_of_blob (rc_target_digest row) with
  | Some source_digest, Some target_digest =>
      let? identity := DecodeIdentity (rc_source_identity row) in
      Ok (VerifiedReceipt.mk (c_str task_id) (c_str attempt_id) (rc_owner_epoch row)
            (rc_temp_path row) (rc_final_path row) (rc_content_size row)
            (Some source_digest) target_digest (Some identity))
  | _, _ => Err (Internal "verified receipt has invalid digest")
  end.

Definition ReadVerifiedReceipt (plan_id task_id attempt_id : string) : op VerifiedReceipt.t :=
  do* require_ok (CheckIds plan_id task_id);
  do* require (negb (str_empty attempt_id || IsNul attempt_id))
    (Invalid "attempt id must be non-empty and NUL-free");
  do* prepare "prepare verified receipt query";
  do* BindText plan_id;
  do* BindText task_id;
  do* BindText attempt_id;
  let* row := run_query "read verified receipt" (select_receipt plan_id task_id attempt_id) in
  match row with
  | None => throw (mkStatus StatusCode.kNotFound "verified receipt was not found")
  | Some row => lift (receipt_of_row task_id attempt_id row)
  end.

(** The row bound by [PersistVerifiedReceipt] for a receipt that has its
    source digest and identity. *)
Definition row_of_receipt (receipt : VerifiedReceipt.t) (source_digest : Digest)
    (source_identity : FileIdentity.t) : ReceiptRow :=
  mkReceiptRow (to_int64 (VerifiedReceipt.owner_epoch receipt))
    (VerifiedReceipt.temp_path receipt) (VerifiedReceipt.final_path receipt)
    (to_int64 (VerifiedReceipt.content_size receipt))
    (bytes source_digest) (bytes (VerifiedReceipt.target_digest receipt))
    (EncodeIdentity source_identity).

(** Its statements between BEGIN and COMMIT. *)
Definition PersistBody (batched_epoch : option Z) (plan_id : string) (receipt : VerifiedReceipt.t)
    (source_digest : Digest) (source_identity : FileIdentity.t) : op unit :=
  let task_id := VerifiedReceipt.task_id receipt in
  let attempt_id := VerifiedReceipt.attempt_id receipt in
  let epoch := VerifiedReceipt.owner_epoch receipt in
  let* current_epoch := CurrentEpoch batched_epoch plan_id in
  do* require (current_epoch =? epoch)
    (Invalid "stale executor epoch cannot persist a verified receipt");
  do* CheckTaskOwnership plan_id task_id epoch attempt_id;
  do* prepare "prepare verified receipt insert";
  do* BindText plan_id;
  do* BindText task_id;
  do* BindText attempt_id;
  do* BindEpoch epoch;
  do* BindBlob (VerifiedReceipt.temp_path receipt);
  do* BindBlob (VerifiedReceipt.final_path receipt);
  do* bind_call "SQLite failed to bind receipt size";
  do* BindBlob (bytes source_digest);
  do* BindBlob (bytes (VerifiedReceipt.target_digest receipt));
  do* BindBlob (EncodeIdentity source_identity);
  do* run_dml "insert verified receipt"
    (insert_receipt_row plan_id task_id attempt_id
       (row_of_receipt receipt source_digest source_identity));
  let* changes := sqlite3_changes in
  if changes =? 0
  then let* existing := ReadVerifiedReceipt plan_id task_id attempt_id in
       require (SameVerifiedReceipt existing receipt)
         (Internal "verified receipt conflicts with existing evidence")
  else
    do* require (changes =? 1)
      (Internal "verified receipt insert changed an unexpected number of rows");
    do* UpdateAttemptState plan_id task_id attempt_id epoch
      FileAttemptState.kVerifiedDurable None None false;
    AppendTaskEvent plan_id task_id "VERIFIED_DURABLE" epoch attempt_id
      "receipt persisted before publish".

Definition PersistVerifiedReceipt (batch : WriteBatch) (plan_id : string)
    (receipt : VerifiedReceipt.t) : op unit :=
  let task_id := VerifiedReceipt.task_id receipt in
  let attempt_id := VerifiedReceipt.attempt_id receipt in
  let epoch := VerifiedReceipt.owner_epoch receipt in
  do* require_ok (CheckIds plan_id task_id);
  do* require_ok (CheckEpochAttempt epoch attempt_id);
  match VerifiedReceipt.source_digest receipt, VerifiedReceipt.source_identity receipt with
  | Some source_digest, Some source_identity =>
      do* require (negb (str_empty (VerifiedReceipt.temp_path receipt)
                         || str_empty (VerifiedReceipt.final_path receipt)))
        (Invalid "verified receipt is missing required fields");
      do* require (negb (int64_max <? VerifiedReceipt.content_size receipt))
        (Invalid "verified receipt size exceeds SQLite integer range");
      let batched_epoch := BatchedEpochFor batch plan_id in
      in_transaction batched_epoch
        (PersistBody batched_epoch plan_id receipt source_digest source_identity)
  | _, _ => throw (Invalid "verified receipt is missing required fields")
  end.

Definition ReadRuntime (plan_id task_id : string) : op TaskRuntime :=
  do* require_ok (CheckIds plan_id task_id);
  ReadRuntimeWithStatement plan_id task_id.

(** ** Opening and closing a write batch *)

Record Repo := mkRepo { batch : WriteBatch; connection : Conn Db }.

(** An operation of the repository object: the batch is read, not changed. *)
Definition on_repo {A} (operation : WriteBatch -> op A) : M Repo A :=
  fun r => let (result, c) := operation (batch r) (connection r) in (result, mkRepo (batch r) c).

Definition set_batch (b : WriteBatch) : M Repo unit := fun r => (Ok tt, mkRepo b (connection r)).

Definition BeginWriteBatch (plan_id : string) (epoch : Z) : M Repo unit :=
  do* (fun r => require (negb (write_batch_active (batch r)))
                  (Internal "runtime write batch is already active") r);
  do* require_ok (CheckIds plan_id "batch");
  do* require_ok (CheckEpochAttempt epoch "batch");
  do* on_repo (fun _ => Execute BEGIN_IMMEDIATE);
  do* on_repo (fun _ => OrRollback (
    let* current := ReadCurrentEpochForPlan plan_id in
    require (current =? epoch)
      (Invalid "stale executor epoch cannot start a runtime write batch")));
  set_batch (mkWriteBatch true plan_id epoch).

Definition CommitWriteBatch : M Repo unit :=
  fun r =>
    if negb (write_batch_active (batch r))
    then (Err (Internal "runtime write batch is not active"), r)
    else let (status, c) := CommitOrRollback (connection r) in (status, mkRepo no_batch c).

(** [sqlite3_get_autocommit(...) == 0]: a transaction is open. *)
Definition RollbackWriteBatch : M Repo unit :=
  fun r =>
    if negb (write_batch_active (batch r)) then (Ok tt, r)
    else
      let (status, c) :=
        (match working (connection r) with
         | Some _ => Execute ROLLBACK
         | None => ret tt
         end) (connection r) in
      (status, mkRepo no_batch c).
