(* ===== verification/DbWriter.v ===== *)
(** * DbWriter: one thread serialises the migrating workers' writes

    Models src/app/runtime_db_writer.cpp and its header.  Workers enqueue
    commands under the mutex and wait for the command's promise; the writer
    thread takes a command, or a batch of compatible ones, runs it on its own
    repository and fulfils the promises.  The system is a step relation:
    every critical section and every turn of the writer is one step, so that
    the theorems cover every interleaving of workers, [Stop] and the writer,
    and an exception thrown while a batch runs. *)

From S2P Require Import Prelude Status Bytes RelativePath Task Reconciler Sqlite Tables TaskRepository.

(** [std::variant<Claim, CommitIntent, TempWritten, Receipt, Retryable>] *)
Inductive Command :=
| Claim (plan_id : string) (epoch : Z)
| CommitIntent (plan_id task_id attempt_id : string) (epoch : Z)
| TempWritten (plan_id task_id attempt_id : string) (epoch : Z)
| Receipt (plan_id : string) (receipt : VerifiedReceipt.t)
| Retryable (plan_id task_id attempt_id : string) (epoch : Z) (error : Status).

(** What a promise is fulfilled with. *)
Inductive Outcome :=
| ClaimOutcome (result : StatusOr ClaimedTask)
| StatusOutcome (status : Status).

Definition outcome_ok (o : Outcome) : bool :=
  match o with ClaimOutcome r => is_ok r | StatusOutcome s => ok s end.

(** [command.index()] *)
Definition command_index (command : Command) : Z :=
  match command with
  | Claim _ _ => 0 | CommitIntent _ _ _ _ => 1 | TempWritten _ _ _ _ => 2
  | Receipt _ _ => 3 | Retryable _ _ _ _ _ => 4
  end.

(** The key two commands of a batch share, and the task in it that differs. *)
Definition command_key (command : Command) : option (Z * string * string * Z) :=
  match command with
  | Claim _ _ => None
  | Receipt plan_id receipt =>
      Some (command_index command, plan_id, VerifiedReceipt.task_id receipt,
            VerifiedReceipt.owner_epoch receipt)
  | CommitIntent plan_id task_id _ epoch | TempWritten plan_id task_id _ epoch
  | Retryable plan_id task_id _ epoch _ => Some (command_index command, plan_id, task_id, epoch)
  end.

(** A queued command with the promise it fulfils. *)
Definition Entry : Type := nat * Command.

(** The inner loop of [Run]: the batch grows while the front of the queue has
    the key of its first command and a task not yet in it. *)
Fixpoint extend_batch (room : nat) (kind : Z) (plan_id : string) (epoch : Z) (tasks : list string)
    (batch queue : list Entry) : list Entry * list Entry :=
  match room, queue with
  | S room, entry :: rest =>
      match command_key entry.2 with
      | None => (batch, queue)
      | Some (kind', plan', task', epoch') =>
          if negb (kind' =? kind) || (plan' != plan_id) || negb (epoch' =? epoch)
             || bool_decide (task' ∈ tasks)
          then (batch, queue)
          else extend_batch room kind plan_id epoch (task' :: tasks) (batch ++ [entry]) rest
      end
  | _, _ => (batch, queue)
  end.

(** The critical section of [Run]: the batch taken and the queue left. *)
Definition take_batch (max_batch_size : nat) (first : Entry) (queue : list Entry)
    : list Entry * list Entry :=
  match command_key first.2 with
  | Some (kind, plan_id, task, epoch) =>
      if (1 <? max_batch_size)%nat
      then extend_batch (max_batch_size - 1) kind plan_id epoch [task] [first] queue
      else ([first], queue)
  | None => ([first], queue)
  end.

(** [Execute(Command&)]: a command in its own transaction. *)
Definition Execute_command (command : Command) : Repo -> Outcome * Repo :=
  fun r =>
    match command with
    | Claim plan_id epoch =>
        let (result, r) := on_repo (fun _ => ClaimNextReady plan_id epoch) r in
        (ClaimOutcome result, r)
    | CommitIntent plan_id task_id attempt_id epoch =>
        let (result, r) := on_repo (fun b => MarkCommitIntent b plan_id task_id epoch attempt_id) r in
        (StatusOutcome (status_of result), r)
    | TempWritten plan_id task_id attempt_id epoch =>
        let (result, r) := on_repo (fun b => MarkTempWritten b plan_id task_id epoch attempt_id) r in
        (StatusOutcome (status_of result), r)
    | Receipt plan_id receipt =>
        let (result, r) := on_repo (fun b => PersistVerifiedReceipt b plan_id receipt) r in
        (StatusOutcome (status_of result), r)
    | Retryable plan_id task_id attempt_id epoch error =>
        let (result, r) := on_repo (fun b => MarkRetryable b plan_id task_id epoch attempt_id error) r in
        (StatusOutcome (status_of result), r)
    end.

(** [Status ExecuteBatchedOperation(Command&)] *)
Definition ExecuteBatchedOperation (command : Command) : M Repo unit :=
  match command with
  | CommitIntent plan_id task_id attempt_id epoch =>
      on_repo (fun b => MarkCommitIntent b plan_id task_id epoch attempt_id)
  | TempWritten plan_id task_id attempt_id epoch =>
      on_repo (fun b => MarkTempWritten b plan_id task_id epoch attempt_id)
  | Receipt plan_id receipt => on_repo (fun b => PersistVerifiedReceipt b plan_id receipt)
  | Retryable plan_id task_id attempt_id epoch error =>
      on_repo (fun b => MarkRetryable b plan_id task_id epoch attempt_id error)
  | Claim _ _ => throw (Internal "claim command cannot join a runtime write batch")
  end.

(** [Complete] and [Fail]: a status for the command's promise. *)
Definition Complete (command : Command) (status : Status) : Outcome :=
  match command with
  | Claim _ _ => ClaimOutcome (StatusOr_of_status status)
  | _ => StatusOutcome status
  end.
Definition Fail (command : Command) (error : Status) : Outcome := Complete command error.

(** The loop over the commands: the index and error of the first failure. *)
Fixpoint run_commands (index : nat) (commands : list Command) (r : Repo)
    : option (nat * Status) * Repo :=
  match commands with
  | [] => (None, r)
  | command :: rest =>
      match ExecuteBatchedOperation command r with
      | (Ok _, r) => run_commands (S index) rest r
      | (Err status, r) => (Some (index, status), r)
      end
  end.

(** The plan and epoch of the first command. *)
Definition batch_identity (command : Command) : string * Z :=
  match command with
  | Claim plan_id epoch => (plan_id, epoch)
  | Receipt plan_id receipt => (plan_id, VerifiedReceipt.owner_epoch receipt)
  | CommitIntent plan_id _ _ epoch | TempWritten plan_id _ _ epoch
  | Retryable plan_id _ _ epoch _ => (plan_id, epoch)
  end.

(** [ExecuteBatch(std::vector<Command>&)] *)
Definition ExecuteBatch (commands : list Command) (r : Repo) : list Outcome * Repo :=
  match commands with
  | [] => ([], r)
  | front :: _ =>
      let (plan_id, epoch) := batch_identity front in
      match BeginWriteBatch plan_id epoch r with
      | (Err status, r) => ((fun c => Complete c status) <$> commands, r)
      | (Ok _, r) =>
          match run_commands 0 commands r with
          | (Some (failed_index, operation_error), r) =>
              let r := (RollbackWriteBatch r).2 in
              let rollback_error :=
                Internal ("runtime DB batch rolled back: " +:+ message operation_error) in
              (imap (fun index c => Complete c
                 (if (index =? failed_index)%nat then operation_error else rollback_error)) commands, r)
          | (None, r) =>
              let (result, r) := CommitWriteBatch r in
              ((fun c => Complete c (status_of result)) <$> commands, r)
          end
      end
  end.

(** ** The shared state *)

Record Stats := mkStats {
  accepted_commands : Z;
  command_count : Z;
  transaction_groups : Z;
  batched_commands : Z;
  largest_batch : nat;
}.

(** The writer thread: at the wait, running a batch, or returned from [Run]. *)
Inductive Thread := Waiting | Working (batch : list Entry) | Exited.

Record Writer := mkWriter {
  repository : Repo;
  commands : list Entry;                  (* commands_ *)
  max_batch_size : nat;
  stopping : bool;
  fatal : Status;
  stats : Stats;
  thread : Thread;
  next_promise : nat;
  accepted : list Entry;                  (* history: commands pushed, in order *)
  completed : list (nat * Outcome);       (* history: promises fulfilled, in order *)
}.

Definition StoppedStatus : Status := Internal "runtime DB writer is stopped".

(** [StatusOr<unique_ptr<RuntimeDbWriter>> Start(path, max_batch_size)], once
    the database is open. *)
Definition Start (connection : Conn Db) (max_batch_size : nat) : StatusOr Writer :=
  if (max_batch_size =? 0)%nat || (16 <? max_batch_size)%nat
  then Err (Invalid "runtime DB batch size must be between 1 and 16")
  else Ok (mkWriter (mkRepo no_batch connection) [] max_batch_size false Status_Ok
             (mkStats 0 0 0 0 0) Waiting 0 [] []).

Definition count_accepted (s : Stats) : Stats :=
  mkStats (accepted_commands s + 1) (command_count s) (transaction_groups s)
    (batched_commands s) (largest_batch s).
Definition count_single (s : Stats) : Stats :=
  mkStats (accepted_commands s) (command_count s + 1) (transaction_groups s + 1)
    (batched_commands s) (largest_batch s).
Definition count_batch (size : nat) (s : Stats) : Stats :=
  mkStats (accepted_commands s) (command_count s + Z.of_nat size) (transaction_groups s + 1)
    (batched_commands s + Z.of_nat size)
    (if (largest_batch s <? size)%nat then size else largest_batch s).

Definition count (batch : list Entry) (s : Stats) : Stats :=
  if (1 <? length batch)%nat then count_batch (length batch) s else count_single s.

(** [Status Enqueue(Command)]: the critical section of a worker's call. *)
Definition Enqueue (command : Command) (w : Writer) : Status * Writer :=
  if negb (ok (fatal w)) then (fatal w, w)
  else if stopping w then (StoppedStatus, w)
  else
    let entry := (next_promise w, command) in
    (Status_Ok,
     mkWriter (repository w) (commands w ++ [entry]) (max_batch_size w) (stopping w) (fatal w)
       (count_accepted (stats w)) (thread w) (S (next_promise w)) (accepted w ++ [entry]) (completed w)).

(** [ClaimNextReady], [MarkCommitIntent], [MarkTempWritten],
    [PersistVerifiedReceipt] and [MarkRetryable] of the writer: the command is
    queued and the worker waits for its promise, or the refusal is returned. *)
Definition Call (command : Command) (w : Writer) : (Outcome + nat) * Writer :=
  let (status, w') := Enqueue command w in
  (if ok status then inr (next_promise w) else inl (Complete command status), w').

(** [Stop]: the flag; joining the thread is waiting for [Exited]. *)
Definition Stop (w : Writer) : Writer :=
  mkWriter (repository w) (commands w) (max_batch_size w) true (fatal w) (stats w) (thread w)
    (next_promise w) (accepted w) (completed w).

(** The writer leaves its wait: it returns, or takes a batch. *)
Definition Take (w : Writer) : option Writer :=
  match thread w with
  | Waiting =>
      match commands w with
      | [] =>
          if stopping w
          then Some (mkWriter (repository w) [] (max_batch_size w) (stopping w) (fatal w) (stats w)
                       Exited (next_promise w) (accepted w) (completed w))
          else None
      | first :: queue =>
          let (batch, rest) := take_batch (max_batch_size w) first queue in
          Some (mkWriter (repository w) rest (max_batch_size w) (stopping w) (fatal w) (stats w)
                  (Working batch) (next_promise w) (accepted w) (completed w))
      end
  | _ => None
  end.

(** The writer runs the batch it took, without the lock. *)
Definition run_batch (batch : list Entry) (r : Repo) : list Outcome * Repo :=
  match batch with
  | [entry] => let (outcome, r) := Execute_command entry.2 r in ([outcome], r)
  | _ => ExecuteBatch (snd <$> batch) r
  end.
Definition Work (w : Writer) : option Writer :=
  match thread w with
  | Working batch =>
      let (outcomes, r) := run_batch batch (repository w) in
      Some (mkWriter r (commands w) (max_batch_size w) (stopping w) (fatal w)
              (count batch (stats w))
              Waiting (next_promise w) (accepted w)
              (completed w ++ zip (fst <$> batch) outcomes))
  | _ => None
  end.

(** The catch block, for an exception thrown while the batch runs, before any
    of its promises was fulfilled; [r] is the repository at that point.  The
    batch was counted before anything could throw. *)
Definition Throw (r : Repo) (what : string) (w : Writer) : option Writer :=
  match thread w with
  | Working batch =>
      let r := (RollbackWriteBatch r).2 in
      let failure := Internal ("runtime DB writer failed" +:+ what) in
      Some (mkWriter r [] (max_batch_size w) true failure (count batch (stats w)) Exited (next_promise w) (accepted w)
              (completed w ++ ((fun e => (e.1, Fail e.2 failure)) <$> batch)
                 ++ ((fun e => (e.1, Fail e.2 failure)) <$> commands w)))
  | _ => None
  end.
