(* ===== verification/RepositorySpec.v ===== *)
(** * RepositorySpec: the runtime store as atomic guarded steps

    An abstract specification of the write operations of
    [TaskRuntimeRepository]: [op_step db o db'] says that operation [o] takes
    the committed database [db] to [db'] in one atomic step, under guards on
    [db] alone.  No SQLite call, transaction or failure appears in it.
    RepositoryRefine.v shows that a call that reports success performed
    exactly such a step. *)

From stdpp Require Import pretty.
From S2P Require Import Prelude Status Bytes RelativePath Task Reconciler Sqlite Logic Tables TaskRepository.

(** The write operations, outside a batch. *)
Inductive Op :=
| OpAddTask (plan_id : string) (task : TaskSpec)
| OpAddDependency (plan_id task depends_on : string)
| OpSetReady (plan_id task_id : string)
| OpAcquireEpoch (plan_id : string)
| OpClaim (plan_id : string) (epoch : Z) (attempt_id : option string)
| OpCommitIntent (plan_id task_id : string) (epoch : Z) (attempt_id : string)
| OpTempWritten (plan_id task_id : string) (epoch : Z) (attempt_id : string)
| OpSucceeded (plan_id task_id : string) (epoch : Z) (attempt_id : string)
| OpRetryable (plan_id task_id : string) (epoch : Z) (attempt_id : string) (error : Status)
| OpRecoverSucceeded (plan_id task_id : string) (epoch old_epoch : Z) (old_attempt reason : string)
| OpRecoverRetryable (plan_id task_id : string) (epoch old_epoch : Z) (old_attempt reason : string)
| OpRecoverInconsistent (plan_id task_id : string) (epoch old_epoch : Z) (old_attempt reason : string)
| OpPersist (plan_id : string) (receipt : VerifiedReceipt.t).

Definition run_op (o : Op) : op unit :=
  match o with
  | OpAddTask p t => AddTask p t
  | OpAddDependency p t d => AddDependency p t d
  | OpSetReady p t => SetReady p t
  | OpAcquireEpoch p => let* _ := AcquireNextExecutionEpoch p in ret tt
  | OpClaim p e a => let* _ := ClaimNextReadyImpl p e a in ret tt
  | OpCommitIntent p t e a => MarkCommitIntent no_batch p t e a
  | OpTempWritten p t e a => MarkTempWritten no_batch p t e a
  | OpSucceeded p t e a => MarkSucceeded no_batch p t e a
  | OpRetryable p t e a err => MarkRetryable no_batch p t e a err
  | OpRecoverSucceeded p t e oe oa r => RecoverSucceeded p t e oe oa r
  | OpRecoverRetryable p t e oe oa r => RecoverRetryable p t e oe oa r
  | OpRecoverInconsistent p t e oe oa r => RecoverInconsistent p t e oe oa r
  | OpPersist p r => PersistVerifiedReceipt no_batch p r
  end.

(** The values the parameters' C++ types can hold. *)
Definition op_typed (o : Op) : Prop :=
  match o with
  | OpAddTask _ t => is_uint64 (estimated_bytes t)
  | OpClaim _ e _ | OpCommitIntent _ _ e _ | OpTempWritten _ _ e _ | OpSucceeded _ _ e _
  | OpRetryable _ _ e _ _ => is_uint64 e
  | OpRecoverSucceeded _ _ e oe _ _ | OpRecoverRetryable _ _ e oe _ _
  | OpRecoverInconsistent _ _ e oe _ _ => is_uint64 e /\ is_uint64 oe
  | OpPersist _ r =>
      is_uint64 (VerifiedReceipt.owner_epoch r) /\ is_uint64 (VerifiedReceipt.content_size r)
      /\ forall i, VerifiedReceipt.source_identity r = Some i -> wf_identity i
  | _ => True
  end.

(** ** Row updates *)

Definition task_updated (plan_id task_id : string) (row : TaskRow) (db : Db) : Db :=
  set_plan_task (<[(plan_id, task_id) := row]> (plan_task db)) db.

Definition attempt_updated (attempt_id : string) (row : AttemptRow) (db : Db) : Db :=
  set_task_attempt (<[attempt_id := row]> (task_attempt db)) db.

Definition event_appended (event : EventRow) (db : Db) : Db :=
  set_task_event (task_event db ++ [event]) db.

Definition attempt_in (a : AttemptRow) (state : FileAttemptState.t) (finished_at : option Z)
    (result : option TaskState.t) (error : option Status) : AttemptRow :=
  mkAttemptRow (att_plan_id a) (att_task_id a) (att_owner_epoch a) (Some (to_int state))
    (att_started_at_ns a) finished_at (to_int <$> result)
    ((fun e => to_int (code e)) <$> error) (message <$> error).

Definition planned_row (task : TaskSpec) : TaskRow :=
  mkTaskRow (task_key task) (to_int (type task)) (to_int TaskState.kPlanned) None None 0
    (raw_bytes (target_path task)) (Some (estimated_bytes task))
    (bytes <$> expected_digest task) None None.

Definition released (row : TaskRow) (state : TaskState.t) (error : option Status) : TaskRow :=
  assign_runtime (to_int state) None None (row_attempt_count row)
    ((fun e => to_int (code e)) <$> error) (message <$> error) row.

Definition claimed (row : TaskRow) (epoch : Z) (attempt_id : string) : TaskRow :=
  assign_runtime (to_int TaskState.kRunning) (Some epoch) (Some attempt_id)
    (row_attempt_count row + 1) None None row.

(** An executor's claim is current: its epoch is the plan's, the task runs
    for it under this attempt, and the attempt is recorded. *)
Record owns (db : Db) (plan_id task_id : string) (epoch : Z) (attempt_id : string)
    (row : TaskRow) (att : AttemptRow) : Prop := {
  owns_row : plan_task db !! (plan_id, task_id) = Some row;
  owns_by : owned_by epoch attempt_id row = true;
  owns_attempt : select_attempt plan_id task_id attempt_id epoch db = Some att;
}.

(** A running task is released: its row, its attempt and one event. *)
Definition settle (plan_id task_id attempt_id : string) (row : TaskRow) (att : AttemptRow)
    (state : TaskState.t) (attempt_state : FileAttemptState.t) (error : option Status)
    (finished_at : Z) (event : EventRow) (db : Db) : Db :=
  event_appended event
    (attempt_updated attempt_id (attempt_in att attempt_state (Some finished_at) (Some state) error)
      (task_updated plan_id task_id (released row state error) db)).

Definition advance (attempt_id : string) (att : AttemptRow) (state : FileAttemptState.t)
    (event : EventRow) (db : Db) : Db :=
  event_appended event (attempt_updated attempt_id (attempt_in att state None None None) db).

(** [depends db p t d]: task [t] of plan [p] directly depends on [d]. *)
Definition depends (db : Db) (plan_id task depends_on : string) : Prop :=
  (plan_id, task, depends_on) ∈ task_dependency db.

Definition clean_id (s : string) : Prop := s <> "" /\ IsNul s = false.
Definition valid_ids (plan_id task_id : string) : Prop := ok (CheckIds plan_id task_id) = true.
Definition valid_claim (epoch : Z) (attempt_id : string) : Prop :=
  ok (CheckEpochAttempt epoch attempt_id) = true.

(** How the outcome of a task maps to its final file state. *)
Definition attempt_outcome (state : TaskState.t) : FileAttemptState.t :=
  match state with
  | TaskState.kSucceeded => FileAttemptState.kCommitted
  | TaskState.kInconsistent => FileAttemptState.kInconsistent
  | _ => FileAttemptState.kRetryable
  end.

(** What the three Recover operations settle a task to. *)
Definition recovery (o : Op) :
    option (string * string * Z * Z * string * string * TaskState.t * option Status * string) :=
  match o with
  | OpRecoverSucceeded p t e oe oa r =>
      Some (p, t, e, oe, oa, r, TaskState.kSucceeded, None, "RECOVER_SUCCEEDED")
  | OpRecoverRetryable p t e oe oa r =>
      Some (p, t, e, oe, oa, r, TaskState.kRetryable,
            Some (mkStatus StatusCode.kIoError r), "RECOVER_RETRYABLE")
  | OpRecoverInconsistent p t e oe oa r =>
      Some (p, t, e, oe, oa, r, TaskState.kInconsistent,
            Some (mkStatus StatusCode.kInternal r), "RECOVER_INCONSISTENT")
  | _ => None
  end.

(** What the two executor completions settle a task to. *)
Definition completion (o : Op) :
    option (string * string * Z * string * TaskState.t * option Status) :=
  match o with
  | OpSucceeded p t e a => Some (p, t, e, a, TaskState.kSucceeded, None)
  | OpRetryable p t e a err => Some (p, t, e, a, TaskState.kRetryable, Some err)
  | _ => None
  end.

(** The two steps of an attempt before its receipt. *)
Definition advancing (o : Op) : option (string * string * Z * string * FileAttemptState.t * string) :=
  match o with
  | OpCommitIntent p t e a => Some (p, t, e, a, FileAttemptState.kCommitIntent, "COMMIT_INTENT")
  | OpTempWritten p t e a => Some (p, t, e, a, FileAttemptState.kTempWritten, "TEMP_WRITTEN")
  | _ => None
  end.

Inductive op_step (db : Db) : Op -> Db -> Prop :=
| step_add_task p t :
    valid_ids p (spec_id t) -> ok (ValidateTaskSpec t) = true -> estimated_bytes t <= int64_max ->
    has_task p (spec_id t) db = false -> task_key_used p (task_key t) db = false ->
    has_plan p db = true ->
    op_step db (OpAddTask p t) (task_updated p (spec_id t) (planned_row t) db)
| step_add_dependency p t d :
    valid_ids p t -> valid_ids p d -> t <> d -> ~ rtc (depends db p) d t ->
    has_task p t db = true -> has_task p d db = true -> ~ depends db p t d ->
    op_step db (OpAddDependency p t d)
      (set_task_dependency ({[(p, t, d)]} ∪ task_dependency db) db)
| step_set_ready p t row :
    valid_ids p t -> plan_task db !! (p, t) = Some row ->
    row_state row = to_int TaskState.kPlanned \/ row_state row = to_int TaskState.kRetryable ->
    dependencies_succeeded p t db = true ->
    op_step db (OpSetReady p t) (task_updated p t (released row TaskState.kReady None) db)
| step_acquire p pr m :
    clean_id p -> migration_plan db !! p = Some pr -> migration db !! plan_migration_id pr = Some m ->
    0 <= current_epoch m < int64_max ->
    op_step db (OpAcquireEpoch p)
      (set_migration (<[plan_migration_id pr := with_epoch (current_epoch m + 1) m]> (migration db)) db)
| step_claim p e oa t row now t2 :
    valid_ids p "claim" -> valid_claim e (default "generated" oa) ->
    select_current_epoch p db = Some e ->
    least_id (claimable_ids p db) = Some t -> c_str t = t -> plan_task db !! (p, t) = Some row ->
    row_state row = to_int TaskState.kReady -> dependencies_succeeded p t db = true ->
    row_active_attempt_id row = None -> 0 <= row_attempt_count row < uint32_max ->
    let a := default (generated_attempt_id p t (row_attempt_count row)) oa in
    has_attempt a db = false ->
    op_step db (OpClaim p e oa)
      (event_appended (mkEventRow p t "RUNNING" e a "claim" t2)
        (attempt_updated a (mkAttemptRow p t e (Some (to_int FileAttemptState.kRunning)) now None None None None)
          (task_updated p t (claimed row e a) db)))
| step_advance o p t e a st name row att previous persisted now :
    advancing o = Some (p, t, e, a, st, name) -> valid_ids p t -> valid_claim e a ->
    select_current_epoch p db = Some e -> owns db p t e a row att ->
    att_file_state att = Some persisted -> of_int (to_int32 persisted) = Some previous ->
    FileAttemptState.IsValidTransition previous st = true ->
    op_step db o (advance a att st (mkEventRow p t name e a "attempt lifecycle" now) db)
| step_advance_again o p t e a st name row att persisted :
    advancing o = Some (p, t, e, a, st, name) -> valid_ids p t -> valid_claim e a ->
    select_current_epoch p db = Some e -> owns db p t e a row att ->
    att_file_state att = Some persisted -> of_int (to_int32 persisted) = Some st ->
    op_step db o db
| step_complete o p t e a st err row att finished now :
    completion o = Some (p, t, e, a, st, err) -> valid_ids p t -> valid_claim e a ->
    (forall s, err = Some s -> ok s = false) ->
    select_current_epoch p db = Some e -> owns db p t e a row att ->
    op_step db o (settle p t a row att st (attempt_outcome st) err finished
      (mkEventRow p t (if st == TaskState.kSucceeded then "SUCCEEDED" else "RETRYABLE") e a
         (match err with None => "completed" | Some s => message s end) now) db)
| step_recover o p t e oe oa r st err name row att finished now detail :
    recovery o = Some (p, t, e, oe, oa, r, st, err, name) -> valid_ids p t ->
    valid_claim e oa -> valid_claim oe oa -> r <> "" ->
    select_current_epoch p db = Some e -> owns db p t oe oa row att ->
    op_step db o (settle p t oa row att st (attempt_outcome st) err finished
      (mkEventRow p t name e oa detail now) db)
| step_persist p r sd si row att now :
    let t := VerifiedReceipt.task_id r in
    let a := VerifiedReceipt.attempt_id r in
    let e := VerifiedReceipt.owner_epoch r in
    valid_ids p t -> valid_claim e a ->
    VerifiedReceipt.source_digest r = Some sd -> VerifiedReceipt.source_identity r = Some si ->
    VerifiedReceipt.temp_path r <> "" -> VerifiedReceipt.final_path r <> "" ->
    VerifiedReceipt.content_size r <= int64_max ->
    select_current_epoch p db = Some e -> owns db p t e a row att ->
    verified_receipt db !! (p, t, a) = None ->
    op_step db (OpPersist p r)
      (advance a att FileAttemptState.kVerifiedDurable
         (mkEventRow p t "VERIFIED_DURABLE" e a "receipt persisted before publish" now)
        (set_verified_receipt (<[(p, t, a) := row_of_receipt r sd si]> (verified_receipt db)) db))
| step_persist_again p r sd si row att rrow :
    let t := VerifiedReceipt.task_id r in
    let a := VerifiedReceipt.attempt_id r in
    let e := VerifiedReceipt.owner_epoch r in
    valid_ids p t -> valid_claim e a ->
    VerifiedReceipt.source_digest r = Some sd -> VerifiedReceipt.source_identity r = Some si ->
    VerifiedReceipt.temp_path r <> "" -> VerifiedReceipt.final_path r <> "" ->
    VerifiedReceipt.content_size r <= int64_max ->
    select_current_epoch p db = Some e -> owns db p t e a row att ->
    verified_receipt db !! (p, t, a) = Some rrow -> receipt_of_row t a rrow = Ok r ->
    op_step db (OpPersist p r) db.

(** ** Well-formed databases *)

(** The file states of an attempt that has no result yet. *)
Definition live_state (st : FileAttemptState.t) : bool :=
  match st with
  | FileAttemptState.kRunning | FileAttemptState.kCommitIntent
  | FileAttemptState.kTempWritten | FileAttemptState.kVerifiedDurable => true
  | _ => false
  end.

(** The task states a released task can be left in. *)
Definition final_state (st : TaskState.t) : bool :=
  match st with
  | TaskState.kSucceeded | TaskState.kRetryable | TaskState.kInconsistent => true
  | _ => false
  end.

Record wf_task (db : Db) (p t : string) (row : TaskRow) : Prop := {
  wt_plan_id : clean_id p;
  wt_task_id : clean_id t;
  wt_plan : is_Some (select_current_epoch p db);
  wt_state : exists st, row_state row = to_int st /\
    match st with
    | TaskState.kRunning => exists e a att,
        row_owner_epoch row = Some e /\ row_active_attempt_id row = Some a
        /\ select_attempt p t a e db = Some att /\ att_result att = None
    | _ => row_owner_epoch row = None /\ row_active_attempt_id row = None
    end;
  wt_count : 0 <= row_attempt_count row <= uint32_max;
  wt_error : match row_last_error_code row, row_last_error_message row with
    | None, None => True
    | Some c, Some m => exists sc, sc <> StatusCode.kOk /\ c = to_int sc
    | _, _ => False
    end;
}.

Record wf_attempt (db : Db) (a : string) (att : AttemptRow) : Prop := {
  wa_id : clean_id a;
  wa_epoch : exists ep, select_current_epoch (att_plan_id att) db = Some ep
    /\ 0 < att_owner_epoch att <= ep;
  wa_state : exists row, plan_task db !! (att_plan_id att, att_task_id att) = Some row /\
    match att_result att with
    | None => att_finished_at_ns att = None
        /\ owned_by (att_owner_epoch att) a row = true
        /\ exists st, att_file_state att = Some (to_int st) /\ live_state st = true
    | Some r => is_Some (att_finished_at_ns att)
        /\ exists st, r = to_int st /\ final_state st = true
           /\ att_file_state att = Some (to_int (attempt_outcome st))
    end;
  wa_durable :
    att_file_state att = Some (to_int FileAttemptState.kVerifiedDurable) ->
    is_Some (verified_receipt db !! (att_plan_id att, att_task_id att, a));
}.

Record wf_receipt (db : Db) (p t a : string) (row : ReceiptRow) : Prop := {
  wr_attempt : exists att, select_attempt p t a (rc_owner_epoch row) db = Some att;
  wr_epoch : 0 < rc_owner_epoch row;
  wr_paths : rc_temp_path row <> "" /\ rc_final_path row <> "";
  wr_size : 0 <= rc_content_size row <= int64_max;
  wr_digests : str_size (rc_source_digest row) = 32 /\ str_size (rc_target_digest row) = 32;
  wr_identity : exists i, wf_identity i /\ rc_source_identity row = EncodeIdentity i;
}.

Record wf_db (db : Db) : Prop := {
  wf_plans : forall p pr, migration_plan db !! p = Some pr ->
    is_Some (migration db !! plan_migration_id pr);
  wf_epochs : forall m r, migration db !! m = Some r -> 0 <= current_epoch r <= int64_max;
  wf_tasks : forall p t row, plan_task db !! (p, t) = Some row -> wf_task db p t row;
  wf_task_keys : forall p t1 t2 r1 r2,
    plan_task db !! (p, t1) = Some r1 -> plan_task db !! (p, t2) = Some r2 ->
    row_task_key r1 = row_task_key r2 -> t1 = t2;
  wf_dependencies : forall p t d, depends db p t d ->
    has_task p t db = true /\ has_task p d db = true;
  wf_acyclic : forall p t, ~ tc (depends db p) t t;
  wf_attempts : forall a att, task_attempt db !! a = Some att -> wf_attempt db a att;
  wf_receipts : forall p t a row, verified_receipt db !! (p, t, a) = Some row ->
    wf_receipt db p t a row;
  wf_events : forall ev, ev ∈ task_event db -> has_task (ev_plan_id ev) (ev_task_id ev) db = true;
}.

(** ** Integers and text read back *)

Lemma to_int64_id z : 0 <= z <= int64_max -> to_int64 z = z.
Proof. intros. apply to_int64_signed. unfold int64_min. lia. Qed.

Lemma to_int32_id z : 0 <= z < 2 ^ 31 -> to_int32 z = z.
Proof. unfold to_int32. intros ?. rewrite Z.mod_small by lia. lia. Qed.

Lemma task_state_int32 (st : TaskState.t) : to_int32 (to_int st) = to_int st.
Proof. by destruct st. Qed.

Lemma attempt_state_int32 (st : FileAttemptState.t) : to_int32 (to_int st) = to_int st.
Proof. by destruct st. Qed.

Lemma c_str_clean s : IsNul s = false -> c_str s = s.
Proof.
  unfold IsNul. induction s as [|c s IH]; [done|]. simpl.
  intros [Hc Hs]%orb_false_iff. by rewrite Hc, IH.
Qed.

Lemma valid_ids_clean p t : valid_ids p t -> clean_id p /\ clean_id t.
Proof.
  unfold valid_ids, CheckIds, clean_id. repeat (split_if; [done|]). intros _. bool_hyps.
  rewrite <- !str_empty_false. done.
Qed.

Lemma valid_claim_facts e a : valid_claim e a -> e <> 0 /\ e <= int64_max /\ clean_id a.
Proof.
  unfold valid_claim, CheckEpochAttempt, clean_id. repeat (split_if; [done|]). intros _. bool_hyps.
  rewrite <- str_empty_false. done.
Qed.

Lemma owned_by_true e a row :
  owned_by e a row = true <->
  row_owner_epoch row = Some e /\ row_active_attempt_id row = Some a
  /\ row_state row = to_int TaskState.kRunning.
Proof.
  unfold owned_by. rewrite !andb_true_iff, !bool_decide_eq_true, Z.eqb_eq. tauto.
Qed.

Lemma select_attempt_Some p t a e db att :
  select_attempt p t a e db = Some att <->
  task_attempt db !! a = Some att /\ att_plan_id att = p /\ att_task_id att = t
  /\ att_owner_epoch att = e.
Proof.
  unfold select_attempt, attempt_matches.
  destruct (task_attempt db !! a) as [x|]; simpl; [|naive_solver].
  split_if; bool_hyps; [naive_solver|]. split; [done|]. intros ([= ->]&<-&<-&<-).
  rewrite !bool_decide_eq_true_2, Z.eqb_refl in Heqb by done. done.
Qed.

Lemma has_task_true p t db : has_task p t db = true <-> is_Some (plan_task db !! (p, t)).
Proof. unfold has_task. apply bool_decide_eq_true. Qed.

Lemma has_task_Some p t db row : plan_task db !! (p, t) = Some row -> has_task p t db = true.
Proof. intros Hrow. apply has_task_true. by rewrite Hrow. Qed.
