(* ===== verification/RepositoryRefine.v ===== *)
(** * RepositoryRefine: successful calls are atomic steps

    The [wp] lemma of every statement sequence of TaskRepository.v, and the
    refinement theorem: from a well-formed database, a write operation that
    reports success committed exactly one step of the abstract specification
    RepositorySpec.v, whichever of its SQLite calls could have failed. *)

From stdpp Require Import pretty.
From S2P Require Import Prelude Status Bytes RelativePath Task Reconciler Sqlite Logic Tables TaskRepository RepositorySpec.

Ltac wp_unfold d := unfold d; wp_run.

(** ** Statement sequences *)

Lemma insert_event_Some ev db db' n :
  insert_event_row ev db = Some (db', n) ->
  has_task (ev_plan_id ev) (ev_task_id ev) db = true /\ db' = event_appended ev db /\ n = 1.
Proof. unfold insert_event_row. split_if; naive_solver. Qed.

Lemma wp_AppendTaskEvent p t ty e a d Q w n :
  (forall now, Q tt (event_appended (mkEventRow p t ty (to_int64 e) a d now) w) 1) ->
  wp (AppendTaskEvent p t ty e a d) Q w n.
Proof.
  intros HQ. unfold AppendTaskEvent. wp_run.
  match goal with H : _ = Some _ |- _ => apply insert_event_Some in H as (_&->&->) end.
  apply HQ.
Qed.

Lemma update_attempt_changed p t a e st fin res ec em db db' :
  update_attempt p t a e st fin res ec em db = Some (db', 1) ->
  exists att, select_attempt p t a e db = Some att /\
    db' = attempt_updated a (mkAttemptRow (att_plan_id att) (att_task_id att) (att_owner_epoch att)
            (Some st) (att_started_at_ns att) fin res ec em) db.
Proof. unfold update_attempt. destruct (select_attempt p t a e db); naive_solver. Qed.

Lemma wp_UpdateAttemptState p t a e st res err (finish : bool) Q w n :
  (forall att fin, select_attempt p t a (to_int64 e) w = Some att ->
     (if finish then is_Some fin else fin = None) ->
     Q tt (attempt_updated a (attempt_in att st fin res err) w) 1) ->
  wp (UpdateAttemptState p t a e st res err finish) Q w n.
Proof.
  intros HQ. unfold UpdateAttemptState. wp_run.
  apply (wp_mono _ (fun fin w' n' => w' = w /\ if finish then is_Some fin else fin = None)).
  { destruct finish; wp_run; eauto. }
  intros fin ? ? [-> Hfin]. wp_run.
  apply (wp_mono _ (fun _ w' _ => w' = w)); [destruct res; by wp_run|].
  intros [] ? ? ->. wp_run.
  apply (wp_mono _ (fun _ w' _ => w' = w)); [destruct err; by wp_run|].
  intros [] ? ? ->. wp_run. bool_hyps. subst.
  match goal with H : _ = Some _ |- _ => apply update_attempt_changed in H as (att&Hatt&->) end.
  by apply HQ.
Qed.

Lemma wp_bind_error err c b Q w n : (forall n', Q tt w n') -> wp (bind_error err c b) Q w n.
Proof. intros HQ. unfold bind_error. destruct err; wp_run; apply HQ. Qed.

Lemma wp_ReadCurrentEpochForPlan p Q w n :
  (forall e, select_current_epoch p w = Some e -> 0 <= e -> Q e w n) ->
  wp (ReadCurrentEpochForPlan p) Q w n.
Proof.
  intros HQ. unfold ReadCurrentEpochForPlan. wp_run.
  destruct (select_current_epoch p w) as [e|] eqn:He; wp_run.
  bool_hyps. by apply HQ.
Qed.

(** In a batch the epoch was read when the batch was opened. *)
Definition batch_current (batched : option Z) (p : string) (w : Db) : Prop :=
  forall e, batched = Some e -> select_current_epoch p w = Some e.

Lemma wp_CurrentEpoch batched p Q w n :
  batch_current batched p w ->
  (forall e, select_current_epoch p w = Some e -> Q e w n) ->
  wp (CurrentEpoch batched p) Q w n.
Proof.
  intros Hb HQ. destruct batched as [e|]; simpl.
  - apply wp_ret, HQ, Hb. done.
  - apply wp_ReadCurrentEpochForPlan. auto.
Qed.

Lemma wp_CheckTaskOwnership p t e a Q w n :
  (forall row owner active, plan_task w !! (p, t) = Some row ->
     row_owner_epoch row = Some owner -> row_active_attempt_id row = Some active ->
     to_int32 (row_state row) = to_int TaskState.kRunning -> owner = to_int64 e ->
     c_str active = a -> Q tt w n) ->
  wp (CheckTaskOwnership p t e a) Q w n.
Proof.
  intros HQ. unfold CheckTaskOwnership. wp_run. unfold select_task.
  destruct (plan_task w !! (p, t)) as [row|] eqn:Hrow; [|wp_run].
  destruct (row_owner_epoch row) as [owner|] eqn:Hown; [|wp_run].
  destruct (row_active_attempt_id row) as [active|] eqn:Hact; wp_run.
  bool_hyps. by eapply HQ.
Qed.

(** The row behind a passed ownership check. *)
Lemma ownership_row db p t row owner active a :
  wf_db db -> plan_task db !! (p, t) = Some row ->
  row_owner_epoch row = Some owner -> row_active_attempt_id row = Some active ->
  to_int32 (row_state row) = to_int TaskState.kRunning -> c_str active = a ->
  exists att, owns db p t owner a row att /\ att_result att = None.
Proof.
  intros Hwf Hrow Hown Hact Hst Hc.
  destruct (wf_tasks db Hwf _ _ _ Hrow) as [_ _ _ (st&Heq&Hlive) _ _].
  rewrite Heq, task_state_int32 in Hst. apply to_int_inj in Hst as ->.
  destruct Hlive as (e&a'&att&He&Ha&Hatt&Hres). simplify_eq.
  pose proof Hatt as Hatt'. apply select_attempt_Some in Hatt' as (Hat&_).
  destruct (wf_attempts db Hwf _ _ Hat) as [[_ Hnul] _ _ _].
  rewrite (c_str_clean _ Hnul). exists att. split; [|done]. split; [done| |done].
  apply owned_by_true. done.
Qed.

Lemma update_task_changed p t cond f db db' :
  update_task p t cond f db = Some (db', 1) ->
  exists row, plan_task db !! (p, t) = Some row /\ cond row = true
    /\ db' = task_updated p t (f row) db.
Proof.
  unfold update_task. destruct (plan_task db !! (p, t)) as [row|]; [|done].
  destruct (cond row) eqn:?; [|done]. intros [= <-]. by exists row.
Qed.

Lemma select_attempt_task_updated p t a e q u row db :
  select_attempt p t a e (task_updated q u row db) = select_attempt p t a e db.
Proof. done. Qed.

Lemma has_task_updated p t row db q u :
  has_task q u db = true -> has_task q u (task_updated p t row db) = true.
Proof.
  rewrite !has_task_true. unfold task_updated. simpl. intros Hs.
  destruct (decide ((p, t) = (q, u))) as [<-|Hne].
  - by rewrite lookup_insert_eq.
  - by rewrite lookup_insert_ne.
Qed.

(** The two release sequences: completion by the owner and recovery. *)
Lemma wp_FinishTaskBody p t e a st err batched Q w n :
  0 <= e <= int64_max -> batch_current batched p w ->
  (st = TaskState.kSucceeded \/ st = TaskState.kRetryable) ->
  (forall row att fin now, select_current_epoch p w = Some e -> owns w p t e a row att ->
     Q tt (settle p t a row att st (attempt_outcome st) err fin
       (mkEventRow p t (if st == TaskState.kSucceeded then "SUCCEEDED" else "RETRYABLE") e a
         (match err with None => "completed" | Some s => message s end) now) w) 1) ->
  wp (FinishTaskBody p t e a st err batched) Q w n.
Proof.
  intros He Hb Hst HQ. unfold FinishTaskBody. wp_run.
  apply wp_CurrentEpoch; [done|]. intros cur Hcur. wp_run. bool_hyps. subst cur.
  apply wp_bind_error. intros n'. wp_run. bool_hyps. subst.
  match goal with H : _ = Some _ |- _ => apply update_task_changed in H as (row&Hrow&Hown&->) end.
  rewrite to_int64_id in Hown by done.
  apply wp_UpdateAttemptState. intros att fin Hatt Hfin. rewrite to_int64_id in Hatt by done.
  destruct Hfin as [f ->]. apply wp_AppendTaskEvent. intros now. rewrite to_int64_id by done.
  replace (if st == TaskState.kSucceeded then _ else _) with (attempt_outcome st)
    by (by destruct Hst as [->| ->]).
  apply (HQ row att f now Hcur). by split.
Qed.

Lemma wp_RecoverTaskBody p t e oe oa st ast name r err Q w n :
  0 <= e <= int64_max -> 0 <= oe <= int64_max ->
  (forall row att fin now detail, select_current_epoch p w = Some e -> owns w p t oe oa row att ->
     Q tt (settle p t oa row att st ast err fin (mkEventRow p t name e oa detail now) w) 1) ->
  wp (RecoverTaskBody p t e oe oa st ast name r err) Q w n.
Proof.
  intros He Hoe HQ. unfold RecoverTaskBody. wp_run.
  apply wp_ReadCurrentEpochForPlan. intros cur Hcur _. wp_run. bool_hyps. subst cur.
  apply wp_bind_error. intros n'. wp_run. bool_hyps. subst.
  match goal with H : _ = Some _ |- _ => apply update_task_changed in H as (row&Hrow&Hown&->) end.
  rewrite to_int64_id in Hown by done.
  apply wp_UpdateAttemptState. intros att fin Hatt Hfin. rewrite to_int64_id in Hatt by done.
  destruct Hfin as [f ->]. apply wp_AppendTaskEvent. intros now. rewrite to_int64_id by done.
  apply (HQ row att f now _ Hcur). by split.
Qed.

Lemma wp_AdvanceAttemptBody p t e a st name batched Q w n :
  wf_db w -> 0 <= e <= int64_max -> batch_current batched p w ->
  (forall row att persisted previous, select_current_epoch p w = Some e ->
     owns w p t e a row att -> att_file_state att = Some persisted ->
     of_int (to_int32 persisted) = Some previous ->
     if previous == st then Q tt w n
     else FileAttemptState.IsValidTransition previous st = true ->
       forall now, Q tt (advance a att st (mkEventRow p t name e a "attempt lifecycle" now) w) 1) ->
  wp (AdvanceAttemptBody p t e a st name batched) Q w n.
Proof.
  intros Hwf He Hb HQ. unfold AdvanceAttemptBody. wp_run.
  apply wp_CurrentEpoch; [done|]. intros cur Hcur. wp_run. bool_hyps. subst cur.
  apply wp_CheckTaskOwnership. intros row owner active Hrow Hown Hact Hst -> Hc. wp_run.
  destruct (ownership_row w p t row _ active a Hwf Hrow Hown Hact Hst Hc) as (att&Howns&_).
  rewrite to_int64_id in Howns by done. rewrite to_int64_id by done.
  rewrite (owns_attempt _ _ _ _ _ _ _ Howns).
  destruct (att_file_state att) as [persisted|] eqn:Hper; [|wp_run].
  destruct (of_int (to_int32 persisted)) as [previous|] eqn:Hprev; [|wp_run].
  specialize (HQ row att persisted previous Hcur Howns Hper Hprev).
  destruct (bool_decide (previous = st)); wp_run; [done|].
  apply wp_UpdateAttemptState. intros att' fin Hatt' ->. rewrite to_int64_id in Hatt' by done.
  rewrite (owns_attempt _ _ _ _ _ _ _ Howns) in Hatt'. simplify_eq.
  apply wp_AppendTaskEvent. intros now. rewrite to_int64_id by done. by apply HQ.
Qed.

(** ** The recursive query computes reachability *)

Lemma dependencies_of_spec p db known x :
  x ∈ dependencies_of p db known <-> exists t, t ∈ known /\ depends db p t x.
Proof.
  unfold dependencies_of, depends. rewrite elem_of_list_to_set, list_elem_of_omap. split.
  - intros ([[q t] d]&Hin%elem_of_elements&Hif). simpl in Hif.
    split_if; [|done]. bool_hyps. simplify_eq. eauto.
  - intros (t&Hknown&Hin). exists (p, t, x). split; [by apply elem_of_elements|].
    simpl. by rewrite !bool_decide_eq_true_2 by done.
Qed.

Lemma size_list_to_set_le (l : list string) : (size (list_to_set l : gset string) <= length l)%nat.
Proof.
  induction l as [|x l IH]; [done|]. simpl list_to_set. simpl length.
  destruct (decide (x ∈ (list_to_set l : gset string))).
  - replace ({[x]} ∪ list_to_set l : gset string) with (list_to_set l : gset string) by set_solver. lia.
  - rewrite size_union by set_solver. rewrite size_singleton. lia.
Qed.

Lemma ancestors_rounds_closed p db n known bound :
  (forall s, s ⊆ bound -> dependencies_of p db s ⊆ bound) ->
  known ⊆ bound -> (size bound <= size known + n)%nat ->
  known ⊆ ancestors_rounds n p db known
  /\ dependencies_of p db (ancestors_rounds n p db known) ⊆ ancestors_rounds n p db known.
Proof.
  intros Hbound. revert known. induction n as [|n IH]; intros known Hsub Hsize.
  - split; [done|]. simpl. assert (known = bound) as ->.
    { apply leibniz_equiv. apply set_subseteq_size_equiv; [done|lia]. }
    by apply Hbound.
  - simpl. set (next := known ∪ dependencies_of p db known).
    assert (next ⊆ bound) as Hnext.
    { specialize (Hbound known Hsub). set_solver. }
    destruct (decide (next = known)) as [Heq|Hne].
    + rewrite Heq. assert (dependencies_of p db known ⊆ known) as Hcl by set_solver.
      clear IH Hsize. assert (ancestors_rounds n p db known = known) as ->; [|done].
      induction n as [|n IHn]; [done|]. simpl. fold next. by rewrite Heq.
    + destruct (IH next) as [H1 H2]; [done| |set_solver].
      assert (known ⊂ next) as Hlt%subset_size by set_solver. lia.
Qed.

Lemma ancestors_rounds_sound p db n known x :
  x ∈ ancestors_rounds n p db known -> exists t, t ∈ known /\ rtc (depends db p) t x.
Proof.
  revert known. induction n as [|n IH]; intros known Hx; simpl in Hx.
  - exists x. by split; [|apply rtc_refl].
  - apply IH in Hx as (t&Ht&Hr). apply elem_of_union in Ht as [Ht|Ht]; [eauto|].
    apply dependencies_of_spec in Ht as (u&Hu&Hd). exists u. split; [done|].
    by eapply rtc_l.
Qed.

(** The rounds of the recursive query reach exactly the tasks the new
    prerequisite depends on, directly or not. *)
Lemma ancestors_spec p d db x : x ∈ ancestors p d db <-> rtc (depends db p) d x.
Proof.
  unfold ancestors. split.
  - intros (t&Ht&Hr)%ancestors_rounds_sound. by apply elem_of_singleton in Ht as ->.
  - set (n := size (task_dependency db)).
    set (bound := {[d]} ∪ list_to_set (snd <$> elements (task_dependency db)) : gset string).
    destruct (ancestors_rounds_closed p db n {[d]} bound) as [Hin Hclosed].
    + intros s _ y (t&_&Hd)%dependencies_of_spec. unfold bound. apply elem_of_union_r.
      apply elem_of_list_to_set, list_elem_of_fmap. exists (p, t, y).
      split; [done|]. by apply elem_of_elements.
    + set_solver.
    + rewrite size_singleton. unfold bound, n.
      pose proof (size_list_to_set_le (d :: (snd <$> elements (task_dependency db)))) as Hl.
      simpl in Hl. rewrite length_fmap in Hl. exact Hl.
    + intros Hr. assert (forall y, rtc (depends db p) d y -> y ∈ ancestors_rounds n p db {[d]}) as Hall.
      { apply rtc_ind_r; [set_solver|]. intros y z _ Hyz IHy.
        apply Hclosed, dependencies_of_spec. eauto. }
      by apply Hall.
Qed.

(** ** Claims *)

Lemma least_id_None ids : least_id ids = None <-> ids = [].
Proof. destruct ids as [|x l]; [done|]. simpl. destruct (least_id l); done. Qed.

Lemma least_id_spec ids t :
  least_id ids = Some t -> t ∈ ids /\ forall x, x ∈ ids -> String.le t x.
Proof.
  revert t. induction ids as [|x l IH]; intros t; [done|]. simpl.
  destruct (least_id l) as [b|] eqn:Hb.
  - intros [= <-]. destruct (IH b eq_refl) as [Hin Hle].
    destruct (String.leb x b) eqn:Hxb.
    + split; [set_solver|]. intros y [->|Hy]%elem_of_cons; [reflexivity|].
      transitivity b; [|by apply Hle]. unfold String.le. by rewrite Hxb.
    + split; [set_solver|]. intros y [->|Hy]%elem_of_cons; [|by apply Hle].
      destruct (String.le_total b x) as [H|H]; [done|]. unfold String.le in H. by rewrite Hxb in H.
  - intros [= <-]. apply least_id_None in Hb as ->. split; [set_solver|].
    intros y ->%list_elem_of_singleton. reflexivity.
Qed.

Lemma claimable_ids_spec p db t :
  t ∈ claimable_ids p db <->
  exists row, plan_task db !! (p, t) = Some row /\ row_state row = to_int TaskState.kReady
    /\ dependencies_succeeded p t db = true.
Proof.
  unfold claimable_ids, claimable. rewrite list_elem_of_omap. split.
  - intros ([[q u] row]&Hin%elem_of_map_to_list&Hif). simpl in Hif.
    split_if; [|done]. bool_hyps. simplify_eq. eauto.
  - intros (row&Hrow&Hst&Hdeps). exists ((p, t), row). split; [by apply elem_of_map_to_list|].
    simpl. by rewrite bool_decide_eq_true_2, Hst, Hdeps by done.
Qed.

Lemma insert_attempt_Some a r db db' n :
  insert_attempt_row a r db = Some (db', n) ->
  has_attempt a db = false /\ db' = attempt_updated a r db.
Proof. unfold insert_attempt_row. split_if; [done|]. bool_hyps. naive_solver. Qed.

Lemma wp_ReadRuntimeWithStatement p t Q w n :
  (forall row rt, plan_task w !! (p, t) = Some row -> runtime_of_row t row = Ok rt -> Q rt w n) ->
  wp (ReadRuntimeWithStatement p t) Q w n.
Proof.
  intros HQ. unfold ReadRuntimeWithStatement, select_task. wp_run.
  destruct (plan_task w !! (p, t)) as [row|] eqn:Hrow; wp_run. by eapply HQ.
Qed.

Lemma wp_ClaimBody p e oa Q w n :
  wf_db w -> 0 <= e <= int64_max ->
  (forall t row now t2 rt,
     let a := default (generated_attempt_id p t (row_attempt_count row)) oa in
     select_current_epoch p w = Some e ->
     least_id (claimable_ids p w) = Some t -> c_str t = t -> plan_task w !! (p, t) = Some row ->
     row_state row = to_int TaskState.kReady -> dependencies_succeeded p t w = true ->
     row_active_attempt_id row = None -> 0 <= row_attempt_count row < uint32_max ->
     has_attempt a w = false -> runtime_of_row t (claimed row e a) = Ok rt ->
     Q (mkClaimed t rt)
       (event_appended (mkEventRow p t "RUNNING" e a "claim" t2)
         (attempt_updated a (mkAttemptRow p t e (Some (to_int FileAttemptState.kRunning)) now None None None None)
           (task_updated p t (claimed row e a) w))) 1) ->
  wp (ClaimBody p e oa) Q w n.
Proof.
  intros Hwf He HQ. unfold ClaimBody. wp_run.
  apply wp_ReadCurrentEpochForPlan. intros cur Hcur _. wp_run. bool_hyps. subst cur.
  destruct (select_claimable p w) as [[id count]|] eqn:Hsel; [|wp_run].
  unfold select_claimable in Hsel.
  destruct (least_id (claimable_ids p w)) as [t|] eqn:Hleast; [|done]. simpl in Hsel.
  destruct (plan_task w !! (p, t)) as [row|] eqn:Hrow; [|done]. simpl in Hsel. simplify_eq.
  pose proof (least_id_spec _ _ Hleast) as [Hin _].
  apply claimable_ids_spec in Hin as (row'&Hrow'&Hready&Hdeps). simplify_eq.
  assert (c_str id = id) as Hid.
  { apply c_str_clean. by destruct (wf_tasks w Hwf _ _ _ Hrow) as [_ [_ ?] _ _ _ _]. }
  rewrite Hid. wp_run. bool_hyps. subst.
  match goal with H : update_claim _ _ _ _ _ = _ |- _ =>
    apply update_task_changed in H as (row2&Hrow2&Hcond&->) end.
  rewrite Hrow in Hrow2. injection Hrow2 as <-. bool_hyps.
  assert (row_active_attempt_id row = None) as Hact by (by destruct (row_active_attempt_id row)).
  match goal with H : insert_attempt_row _ _ _ = _ |- _ =>
    apply insert_attempt_Some in H as [Hfresh ->] end.
  apply wp_AppendTaskEvent. intros t2. wp_run.
  apply wp_ReadRuntimeWithStatement. intros row3 rt Hrow3 Hrt. wp_run.
  rewrite to_int64_id in * by done.
  simpl in Hrow3. rewrite lookup_insert_eq in Hrow3. injection Hrow3 as <-.
  destruct oa as [a|]; eapply (HQ id row _ t2 rt); try done; lia.
Qed.

(** ** Epochs and receipts *)

Lemma select_current_epoch_Some p db e :
  select_current_epoch p db = Some e <->
  exists pr m, migration_plan db !! p = Some pr
    /\ migration db !! plan_migration_id pr = Some m /\ current_epoch m = e.
Proof.
  unfold select_current_epoch. destruct (migration_plan db !! p) as [pr|]; simpl; [|naive_solver].
  destruct (migration db !! plan_migration_id pr) as [m|] eqn:Hm; simpl; naive_solver.
Qed.

Lemma wp_AcquireBody p Q w n :
  (forall pr m, migration_plan w !! p = Some pr ->
     migration w !! plan_migration_id pr = Some m -> 0 <= current_epoch m < int64_max ->
     Q (current_epoch m + 1)
       (set_migration (<[plan_migration_id pr := with_epoch (current_epoch m + 1) m]> (migration w)) w) 1) ->
  wp (AcquireBody p) Q w n.
Proof.
  intros HQ. unfold AcquireBody. wp_run.
  apply wp_ReadCurrentEpochForPlan. intros e He Hpos. wp_run. bool_hyps. subst.
  apply select_current_epoch_Some in He as (pr&m&Hpr&Hm&<-).
  match goal with H : update_epoch _ _ _ = _ |- _ =>
    unfold update_epoch in H; rewrite Hpr, Hm in H;
    injection H as <- end.
  rewrite to_int64_id by lia. by apply (HQ pr m).
Qed.

Lemma SameVerifiedReceipt_true a b : SameVerifiedReceipt a b = true <-> a = b.
Proof.
  unfold SameVerifiedReceipt. split.
  - intros H. destruct a, b; simpl in *. bool_hyps. by subst.
  - intros ->. by rewrite !bool_decide_eq_true_2, !Z.eqb_refl by done.
Qed.

Lemma insert_receipt_Some p t a row db db' n :
  insert_receipt_row p t a row db = Some (db', n) ->
  (n = 0 /\ db' = db /\ is_Some (verified_receipt db !! (p, t, a)))
  \/ (n = 1 /\ verified_receipt db !! (p, t, a) = None
      /\ db' = set_verified_receipt (<[(p, t, a) := row]> (verified_receipt db)) db).
Proof.
  unfold insert_receipt_row. split_if; [done|].
  destruct (verified_receipt db !! (p, t, a)) as [r|] eqn:Hr.
  - rewrite bool_decide_eq_true_2 by done. intros [= <- <-]. left. split_and!; [done|done|eauto].
  - rewrite bool_decide_eq_false_2 by (by intros [? ?]). split_if; [done|].
    intros [= <- <-]. by right.
Qed.

Lemma wp_ReadVerifiedReceipt p t a Q w n :
  (forall row r, verified_receipt w !! (p, t, a) = Some row -> receipt_of_row t a row = Ok r ->
     Q r w n) ->
  wp (ReadVerifiedReceipt p t a) Q w n.
Proof.
  intros HQ. unfold ReadVerifiedReceipt, select_receipt. wp_run.
  destruct (verified_receipt w !! (p, t, a)) as [row|] eqn:Hrow; wp_run. by eapply HQ.
Qed.

Lemma wp_PersistBody batched p r sd si Q w n :
  let t := VerifiedReceipt.task_id r in
  let a := VerifiedReceipt.attempt_id r in
  let e := VerifiedReceipt.owner_epoch r in
  wf_db w -> 0 <= e <= int64_max -> batch_current batched p w ->
  (forall row att rrow, select_current_epoch p w = Some e -> owns w p t e a row att ->
     verified_receipt w !! (p, t, a) = Some rrow -> receipt_of_row t a rrow = Ok r -> Q tt w 0) ->
  (forall row att now, select_current_epoch p w = Some e -> owns w p t e a row att ->
     verified_receipt w !! (p, t, a) = None ->
     Q tt (advance a att FileAttemptState.kVerifiedDurable
         (mkEventRow p t "VERIFIED_DURABLE" e a "receipt persisted before publish" now)
         (set_verified_receipt (<[(p, t, a) := row_of_receipt r sd si]> (verified_receipt w)) w)) 1) ->
  wp (PersistBody batched p r sd si) Q w n.
Proof.
  intros t a e Hwf He Hb Hagain Hnew. unfold PersistBody. fold t a e. wp_run.
  apply wp_CurrentEpoch; [done|]. intros cur Hcur. wp_run. bool_hyps. subst cur.
  apply wp_CheckTaskOwnership. intros row owner active Hrow Hown Hact Hst -> Hc. wp_run.
  destruct (ownership_row w p t row _ active a Hwf Hrow Hown Hact Hst Hc) as (att&Howns&_).
  rewrite to_int64_id in Howns by done.
  match goal with H : insert_receipt_row _ _ _ _ _ = _ |- _ =>
    apply insert_receipt_Some in H as [(->&->&Hex)|(->&Hnone&->)] end; simpl.
  - wp_run. apply wp_ReadVerifiedReceipt. intros rrow r' Hr Hok. wp_run.
    match goal with H : SameVerifiedReceipt _ _ = true |- _ =>
      apply SameVerifiedReceipt_true in H as -> end.
    by apply (Hagain row att rrow).
  - wp_run. apply wp_UpdateAttemptState. intros att' fin Hatt' ->.
    rewrite to_int64_id in Hatt' by done.
    change (select_attempt p t a e w = Some att') in Hatt'.
    rewrite (owns_attempt _ _ _ _ _ _ _ Howns) in Hatt'. simplify_eq.
    apply wp_AppendTaskEvent. intros now. rewrite to_int64_id by done. by apply (Hnew row att').
Qed.

(** ** Refinement *)

Lemma claim_epoch_range e a : is_uint64 e -> valid_claim e a -> 0 < e <= int64_max.
Proof. intros [? _] (?&?&_)%valid_claim_facts. lia. Qed.

Lemma no_batch_epoch p : BatchedEpochFor no_batch p = None.
Proof. done. Qed.

Lemma batch_current_None p w : batch_current None p w.
Proof. by intros e [=]. Qed.

(** Steps over a [commits] goal up to its transaction. *)
Ltac commits_run :=
  repeat lazymatch goal with
  | |- commits (bind _ _) _ _ => apply commits_bind
  | |- commits (require _ _) _ _ => apply commits_require; intros ?
  | |- commits (require_ok _) _ _ => apply commits_require_ok; intros ?
  | |- commits (ret _) _ _ => apply commits_ret
  | |- commits (throw _) _ _ => apply commits_throw
  | |- commits (Transaction _) _ _ => apply commits_transaction; intros ?
  end.

Lemma check_plan_id_clean p : ok (check_plan_id p) = true <-> clean_id p.
Proof.
  unfold check_plan_id, clean_id. rewrite <- str_empty_false.
  destruct (str_empty p), (IsNul p); simpl; naive_solver.
Qed.

Lemma commits_FinishTask o p t e a st err db :
  wf_db db -> is_uint64 e -> (forall s, err = Some s -> ok s = false) ->
  completion o = Some (p, t, e, a, st, err) ->
  (st = TaskState.kSucceeded \/ st = TaskState.kRetryable) ->
  valid_ids p t -> valid_claim e a ->
  commits (FinishTask p t e a st err None) (fun _ db' => op_step db o db') db.
Proof.
  intros Hwf Hty Herr Ho Hst Hids Hclaim. pose proof (claim_epoch_range e a Hty Hclaim).
  unfold FinishTask, in_transaction. commits_run.
  apply wp_FinishTaskBody; [lia|apply batch_current_None|done|].
  intros row att fin now Hcur Howns. by eapply step_complete.
Qed.

Lemma commits_AdvanceAttempt o p t e a st name db :
  wf_db db -> is_uint64 e -> advancing o = Some (p, t, e, a, st, name) ->
  valid_ids p t -> valid_claim e a ->
  commits (AdvanceAttempt p t e a st name None) (fun _ db' => op_step db o db') db.
Proof.
  intros Hwf Hty Ho Hids Hclaim. pose proof (claim_epoch_range e a Hty Hclaim).
  unfold AdvanceAttempt, in_transaction. commits_run.
  apply wp_AdvanceAttemptBody; [done|lia|apply batch_current_None|].
  intros row att persisted previous Hcur Howns Hper Hprev.
  destruct (bool_decide_reflect (previous = st)) as [->|].
  - by eapply step_advance_again.
  - intros Hvalid now. by eapply step_advance.
Qed.

Lemma commits_Recover o p t e oe oa r st err name db :
  is_uint64 e -> is_uint64 oe ->
  recovery o = Some (p, t, e, oe, oa, r, st, err, name) ->
  commits (do* check_recovery p t e oe oa r;
           RecoverTask p t e oe oa st (attempt_outcome st) name r err)
    (fun _ db' => op_step db o db') db.
Proof.
  intros Hty Hty' Ho. unfold check_recovery. commits_run.
  match goal with H1 : ok (CheckEpochAttempt e oa) = true, H2 : ok (CheckEpochAttempt oe oa) = true |- _ =>
    pose proof (claim_epoch_range e oa Hty H1); pose proof (claim_epoch_range oe oa Hty' H2) end.
  bool_hyps. unfold RecoverTask. commits_run.
  apply wp_RecoverTaskBody; [lia..|].
  intros row att fin now detail Hcur Howns. eapply step_recover; try done.
  by apply str_empty_false.
Qed.

(** Two operations that are one statement, inside a transaction or alone. *)
Lemma wp_AddTask p t w n :
  0 <= estimated_bytes t -> wp (AddTask p t) (fun _ w' _ => op_step w (OpAddTask p t) w') w n.
Proof.
  intros Hpos. unfold AddTask. wp_run.
  apply (wp_mono _ (fun _ w' _ => w' = w)); [destruct (expected_digest t); by wp_run|].
  intros [] ? n1 ->. wp_run.
  match goal with H : insert_task_row _ _ _ _ = _ |- _ => unfold insert_task_row in H; revert H end.
  split_if; [done|]. intros [= <- <-]. bool_hyps. rewrite to_int64_id by lia. by apply step_add_task.
Qed.

Lemma wp_SetReady p t w n : wp (SetReady p t) (fun _ w' _ => op_step w (OpSetReady p t) w') w n.
Proof.
  unfold SetReady. wp_run. bool_hyps.
  match goal with H : update_ready _ _ _ = _ |- _ => unfold update_ready, update_task in H;
    revert H; destruct (plan_task w !! (p, t)) as [row|] eqn:Hrow; [|by intros [= <- <-]];
    split_if; [|by intros [= <- <-]]; intros [= <- <-] end.
  bool_hyps. apply step_set_ready; try done.
  match goal with H : _ || _ = true |- _ => apply orb_true_iff in H as [?|?]; bool_hyps; auto end.
Qed.

Lemma commits_run_op o db :
  wf_db db -> op_typed o -> commits (run_op o) (fun _ db' => op_step db o db') db.
Proof.
  intros Hwf Hty. destruct o as [p t|p t d|p t|p|p e oa|p t e a|p t e a|p t e a|p t e a err
    |p t e oe oa r|p t e oe oa r|p t e oe oa r|p r]; simpl in *.
  - apply commits_wp. intros n. apply wp_AddTask. apply Hty.
  - unfold AddDependency. apply commits_wp. intros n. wp_run. bool_hyps.
    match goal with H : insert_dependency_row _ _ _ _ = _ |- _ => unfold insert_dependency_row in H;
      revert H; split_if; [by intros [= <- <-]|]; split_if; [done|]; intros [= <- <-] end.
    bool_hyps. apply step_add_dependency; try done.
    match goal with H : select_cycle _ _ _ _ = false |- _ => unfold select_cycle in H;
      apply bool_decide_eq_false in H; by rewrite ancestors_spec in H end.
  - apply commits_wp. intros n. apply wp_SetReady.
  - unfold AcquireNextExecutionEpoch. commits_run.
    apply wp_AcquireBody. intros pr m Hpr Hm He. apply commits_ret. eapply step_acquire; [|done..].
    by apply check_plan_id_clean.
  - unfold ClaimNextReadyImpl. commits_run.
    match goal with H : ok (CheckEpochAttempt _ _) = true |- _ =>
      pose proof (claim_epoch_range e _ Hty H) end.
    apply wp_ClaimBody; [done|lia|]. intros t row now t2 rt a. intros.
    apply commits_ret. by eapply step_claim.
  - unfold MarkCommitIntent. commits_run. by apply commits_AdvanceAttempt.
  - unfold MarkTempWritten. commits_run. by apply commits_AdvanceAttempt.
  - unfold MarkSucceeded. commits_run. apply commits_FinishTask; auto. by intros s [=].
  - unfold MarkRetryable. commits_run. bool_hyps. apply commits_FinishTask; auto.
    by intros s [= <-].
  - destruct Hty. by apply commits_Recover.
  - destruct Hty. by apply commits_Recover.
  - destruct Hty. by apply commits_Recover.
  - destruct Hty as (Hty&Hsz&Hid). unfold PersistVerifiedReceipt. commits_run.
    match goal with H : ok (CheckEpochAttempt _ _) = true |- _ =>
      pose proof (claim_epoch_range _ _ Hty H) end.
    destruct (VerifiedReceipt.source_digest r) as [sd|] eqn:Hsd; [|commits_run].
    destruct (VerifiedReceipt.source_identity r) as [si|] eqn:Hsi; [|commits_run].
    commits_run. unfold in_transaction. rewrite no_batch_epoch. commits_run. bool_hyps.
    apply wp_PersistBody; [done|lia|apply batch_current_None| |].
    + intros row att rrow Hcur Howns Hrow Hr. eapply step_persist_again; try done; by apply str_empty_false.
    + intros row att now Hcur Howns Hnone. eapply step_persist; try done; by apply str_empty_false.
Qed.

(** ** All or nothing *)

#[export] Hint Unfold prepare bind_call BindText BindBlob BindEpoch : sqlite.

Ltac solve_shape :=
  repeat first
    [ apply tolerant_transaction | apply tolerant_or_rollback | apply tolerant_execute
    | apply tolerant_bind; [|intros ?] | apply txn_safe_bind; [|intros ?]
    | apply reads_bind; [|intros ?]
    | apply tolerant_api_call | apply txn_safe_api_call | apply reads_api_call
    | apply tolerant_run_dml | apply txn_safe_run_dml
    | apply tolerant_run_insert | apply txn_safe_run_insert
    | apply tolerant_run_query | apply txn_safe_run_query | apply reads_query
    | apply tolerant_ret | apply txn_safe_ret | apply reads_ret
    | apply tolerant_throw | apply txn_safe_throw | apply reads_throw
    | apply tolerant_lift | apply txn_safe_lift | apply reads_lift
    | apply tolerant_require | apply txn_safe_require | apply reads_require
    | apply tolerant_require_ok | apply txn_safe_require_ok | apply reads_require_ok
    | apply tolerant_changes | apply txn_safe_changes | apply reads_changes
    | apply tolerant_now | apply txn_safe_now | apply reads_now
    | match goal with |- _ (match ?x with _ => _ end) => destruct x end ].

Ltac solve_body d := unfold d; solve_shape.

Lemma tolerant_AppendTaskEvent p t ty e a d : tolerant (AppendTaskEvent p t ty e a d).
Proof. solve_body AppendTaskEvent. Qed.
Lemma txn_safe_AppendTaskEvent p t ty e a d : txn_safe (AppendTaskEvent p t ty e a d).
Proof. solve_body AppendTaskEvent. Qed.
Lemma tolerant_UpdateAttemptState p t a e st r err f : tolerant (UpdateAttemptState p t a e st r err f).
Proof. solve_body UpdateAttemptState. Qed.
Lemma txn_safe_UpdateAttemptState p t a e st r err f : txn_safe (UpdateAttemptState p t a e st r err f).
Proof. solve_body UpdateAttemptState. Qed.
Lemma tolerant_CurrentEpoch b p : tolerant (CurrentEpoch b p).
Proof. unfold CurrentEpoch, ReadCurrentEpochForPlan. solve_shape. Qed.
Lemma txn_safe_CurrentEpoch b p : txn_safe (CurrentEpoch b p).
Proof. unfold CurrentEpoch, ReadCurrentEpochForPlan. solve_shape. Qed.
Lemma tolerant_CheckTaskOwnership p t e a : tolerant (CheckTaskOwnership p t e a).
Proof. solve_body CheckTaskOwnership. Qed.
Lemma txn_safe_CheckTaskOwnership p t e a : txn_safe (CheckTaskOwnership p t e a).
Proof. solve_body CheckTaskOwnership. Qed.
Lemma tolerant_bind_error err c b : tolerant (bind_error err c b).
Proof. solve_body bind_error. Qed.
Lemma txn_safe_bind_error err c b : txn_safe (bind_error err c b).
Proof. solve_body bind_error. Qed.
Lemma tolerant_ReadRuntimeWithStatement p t : tolerant (ReadRuntimeWithStatement p t).
Proof. solve_body ReadRuntimeWithStatement. Qed.
Lemma txn_safe_ReadRuntimeWithStatement p t : txn_safe (ReadRuntimeWithStatement p t).
Proof. solve_body ReadRuntimeWithStatement. Qed.
Lemma tolerant_ReadVerifiedReceipt p t a : tolerant (ReadVerifiedReceipt p t a).
Proof. solve_body ReadVerifiedReceipt. Qed.
Lemma txn_safe_ReadVerifiedReceipt p t a : txn_safe (ReadVerifiedReceipt p t a).
Proof. solve_body ReadVerifiedReceipt. Qed.
Lemma tolerant_ReadCurrentEpochForPlan p : tolerant (ReadCurrentEpochForPlan p).
Proof. solve_body ReadCurrentEpochForPlan. Qed.
Lemma txn_safe_ReadCurrentEpochForPlan p : txn_safe (ReadCurrentEpochForPlan p).
Proof. solve_body ReadCurrentEpochForPlan. Qed.

Ltac solve_op_shape :=
  repeat first
    [ progress solve_shape
    | apply tolerant_AppendTaskEvent | apply txn_safe_AppendTaskEvent
    | apply tolerant_UpdateAttemptState | apply txn_safe_UpdateAttemptState
    | apply tolerant_CurrentEpoch | apply txn_safe_CurrentEpoch
    | apply tolerant_CheckTaskOwnership | apply txn_safe_CheckTaskOwnership
    | apply tolerant_bind_error | apply txn_safe_bind_error
    | apply tolerant_ReadRuntimeWithStatement | apply txn_safe_ReadRuntimeWithStatement
    | apply tolerant_ReadVerifiedReceipt | apply txn_safe_ReadVerifiedReceipt
    | apply tolerant_ReadCurrentEpochForPlan | apply txn_safe_ReadCurrentEpochForPlan ].

Lemma txn_safe_FinishTaskBody p t e a st err b : txn_safe (FinishTaskBody p t e a st err b).
Proof. unfold FinishTaskBody. solve_op_shape. Qed.
Lemma txn_safe_RecoverTaskBody p t e oe oa st ast ty r err :
  txn_safe (RecoverTaskBody p t e oe oa st ast ty r err).
Proof. unfold RecoverTaskBody. solve_op_shape. Qed.
Lemma txn_safe_AdvanceAttemptBody p t e a st ty b : txn_safe (AdvanceAttemptBody p t e a st ty b).
Proof. unfold AdvanceAttemptBody. solve_op_shape. Qed.
Lemma txn_safe_AcquireBody p : txn_safe (AcquireBody p).
Proof. unfold AcquireBody. solve_op_shape. Qed.
Lemma txn_safe_ClaimBody p e oa : txn_safe (ClaimBody p e oa).
Proof. unfold ClaimBody. solve_op_shape. Qed.
Lemma txn_safe_PersistBody b p r sd si : txn_safe (PersistBody b p r sd si).
Proof. unfold PersistBody. solve_op_shape. Qed.

Lemma tolerant_run_op o : tolerant (run_op o).
Proof.
  destruct o; simpl;
    unfold AddTask, AddDependency, SetReady, AcquireNextExecutionEpoch, AcquireBody,
      ClaimNextReadyImpl, ClaimBody, MarkCommitIntent, MarkTempWritten, MarkSucceeded, MarkRetryable,
      RecoverSucceeded, RecoverRetryable, RecoverInconsistent, check_recovery, RecoverTask,
      RecoverTaskBody, FinishTask, FinishTaskBody, AdvanceAttempt, AdvanceAttemptBody,
      PersistVerifiedReceipt, in_transaction;
    rewrite ?no_batch_epoch; try (unfold PersistBody); solve_op_shape.
Qed.

Lemma update_task_unchanged p t c f db db' n :
  update_task p t c f db = Some (db', n) -> negb (n =? 0) = false -> db' = db.
Proof.
  unfold update_task. destruct (plan_task db !! (p, t)) as [row|]; [|by intros [= <- <-]].
  destruct (c row); intros [= <- <-]; done.
Qed.

Lemma atomic_bind_ret {A} (c : op A) : atomic c -> atomic (let* _ := c in ret tt).
Proof.
  intros Hc s Hw. unfold bind. destruct (Hc s Hw). by destruct (c s) as [[a|e] s1].
Qed.

Lemma atomic_FinishTask p t e a st err : atomic (FinishTask p t e a st err None).
Proof. apply atomic_transaction, txn_safe_FinishTaskBody. Qed.
Lemma atomic_AdvanceAttempt p t e a st ty : atomic (AdvanceAttempt p t e a st ty None).
Proof. apply atomic_transaction, txn_safe_AdvanceAttemptBody. Qed.

Lemma atomic_AddTask p t : atomic (AddTask p t).
Proof.
  unfold AddTask. do 12 (apply atomic_bind_reads; [solve_shape|intros ?]).
  apply atomic_run_insert.
Qed.

Lemma atomic_AddDependency p t d : atomic (AddDependency p t d).
Proof.
  unfold AddDependency. do 13 (apply atomic_bind_reads; [solve_shape|intros ?]).
  intros s Hw. rewrite <- bind_assoc. revert s Hw. apply atomic_checked_dml.
  intros w w' n. unfold insert_dependency_row.
  split_if; [by intros [= <- <-]|]. split_if; [done|]. by intros [= <- <-].
Qed.

Lemma atomic_SetReady p t : atomic (SetReady p t).
Proof.
  unfold SetReady. do 8 (apply atomic_bind_reads; [solve_shape|intros ?]).
  intros s Hw. rewrite <- bind_assoc. revert s Hw. apply atomic_checked_dml.
  intros w w' n. apply update_task_unchanged.
Qed.

(** Guards, then one transaction. *)
Ltac solve_atomic :=
  repeat (apply atomic_bind_reads; [solve [solve_shape]|intros ?]);
  try match goal with |- atomic (match ?x with _ => _ end) => destruct x end;
  try match goal with |- atomic (match ?x with _ => _ end) => destruct x end;
  repeat (apply atomic_bind_reads; [solve [solve_shape]|intros ?]);
  try (apply reads_atomic; solve [solve_shape]).

Lemma atomic_run_op o : atomic (run_op o).
Proof.
  destruct o; simpl.
  - apply atomic_AddTask.
  - apply atomic_AddDependency.
  - apply atomic_SetReady.
  - apply atomic_bind_ret. unfold AcquireNextExecutionEpoch. solve_atomic.
    apply atomic_transaction, txn_safe_AcquireBody.
  - apply atomic_bind_ret. unfold ClaimNextReadyImpl. solve_atomic.
    apply atomic_transaction, txn_safe_ClaimBody.
  - unfold MarkCommitIntent. solve_atomic. apply atomic_AdvanceAttempt.
  - unfold MarkTempWritten. solve_atomic. apply atomic_AdvanceAttempt.
  - unfold MarkSucceeded. solve_atomic. apply atomic_FinishTask.
  - unfold MarkRetryable. solve_atomic. apply atomic_FinishTask.
  - unfold RecoverSucceeded, check_recovery. solve_atomic. apply atomic_transaction, txn_safe_RecoverTaskBody.
  - unfold RecoverRetryable, check_recovery. solve_atomic. apply atomic_transaction, txn_safe_RecoverTaskBody.
  - unfold RecoverInconsistent, check_recovery. solve_atomic. apply atomic_transaction, txn_safe_RecoverTaskBody.
  - unfold PersistVerifiedReceipt. solve_atomic. apply atomic_transaction, txn_safe_PersistBody.
Qed.
