(* ===== verification/RepositoryInvariant.v ===== *)
(** * RepositoryInvariant: every step keeps the database well-formed

    Preservation of [wf_db] by the abstract steps, one lemma per effect, and
    the facts about tasks, attempts and epochs the properties use. *)

From stdpp Require Import pretty.
From S2P Require Import Prelude Status Bytes RelativePath Task Reconciler Sqlite Logic Tables TaskRepository RepositorySpec RepositoryRefine.

(** ** Lookups after row updates *)

Lemma task_updated_lookup p t row db q u :
  plan_task (task_updated p t row db) !! (q, u) =
  if decide ((p, t) = (q, u)) then Some row else plan_task db !! (q, u).
Proof.
  unfold task_updated. simpl. destruct (decide _) as [<-|Hne].
  - by rewrite lookup_insert_eq.
  - by rewrite lookup_insert_ne.
Qed.

Lemma attempt_updated_lookup a att db b :
  task_attempt (attempt_updated a att db) !! b =
  if decide (a = b) then Some att else task_attempt db !! b.
Proof.
  unfold attempt_updated. simpl. destruct (decide _) as [<-|Hne].
  - by rewrite lookup_insert_eq.
  - by rewrite lookup_insert_ne.
Qed.

(** An update that keeps the attempt's plan, task and epoch. *)
Lemma select_attempt_updated p t b e a att att' db :
  task_attempt db !! a = Some att ->
  att_plan_id att' = att_plan_id att -> att_task_id att' = att_task_id att ->
  att_owner_epoch att' = att_owner_epoch att ->
  select_attempt p t b e (attempt_updated a att' db) =
  match select_attempt p t b e db with
  | Some x => Some (if decide (a = b) then att' else x)
  | None => None
  end.
Proof.
  intros Ha H1 H2 H3. unfold select_attempt. rewrite attempt_updated_lookup.
  destruct (decide (a = b)) as [<-|Hne].
  - rewrite Ha. simpl. unfold attempt_matches. rewrite H1, H2, H3. by split_if.
  - destruct (task_attempt db !! b); simpl; [|done]. by split_if.
Qed.

Lemma event_appended_in ev x db :
  x ∈ task_event (event_appended ev db) <-> x ∈ task_event db \/ x = ev.
Proof. unfold event_appended. simpl. rewrite elem_of_app, list_elem_of_singleton. done. Qed.

(** The parts of a database the row invariants read. *)
Lemma wf_task_frame db db' p t row :
  (forall q, is_Some (select_current_epoch q db) -> is_Some (select_current_epoch q db')) ->
  (forall a e att, row_active_attempt_id row = Some a -> select_attempt p t a e db = Some att ->
     att_result att = None ->
     exists att', select_attempt p t a e db' = Some att' /\ att_result att' = None) ->
  wf_task db p t row -> wf_task db' p t row.
Proof.
  intros Hplan Hatt [H1 H2 H3 (st&Hst&Hlive) H5 H6]. split; auto.
  exists st. split; [done|]. destruct st; try done.
  destruct Hlive as (e&a&att&He&Ha&Hsel&Hres).
  destruct (Hatt a e att Ha Hsel Hres) as (att'&?&?). exists e, a, att'. done.
Qed.

Lemma wf_attempt_frame db db' a att :
  (forall ep, select_current_epoch (att_plan_id att) db = Some ep ->
     exists ep', select_current_epoch (att_plan_id att) db' = Some ep' /\ ep <= ep') ->
  (forall row, plan_task db !! (att_plan_id att, att_task_id att) = Some row ->
     exists row', plan_task db' !! (att_plan_id att, att_task_id att) = Some row' /\
       (att_result att = None -> owned_by (att_owner_epoch att) a row = true ->
          owned_by (att_owner_epoch att) a row' = true)) ->
  (forall k, is_Some (verified_receipt db !! k) -> is_Some (verified_receipt db' !! k)) ->
  wf_attempt db a att -> wf_attempt db' a att.
Proof.
  intros Hplan Hrow Hrec [H1 (ep&Hep&?) (row&Hlk&Hst) H4]. split; auto.
  - destruct (Hplan ep Hep) as (ep'&?&?). exists ep'. split; [done|lia].
  - destruct (Hrow row Hlk) as (row'&?&Hown). exists row'. split; [done|].
    destruct (att_result att); [done|]. destruct Hst as (?&?&?). auto.
Qed.

(** The attempt behind a running row, and the row behind a live attempt. *)
Lemma owns_facts db p t e a row att :
  wf_db db -> owns db p t e a row att ->
  row_owner_epoch row = Some e /\ row_active_attempt_id row = Some a
  /\ row_state row = to_int TaskState.kRunning
  /\ task_attempt db !! a = Some att /\ att_plan_id att = p /\ att_task_id att = t
  /\ att_owner_epoch att = e /\ att_result att = None.
Proof.
  intros Hwf [Hrow Hown Hatt]. apply owned_by_true in Hown as (He&Ha&Hst).
  pose proof Hatt as Hsel. apply select_attempt_Some in Hatt as (?&?&?&?).
  destruct (wf_tasks db Hwf _ _ _ Hrow) as [_ _ _ (st&Heq&Hlive) _ _].
  rewrite Heq in Hst. apply to_int_inj in Hst as ->.
  destruct Hlive as (e'&a'&att'&?&?&?&?). split_and!; congruence.
Qed.

Lemma released_error st err (row : TaskRow) :
  (forall s, err = Some s -> ok s = false) ->
  match row_last_error_code (released row st err), row_last_error_message (released row st err) with
  | None, None => True
  | Some c, Some m => exists sc, sc <> StatusCode.kOk /\ c = to_int sc
  | _, _ => False
  end.
Proof.
  intros Herr. destruct err as [s|]; [|done]. simpl. exists (code s). split; [|done].
  specialize (Herr s eq_refl). unfold ok in Herr. by bool_hyps.
Qed.

(** ** Preservation, effect by effect *)

Lemma wf_settle db p t e a row att st err fin ty oe d now :
  wf_db db -> owns db p t e a row att -> final_state st = true ->
  (forall s, err = Some s -> ok s = false) ->
  wf_db (settle p t a row att st (attempt_outcome st) err fin (mkEventRow p t ty oe a d now) db).
Proof.
  intros Hwf Howns Hfinal Herr.
  destruct (owns_facts db p t e a row att Hwf Howns) as (He&Ha&Hrun&Hat&<-&<-&<-&Hres).
  pose proof (owns_row _ _ _ _ _ _ _ Howns) as Hrow.
  assert (forall q u, has_task q u db = true ->
    has_task q u (task_updated (att_plan_id att) (att_task_id att) (released row st err) db) = true) as Hhas
    by (intros; by apply has_task_updated).
  split.
  - apply (wf_plans db Hwf).
  - apply (wf_epochs db Hwf).
  - intros q u r Hr.
    change (plan_task (task_updated (att_plan_id att) (att_task_id att) (released row st err) db) !! (q, u)
      = Some r) in Hr. rewrite task_updated_lookup in Hr.
    destruct (decide _) as [Heq|Hne].
    + simplify_eq. destruct (wf_tasks db Hwf _ _ _ Hrow). split; try done.
      * exists st. split; [done|]. by destruct st.
      * by apply released_error.
    + apply (wf_task_frame db); [done| |by apply (wf_tasks db Hwf)].
      intros b e' x Hb Hsel Hx.
      change (exists att', select_attempt q u b e' (attempt_updated a
        (attempt_in att (attempt_outcome st) (Some fin) (Some st) err) db) = Some att'
        /\ att_result att' = None).
      rewrite (select_attempt_updated _ _ _ _ _ _ _ _ Hat), Hsel by done.
      destruct (decide (a = b)) as [<-|]; [|eauto].
      apply select_attempt_Some in Hsel as (?&?&?&?). simplify_eq.
  - intros q u1 u2 r1 r2 H1 H2 Hkey.
    change (plan_task (task_updated (att_plan_id att) (att_task_id att) (released row st err) db) !! (q, u1)
      = Some r1) in H1.
    change (plan_task (task_updated (att_plan_id att) (att_task_id att) (released row st err) db) !! (q, u2)
      = Some r2) in H2.
    rewrite task_updated_lookup in H1, H2.
    destruct (decide _), (decide _); simplify_eq; try done;
      eapply (wf_task_keys db Hwf); by eauto.
  - intros q u d0 Hd. destruct (wf_dependencies db Hwf q u d0 Hd).
    split; by apply Hhas.
  - apply (wf_acyclic db Hwf).
  - intros b x Hx.
    change (task_attempt (attempt_updated a
        (attempt_in att (attempt_outcome st) (Some fin) (Some st) err) db) !! b = Some x) in Hx.
    rewrite attempt_updated_lookup in Hx. destruct (decide (a = b)) as [<-|Hne].
    + injection Hx as <-. destruct (wf_attempts db Hwf _ _ Hat) as [? ? _ _]. split; try done.
      * exists (released row st err). split; [by apply lookup_insert_eq|].
        simpl. split; [eauto|]. exists st. done.
      * intros Hst. apply (inj Some) in Hst. apply to_int_inj in Hst. by destruct st.
    + apply (wf_attempt_frame db); [by intros ep; exists ep| |done|by apply (wf_attempts db Hwf)].
      intros r Hr.
      change (exists r', plan_task (task_updated (att_plan_id att) (att_task_id att) (released row st err) db)
        !! (att_plan_id x, att_task_id x) = Some r' /\ (att_result x = None ->
        owned_by (att_owner_epoch x) b r = true -> owned_by (att_owner_epoch x) b r' = true)).
      rewrite task_updated_lookup. destruct (decide _) as [Heq|]; [|by eauto].
      eexists. split; [done|]. intros _ (?&?&?)%owned_by_true.
      rewrite <- Heq, Hrow in Hr. congruence.
  - intros q u b r Hr. destruct (wf_receipts db Hwf _ _ _ _ Hr) as [(x&Hsel) ? ? ? ? ?]. split; try done.
    change (exists att', select_attempt q u b (rc_owner_epoch r) (attempt_updated a
        (attempt_in att (attempt_outcome st) (Some fin) (Some st) err) db) = Some att').
    rewrite (select_attempt_updated _ _ _ _ _ _ _ _ Hat), Hsel by done. eauto.
  - intros ev [Hev| ->]%event_appended_in; [|by eapply has_task_Some, lookup_insert_eq].
    apply Hhas. by apply (wf_events db Hwf).
Qed.

(** A live attempt moves to another live file state. *)
Lemma wf_advance db p t e a row att st ty d now :
  wf_db db -> owns db p t e a row att -> live_state st = true ->
  (st = FileAttemptState.kVerifiedDurable -> is_Some (verified_receipt db !! (p, t, a))) ->
  wf_db (advance a att st (mkEventRow p t ty e a d now) db).
Proof.
  intros Hwf Howns Hlive Hrec.
  destruct (owns_facts db p t e a row att Hwf Howns) as (He&Ha&Hrun&Hat&<-&<-&<-&Hres).
  pose proof (owns_row _ _ _ _ _ _ _ Howns) as Hrow.
  assert (forall q u b e', select_attempt q u b e' (attempt_updated a (attempt_in att st None None None) db)
    = match select_attempt q u b e' db with
      | Some x => Some (if decide (a = b) then attempt_in att st None None None else x)
      | None => None end) as Hsel by (intros; by apply (select_attempt_updated _ _ _ _ _ att)).
  split.
  - apply (wf_plans db Hwf).
  - apply (wf_epochs db Hwf).
  - intros q u r Hr. apply (wf_task_frame db); [done| |by apply (wf_tasks db Hwf)].
    intros b e' x Hb Hx Hnone. specialize (Hsel q u b e'). rewrite Hx in Hsel.
    eexists. split; [exact Hsel|]. by destruct (decide (a = b)).
  - apply (wf_task_keys db Hwf).
  - apply (wf_dependencies db Hwf).
  - apply (wf_acyclic db Hwf).
  - intros b x Hx.
    change (task_attempt (attempt_updated a (attempt_in att st None None None) db) !! b = Some x) in Hx.
    rewrite attempt_updated_lookup in Hx. destruct (decide (a = b)) as [<-|Hne].
    + injection Hx as <-. destruct (wf_attempts db Hwf _ _ Hat) as [? ? _ _]. split; try done.
      * exists row. split; [done|]. simpl. split_and!; [done| |eauto].
        by apply owned_by_true.
      * simpl. intros [= Hst%to_int_inj]. by apply Hrec.
    + apply (wf_attempt_frame db); [by intros ep; exists ep|by eauto|done|by apply (wf_attempts db Hwf)].
  - intros q u b r Hr. destruct (wf_receipts db Hwf _ _ _ _ Hr) as [(x&Hx) ? ? ? ? ?]. split; try done.
    specialize (Hsel q u b (rc_owner_epoch r)). rewrite Hx in Hsel. eauto.
  - intros ev [Hev| ->]%event_appended_in; [by apply (wf_events db Hwf)|].
    by eapply has_task_Some.
Qed.

(** A receipt for the current owner is recorded. *)
Lemma EncodeIdentity_length i : String.length (EncodeIdentity i) = 49%nat.
Proof. unfold EncodeIdentity. rewrite !str_length_app, !le64_length. by destruct (FileIdentity.mount_id i). Qed.

Lemma wf_receipt_inserted db p r sd si row att :
  let t := VerifiedReceipt.task_id r in
  let a := VerifiedReceipt.attempt_id r in
  let e := VerifiedReceipt.owner_epoch r in
  wf_db db -> owns db p t e a row att -> 0 < e <= int64_max -> wf_identity si ->
  VerifiedReceipt.temp_path r <> "" -> VerifiedReceipt.final_path r <> "" ->
  0 <= VerifiedReceipt.content_size r <= int64_max ->
  wf_db (set_verified_receipt (<[(p, t, a) := row_of_receipt r sd si]> (verified_receipt db)) db).
Proof.
  intros t a e Hwf Howns He Hsi Htemp Hfinal Hsize. split; try apply Hwf.
  - intros q u rw Hr. apply (wf_task_frame db); [done| |by apply (wf_tasks db Hwf)]. by eauto.
  - intros b x Hx. apply (wf_attempt_frame db); [by intros ep; exists ep|by eauto| |by apply (wf_attempts db Hwf)].
    intros k [v Hk]. simpl. destruct (decide ((p, t, a) = k)) as [<-|].
    + rewrite lookup_insert_eq. eauto.
    + rewrite lookup_insert_ne by done. eauto.
  - simpl. intros q u b rw Hr. apply lookup_insert_Some in Hr as [[Heq <-]|[Hne Hr]].
    + injection Heq as <- <- <-. split; simpl; rewrite ?to_int64_id by lia; try done; try lia.
      * exists att. apply (owns_attempt _ _ _ _ _ _ _ Howns).
      * unfold str_size. by rewrite !Digest_length.
      * eauto.
    + by destruct (wf_receipts db Hwf _ _ _ _ Hr); split.
Qed.

(** A row that is not running is written over one that was not running. *)
Lemma wf_row_written db p t row :
  wf_db db -> wf_task db p t row -> row_state row <> to_int TaskState.kRunning ->
  (forall old, plan_task db !! (p, t) = Some old ->
     row_state old <> to_int TaskState.kRunning /\ row_task_key row = row_task_key old) ->
  (plan_task db !! (p, t) = None -> task_key_used p (row_task_key row) db = false) ->
  wf_db (task_updated p t row db).
Proof.
  intros Hwf Hrow Hnot Hold Hnew.
  assert (forall q u r, plan_task db !! (q, u) = Some r -> row_task_key r = row_task_key row ->
    p = q -> t <> u -> False) as Hkeys.
  { intros q u r Hr Hkey <- Hne. destruct (plan_task db !! (p, t)) as [old|] eqn:Ho.
    - destruct (Hold old eq_refl) as [_ Hk]. apply Hne. eapply (wf_task_keys db Hwf); eauto. congruence.
    - specialize (Hnew eq_refl). unfold task_key_used in Hnew.
      apply not_true_iff_false in Hnew. apply Hnew, existsb_exists.
      exists ((p, u), r). split; [by apply list_elem_of_In, elem_of_map_to_list|].
      simpl. by rewrite !bool_decide_eq_true_2. }
  split; [apply (wf_plans db Hwf)|apply (wf_epochs db Hwf)| | | |apply (wf_acyclic db Hwf)| | |].
  - intros q u r Hr. rewrite task_updated_lookup in Hr. destruct (decide _) as [Heq|Hne].
    + simplify_eq. by apply (wf_task_frame db); eauto.
    + apply (wf_task_frame db); [done|by eauto|by apply (wf_tasks db Hwf)].
  - intros q u1 u2 r1 r2 H1 H2 Hkey. rewrite task_updated_lookup in H1, H2.
    destruct (decide ((p, t) = (q, u1))) as [E1|E1], (decide ((p, t) = (q, u2))) as [E2|E2];
      simplify_eq; [done| | |by eapply (wf_task_keys db Hwf)].
    + exfalso. eapply (Hkeys q u2); [done|done|done|]. intros ->. done.
    + exfalso. eapply (Hkeys q u1); [done|done|done|]. intros ->. done.
  - intros q u d Hd. destruct (wf_dependencies db Hwf q u d Hd). split; by apply has_task_updated.
  - intros b x Hx. apply (wf_attempt_frame db); [by intros ep; exists ep| |done|by apply (wf_attempts db Hwf)].
    intros r Hr. rewrite task_updated_lookup. destruct (decide _) as [Heq|]; [|by eauto].
    exists row. split; [done|]. intros _ (_&_&Hrun)%owned_by_true. rewrite <- Heq in Hr.
    by destruct (Hold r Hr).
  - intros q u b r Hr. by destruct (wf_receipts db Hwf _ _ _ _ Hr); split.
  - intros ev Hev. apply has_task_updated. by apply (wf_events db Hwf).
Qed.

(** A ready task starts running under a fresh attempt. *)
Lemma wf_claimed db p t e a row now :
  wf_db db -> plan_task db !! (p, t) = Some row -> row_state row = to_int TaskState.kReady ->
  select_current_epoch p db = Some e -> 0 < e -> clean_id a -> has_attempt a db = false ->
  0 <= row_attempt_count row < uint32_max ->
  wf_db (attempt_updated a
    (mkAttemptRow p t e (Some (to_int FileAttemptState.kRunning)) now None None None None)
    (task_updated p t (claimed row e a) db)).
Proof.
  intros Hwf Hrow Hready Hcur He Hclean Hfresh Hcount.
  apply bool_decide_eq_false in Hfresh. apply eq_None_not_Some in Hfresh.
  set (att := mkAttemptRow _ _ _ _ _ _ _ _ _). set (db' := attempt_updated a att _).
  assert (forall q u b e' x, select_attempt q u b e' db = Some x ->
    select_attempt q u b e' db' = Some x) as Hsel.
  { intros q u b e' x (Hx&?)%select_attempt_Some. apply select_attempt_Some.
    split; [|done]. unfold db'. rewrite attempt_updated_lookup.
    destruct (decide (a = b)) as [<-|]; [|done]. congruence. }
  assert (select_attempt p t a e db' = Some att) as Hself.
  { apply select_attempt_Some. unfold db'. rewrite attempt_updated_lookup.
    by destruct (decide (a = a)). }
  assert (forall q u, plan_task db' !! (q, u) =
    if decide ((p, t) = (q, u)) then Some (claimed row e a) else plan_task db !! (q, u)) as Hlk
    by (intros; apply task_updated_lookup).
  assert (forall q u, has_task q u db = true -> has_task q u db' = true) as Hhas
    by (intros q u Hq; by apply (has_task_updated p t (claimed row e a)) in Hq).
  split; [apply (wf_plans db Hwf)|apply (wf_epochs db Hwf)| | | |apply (wf_acyclic db Hwf)| | |].
  - intros q u r Hr. rewrite Hlk in Hr. destruct (decide _) as [Heq|Hne].
    + simplify_eq. destruct (wf_tasks db Hwf _ _ _ Hrow). split; try done; [|simpl; lia].
      exists TaskState.kRunning. split; [done|]. by exists e, a, att.
    + apply (wf_task_frame db); [done| |by apply (wf_tasks db Hwf)]. intros b e' x Hb Hx ?. eauto.
  - intros q u1 u2 r1 r2 H1 H2 Hkey. rewrite Hlk in H1, H2.
    destruct (decide _), (decide _); simplify_eq; try done; eapply (wf_task_keys db Hwf); by eauto.
  - intros q u d Hd. destruct (wf_dependencies db Hwf q u d Hd). auto.
  - intros b x Hx. unfold db' in Hx. rewrite attempt_updated_lookup in Hx.
    destruct (decide (a = b)) as [<-|Hne].
    + injection Hx as <-. split; [done|exists e; split; [done|simpl; lia]| |by intros [= ?%to_int_inj]].
      exists (claimed row e a). split; [by rewrite Hlk, decide_True|]. simpl.
      split_and!; [done| |by exists FileAttemptState.kRunning]. by apply owned_by_true.
    + apply (wf_attempt_frame db); [by intros ep; exists ep| |done|by apply (wf_attempts db Hwf)].
      intros r Hr. rewrite Hlk. destruct (decide _) as [Heq|]; [|by eauto].
      eexists; split; [done|]. intros _ (_&_&Hrun)%owned_by_true. rewrite <- Heq, Hrow in Hr.
      simplify_eq. rewrite Hready in Hrun. by apply to_int_inj in Hrun.
  - intros q u b r Hr. destruct (wf_receipts db Hwf _ _ _ _ Hr) as [(x&Hx) ? ? ? ? ?]. split; try done.
    exists x. by apply Hsel.
  - intros ev Hev. apply Hhas. by apply (wf_events db Hwf).
Qed.

Lemma wf_event_appended db ev :
  wf_db db -> has_task (ev_plan_id ev) (ev_task_id ev) db = true -> wf_db (event_appended ev db).
Proof.
  intros Hwf Hev. destruct Hwf as [H1 H2 H3 H4 H5 H6 H7 H8 H9]. split; try done.
  - intros p t row Hr. destruct (H3 p t row Hr). by split.
  - intros a att Hx. destruct (H7 a att Hx). by split.
  - intros p t a r Hr. destruct (H8 p t a r Hr). by split.
  - intros x [?| ->]%event_appended_in; [by apply H9|done].
Qed.

(** The epoch of one migration grows. *)
Lemma epoch_updated_lookup db m r e q :
  select_current_epoch q (set_migration (<[m := with_epoch e r]> (migration db)) db) =
  match migration_plan db !! q with
  | Some pr => if decide (m = plan_migration_id pr) then Some e else select_current_epoch q db
  | None => None
  end.
Proof.
  unfold select_current_epoch. simpl. destruct (migration_plan db !! q) as [pr|]; simpl; [|done].
  destruct (decide (m = plan_migration_id pr)) as [->|].
  - by rewrite lookup_insert_eq.
  - by rewrite lookup_insert_ne.
Qed.

Lemma wf_acquired db p pr m :
  wf_db db -> migration_plan db !! p = Some pr ->
  migration db !! plan_migration_id pr = Some m -> 0 <= current_epoch m < int64_max ->
  wf_db (set_migration (<[plan_migration_id pr := with_epoch (current_epoch m + 1) m]> (migration db)) db).
Proof.
  intros Hwf Hpr Hm He. set (db' := set_migration _ db).
  assert (forall q ep, select_current_epoch q db = Some ep ->
    exists ep', select_current_epoch q db' = Some ep' /\ ep <= ep') as Hup.
  { intros q ep Hq. unfold db'. rewrite epoch_updated_lookup.
    pose proof Hq as (prq&mq&Hprq&Hmq&Heq)%select_current_epoch_Some. rewrite Hprq.
    destruct (decide _) as [Hid|]; [|eexists; by split].
    rewrite <- Hid, Hm in Hmq. simplify_eq. eexists. split; [reflexivity|simpl; lia]. }
  split; [| | |apply (wf_task_keys db Hwf)|apply (wf_dependencies db Hwf)|apply (wf_acyclic db Hwf)| | |apply (wf_events db Hwf)].
  - intros q prq Hq. simpl. destruct (decide (plan_migration_id pr = plan_migration_id prq)) as [->|].
    + rewrite lookup_insert_eq. eauto.
    + rewrite lookup_insert_ne by done. by apply (wf_plans db Hwf q).
  - simpl. intros k r [[<- <-]|[_ Hr]]%lookup_insert_Some; [simpl; lia|by eapply (wf_epochs db Hwf)].
  - intros q u r Hr. apply (wf_task_frame db); [|by eauto|by apply (wf_tasks db Hwf)].
    intros x [ep Hx]. destruct (Hup x ep Hx) as (ep'&?&_). eauto.
  - intros b x Hx. apply (wf_attempt_frame db); [apply Hup|by eauto|done|by apply (wf_attempts db Hwf)].
  - intros q u b r Hr. by destruct (wf_receipts db Hwf _ _ _ _ Hr); split.
Qed.

(** A new edge whose target does not reach its source closes no cycle. *)
Lemma tc_edge_added (R R' : string -> string -> Prop) t d :
  (forall x y, R' x y <-> R x y \/ (x = t /\ y = d)) ->
  forall x y, tc R' x y -> tc R x y \/ (rtc R x t /\ rtc R d y).
Proof.
  intros HR x y Hxy. induction Hxy as [x y Hxy|x y z Hxy Hyz IH].
  - apply HR in Hxy as [?|[-> ->]]; [left; by apply tc_once|right; split; apply rtc_refl].
  - apply HR in Hxy as [Hxy|[-> ->]].
    + destruct IH as [IH|[IH1 IH2]].
      * left. by eapply tc_l.
      * right. split; [by eapply rtc_l|done].
    + right. split; [apply rtc_refl|]. destruct IH as [IH|[_ IH]]; [by apply tc_rtc|done].
Qed.

Lemma wf_dependency_added db p t d :
  wf_db db -> has_task p t db = true -> has_task p d db = true -> ~ rtc (depends db p) d t ->
  wf_db (set_task_dependency ({[(p, t, d)]} ∪ task_dependency db) db).
Proof.
  intros Hwf Ht Hd Hnot. set (db' := set_task_dependency _ db).
  assert (forall q x y, depends db' q x y <-> depends db q x y \/ (q = p /\ x = t /\ y = d)) as Hdep.
  { intros q x y. unfold depends, db'. simpl. set_solver. }
  split; [apply (wf_plans db Hwf)|apply (wf_epochs db Hwf)| |apply (wf_task_keys db Hwf)| | | | |apply (wf_events db Hwf)].
  - intros q u r Hr. by destruct (wf_tasks db Hwf _ _ _ Hr); split.
  - intros q u x [Hq|(->&->&->)]%Hdep; [by apply (wf_dependencies db Hwf)|done].
  - intros q x Hx. destruct (decide (q = p)) as [->|Hne].
    + apply (tc_edge_added (depends db p) _ t d) in Hx; [|intros; rewrite Hdep; naive_solver].
      destruct Hx as [Hx|[H1 H2]]; [by apply (wf_acyclic db Hwf p x)|].
      apply Hnot. by transitivity x.
    + apply (wf_acyclic db Hwf q x).
      refine (tc_congruence (fun u => u) (depends db q) x x _ Hx).
      intros u v [?|(?&_)]%Hdep; [done|congruence].
  - intros b x Hx. by destruct (wf_attempts db Hwf _ _ Hx); split.
  - intros q u b r Hr. by destruct (wf_receipts db Hwf _ _ _ _ Hr); split.
Qed.

(** ** Attempt ids are well-formed *)

Lemma pretty_N_go_contains c x s :
  (forall d, pretty_N_char d <> c) -> str_contains c (pretty_N_go x s) = str_contains c s.
Proof.
  intros Hc. revert s. induction (N.lt_wf_0 x) as [x _ IH]; intros s.
  assert (x = 0 \/ 0 < x)%N as [->|?] by lia; [done|].
  rewrite pretty_N_go_step by done. rewrite IH by (by apply N.div_lt). simpl.
  specialize (Hc (x mod 10)%N). by apply Ascii.eqb_neq in Hc as ->.
Qed.

Lemma pretty_Z_clean (z : Z) : IsNul (pretty z) = false.
Proof.
  assert (forall d, pretty_N_char d <> NUL) as Hd by (intros d; unfold pretty_N_char; by repeat case_match).
  unfold IsNul. destruct z as [|x|x]; [done|exact (pretty_N_go_contains _ _ _ Hd)|].
  exact (pretty_N_go_contains _ _ _ Hd).
Qed.

Lemma generated_attempt_id_clean p t n :
  clean_id p -> clean_id t -> clean_id (generated_attempt_id p t n).
Proof.
  intros [_ Hp] [_ Ht]. unfold clean_id, generated_attempt_id, IsNul in *. split; [done|].
  rewrite !str_contains_app, Hp, Ht. apply pretty_Z_clean.
Qed.

(** ** The invariant *)

Lemma advancing_live o p t e a st name :
  advancing o = Some (p, t, e, a, st, name) ->
  live_state st = true /\ st <> FileAttemptState.kVerifiedDurable.
Proof. destruct o; simpl; intros ?; by simplify_eq. Qed.

Lemma completion_final o p t e a st err :
  completion o = Some (p, t, e, a, st, err) -> final_state st = true.
Proof. destruct o; simpl; intros ?; by simplify_eq. Qed.

Lemma recovery_final o p t e oe oa r st err name :
  recovery o = Some (p, t, e, oe, oa, r, st, err, name) ->
  final_state st = true /\ forall s, err = Some s -> ok s = false.
Proof. destruct o; simpl; intros ?; simplify_eq; split; try done; by intros s [= <-]. Qed.

Lemma wf_step db o db' : wf_db db -> op_typed o -> op_step db o db' -> wf_db db'.
Proof.
  intros Hwf Hty Hstep. destruct Hstep as
    [p t Hids Hspec Hsize Hnew Hkey Hplan | p t d Hids1 Hids2 Hne Hreach Ht Hd Hnew
    | p t row Hids Hrow Hst Hdeps | p pr m Hp Hpr Hm He
    | p e oa t row now t2 Hids Hclaim Hcur Hleast Hc Hrow Hready Hdeps Hact Hcount a Hfresh
    | o p t e a st name row att prev per now Ho Hids Hclaim Hcur Howns Hper Hprev Hvalid
    | o p t e a st name row att per Ho Hids Hclaim Hcur Howns Hper Hprev
    | o p t e a st err row att fin now Ho Hids Hclaim Herr Hcur Howns
    | o p t e oe oa r st err name row att fin now detail Ho Hids Hclaim Hclaim' Hr Hcur Howns
    | p r sd si row att now t a e Hids Hclaim Hsd Hsi Htemp Hfin Hsize Hcur Howns Hnone
    | p r sd si row att rrow t a e Hids Hclaim Hsd Hsi Htemp Hfin Hsize Hcur Howns Hrow Hok ]; try done.
  - apply valid_ids_clean in Hids as [Hp Ht].
    apply bool_decide_eq_false in Hnew. apply eq_None_not_Some in Hnew.
    apply bool_decide_eq_true in Hplan as [pr Hpr].
    apply wf_row_written; [done| |by intros ?%to_int_inj|by rewrite Hnew|done].
    destruct (wf_plans db Hwf p pr Hpr) as [m Hm].
    split; try done; [|by exists TaskState.kPlanned].
    exists (current_epoch m). apply select_current_epoch_Some. eauto.
  - by apply wf_dependency_added.
  - apply wf_row_written; try done.
    + destruct (wf_tasks db Hwf _ _ _ Hrow). split; try done. by exists TaskState.kReady.
    + intros old Hold. rewrite Hrow in Hold. injection Hold as <-. split; [|done].
      intros Heq. rewrite Heq in Hst. by destruct Hst as [?%to_int_inj|?%to_int_inj].
    + by rewrite Hrow.
  - by eapply wf_acquired.
  - pose proof (claim_epoch_range _ _ Hty Hclaim). apply valid_claim_facts in Hclaim as (_&_&Ha).
    destruct (wf_tasks db Hwf _ _ _ Hrow) as [Hp Htid _ _ _ _].
    apply wf_event_appended.
    + apply wf_claimed; try done; [lia|]. unfold a. destruct oa; [done|].
      by apply generated_attempt_id_clean.
    + eapply has_task_Some. apply lookup_insert_eq.
  - apply advancing_live in Ho as [Hlive Hnd]. by eapply wf_advance.
  - apply wf_settle with e; try done. by eapply completion_final.
  - apply recovery_final in Ho as [Hfinal Herr]. by apply wf_settle with oe.
  - destruct Hty as (Hty&Hsz&Hid). pose proof (claim_epoch_range _ _ Hty Hclaim).
    eapply wf_advance; [|split; apply Howns|done|].
    + eapply wf_receipt_inserted; eauto. destruct Hsz; lia.
    + intros _. simpl. rewrite lookup_insert_eq. eauto.
Qed.
