(* ===== verification/RepositoryTotal.v ===== *)
(** * RepositoryTotal: enabled steps succeed

    The converse of the refinement: on a connection whose calls do not fail,
    an operation whose abstract step is enabled reports success.  Together
    with RepositoryRefine.v it makes the abstract specification exact. *)

From stdpp Require Import pretty.
From S2P Require Import Prelude Status Bytes RelativePath Task Reconciler Sqlite Logic Tables TaskRepository RepositorySpec RepositoryRefine RepositoryInvariant.

(** A guard evaluated in place. *)
Ltac check_guard := first [apply twp_require | apply twp_require_ok].

Lemma twp_AppendTaskEvent p t ty e a d Q w n :
  has_task p t w = true ->
  (forall now, Q tt (event_appended (mkEventRow p t ty (to_int64 e) a d now) w) 1) ->
  twp (AppendTaskEvent p t ty e a d) Q w n.
Proof.
  intros Ht HQ. unfold AppendTaskEvent. twp_run.
  eapply twp_dml; [|apply HQ]. unfold insert_event_row. simpl. by rewrite Ht.
Qed.

Lemma twp_UpdateAttemptState p t a e st res err (finish : bool) att Q w n :
  select_attempt p t a (to_int64 e) w = Some att ->
  (forall fin, (if finish then is_Some fin else fin = None) ->
     Q tt (attempt_updated a (attempt_in att st fin res err) w) 1) ->
  twp (UpdateAttemptState p t a e st res err finish) Q w n.
Proof.
  intros Hatt HQ. unfold UpdateAttemptState. twp_run.
  apply (twp_mono _ (fun fin w' n' => w' = w /\ if finish then is_Some fin else fin = None)).
  { destruct finish; twp_run; eauto. }
  intros fin ? ? [-> Hfin]. twp_run.
  apply (twp_mono _ (fun _ w' _ => w' = w)); [destruct res; by twp_run|].
  intros [] ? ? ->. twp_run.
  apply (twp_mono _ (fun _ w' _ => w' = w)); [destruct err; by twp_run|].
  intros [] ? ? ->. twp_run.
  eapply twp_dml; [unfold update_attempt; by rewrite Hatt|]. twp_run. check_guard; [done|].
  by apply HQ.
Qed.

Lemma twp_bind_error err c b Q w n : Q tt w n -> twp (bind_error err c b) Q w n.
Proof. intros HQ. unfold bind_error. destruct err; by twp_run. Qed.

Lemma twp_ReadCurrentEpochForPlan p e Q w n :
  select_current_epoch p w = Some e -> 0 <= e -> Q e w n -> twp (ReadCurrentEpochForPlan p) Q w n.
Proof.
  intros He Hpos HQ. unfold ReadCurrentEpochForPlan. twp_run. rewrite He. twp_run.
  check_guard; [|by twp_run]. apply negb_true_iff, Z.ltb_ge. lia.
Qed.

Lemma twp_CheckTaskOwnership p t e a row att Q w n :
  wf_db w -> owns w p t e a row att -> 0 <= e <= int64_max -> IsNul a = false -> Q tt w n ->
  twp (CheckTaskOwnership p t e a) Q w n.
Proof.
  intros Hwf Howns He Ha HQ.
  destruct (owns_facts w p t e a row att Hwf Howns) as (Hown&Hact&Hst&_).
  unfold CheckTaskOwnership, select_task. twp_run.
  rewrite (owns_row _ _ _ _ _ _ _ Howns), Hown, Hact. check_guard; [|done].
  rewrite Hst, task_state_int32, Z.eqb_refl, to_int64_id, Z.eqb_refl, c_str_clean by done.
  by rewrite bool_decide_eq_true_2.
Qed.

Lemma update_task_enabled p t c f db row :
  plan_task db !! (p, t) = Some row -> c row = true ->
  update_task p t c f db = Some (task_updated p t (f row) db, 1).
Proof. intros Hrow Hc. unfold update_task. by rewrite Hrow, Hc. Qed.

Lemma twp_FinishTaskBody p t e a st err row att Q w n :
  0 <= e <= int64_max -> select_current_epoch p w = Some e -> owns w p t e a row att ->
  (forall w', Q tt w' 1) -> twp (FinishTaskBody p t e a st err None) Q w n.
Proof.
  intros He Hcur Howns HQ. unfold FinishTaskBody, CurrentEpoch. twp_run.
  eapply twp_ReadCurrentEpochForPlan; [done|lia|]. twp_run. check_guard; [by apply Z.eqb_eq|]. twp_run.
  apply twp_bind_error. twp_run.
  eapply twp_dml; [eapply update_task_enabled; [apply Howns|rewrite to_int64_id by done; apply Howns]|].
  twp_run. check_guard; [done|]. twp_run.
  eapply twp_UpdateAttemptState; [rewrite to_int64_id by done; apply Howns|]. intros fin _.
  apply twp_AppendTaskEvent; [|intros; apply HQ].
  eapply has_task_Some, lookup_insert_eq.
Qed.

Lemma twp_RecoverTaskBody p t e oe oa st ast name r err row att Q w n :
  0 <= e <= int64_max -> 0 <= oe <= int64_max -> select_current_epoch p w = Some e ->
  owns w p t oe oa row att -> (forall w', Q tt w' 1) ->
  twp (RecoverTaskBody p t e oe oa st ast name r err) Q w n.
Proof.
  intros He Hoe Hcur Howns HQ. unfold RecoverTaskBody. twp_run.
  eapply twp_ReadCurrentEpochForPlan; [done|lia|]. twp_run. check_guard; [by apply Z.eqb_eq|]. twp_run.
  apply twp_bind_error. twp_run.
  eapply twp_dml; [eapply update_task_enabled; [apply Howns|rewrite to_int64_id by done; apply Howns]|].
  twp_run. check_guard; [done|]. twp_run.
  eapply twp_UpdateAttemptState; [rewrite to_int64_id by done; apply Howns|]. intros fin _.
  apply twp_AppendTaskEvent; [|intros; apply HQ].
  eapply has_task_Some, lookup_insert_eq.
Qed.

Lemma twp_AdvanceAttemptBody p t e a st name row att persisted previous Q w n :
  wf_db w -> 0 <= e <= int64_max -> IsNul a = false -> select_current_epoch p w = Some e ->
  owns w p t e a row att -> att_file_state att = Some persisted ->
  of_int (to_int32 persisted) = Some previous ->
  (previous <> st -> FileAttemptState.IsValidTransition previous st = true) ->
  (forall w' n', Q tt w' n') -> twp (AdvanceAttemptBody p t e a st name None) Q w n.
Proof.
  intros Hwf He Ha Hcur Howns Hper Hprev Hvalid HQ. unfold AdvanceAttemptBody, CurrentEpoch. twp_run.
  eapply twp_ReadCurrentEpochForPlan; [done|lia|]. twp_run. check_guard; [by apply Z.eqb_eq|]. twp_run.
  eapply twp_CheckTaskOwnership; [done..|]. twp_run.
  rewrite to_int64_id, (owns_attempt _ _ _ _ _ _ _ Howns), Hper, Hprev by done.
  destruct (bool_decide_reflect (previous = st)) as [|Hne]; twp_run; [done|].
  check_guard; [by apply Hvalid|]. twp_run.
  eapply twp_UpdateAttemptState; [rewrite to_int64_id by done; apply Howns|]. intros fin _.
  apply twp_AppendTaskEvent; [|intros; apply HQ]. eapply has_task_Some, (owns_row _ _ _ _ _ _ _ Howns).
Qed.

(** The claim a runtime row reads back as. *)
Lemma runtime_of_claimed t row e a :
  IsNul t = false -> IsNul a = false -> 0 <= e -> 0 <= row_attempt_count row < uint32_max ->
  runtime_of_row t (claimed row e a) =
  Ok (mkTaskRuntime t TaskState.kRunning e (Some a) (row_attempt_count row + 1) None).
Proof.
  intros Ht Ha He Hn. unfold runtime_of_row, claimed, assign_runtime. cbn [row_state row_attempt_count
    row_owner_epoch row_active_attempt_id row_last_error_code row_last_error_message].
  rewrite task_state_int32, of_to_int.
  rewrite (proj2 (Z.ltb_ge _ 0)), (proj2 (Z.ltb_ge uint32_max _)) by lia. cbn [orb bind_or].
  rewrite (proj2 (Z.ltb_ge _ 0)) by lia. cbn [bind_or fmap option_fmap option_map].
  by rewrite !c_str_clean.
Qed.

Lemma twp_ReadRuntimeWithStatement p t row rt Q w n :
  plan_task w !! (p, t) = Some row -> runtime_of_row t row = Ok rt -> Q rt w n ->
  twp (ReadRuntimeWithStatement p t) Q w n.
Proof.
  intros Hrow Hrt HQ. unfold ReadRuntimeWithStatement, select_task. twp_run. rewrite Hrow.
  apply twp_lift. eauto.
Qed.

Lemma twp_ClaimBody p e oa t row Q w n :
  wf_db w -> 0 <= e <= int64_max -> select_current_epoch p w = Some e ->
  least_id (claimable_ids p w) = Some t -> plan_task w !! (p, t) = Some row ->
  0 <= row_attempt_count row < uint32_max ->
  let a := default (generated_attempt_id p t (row_attempt_count row)) oa in
  has_attempt a w = false -> clean_id a ->
  (forall w', Q (mkClaimed t (mkTaskRuntime t TaskState.kRunning e (Some a) (row_attempt_count row + 1) None))
     w' 1) ->
  twp (ClaimBody p e oa) Q w n.
Proof.
  intros Hwf He Hcur Hleast Hrow Hcount a Hfresh [_ Ha] HQ. unfold ClaimBody. twp_run.
  eapply twp_ReadCurrentEpochForPlan; [done|lia|]. twp_run. check_guard; [by apply Z.eqb_eq|]. twp_run.
  assert (select_claimable p w = Some (t, row_attempt_count row)) as ->.
  { unfold select_claimable. rewrite Hleast. simpl. by rewrite Hrow. }
  destruct (least_id_spec _ _ Hleast) as [Hin _].
  apply claimable_ids_spec in Hin as (row'&Hrow'&Hready&_). rewrite Hrow in Hrow'. injection Hrow' as <-.
  destruct (wf_tasks w Hwf _ _ _ Hrow) as [_ [_ Ht] _ (st&Hst&Hidle) _ _].
  rewrite Hready in Hst. apply to_int_inj in Hst as <-. destruct Hidle as [_ Hidle].
  rewrite c_str_clean by done. twp_run.
  check_guard. { apply negb_true_iff, orb_false_iff. split; [apply Z.ltb_ge|apply Z.leb_gt]; lia. }
  change (match oa with Some a => a | None => generated_attempt_id p t (row_attempt_count row) end) with a.
  twp_run. eapply twp_dml.
  { eapply update_task_enabled; [done|]. rewrite Hready, Hidle. done. }
  twp_run. check_guard; [done|]. twp_run. eapply twp_dml.
  { unfold insert_attempt_row. change (has_attempt a (task_updated _ _ _ w)) with (has_attempt a w).
    rewrite Hfresh. cbn [orb att_plan_id att_task_id].
    rewrite (has_task_Some p t _ _ (lookup_insert_eq _ _ _)). done. }
  twp_run. apply twp_AppendTaskEvent; [eapply has_task_Some, lookup_insert_eq|]. intros now. twp_run.
  eapply twp_ReadRuntimeWithStatement; [apply lookup_insert_eq| |].
  - rewrite to_int64_id by lia. apply runtime_of_claimed; done || lia.
  - twp_run. apply HQ.
Qed.

Lemma twp_AcquireBody p e Q w n :
  select_current_epoch p w = Some e -> 0 <= e < int64_max ->
  (forall w', Q (e + 1) w' 1) -> twp (AcquireBody p) Q w n.
Proof.
  intros Hcur He HQ. unfold AcquireBody. twp_run.
  eapply twp_ReadCurrentEpochForPlan; [done|lia|]. twp_run.
  check_guard; [apply negb_true_iff, Z.leb_gt; lia|]. twp_run.
  apply select_current_epoch_Some in Hcur as (pr&m&Hpr&Hm&Heq).
  eapply twp_dml. { unfold update_epoch. rewrite Hpr, Hm. done. }
  twp_run. check_guard; [done|]. twp_run. apply HQ.
Qed.

Lemma receipt_of_row_Ok t a row r :
  receipt_of_row t a row = Ok r ->
  0 <= rc_content_size row /\ str_size (rc_source_digest row) = 32
  /\ str_size (rc_target_digest row) = 32.
Proof.
  unfold receipt_of_row. split_if; [done|]. bool_hyps.
  destruct (digest_of_blob (rc_source_digest row)) as [sd|] eqn:Hs; [|done].
  destruct (digest_of_blob (rc_target_digest row)) as [td|] eqn:Ht; [|done].
  apply digest_of_blob_Some in Hs as ->, Ht as ->. intros _. unfold str_size.
  by rewrite !Digest_length.
Qed.

Lemma row_of_receipt_checks r sd si :
  0 <= VerifiedReceipt.content_size r <= int64_max ->
  negb (0 <=? rc_content_size (row_of_receipt r sd si))
    || negb (str_size (rc_source_digest (row_of_receipt r sd si)) =? 32)
    || negb (str_size (rc_target_digest (row_of_receipt r sd si)) =? 32) = false.
Proof.
  intros Hsz. cbn [row_of_receipt rc_content_size rc_source_digest rc_target_digest].
  rewrite to_int64_id by done. unfold str_size. rewrite !Digest_length.
  rewrite (proj2 (Z.leb_le 0 _)) by lia. done.
Qed.

Lemma twp_PersistBody p r sd si row att Q w n :
  let t := VerifiedReceipt.task_id r in
  let a := VerifiedReceipt.attempt_id r in
  let e := VerifiedReceipt.owner_epoch r in
  wf_db w -> 0 <= e <= int64_max -> valid_ids p t -> valid_claim e a ->
  0 <= VerifiedReceipt.content_size r <= int64_max ->
  select_current_epoch p w = Some e -> owns w p t e a row att ->
  (verified_receipt w !! (p, t, a) = None \/
   exists rrow, verified_receipt w !! (p, t, a) = Some rrow /\ receipt_of_row t a rrow = Ok r) ->
  (forall w' n', Q tt w' n') -> twp (PersistBody None p r sd si) Q w n.
Proof.
  intros t a e Hwf He Hids Hclaim Hsz Hcur Howns Hrec HQ.
  pose proof Hclaim as (_&_&[Hne Ha])%valid_claim_facts.
  pose proof (owns_facts _ _ _ _ _ _ _ Hwf Howns) as (_&_&_&Hat&_).
  unfold PersistBody, CurrentEpoch. fold t a e. twp_run.
  eapply twp_ReadCurrentEpochForPlan; [done|lia|]. twp_run. check_guard; [by apply Z.eqb_eq|]. twp_run.
  eapply twp_CheckTaskOwnership; [done..|]. twp_run.
  destruct Hrec as [Hnone|(rrow&Hrow&Hok)].
  - eapply twp_dml.
    { unfold insert_receipt_row. rewrite row_of_receipt_checks by done.
      rewrite bool_decide_eq_false_2 by (rewrite Hnone; by intros [? ?]).
      rewrite (has_task_Some _ _ _ _ (owns_row _ _ _ _ _ _ _ Howns)).
      unfold has_attempt. by rewrite bool_decide_eq_true_2 by eauto. }
    twp_run. simpl (1 =? 0). cbn iota. twp_run. check_guard; [done|]. twp_run.
    eapply twp_UpdateAttemptState; [rewrite to_int64_id by done; apply Howns|]. intros fin _.
    apply twp_AppendTaskEvent; [|intros; apply HQ]. eapply has_task_Some, (owns_row _ _ _ _ _ _ _ Howns).
  - eapply twp_dml.
    { unfold insert_receipt_row. rewrite row_of_receipt_checks by done.
      by rewrite bool_decide_eq_true_2 by (rewrite Hrow; eauto). }
    twp_run. simpl (0 =? 0). cbn iota. unfold ReadVerifiedReceipt, select_receipt. twp_run.
    check_guard; [done|]. twp_run. check_guard.
    { apply negb_true_iff, orb_false_iff. split; [by apply str_empty_false|done]. }
    twp_run. rewrite Hrow. apply twp_lift. exists r. split; [done|].
    check_guard; [by apply SameVerifiedReceipt_true|]. apply HQ.
Qed.

Ltac completes_run :=
  repeat lazymatch goal with
  | |- completes (bind _ _) _ _ => apply completes_bind
  | |- completes (require _ _) _ _ => apply completes_require
  | |- completes (require_ok _) _ _ => apply completes_require_ok; [done|]
  | |- completes (ret _) _ _ => apply completes_ret
  | |- completes (Transaction _) _ _ => apply completes_transaction; intros ?
  end.

Lemma completes_recovery p t e oe oa r st ast name err row att db :
  valid_ids p t -> valid_claim e oa -> valid_claim oe oa -> is_uint64 e -> is_uint64 oe -> r <> "" ->
  select_current_epoch p db = Some e -> owns db p t oe oa row att ->
  completes (do* check_recovery p t e oe oa r; RecoverTask p t e oe oa st ast name r err)
    (fun _ _ => True) db.
Proof.
  intros Hids Hc Hc' Hty Hty' Hr Hcur Howns.
  pose proof (claim_epoch_range e oa Hty Hc). pose proof (claim_epoch_range oe oa Hty' Hc').
  unfold check_recovery. completes_run; [by apply negb_true_iff, str_empty_false|].
  unfold RecoverTask. completes_run. eapply twp_RecoverTaskBody; [lia|lia|done|done|done].
Qed.

Lemma completes_completion p t e a st err row att db :
  valid_claim e a -> is_uint64 e -> select_current_epoch p db = Some e -> owns db p t e a row att ->
  completes (FinishTask p t e a st err None) (fun _ _ => True) db.
Proof.
  intros Hc Hty Hcur Howns. pose proof (claim_epoch_range e a Hty Hc).
  unfold FinishTask, in_transaction. completes_run. eapply twp_FinishTaskBody; [lia|done..].
Qed.

Lemma completes_advance p t e a st name row att persisted previous db :
  wf_db db -> valid_claim e a -> is_uint64 e -> select_current_epoch p db = Some e ->
  owns db p t e a row att -> att_file_state att = Some persisted ->
  of_int (to_int32 persisted) = Some previous ->
  (previous <> st -> FileAttemptState.IsValidTransition previous st = true) ->
  completes (AdvanceAttempt p t e a st name None) (fun _ _ => True) db.
Proof.
  intros Hwf Hc Hty Hcur Howns Hper Hprev Hv. pose proof (claim_epoch_range e a Hty Hc).
  pose proof Hc as (_&_&[_ ?])%valid_claim_facts.
  unfold AdvanceAttempt, in_transaction. completes_run.
  eapply twp_AdvanceAttemptBody; [done|lia|done..].
Qed.

Lemma completes_run_op o db db1 :
  wf_db db -> op_typed o -> op_step db o db1 -> completes (run_op o) (fun _ _ => True) db.
Proof.
  intros Hwf Hty Hstep. destruct Hstep as
    [p t Hids Hspec Hsize Hnew Hkey Hplan | p t d Hids1 Hids2 Hne Hreach Ht Hd Hnew
    | p t row Hids Hrow Hst Hdeps | p pr m Hp Hpr Hm He
    | p e oa t row now t2 Hids Hclaim Hcur Hleast Hc Hrow Hready Hdeps Hact Hcount a Hfresh
    | o p t e a st name row att prev per now Ho Hids Hclaim Hcur Howns Hper Hprev Hvalid
    | o p t e a st name row att per Ho Hids Hclaim Hcur Howns Hper Hprev
    | o p t e a st err row att fin now Ho Hids Hclaim Herr Hcur Howns
    | o p t e oe oa r st err name row att fin now detail Ho Hids Hclaim Hclaim' Hr Hcur Howns
    | p r sd si row att now t a e Hids Hclaim Hsd Hsi Htemp Hfin Hsize Hcur Howns Hnone
    | p r sd si row att rrow t a e Hids Hclaim Hsd Hsi Htemp Hfin Hsize Hcur Howns Hrow Hok ].
  - simpl. unfold AddTask. apply completes_twp. intros n. twp_run. check_guard; [done|].
    twp_run. check_guard; [done|]. twp_run.
    check_guard; [apply negb_true_iff, Z.ltb_ge; lia|]. twp_run.
    apply (twp_mono _ (fun _ w' _ => w' = db)); [destruct (expected_digest t); by twp_run|].
    intros [] ? n1 ->. eapply twp_insert; [|done].
    unfold insert_task_row. rewrite Hnew. cbn [row_task_key]. by rewrite Hkey, Hplan.
  - simpl. unfold AddDependency. apply completes_twp. intros n. twp_run. check_guard; [done|].
    twp_run. check_guard; [done|]. twp_run.
    check_guard; [by apply negb_true_iff, bool_decide_eq_false|]. twp_run.
    check_guard. { apply negb_true_iff, bool_decide_eq_false. by rewrite ancestors_spec. }
    twp_run. eapply twp_dml.
    { unfold insert_dependency_row. rewrite Ht, Hd. cbn [andb negb].
      by rewrite (proj2 (bool_decide_eq_false ((p, t, d) ∈ task_dependency db)) Hnew). }
    twp_run. by check_guard.
  - simpl. unfold SetReady. apply completes_twp. intros n. twp_run. check_guard; [done|]. twp_run.
    eapply twp_dml.
    { eapply update_task_enabled; [done|]. cbv beta. rewrite Hdeps, andb_true_r.
      apply orb_true_iff. rewrite !Z.eqb_eq. exact Hst. }
    twp_run. by check_guard.
  - simpl. unfold AcquireNextExecutionEpoch. apply check_plan_id_clean in Hp. completes_run.
    eapply twp_AcquireBody; [apply select_current_epoch_Some; eauto|lia|].
    intros w'. by apply completes_ret.
  - simpl. unfold ClaimNextReadyImpl. completes_run.
    pose proof (claim_epoch_range _ _ Hty Hclaim).
    pose proof Hclaim as (_&_&Ha)%valid_claim_facts.
    destruct (wf_tasks db Hwf _ _ _ Hrow) as [Hp Ht _ _ _ _].
    eapply twp_ClaimBody; try done; [lia| |intros w'; by apply completes_ret].
    destruct oa; [done|]. by apply generated_attempt_id_clean.
  - destruct o; simpl in Ho; simplify_eq; simpl in *; unfold MarkCommitIntent, MarkTempWritten;
      completes_run; by eapply completes_advance.
  - destruct o; simpl in Ho; simplify_eq; simpl in *; unfold MarkCommitIntent, MarkTempWritten;
      completes_run; by eapply completes_advance.
  - destruct o; simpl in Ho; simplify_eq; simpl in *; unfold MarkSucceeded, MarkRetryable; completes_run.
    + by eapply completes_completion.
    + apply negb_true_iff. by apply Herr.
    + by eapply completes_completion.
  - destruct o; simpl in Ho; simplify_eq; simpl in *; destruct Hty;
      by eapply completes_recovery.
  - destruct Hty as (Hty&Hsz&Hid). pose proof (claim_epoch_range _ _ Hty Hclaim).
    simpl. unfold PersistVerifiedReceipt. rewrite Hsd, Hsi. completes_run.
    + apply negb_true_iff, orb_false_iff. by rewrite !str_empty_false.
    + apply negb_true_iff, Z.ltb_ge. lia.
    + unfold in_transaction. rewrite no_batch_epoch. completes_run.
      eapply twp_PersistBody; try done; [lia|destruct Hsz; lia|by left].
  - destruct Hty as (Hty&Hsz&Hid). pose proof (claim_epoch_range _ _ Hty Hclaim).
    simpl. unfold PersistVerifiedReceipt. rewrite Hsd, Hsi. completes_run.
    + apply negb_true_iff, orb_false_iff. by rewrite !str_empty_false.
    + apply negb_true_iff, Z.ltb_ge. lia.
    + unfold in_transaction. rewrite no_batch_epoch. completes_run.
      eapply twp_PersistBody; try done; [lia|destruct Hsz; lia|by right; exists rrow].
Qed.
