(* ===== verification/RepositoryTheorems.v ===== *)
(** * RepositoryTheorems: what the durable task store guarantees

    The properties of [TaskRuntimeRepository] as a whole: atomicity and
    refinement under failures, the database invariant, fencing by execution
    epochs, exclusive claims, the task state machine, the dependency graph
    and the receipts. *)

From stdpp Require Import pretty.
From S2P Require Import Prelude Status Bytes RelativePath Task Reconciler Sqlite Logic Tables TaskRepository RepositorySpec RepositoryRefine RepositoryInvariant RepositoryTotal.

(** The databases the write operations can lead to, whatever the outcome of
    each call: a failed, interrupted or refused call is a step too. *)
Inductive reachable (db0 : Db) : Db -> Prop :=
| reach_start : reachable db0 db0
| reach_call s o :
    reachable db0 (committed s) -> working s = None -> op_typed o ->
    reachable db0 (committed (run_op o s).2).

(** The plan and epoch a fenced operation names. *)
Definition fence (o : Op) : option (string * Z) :=
  match o with
  | OpClaim p e _ | OpCommitIntent p _ e _ | OpTempWritten p _ e _ | OpSucceeded p _ e _
  | OpRetryable p _ e _ _ | OpRecoverSucceeded p _ e _ _ _ | OpRecoverRetryable p _ e _ _ _
  | OpRecoverInconsistent p _ e _ _ _ => Some (p, e)
  | OpPersist p r => Some (p, VerifiedReceipt.owner_epoch r)
  | _ => None
  end.

(** ** Consequences of one abstract step *)

Lemma call_outcome s o :
  working s = None -> wf_db (committed s) -> op_typed o ->
  match (run_op o s).1 with
  | Ok _ => working (run_op o s).2 = None /\ op_step (committed s) o (committed (run_op o s).2)
  | Err _ => committed (run_op o s).2 = committed s
  end.
Proof.
  intros Hw Hwf Hty. destruct (atomic_run_op o s Hw) as [_ Herr].
  pose proof (commits_run_op o _ Hwf Hty s) as Hok.
  destruct (run_op o s) as [[u|e] s']; simpl in *; [by apply (Hok u s')|auto].
Qed.

Lemma step_epochs db o db' q x :
  op_step db o db' -> select_current_epoch q db = Some x ->
  exists x', select_current_epoch q db' = Some x' /\ x <= x'.
Proof.
  intros Hstep Hx.
  assert (db' = db' -> exists x', select_current_epoch q db = Some x' /\ x <= x') as Hsame by eauto with lia.
  destruct Hstep as [| | |p pr m Hp Hpr Hm He| | | | | | | ]; try exact (Hsame eq_refl).
  rewrite epoch_updated_lookup. pose proof Hx as (pr'&m'&Hpr'&Hm'&<-)%select_current_epoch_Some.
  rewrite Hpr'. destruct (decide _) as [Heq|]; [|exact (Hsame eq_refl)].
  rewrite <- Heq, Hm in Hm'. injection Hm' as <-. eexists. split; [reflexivity|simpl; lia].
Qed.

Lemma step_receipts db o db' k r :
  op_step db o db' -> verified_receipt db !! k = Some r -> verified_receipt db' !! k = Some r.
Proof.
  intros Hstep Hk. destruct Hstep; try done.
  simpl. rewrite lookup_insert_ne; [done|]. intros <-. congruence.
Qed.

(** How a step changes the row of a task. *)
Lemma step_row db o db' p t row :
  wf_db db -> op_step db o db' -> plan_task db !! (p, t) = Some row ->
  exists row', plan_task db' !! (p, t) = Some row' /\
    (row' = row \/ exists st st', row_state row = to_int st /\ row_state row' = to_int st'
       /\ TaskState.IsValidTransition st st' = true).
Proof.
  intros Hwf Hstep Hrow.
  assert (forall q u row0 row1 st st', plan_task db !! (q, u) = Some row0 ->
    row_state row0 = to_int st -> row_state row1 = to_int st' ->
    TaskState.IsValidTransition st st' = true ->
    exists row', <[(q, u) := row1]> (plan_task db) !! (p, t) = Some row' /\
      (row' = row \/ exists st st', row_state row = to_int st /\ row_state row' = to_int st'
         /\ TaskState.IsValidTransition st st' = true)) as Hupd.
  { intros q u row0 row1 st st' H0 Hst Hst' Hv. destruct (decide ((q, u) = (p, t))) as [Heq|].
    - simplify_eq. exists row1. split; [by rewrite lookup_insert_eq|]. right. by exists st, st'.
    - exists row. split; [by rewrite lookup_insert_ne|by left]. }
  destruct Hstep as
    [q u Hids Hspec Hsize Hnew Hkey Hplan | | q u row0 Hids Hrow0 Hst Hdeps |
    | q e oa u row0 now t2 Hids Hclaim Hcur Hleast Hc Hrow0 Hready Hdeps Hact Hcount a Hfresh
    | |
    | o q u e a st err row0 att fin now Ho Hids Hclaim Herr Hcur Howns
    | o q u e oe oa r st err name row0 att fin now detail Ho Hids Hclaim Hclaim' Hr Hcur Howns
    | | ]; try (exists row; by eauto).
  - exists row. split; [|by left]. apply bool_decide_eq_false in Hnew. simpl.
    rewrite lookup_insert_ne; [done|]. intros Heq. rewrite Heq in Hnew. by apply Hnew.
  - destruct Hst as [Hst|Hst]; by eapply (Hupd q u row0).
  - by eapply (Hupd q u row0).
  - destruct (owns_facts _ _ _ _ _ _ _ Hwf Howns) as (_&_&Hrun&_).
    eapply (Hupd q u row0 _ TaskState.kRunning st); [apply Howns|done|done|].
    by destruct o; simpl in Ho; simplify_eq.
  - destruct (owns_facts _ _ _ _ _ _ _ Hwf Howns) as (_&_&Hrun&_).
    eapply (Hupd q u row0 _ TaskState.kRunning st); [apply Howns|done|done|].
    by destruct o; simpl in Ho; simplify_eq.
Qed.

Lemma step_fence db o db' p e :
  op_step db o db' -> fence o = Some (p, e) -> select_current_epoch p db = Some e.
Proof.
  intros Hstep Hf. destruct Hstep; simpl in Hf; simplify_eq; try done.
  all: destruct o; simpl in *; simplify_eq; done.
Qed.

Lemma reachable_wf db0 db : wf_db db0 -> reachable db0 db -> wf_db db.
Proof.
  intros Hwf Hr. induction Hr as [|s o Hr IH Hw Hty]; [done|].
  pose proof (call_outcome s o Hw IH Hty) as Hout.
  destruct (run_op o s) as [[u|e] s']; simpl in *; [|by rewrite Hout].
  destruct Hout. by eapply wf_step.
Qed.

(** A relation between the start and the current database that every step
    extends holds of what is reachable. *)
Lemma reachable_rel (R : Db -> Db -> Prop) db0 db :
  R db0 db0 ->
  (forall db1 o db2, wf_db db1 -> R db0 db1 -> op_step db1 o db2 -> R db0 db2) ->
  wf_db db0 -> reachable db0 db -> R db0 db.
Proof.
  intros H0 Hstep Hwf Hr. induction Hr as [|s o Hr IH Hw Hty]; [done|].
  pose proof (reachable_wf _ _ Hwf Hr) as Hwf'.
  pose proof (call_outcome s o Hw Hwf' Hty) as Hout.
  destruct (run_op o s) as [[u|e] s']; simpl in *; [|by rewrite Hout].
  destruct Hout. by eapply Hstep.
Qed.

Lemma reachable_epochs db0 db p e :
  wf_db db0 -> reachable db0 db -> select_current_epoch p db0 = Some e ->
  exists e', select_current_epoch p db = Some e' /\ e <= e'.
Proof.
  intros Hwf Hr. revert p e.
  apply (reachable_rel (fun a b => forall p e, select_current_epoch p a = Some e ->
    exists e', select_current_epoch p b = Some e' /\ e <= e') db0 db); [|clear Hr|done|done].
  - intros p e He. by exists e.
  - intros db1 o db2 _ IH Hstep p e He. destruct (IH p e He) as (e1&He1&?).
    destruct (step_epochs _ _ _ _ _ Hstep He1) as (e2&?&?). exists e2. split; [done|lia].
Qed.

Lemma dependencies_succeeded_spec p t db :
  dependencies_succeeded p t db = true <->
  forall d row, depends db p t d -> plan_task db !! (p, d) = Some row ->
    row_state row = to_int TaskState.kSucceeded.
Proof.
  unfold dependencies_succeeded, depends. rewrite negb_true_iff, <- not_true_iff_false, existsb_exists.
  split.
  - intros Hnot d row Hd Hrow. destruct (Z.eq_dec (row_state row) (to_int TaskState.kSucceeded)) as [|Hne]; [done|].
    exfalso. apply Hnot. exists (p, t, d). split; [by apply list_elem_of_In, elem_of_elements|].
    simpl. rewrite !bool_decide_eq_true_2, Hrow by done. simpl. by apply negb_true_iff, Z.eqb_neq.
  - intros Hall ([[q u] d]&Hin&Hb). apply list_elem_of_In, elem_of_elements in Hin.
    simpl in Hb. bool_hyps. subst. destruct (plan_task db !! (p, d)) as [row|] eqn:Hrow; [|done].
    bool_hyps. by eapply Hall in Hrow.
Qed.

(** A READY task of the plan all of whose prerequisites succeeded. *)
Definition eligible (db : Db) (p t : string) : Prop :=
  exists row, plan_task db !! (p, t) = Some row /\ row_state row = to_int TaskState.kReady
    /\ forall d drow, depends db p t d -> plan_task db !! (p, d) = Some drow ->
         row_state drow = to_int TaskState.kSucceeded.

Lemma eligible_claimable db p t : t ∈ claimable_ids p db <-> eligible db p t.
Proof.
  rewrite claimable_ids_spec. unfold eligible. by setoid_rewrite dependencies_succeeded_spec.
Qed.

Lemma least_eligible db p t :
  eligible db p t -> (forall u, eligible db p u -> String.le t u) ->
  least_id (claimable_ids p db) = Some t.
Proof.
  intros Ht Hleast. destruct (least_id (claimable_ids p db)) as [u|] eqn:Hu.
  - destruct (least_id_spec _ _ Hu) as [Hin Hle]. f_equal.
    apply (anti_symm String.le); [apply Hle; by apply eligible_claimable|].
    apply Hleast. by apply eligible_claimable.
  - apply least_id_None in Hu. apply eligible_claimable in Ht. rewrite Hu in Ht. by apply elem_of_nil in Ht.
Qed.

(** ** The identity blob *)

Lemma substring_app_l a b n :
  String.length a = n -> String.substring 0 n (a +:+ b) = a.
Proof.
  revert n. induction a as [|c a IH]; intros n <-; simpl; [by destruct b|]. by rewrite IH.
Qed.

Lemma substring_app_r a b m n :
  String.substring (String.length a + m) n (a +:+ b) = String.substring m n b.
Proof. induction a as [|c a IH]; [done|]. simpl. exact IH. Qed.

Lemma substring_app_le a b m n :
  (m + n <= String.length a)%nat -> String.substring m n (a +:+ b) = String.substring m n a.
Proof.
  revert m n. induction a as [|c a IH]; intros m n Hle; simpl in Hle.
  - assert (m = 0 /\ n = 0)%nat as [-> ->] by lia. by destruct b.
  - destruct m; simpl.
    + destruct n; [done|]. f_equal. apply IH. lia.
    + apply IH. lia.
Qed.

Lemma read_u64_here x rest : is_uint64 x -> read_u64 (le64 x +:+ rest) 0 = x.
Proof.
  intros Hx. unfold read_u64. rewrite substring_app_l by apply le64_length.
  rewrite le_value_le64, Z.mod_small; [done|]. unfold is_uint64, uint64_max in Hx. lia.
Qed.

Lemma read_u64_skip x rest n :
  (8 <= n)%nat -> read_u64 (le64 x +:+ rest) n = read_u64 rest (n - 8).
Proof.
  intros Hn. unfold read_u64. replace n with (String.length (le64 x) + (n - 8))%nat at 1
    by (rewrite le64_length; lia). by rewrite substring_app_r.
Qed.

Lemma read_i64_here x rest : is_int64 x -> to_int64 (read_u64 (le64 x +:+ rest) 0) = x.
Proof.
  intros Hx. unfold read_u64. rewrite substring_app_l by apply le64_length. by apply to_int64_le64.
Qed.

Lemma byte_get_skip x rest n :
  (8 <= n)%nat -> byte_get (le64 x +:+ rest) n = byte_get rest (n - 8).
Proof.
  intros Hn. do 8 (destruct n as [|n]; [lia|]). cbn [Nat.sub]. by rewrite Nat.sub_0_r.
Qed.

Lemma identity_decodes i : wf_identity i -> DecodeIdentity (EncodeIdentity i) = Ok i.
Proof.
  intros (Hd&Hi&Hs&Hm&Hc&Hmo). unfold DecodeIdentity, str_size. rewrite EncodeIdentity_length.
  cbn [Z.of_nat Z.eqb negb]. destruct i as [dev ino sz mt ct mo]. simpl in *.
  unfold EncodeIdentity. cbn [FileIdentity.device FileIdentity.inode FileIdentity.size
    FileIdentity.mtime_ns FileIdentity.ctime_ns FileIdentity.mount_id].
  set (rest := match mo with Some m => String Ascii.one (le64 m) | None => String Ascii.zero (le64 0) end).
  do 5 rewrite byte_get_skip by lia. cbn [Nat.sub].
  repeat match goal with |- context [read_u64 (le64 ?x +:+ ?r) (S ?n)] =>
    rewrite (read_u64_skip x r (S n)) by lia; cbn [Nat.sub] end.
  rewrite !read_u64_here, !read_i64_here by done.
  destruct mo as [m|]; subst rest; simpl byte_get; [|done].
  change (Z_of_byte Ascii.one =? 1) with true. cbn iota.
  do 3 f_equal. unfold read_u64.
  change (String.substring 1 8 (String Ascii.one (le64 m))) with (String.substring 0 8 (le64 m +:+ "")).
  rewrite substring_app_l by done. rewrite le_value_le64, Z.mod_small; [done|].
  unfold is_uint64, uint64_max in Hmo. lia.
Qed.

(** What a persisted row is read back as. *)
Lemma receipt_of_persisted r sd si :
  VerifiedReceipt.source_digest r = Some sd -> VerifiedReceipt.source_identity r = Some si ->
  wf_identity si -> IsNul (VerifiedReceipt.task_id r) = false ->
  IsNul (VerifiedReceipt.attempt_id r) = false -> 0 < VerifiedReceipt.owner_epoch r <= int64_max ->
  0 <= VerifiedReceipt.content_size r <= int64_max ->
  receipt_of_row (VerifiedReceipt.task_id r) (VerifiedReceipt.attempt_id r) (row_of_receipt r sd si) = Ok r.
Proof.
  intros Hsd Hsi Hwf Ht Ha He Hs. unfold receipt_of_row, row_of_receipt.
  cbn [rc_owner_epoch rc_content_size rc_source_digest rc_target_digest rc_source_identity
    rc_temp_path rc_final_path].
  rewrite !to_int64_id, (proj2 (Z.leb_gt _ 0)), (proj2 (Z.ltb_ge _ 0)) by lia. cbn [orb].
  rewrite !(proj2 (digest_of_blob_Some _ _) eq_refl), identity_decodes by done. simpl.
  rewrite !c_str_clean by done. destruct r; simpl in *. by subst.
Qed.

(** ** A concrete history for the witnesses *)

Module Demo.
Definition target : RelativePath := mkRelativePath "a/b.jpg" ["a"; "b.jpg"].
Definition spec (id key : string) : TaskSpec :=
  mkTaskSpec id key TaskType.kMigrateFile "asset" (Some "src") target 3 None.

(** One plan of one migration, whose epoch is 3. *)
Definition seed : Db :=
  mkDb ∅ {[ "m" := mkMigration "src" "/target" 0 3 7 ]} {[ "p" := mkPlan "m" "p.jsonl" "" "" 1 1 0 7 ]}
    ∅ ∅ ∅ [] ∅.

Definition conn (db : Db) : Conn Db := mkConn db None 0 [] [].
Definition after (db : Db) (o : Op) : Db := committed (run_op o (conn db)).2.

(** Two ready tasks, [t2] depending on [t1]; epoch 4; [t1] claimed. *)
Definition history : list Op :=
  [OpAddTask "p" (spec "t1" "k1"); OpAddTask "p" (spec "t2" "k2");
   OpSetReady "p" "t1"; OpSetReady "p" "t2"; OpAddDependency "p" "t2" "t1"; OpAcquireEpoch "p"].
Definition ready : Db := foldl after seed history.
Definition running : Db := after ready (OpClaim "p" 4 (Some "a1")).

Definition digest : Digest := Digest_of (fun _ => NUL).
Definition identity : FileIdentity.t := FileIdentity.mk 1 2 3 4 5 (Some 6).
Definition receipt (size : Z) : VerifiedReceipt.t :=
  VerifiedReceipt.mk "t1" "a1" 4 "a/.tmp" "a/b.jpg" size (Some digest) digest (Some identity).
Definition persisted : Db := after running (OpPersist "p" (receipt 3)).
End Demo.

Lemma wf_seed : wf_db Demo.seed.
Proof.
  split; try (intros; done); unfold Demo.seed; simpl.
  - intros p pr Hp. apply lookup_singleton_Some in Hp as [<- <-]. simpl.
    rewrite lookup_singleton_eq. eauto.
  - intros m r Hm. apply lookup_singleton_Some in Hm as [<- <-]. by vm_compute.
  - intros p t Htc. by destruct Htc.
  - by intros ev ?%elem_of_nil.
Qed.

Lemma reachable_after db0 db o :
  op_typed o -> reachable db0 db -> reachable db0 (Demo.after db o).
Proof. intros Hty Hr. by apply (reach_call db0 (Demo.conn db)). Qed.

Lemma reachable_ready : reachable Demo.seed Demo.ready.
Proof. unfold Demo.ready, Demo.history. cbn [foldl]. 
  repeat apply reachable_after; first [exact I | apply reach_start | vm_compute; split; discriminate].
Qed.

Lemma reachable_running : reachable Demo.seed Demo.running.
Proof. apply reachable_after; [vm_compute; split; discriminate|apply reachable_ready]. Qed.

Lemma Demo_receipt_typed size : is_uint64 size -> op_typed (OpPersist "p" (Demo.receipt size)).
Proof. intros Hs. split; [done|]. split; [done|]. simpl. intros i [= <-]. by vm_compute. Qed.

Lemma reachable_persisted : reachable Demo.seed Demo.persisted.
Proof. apply reachable_after; [by apply Demo_receipt_typed|apply reachable_running]. Qed.

Lemma wf_ready : wf_db Demo.ready.
Proof. apply (reachable_wf Demo.seed); [apply wf_seed|apply reachable_ready]. Qed.
Lemma wf_running : wf_db Demo.running.
Proof. apply (reachable_wf Demo.seed); [apply wf_seed|apply reachable_running]. Qed.

(** ** Properties *)

(** C1. Every write operation is atomic and refines the abstract store: from a
    well-formed committed database, whatever SQLite calls fail, an operation
    that reports success has committed exactly one abstract step and closed
    its transaction, and one that reports an error has committed nothing. *)
Theorem operations_refine_spec (s : Conn Db) (o : Op) :
  working s = None -> wf_db (committed s) -> op_typed o ->
  match (run_op o s).1 with
  | Ok _ => working (run_op o s).2 = None /\ op_step (committed s) o (committed (run_op o s).2)
  | Err _ => committed (run_op o s).2 = committed s
  end.
Proof. apply call_outcome. Qed.

Lemma operations_refine_spec_witness :
  op_step Demo.ready (OpClaim "p" 4 (Some "a1")) Demo.running.
Proof.
  exact (proj2 (operations_refine_spec (Demo.conn Demo.ready) (OpClaim "p" 4 (Some "a1"))
    eq_refl wf_ready ltac:(vm_compute; split; discriminate))).
Defined.

(** C3. On a connection whose calls do not fail, an operation succeeds exactly
    when the abstract store has a step for it: no enabled operation is
    refused, and no other one is accepted. *)
Theorem operations_succeed_iff_enabled (s : Conn Db) (o : Op) :
  faults s = [] -> working s = None -> wf_db (committed s) -> op_typed o ->
  is_ok (run_op o s).1 = true <-> exists db', op_step (committed s) o db'.
Proof.
  intros Hf Hw Hwf Hty. pose proof (call_outcome s o Hw Hwf Hty) as Hout. split.
  - destruct (run_op o s) as [[u|e] s']; [|done]. intros _. destruct Hout. eauto.
  - intros [db' Hstep].
    destruct (completes_run_op o _ db' Hwf Hty Hstep s Hf Hw eq_refl) as (u&s'&->&_). done.
Qed.

Lemma operations_succeed_iff_enabled_witness :
  exists db', op_step Demo.ready (OpClaim "p" 4 None) db'.
Proof.
  exact (proj1 (operations_succeed_iff_enabled (Demo.conn Demo.ready) (OpClaim "p" 4 None)
    eq_refl eq_refl wf_ready ltac:(vm_compute; split; discriminate)) ltac:(vm_compute; reflexivity)).
Defined.

(** C2. Failures are never silent: any run of an operation gives the result and
    the committed database of the run without failures, or it reports an
    error and leaves the committed database as it was. *)
Theorem failures_are_reported (s : Conn Db) (o : Op) :
  working s = None ->
  ((run_op o s).1 = (run_op o (quiet s)).1
     /\ committed (run_op o s).2 = committed (run_op o (quiet s)).2)
  \/ (is_ok (run_op o s).1 = false /\ committed (run_op o s).2 = committed s).
Proof.
  intros Hw. destruct (tolerant_run_op o s) as [[_ ->]|[_ Herr]]; [by left|right].
  split; [done|]. by apply (atomic_run_op o s Hw).
Qed.

Lemma failures_are_reported_witness :
  let s := mkConn Demo.ready None 0 [None; None; Some (mkFault "disk I/O error" true)] [] in
  let o := OpClaim "p" 4 None in
  ((run_op o s).1 = (run_op o (quiet s)).1
     /\ committed (run_op o s).2 = committed (run_op o (quiet s)).2)
  \/ (is_ok (run_op o s).1 = false /\ committed (run_op o s).2 = committed s).
Proof. intros s o. exact (failures_are_reported s o eq_refl). Defined.

(** C4. Every database the operations can reach from a well-formed one is
    well-formed: running tasks have their epoch, attempt and unfinished
    attempt row, all others have none; attempt counts, epochs and persisted
    enumerations are in range; task keys are unique in a plan; dependencies
    are between existing tasks and acyclic; receipts belong to recorded
    attempts; events and attempts to existing tasks. *)
Theorem reachable_databases_are_well_formed db0 db :
  wf_db db0 -> reachable db0 db -> wf_db db.
Proof. apply reachable_wf. Qed.

Lemma reachable_databases_are_well_formed_witness : wf_db Demo.persisted.
Proof. exact (reachable_databases_are_well_formed Demo.seed _ wf_seed reachable_persisted). Defined.

(** C6. Claims are exclusive: in a reachable database a task has at most one
    attempt without a result, and that attempt is the one its RUNNING row
    names, under the same epoch. *)
Theorem claims_are_exclusive db0 db p t a1 a2 att1 att2 :
  wf_db db0 -> reachable db0 db ->
  task_attempt db !! a1 = Some att1 -> task_attempt db !! a2 = Some att2 ->
  att_plan_id att1 = p -> att_task_id att1 = t -> att_plan_id att2 = p -> att_task_id att2 = t ->
  att_result att1 = None -> att_result att2 = None ->
  a1 = a2 /\ exists row, plan_task db !! (p, t) = Some row
    /\ owned_by (att_owner_epoch att1) a1 row = true.
Proof.
  intros Hwf0 Hr H1 H2 <- <- Hp Ht Hres1 Hres2. pose proof (reachable_wf _ _ Hwf0 Hr) as Hwf.
  destruct (wf_attempts db Hwf _ _ H1) as [_ _ (row1&Hrow1&Hst1) _].
  destruct (wf_attempts db Hwf _ _ H2) as [_ _ (row2&Hrow2&Hst2) _].
  rewrite Hres1 in Hst1. rewrite Hres2 in Hst2.
  destruct Hst1 as (_&Hown1&_), Hst2 as (_&Hown2&_).
  rewrite Hp, Ht, Hrow1 in Hrow2. injection Hrow2 as <-. split; [|eauto].
  apply owned_by_true in Hown1 as (_&?&_), Hown2 as (_&?&_). congruence.
Qed.

Lemma claims_are_exclusive_witness :
  exists row, plan_task Demo.running !! ("p", "t1") = Some row /\ owned_by 4 "a1" row = true.
Proof.
  exact (proj2 (claims_are_exclusive Demo.seed Demo.running "p" "t1" "a1" "a1" _ _
    wf_seed reachable_running ltac:(vm_compute; reflexivity) ltac:(vm_compute; reflexivity)
    ltac:(vm_compute; reflexivity) ltac:(vm_compute; reflexivity) ltac:(vm_compute; reflexivity)
    ltac:(vm_compute; reflexivity) ltac:(vm_compute; reflexivity) ltac:(vm_compute; reflexivity))).
Defined.

(** C5. Fencing: once a plan's execution epoch has advanced past [e], no
    operation that presents [e] (a claim, an attempt step, a receipt, a
    completion or a recovery) ever succeeds or changes the database again. *)
Theorem stale_epochs_are_fenced db0 (s : Conn Db) o p e current :
  wf_db db0 -> select_current_epoch p db0 = Some current -> e < current ->
  reachable db0 (committed s) -> working s = None -> op_typed o -> fence o = Some (p, e) ->
  is_ok (run_op o s).1 = false /\ committed (run_op o s).2 = committed s.
Proof.
  intros Hwf0 Hcur Hlt Hr Hw Hty Hf. pose proof (reachable_wf _ _ Hwf0 Hr) as Hwf.
  destruct (reachable_epochs _ _ _ _ Hwf0 Hr Hcur) as (e'&He'&Hle).
  pose proof (call_outcome s o Hw Hwf Hty) as Hout.
  destruct (run_op o s) as [[u|err] s']; simpl in *; [|done].
  destruct Hout as [_ Hstep]. apply (step_fence _ _ _ _ _ Hstep) in Hf.
  rewrite He' in Hf. injection Hf as ->. lia.
Qed.

Lemma stale_epochs_are_fenced_witness :
  is_ok (run_op (OpSucceeded "p" "t1" 3 "a1") (Demo.conn Demo.running)).1 = false.
Proof.
  exact (proj1 (stale_epochs_are_fenced Demo.running (Demo.conn Demo.running)
    (OpSucceeded "p" "t1" 3 "a1") "p" 3 4 wf_running ltac:(vm_compute; reflexivity)
    ltac:(vm_compute; reflexivity) (reach_start _) eq_refl
    ltac:(vm_compute; split; discriminate) eq_refl)).
Defined.

(** C7. The task state machine: no operation removes a task, and the state of a
    task only changes along [IsValidTransition]. *)
Theorem task_states_follow_transitions (s : Conn Db) o p t row :
  wf_db (committed s) -> working s = None -> op_typed o ->
  plan_task (committed s) !! (p, t) = Some row ->
  exists row', plan_task (committed (run_op o s).2) !! (p, t) = Some row' /\
    (row' = row \/ exists st st', row_state row = to_int st /\ row_state row' = to_int st'
       /\ TaskState.IsValidTransition st st' = true).
Proof.
  intros Hwf Hw Hty Hrow. pose proof (call_outcome s o Hw Hwf Hty) as Hout.
  destruct (run_op o s) as [[u|e] s']; simpl in *; [|rewrite Hout; eauto].
  destruct Hout as [_ Hstep]. by eapply step_row.
Qed.

Lemma task_states_follow_transitions_witness :
  exists row row', plan_task Demo.ready !! ("p", "t1") = Some row
    /\ plan_task Demo.running !! ("p", "t1") = Some row' /\ row' <> row.
Proof.
  destruct (plan_task Demo.ready !! ("p", "t1")) as [row|] eqn:Hrow; [|vm_compute in Hrow; discriminate].
  destruct (task_states_follow_transitions (Demo.conn Demo.ready) (OpClaim "p" 4 (Some "a1")) "p" "t1" row
    wf_ready eq_refl ltac:(vm_compute; split; discriminate) Hrow) as (row'&Hrow'&_).
  exists row, row'. split; [reflexivity|]. split; [exact Hrow'|].
  intros ->. vm_compute in Hrow, Hrow'. rewrite <- Hrow in Hrow'. discriminate.
Defined.

(** A task that SUCCEEDED or was found INCONSISTENT is settled: whatever
    operations follow, its row never changes again. *)
Lemma settled_tasks_never_change db0 db p t row :
  wf_db db0 -> reachable db0 db -> plan_task db0 !! (p, t) = Some row ->
  row_state row = to_int TaskState.kSucceeded \/ row_state row = to_int TaskState.kInconsistent ->
  plan_task db !! (p, t) = Some row.
Proof.
  intros Hwf Hr Hrow Hst.
  apply (reachable_rel (fun _ b => plan_task b !! (p, t) = Some row) db0 db); try done.
  intros db1 o db2 Hwf1 Hrow1 Hstep.
  destruct (step_row _ _ _ _ _ _ Hwf1 Hstep Hrow1) as (row'&Hrow'&[->|(st&st'&Heq&_&Hv)]); [done|].
  rewrite Heq in Hst. by destruct Hst as [->%to_int_inj| ->%to_int_inj].
Qed.

Lemma settled_tasks_never_change_witness :
  let done_ := Demo.after Demo.running (OpSucceeded "p" "t1" 4 "a1") in
  let next := Demo.after done_ (OpClaim "p" 4 None) in
  plan_task next !! ("p", "t1") = plan_task done_ !! ("p", "t1").
Proof.
  intros done_ next.
  destruct (plan_task done_ !! ("p", "t1")) as [row|] eqn:Hrow; [|vm_compute in Hrow; discriminate].
  apply (settled_tasks_never_change done_ next "p" "t1" row).
  - apply (reachable_wf Demo.running); [apply wf_running|]. apply reachable_after; [|constructor].
    vm_compute; split; discriminate.
  - apply reachable_after; [|constructor]. vm_compute; split; discriminate.
  - exact Hrow.
  - left. vm_compute in Hrow. injection Hrow as <-. reflexivity.
Defined.

(** ClaimNextReady is fair and total: with the plan's current epoch and a
    connection that does not fail, it hands out the least READY task all of
    whose prerequisites succeeded, now RUNNING for the caller's epoch and
    attempt with its attempt count increased by one. *)
Lemma claim_hands_out_least_ready (s : Conn Db) p e oa t row :
  faults s = [] -> working s = None -> wf_db (committed s) -> is_uint64 e ->
  valid_ids p "claim" -> valid_claim e (default "generated" oa) ->
  select_current_epoch p (committed s) = Some e ->
  eligible (committed s) p t -> (forall u, eligible (committed s) p u -> String.le t u) ->
  plan_task (committed s) !! (p, t) = Some row -> row_attempt_count row < uint32_max ->
  let a := default (generated_attempt_id p t (row_attempt_count row)) oa in
  task_attempt (committed s) !! a = None ->
  (ClaimNextReadyImpl p e oa s).1 =
    Ok (mkClaimed t (mkTaskRuntime t TaskState.kRunning e (Some a) (row_attempt_count row + 1) None)).
Proof.
  intros Hf Hw Hwf Hty Hids Hcl Hcur Hel Hleast Hrow Hmax a Hfresh.
  pose proof (claim_epoch_range e _ Hty Hcl).
  pose proof (least_eligible _ _ _ Hel Hleast) as Hsel.
  destruct (wf_tasks _ Hwf _ _ _ Hrow) as [Hp Ht _ _ Hcount _].
  pose proof Hcl as (_&_&Ha)%valid_claim_facts.
  assert (completes (ClaimNextReadyImpl p e oa) (fun c _ => c = mkClaimed t
    (mkTaskRuntime t TaskState.kRunning e (Some a) (row_attempt_count row + 1) None)) (committed s)) as Hc.
  { unfold ClaimNextReadyImpl. completes_run.
    eapply (twp_ClaimBody p e oa t row); try done; [lia|lia| |].
    - apply bool_decide_eq_false. fold a. rewrite Hfresh. by intros [? ?].
    - destruct oa; [done|]. by apply generated_attempt_id_clean. }
  destruct (Hc s Hf Hw eq_refl) as (c&s'&->&_&_&->). done.
Qed.

Lemma claim_hands_out_least_ready_witness :
  (ClaimNextReadyImpl "p" 4 None (Demo.conn Demo.ready)).1 =
    Ok (mkClaimed "t1" (mkTaskRuntime "t1" TaskState.kRunning 4 (Some "attempt-p-t1-1") 1 None)).
Proof.
  assert (forall u, eligible Demo.ready "p" u -> u = "t1") as Honly.
  { intros u Hu. apply eligible_claimable in Hu.
    assert (claimable_ids "p" Demo.ready = ["t1"]) as Hids by (vm_compute; reflexivity).
    rewrite Hids in Hu. by apply list_elem_of_singleton in Hu. }
  destruct (plan_task Demo.ready !! ("p", "t1")) as [row|] eqn:Hrow; [|vm_compute in Hrow; discriminate].
  assert (row_attempt_count row = 0) as Hcount by (vm_compute in Hrow; injection Hrow as <-; reflexivity).
  pose proof (claim_hands_out_least_ready (Demo.conn Demo.ready) "p" 4 None "t1" row
    eq_refl eq_refl wf_ready ltac:(vm_compute; split; discriminate)
    ltac:(vm_compute; reflexivity) ltac:(vm_compute; reflexivity) ltac:(vm_compute; reflexivity)) as H.
  rewrite Hcount in H. apply H.
  - apply eligible_claimable. apply list_elem_of_In. vm_compute. left. reflexivity.
  - intros u Hu. rewrite (Honly u Hu). reflexivity.
  - exact Hrow.
  - reflexivity.
  - vm_compute. reflexivity.
Defined.

(** Execution epochs are fencing tokens: an acquisition returns the plan's
    epoch plus one, stores it, stays in SQLite's integer range, and no later
    acquisition for the plan returns the same or a smaller one. *)
Lemma epochs_strictly_increase (s1 s2 s1' s2' : Conn Db) p e1 e2 :
  wf_db (committed s1) -> working s1 = None -> working s2 = None ->
  AcquireNextExecutionEpoch p s1 = (Ok e1, s1') -> reachable (committed s1') (committed s2) ->
  AcquireNextExecutionEpoch p s2 = (Ok e2, s2') ->
  0 < e1 < e2 /\ e2 <= int64_max
  /\ select_current_epoch p (committed s1) = Some (e1 - 1)
  /\ select_current_epoch p (committed s2') = Some e2.
Proof.
  assert (forall s e s', wf_db (committed s) -> working s = None ->
    AcquireNextExecutionEpoch p s = (Ok e, s') -> 0 < e <= int64_max /\ wf_db (committed s')
      /\ select_current_epoch p (committed s) = Some (e - 1)
      /\ select_current_epoch p (committed s') = Some e) as Hacq.
  { intros s e s' Hwf Hw Hrun.
    assert (commits (AcquireNextExecutionEpoch p) (fun e db' => 0 < e <= int64_max /\ wf_db db' /\
      select_current_epoch p (committed s) = Some (e - 1) /\ select_current_epoch p db' = Some e)
      (committed s)) as Hc.
    { unfold AcquireNextExecutionEpoch. commits_run. apply wp_AcquireBody.
      intros pr m Hpr Hm Hx. split_and!; [lia|lia|by eapply wf_acquired| |].
      - apply select_current_epoch_Some. exists pr, m. split_and!; [done|done|lia].
      - rewrite epoch_updated_lookup, Hpr. by rewrite decide_True. }
    by destruct (Hc s e s' Hw eq_refl Hrun). }
  intros Hwf Hw1 Hw2 Hrun1 Hr Hrun2.
  destruct (Hacq _ _ _ Hwf Hw1 Hrun1) as (?&Hwf1&Hold&Hnew).
  destruct (reachable_epochs _ _ _ _ Hwf1 Hr Hnew) as (e'&He'&Hle).
  destruct (Hacq _ _ _ (reachable_wf _ _ Hwf1 Hr) Hw2 Hrun2) as (?&_&Hold2&Hnew2).
  rewrite Hold2 in He'. injection He' as <-. split_and!; [lia|lia|lia|done|done].
Qed.

Lemma epochs_strictly_increase_witness : 0 < 5 < 6.
Proof.
  pose (s1 := Demo.conn Demo.ready). pose (s1' := (AcquireNextExecutionEpoch "p" s1).2).
  exact (proj1 (epochs_strictly_increase s1 s1' s1' _ "p" 5 6 wf_ready eq_refl
    ltac:(vm_compute; reflexivity) ltac:(vm_compute; reflexivity) (reach_start _)
    ltac:(vm_compute; reflexivity))).
Defined.

(** C8. AddDependency decides cycles exactly: on a connection that does not
    fail, an edge between different tasks is refused as closing a cycle when
    and only when the prerequisite already depends, directly or not, on the
    task. *)
Theorem dependency_cycles_detected_exactly (s : Conn Db) p t d :
  faults s = [] -> working s = None -> valid_ids p t -> valid_ids p d -> t <> d ->
  (AddDependency p t d s).1 = Err (Invalid "task graph dependency would create a cycle")
  <-> rtc (depends (committed s) p) d t.
Proof.
  intros Hf Hw Ht Hd Hne.
  assert (current_db s = committed s) as Hcur by (unfold current_db; by rewrite Hw).
  rewrite <- ancestors_spec. unfold AddDependency, prepare, BindText, bind_call.
  rewrite !run_require_ok, run_require by done.
  rewrite (proj2 (bool_decide_eq_false (t = d)) Hne). cbn [negb].
  rewrite !run_api, run_select, Hcur, run_require by done.
  destruct (select_cycle p t d (committed s)) eqn:Hcyc; cbn [negb].
  - apply bool_decide_eq_true in Hcyc. done.
  - apply bool_decide_eq_false in Hcyc. split; [|done]. intros Herr. exfalso. revert Herr.
    rewrite !run_api by done. unfold bind, run_dml, step_dml, require. rewrite next_fault_quiet by done.
    destruct (insert_dependency_row p t d (current_db s)) as [[w n]|]; [|by intros [=]].
    simpl. by destruct (changes (write_db w n s) =? 0); intros [=].
Qed.

Lemma dependency_cycles_detected_exactly_witness :
  (AddDependency "p" "t1" "t2" (Demo.conn Demo.ready)).1 =
    Err (Invalid "task graph dependency would create a cycle").
Proof.
  apply (dependency_cycles_detected_exactly (Demo.conn Demo.ready) "p" "t1" "t2"
    eq_refl eq_refl eq_refl eq_refl ltac:(discriminate)).
  apply rtc_once. apply elem_of_elements, list_elem_of_In. vm_compute. left. reflexivity.
Defined.
