(* ===== verification/ReceiptTheorems.v ===== *)
(** * ReceiptTheorems: durable evidence

    What the receipt table guarantees the recovery procedure: a persisted
    receipt is read back unchanged by every later reader, and cannot be
    replaced.  The last theorem records how far the lifecycle of attempts is
    enforced. *)

From S2P Require Import Prelude Status Bytes RelativePath Task Reconciler Sqlite Logic Tables TaskRepository RepositorySpec RepositoryRefine RepositoryInvariant RepositoryTotal RepositoryTheorems.

Lemma reachable_receipts db0 db k r :
  wf_db db0 -> reachable db0 db -> verified_receipt db0 !! k = Some r ->
  verified_receipt db !! k = Some r.
Proof.
  intros Hwf Hr Hk.
  apply (reachable_rel (fun _ b => verified_receipt b !! k = Some r) db0 db); try done.
  intros db1 o db2 _ H1 Hstep. by eapply step_receipts.
Qed.

(** The row a successful PersistVerifiedReceipt leaves reads back as the receipt. *)
Lemma persisted_row (s s' : Conn Db) p r u :
  wf_db (committed s) -> working s = None -> op_typed (OpPersist p r) ->
  PersistVerifiedReceipt no_batch p r s = (Ok u, s') ->
  let t := VerifiedReceipt.task_id r in let a := VerifiedReceipt.attempt_id r in
  valid_ids p t /\ clean_id a /\ wf_db (committed s') /\ exists row,
    verified_receipt (committed s') !! (p, t, a) = Some row /\ receipt_of_row t a row = Ok r.
Proof.
  intros Hwf Hw Hty Hrun t a.
  destruct (commits_run_op (OpPersist p r) _ Hwf Hty s u s' Hw eq_refl Hrun) as [_ Hstep].
  pose proof (wf_step _ _ _ Hwf Hty Hstep) as Hwf'.
  inversion Hstep as [| | | | |o1 ? ? ? ? ? ? ? ? ? ? ? Ho|o1 ? ? ? ? ? ? ? ? ? Ho|o1 ? ? ? ? ? ? ? ? ? ? Ho
    |o1 ? ? ? ? ? ? ? ? ? ? ? ? ? ? Ho
    |p1 r1 sd si row att now t1 a1 e1 Hids Hclaim Hsd Hsi Htemp Hfin Hsize Hcur Howns Hnone Heqo Heqdb
    |p1 r1 sd si row att rrow t1 a1 e1 Hids Hclaim Hsd Hsi Htemp Hfin Hsize Hcur Howns Hrow Hok Heqo Heqdb];
    try discriminate Ho; clear Hstep; subst.
  - destruct Hty as (Hty&Hsz&Hid). pose proof (claim_epoch_range _ _ Hty Hclaim).
    pose proof Hclaim as (_&_&Ha)%valid_claim_facts.
    pose proof Hids as [_ [_ Ht]]%valid_ids_clean.
    do 3 (split; [first [done | by rewrite Heqdb]|]). exists (row_of_receipt r sd si). split.
    + apply lookup_insert_eq.
    + apply receipt_of_persisted; try done; [by apply Hid|by destruct Ha|destruct Hsz; lia].
  - pose proof Hclaim as (_&_&Ha)%valid_claim_facts.
    do 2 (split; [done|]). split; [done|]. by exists rrow.
Qed.

(** Receipts are durable evidence: after PersistVerifiedReceipt succeeded,
    whatever operations and failures follow, ReadVerifiedReceipt on a
    connection that does not fail returns exactly the receipt that was
    persisted, every field included. *)
Lemma receipts_round_trip (s s' s2 : Conn Db) p r :
  wf_db (committed s) -> working s = None -> op_typed (OpPersist p r) ->
  PersistVerifiedReceipt no_batch p r s = (Ok tt, s') ->
  reachable (committed s') (committed s2) -> faults s2 = [] -> working s2 = None ->
  (ReadVerifiedReceipt p (VerifiedReceipt.task_id r) (VerifiedReceipt.attempt_id r) s2).1 = Ok r.
Proof.
  intros Hwf Hw Hty Hrun Hr Hf2 Hw2.
  destruct (persisted_row s s' p r tt Hwf Hw Hty Hrun) as (Hids&[Hne Hnul]&Hwf'&row&Hrow&Hok).
  apply (reachable_receipts _ _ _ _ Hwf' Hr) in Hrow.
  unfold ReadVerifiedReceipt, prepare, BindText, bind_call.
  rewrite run_require_ok, run_require by done.
  rewrite (proj2 (str_empty_false _) Hne), Hnul. cbn [orb negb].
  rewrite !run_api, run_select by done.
  replace (current_db s2) with (committed s2) by (unfold current_db; by rewrite Hw2).
  unfold select_receipt. by rewrite Hrow, <- Hok.
Qed.

Lemma committed_conn db : committed (Demo.conn db) = db.
Proof. done. Qed.

Lemma receipts_round_trip_witness :
  let s' := (PersistVerifiedReceipt no_batch "p" (Demo.receipt 3) (Demo.conn Demo.running)).2 in
  let s2 := (run_op (OpSucceeded "p" "t1" 4 "a1") (Demo.conn (committed s'))).2 in
  (ReadVerifiedReceipt "p" "t1" "a1" (Demo.conn (committed s2))).1 = Ok (Demo.receipt 3).
Proof.
  intros s' s2.
  apply (receipts_round_trip (Demo.conn Demo.running) s' (Demo.conn (committed s2)) "p" (Demo.receipt 3)).
  - exact wf_running.
  - reflexivity.
  - apply Demo_receipt_typed. vm_compute; split; discriminate.
  - vm_compute. reflexivity.
  - rewrite committed_conn. refine (reach_call (committed s') (Demo.conn (committed s'))
      (OpSucceeded "p" "t1" 4 "a1") _ eq_refl _); [|vm_compute; split; discriminate].
    rewrite committed_conn. apply reach_start.
  - reflexivity.
  - reflexivity.
Defined.

(** Evidence cannot be replaced: once a receipt is persisted for an attempt,
    persisting a different one for it never succeeds, at any later time. *)
Lemma receipts_cannot_be_replaced (s s' s2 : Conn Db) p r r2 :
  wf_db (committed s) -> working s = None -> op_typed (OpPersist p r) ->
  PersistVerifiedReceipt no_batch p r s = (Ok tt, s') ->
  reachable (committed s') (committed s2) -> working s2 = None -> op_typed (OpPersist p r2) ->
  VerifiedReceipt.task_id r2 = VerifiedReceipt.task_id r ->
  VerifiedReceipt.attempt_id r2 = VerifiedReceipt.attempt_id r -> r2 <> r ->
  is_ok (PersistVerifiedReceipt no_batch p r2 s2).1 = false.
Proof.
  intros Hwf Hw Hty Hrun Hr Hw2 Hty2 Ht Ha Hne.
  destruct (persisted_row s s' p r tt Hwf Hw Hty Hrun) as (_&_&Hwf'&row&Hrow&Hok).
  apply (reachable_receipts _ _ _ _ Hwf' Hr) in Hrow.
  pose proof (reachable_wf _ _ Hwf' Hr) as Hwf2.
  destruct (PersistVerifiedReceipt no_batch p r2 s2) as [[u|e] s2'] eqn:Hrun2; [|done].
  exfalso. apply Hne.
  destruct (commits_run_op (OpPersist p r2) _ Hwf2 Hty2 s2 u s2' Hw2 eq_refl Hrun2) as [_ Hstep].
  apply (step_receipts _ _ _ _ _ Hstep) in Hrow.
  destruct (persisted_row s2 s2' p r2 u Hwf2 Hw2 Hty2 Hrun2) as (_&_&_&row2&Hrow2&Hok2).
  rewrite Ht, Ha, Hrow in Hrow2. injection Hrow2 as <-. rewrite Ht, Ha, Hok in Hok2. congruence.
Qed.

Lemma receipts_cannot_be_replaced_witness :
  let s' := (PersistVerifiedReceipt no_batch "p" (Demo.receipt 3) (Demo.conn Demo.running)).2 in
  is_ok (PersistVerifiedReceipt no_batch "p" (Demo.receipt 4) (Demo.conn (committed s'))).1 = false.
Proof.
  intros s'.
  apply (receipts_cannot_be_replaced (Demo.conn Demo.running) s' (Demo.conn (committed s')) "p"
    (Demo.receipt 3) (Demo.receipt 4)).
  - exact wf_running.
  - reflexivity.
  - apply Demo_receipt_typed. vm_compute; split; discriminate.
  - vm_compute. reflexivity.
  - rewrite committed_conn. apply reach_start.
  - reflexivity.
  - apply Demo_receipt_typed. vm_compute; split; discriminate.
  - reflexivity.
  - reflexivity.
  - discriminate.
Defined.

(** File identities survive the database: decoding the 49-byte blob of an
    identity whose fields fit their C++ types gives the identity back, with
    the sign of its timestamps and the absence of a mount id. *)
Lemma identity_blob_round_trip i :
  wf_identity i -> DecodeIdentity (EncodeIdentity i) = Ok i.
Proof. apply identity_decodes. Qed.

Lemma identity_blob_round_trip_witness :
  DecodeIdentity (EncodeIdentity (FileIdentity.mk 1 2 3 (-4) 5 None)) =
    Ok (FileIdentity.mk 1 2 3 (-4) 5 None).
Proof.
  apply (identity_blob_round_trip (FileIdentity.mk 1 2 3 (-4) 5 None)).
  vm_compute. intuition discriminate.
Defined.

(** The attempt lifecycle is not enforced at completion: MarkSucceeded takes
    a freshly claimed attempt from RUNNING straight to COMMITTED, with no
    commit intent, no temporary file and no receipt recorded, a move that
    [IsValidTransition] refuses. *)
Lemma completion_skips_attempt_lifecycle :
  let s := Demo.conn Demo.running in
  let db' := committed (MarkSucceeded no_batch "p" "t1" 4 "a1" s).2 in
  wf_db Demo.running /\ is_ok (MarkSucceeded no_batch "p" "t1" 4 "a1" s).1 = true
  /\ (att_file_state <$> task_attempt Demo.running !! "a1")
       = Some (Some (to_int FileAttemptState.kRunning))
  /\ (att_file_state <$> task_attempt db' !! "a1") = Some (Some (to_int FileAttemptState.kCommitted))
  /\ verified_receipt db' !! ("p", "t1", "a1") = None
  /\ FileAttemptState.IsValidTransition FileAttemptState.kRunning FileAttemptState.kCommitted = false.
Proof.
  split; [apply wf_running|]. split_and!; vm_compute; reflexivity.
Qed.
