(* ===== verification/DbWriterTheorems.v ===== *)
(** * DbWriterTheorems: batching changes nothing but the number of commits

    The batches the writer takes, the equivalence of a batch with the
    sequential execution of its commands, and the life of the shared state
    over every interleaving: FIFO order, one outcome per accepted command, no
    promise left behind. *)

From S2P Require Import Prelude Status Bytes RelativePath Task Reconciler Sqlite Logic Tables TaskRepository DbWriter RepositorySpec RepositoryRefine RepositoryInvariant RepositoryTotal RepositoryTheorems.

(** The store operation a command stands for. *)
Definition op_of (command : Command) : Op :=
  match command with
  | Claim p e => OpClaim p e None
  | CommitIntent p t a e => OpCommitIntent p t e a
  | TempWritten p t a e => OpTempWritten p t e a
  | Receipt p r => OpPersist p r
  | Retryable p t a e err => OpRetryable p t e a err
  end.

Definition command_typed (c : Command) : Prop := op_typed (op_of c).

(** The operations of a list, one abstract step each, in order. *)
Inductive op_steps : list Op -> Db -> Db -> Prop :=
| op_steps_nil db : op_steps [] db db
| op_steps_cons o os db db1 db2 :
    op_step db o db1 -> op_steps os db1 db2 -> op_steps (o :: os) db db2.

(** ** The batch taken from the queue *)

Definition batch_member (kind : Z) (plan_id : string) (epoch : Z) (task : string) (e : Entry) : Prop :=
  command_key e.2 = Some (kind, plan_id, task, epoch).

Definition extension room kind p ep (tasks : list string) (batch queue batch' rest : list Entry) : Prop :=
  exists new ts, batch' = batch ++ new /\ queue = new ++ rest /\ (length new <= room)%nat
    /\ Forall2 (batch_member kind p ep) ts new /\ NoDup ts /\ (forall t, t ∈ ts -> t ∉ tasks).

Lemma extension_stop room kind p ep tasks batch queue batch' rest :
  (batch, queue) = (batch', rest) -> extension room kind p ep tasks batch queue batch' rest.
Proof.
  intros [= <- <-]. exists [], []. rewrite app_nil_r. split; [done|]. split; [done|].
  split; [simpl; lia|]. split; [constructor|]. split; [constructor|].
  by intros t ?%elem_of_nil.
Qed.

Lemma extend_batch_spec room kind p ep tasks batch queue batch' rest :
  extend_batch room kind p ep tasks batch queue = (batch', rest) ->
  extension room kind p ep tasks batch queue batch' rest.
Proof.
  revert tasks batch queue. induction room as [|room IH]; intros tasks batch queue; simpl;
    [apply extension_stop|].
  destruct queue as [|entry queue]; [apply extension_stop|].
  destruct (command_key entry.2) as [[[[k p'] t'] e']|] eqn:Hkey; [|apply extension_stop].
  split_if; [apply extension_stop|].
  bool_hyps. subst. intros (new&ts&->&->&Hlen&Hall&Hnd&Hdis)%IH.
  exists (entry :: new), (t' :: ts). rewrite <- app_assoc. split; [done|]. split; [done|].
  split; [simpl; lia|]. split; [by constructor|]. split.
  - constructor; [|done]. intros Hin. apply Hdis in Hin. set_solver.
  - intros t [->|Hin]%elem_of_cons; [done|]. apply Hdis in Hin. set_solver.
Qed.

Lemma take_batch_spec max first queue batch rest :
  (1 <= max)%nat -> take_batch max first queue = (batch, rest) ->
  first :: queue = batch ++ rest /\ (1 <= length batch <= max)%nat
  /\ ((1 < length batch)%nat -> exists kind p ep ts,
        Forall2 (batch_member kind p ep) ts batch /\ NoDup ts).
Proof.
  intros Hmax. unfold take_batch.
  destruct (command_key first.2) as [[[[kind p] t] ep]|] eqn:Hkey;
    [|intros [= <- <-]; repeat split; simpl; lia].
  destruct (Nat.ltb_spec 1 max); [|intros [= <- <-]; repeat split; simpl; lia].
  intros (new&ts&->&->&Hlen&Hall&Hnd&Hdis)%extend_batch_spec. simpl. repeat split; try lia.
  intros _. exists kind, p, ep, (t :: ts). split; [by constructor|].
  constructor; [|done]. intros Hin. apply Hdis in Hin. set_solver.
Qed.

(** ** Errors are never OK *)

Definition honest {St A} (c : M St A) : Prop := forall s e s', c s = (Err e, s') -> ok e = false.

Lemma honest_ret {St A} (a : A) : honest (St := St) (ret a).
Proof. by intros s e s' [=]. Qed.
Lemma honest_bind {St A B} (c : M St A) (k : A -> M St B) :
  honest c -> (forall a, honest (k a)) -> honest (bind c k).
Proof.
  intros Hc Hk s e s'. unfold bind. destruct (c s) as [[a|e'] s1] eqn:Hcs; [apply Hk|].
  intros [= <- <-]. by eapply Hc.
Qed.
Lemma honest_throw {St A} e : ok e = false -> honest (St := St) (throw (A := A) e).
Proof. by intros He s e' s' [= <- <-]. Qed.
Lemma honest_require {St} b e : ok e = false -> honest (St := St) (require b e).
Proof. destruct b; intros; [apply honest_ret|by apply honest_throw]. Qed.
Lemma honest_require_ok {St} st : honest (St := St) (require_ok st).
Proof. unfold require_ok. destruct (ok st) eqn:?; [apply honest_ret|by apply honest_throw]. Qed.
Lemma honest_lift {St A} (x : StatusOr A) : (forall e, x = Err e -> ok e = false) -> honest (St := St) (lift x).
Proof. intros Hx s e s' [= -> <-]. by apply Hx. Qed.
Lemma honest_api {DB} err : (forall m, ok (err m) = false) -> honest (api_call (DB := DB) err).
Proof.
  intros He s e s'. unfold api_call. destruct (next_fault s) as [[f|] s1]; [|done].
  intros [= <- <-]. apply He.
Qed.
Lemma honest_query {DB A} what (stmt : DB -> A) : honest (run_query what stmt).
Proof.
  intros s e s'. unfold run_query, step_query. destruct (next_fault s) as [[f|] s1]; [|done].
  by intros [= <- <-].
Qed.
Lemma honest_dml {DB} what (stmt : DB -> option (DB * Z)) : honest (run_dml what stmt).
Proof.
  intros s e s'. unfold run_dml, step_dml. destruct (next_fault s) as [[f|] s1]; [by intros [= <- <-]|].
  destruct (stmt _) as [[db n]|]; [done|]. by intros [= <- <-].
Qed.
Lemma honest_changes {DB} : honest (sqlite3_changes (DB := DB)).
Proof. by intros s e s' [=]. Qed.
Lemma honest_now {DB} : honest (CurrentTimeNanoseconds (DB := DB)).
Proof. by intros s e s' [=]. Qed.
Lemma honest_execute {DB} cmd : honest (Execute (DB := DB) cmd).
Proof.
  intros s e s'. unfold Execute, transact. destruct (next_fault s) as [[f|] s1]; [by intros [= <- <-]|].
  destruct cmd, (working s1); intros [=]; by subst.
Qed.
Lemma honest_or_rollback {DB A} (c : M (Conn DB) A) : honest c -> honest (OrRollback c).
Proof.
  intros Hc s e s'. unfold OrRollback, Rollback. destruct (c s) as [[a|e'] s1] eqn:Hcs; [done|].
  intros [= <- <-]. by eapply Hc.
Qed.
Lemma honest_transaction {DB A} (c : M (Conn DB) A) : honest c -> honest (Transaction c).
Proof.
  intros Hc. apply honest_bind; [apply honest_execute|intros _].
  apply honest_bind; [by apply honest_or_rollback|intros a].
  apply honest_bind; [apply honest_or_rollback, honest_execute|intros _; apply honest_ret].
Qed.

Ltac solve_honest :=
  repeat first
    [ apply honest_transaction | apply honest_or_rollback | apply honest_execute
    | apply honest_bind; [|intros ?]
    | apply honest_api; intros; reflexivity | apply honest_dml | apply honest_query
    | apply honest_ret | apply honest_throw; reflexivity | apply honest_require; reflexivity
    | apply honest_require_ok | apply honest_changes | apply honest_now
    | match goal with |- honest (match ?x with _ => _ end) => destruct x end ].

Lemma honest_bind_ok {A B} (x : StatusOr A) (k : A -> StatusOr B) e :
  (forall e, x = Err e -> ok e = false) -> (forall a, k a = Err e -> ok e = false) ->
  (let? a := x in k a) = Err e -> ok e = false.
Proof. destruct x as [a|e']; simpl; intros Hx Hk; [apply Hk|]. intros [= <-]. by apply Hx. Qed.

Lemma DecodeIdentity_honest b e : DecodeIdentity b = Err e -> ok e = false.
Proof. unfold DecodeIdentity. repeat (split_if; simpl; try by intros [= <-]). Qed.

Lemma receipt_of_row_honest t a row e : receipt_of_row t a row = Err e -> ok e = false.
Proof.
  unfold receipt_of_row. split_if; [by intros [= <-]|].
  destruct (digest_of_blob _); [|by intros [= <-]]. destruct (digest_of_blob _); [|by intros [= <-]].
  apply honest_bind_ok; [apply DecodeIdentity_honest|done].
Qed.

Lemma runtime_of_row_honest t row e : runtime_of_row t row = Err e -> ok e = false.
Proof.
  unfold runtime_of_row. destruct (of_int (to_int32 (row_state row))); [|by intros [= <-]].
  split_if; [by intros [= <-]|]. apply honest_bind_ok.
  - intros e'. destruct (row_owner_epoch row); [|done]. split_if; [by intros [= <-]|done].
  - intros owner. apply honest_bind_ok; [|done]. intros e'.
    destruct (row_last_error_code row) as [c|], (row_last_error_message row);
      try by intros [= <-]. cbv zeta.
    split_if; [by intros [= <-]|].
    destruct (of_int (E := StatusCode.t) (to_int32 c)); by intros [= <-].
Qed.

Lemma honest_op_of b c :
  match c with
  | Claim p e => honest (ClaimNextReady p e)
  | CommitIntent p t a e => honest (MarkCommitIntent b p t e a)
  | TempWritten p t a e => honest (MarkTempWritten b p t e a)
  | Receipt p r => honest (PersistVerifiedReceipt b p r)
  | Retryable p t a e err => honest (MarkRetryable b p t e a err)
  end.
Proof.
  destruct c;
    unfold ClaimNextReady, ClaimNextReadyImpl, ClaimBody, MarkCommitIntent, MarkTempWritten,
      PersistVerifiedReceipt, PersistBody, MarkRetryable, AdvanceAttempt, AdvanceAttemptBody,
      FinishTask, FinishTaskBody, in_transaction, CurrentEpoch, UpdateAttemptState, AppendTaskEvent,
      CheckTaskOwnership, ReadCurrentEpochForPlan, ReadVerifiedReceipt, ReadRuntimeWithStatement,
      bind_error, prepare, bind_call, BindText, BindBlob, BindEpoch;
    solve_honest.
  all: apply honest_lift; intros ? ?;
    first [by eapply runtime_of_row_honest | by eapply receipt_of_row_honest].
Qed.

(** ** One command inside a batch *)

(** The operation of a command that may join a batch. *)
Definition command_op (b : WriteBatch) (c : Command) : op unit :=
  match c with
  | Claim p e => let* _ := ClaimNextReady p e in ret tt
  | CommitIntent p t a e => MarkCommitIntent b p t e a
  | TempWritten p t a e => MarkTempWritten b p t e a
  | Receipt p r => PersistVerifiedReceipt b p r
  | Retryable p t a e err => MarkRetryable b p t e a err
  end.

Definition batchable (p : string) (c : Command) : Prop :=
  is_Some (command_key c) /\ (batch_identity c).1 = p.

Lemma wp_batched_complete o p t e a st err e0 w n :
  wf_db w -> is_uint64 e -> (forall s, err = Some s -> ok s = false) ->
  completion o = Some (p, t, e, a, st, err) ->
  (st = TaskState.kSucceeded \/ st = TaskState.kRetryable) ->
  valid_ids p t -> valid_claim e a -> select_current_epoch p w = Some e0 ->
  wp (FinishTask p t e a st err (Some e0)) (fun _ w' _ => op_step w o w') w n.
Proof.
  intros Hwf Hty Herr Ho Hst Hids Hclaim Hcur. pose proof (claim_epoch_range e a Hty Hclaim).
  unfold FinishTask, in_transaction. apply wp_or_rollback, wp_FinishTaskBody; [lia| |done|].
  - by intros ? [= <-].
  - intros row att fin now Hcur' Howns. by eapply step_complete.
Qed.

Lemma wp_batched_advance o p t e a st name e0 w n :
  wf_db w -> is_uint64 e -> advancing o = Some (p, t, e, a, st, name) ->
  valid_ids p t -> valid_claim e a -> select_current_epoch p w = Some e0 ->
  wp (AdvanceAttempt p t e a st name (Some e0)) (fun _ w' _ => op_step w o w') w n.
Proof.
  intros Hwf Hty Ho Hids Hclaim Hcur. pose proof (claim_epoch_range e a Hty Hclaim).
  unfold AdvanceAttempt, in_transaction. apply wp_or_rollback, wp_AdvanceAttemptBody; [done|lia| |].
  - by intros ? [= <-].
  - intros row att persisted previous Hcur' Howns Hper Hprev.
    destruct (bool_decide_reflect (previous = st)) as [->|].
    + by eapply step_advance_again.
    + intros Hvalid now. by eapply step_advance.
Qed.

Lemma wp_batched p e0 c w n :
  wf_db w -> command_typed c -> batchable p c -> select_current_epoch p w = Some e0 ->
  wp (command_op (mkWriteBatch true p e0) c) (fun _ w' _ => op_step w (op_of c) w') w n.
Proof.
  intros Hwf Hty [Hkey <-] Hcur.
  assert (forall q, BatchedEpochFor (mkWriteBatch true q e0) q = Some e0) as Hbatch.
  { intros q. unfold BatchedEpochFor. simpl. by rewrite bool_decide_eq_true_2. }
  destruct c as [p e|p t a e|p t a e|p r|p t a e err]; simpl in *.
  - by destruct Hkey.
  - unfold MarkCommitIntent. wp_run. rewrite Hbatch. by apply wp_batched_advance.
  - unfold MarkTempWritten. wp_run. rewrite Hbatch. by apply wp_batched_advance.
  - destruct Hty as (Hty&Hsz&Hid). unfold PersistVerifiedReceipt. wp_run.
    match goal with H : ok (CheckEpochAttempt _ _) = true |- _ =>
      pose proof (claim_epoch_range _ _ Hty H) end.
    destruct (VerifiedReceipt.source_digest r) as [sd|] eqn:Hsd; [|wp_run].
    destruct (VerifiedReceipt.source_identity r) as [si|] eqn:Hsi; [|wp_run].
    wp_run. rewrite Hbatch. unfold in_transaction. bool_hyps.
    apply wp_or_rollback, wp_PersistBody; [done|lia|by intros ? [= <-]| |].
    + intros row att rrow ? Howns Hrow Hr. eapply step_persist_again; try done; by apply str_empty_false.
    + intros row att now ? Howns Hnone. eapply step_persist; try done; by apply str_empty_false.
  - unfold MarkRetryable. wp_run. bool_hyps. rewrite Hbatch.
    apply wp_batched_complete; auto. by intros s [= <-].
Qed.

Lemma txn_safe_or_rollback {DB A} (c : M (Conn DB) A) : txn_safe c -> txn_safe (OrRollback c).
Proof.
  intros Hc s Hw. destruct (Hc s Hw) as [Hcom Hopen]. unfold OrRollback, Rollback.
  destruct (c s) as [[a|e] s1]; simpl in *; [done|]. split; [|done].
  by rewrite execute_committed by (by left).
Qed.

Lemma txn_safe_command_op p e0 c :
  batchable p c -> txn_safe (command_op (mkWriteBatch true p e0) c).
Proof.
  intros [Hkey <-].
  assert (forall q, BatchedEpochFor (mkWriteBatch true q e0) q = Some e0) as Hbatch.
  { intros q. unfold BatchedEpochFor. simpl. by rewrite bool_decide_eq_true_2. }
  destruct c; simpl in *; [by destruct Hkey| | | |];
    unfold MarkCommitIntent, MarkTempWritten, PersistVerifiedReceipt, MarkRetryable;
    rewrite ?Hbatch; unfold AdvanceAttempt, FinishTask, in_transaction;
    repeat (apply txn_safe_bind; [solve [solve_shape]|intros ?]).
  1,2: apply txn_safe_or_rollback, txn_safe_AdvanceAttemptBody.
  - case_match; [|solve_shape]. case_match; [|solve_shape].
    repeat (apply txn_safe_bind; [solve [solve_shape]|intros ?]).
    apply txn_safe_or_rollback, txn_safe_PersistBody.
  - apply txn_safe_or_rollback, txn_safe_FinishTaskBody.
Qed.

Lemma step_same_epoch db o db' q :
  op_step db o db' -> (forall p, o <> OpAcquireEpoch p) ->
  select_current_epoch q db' = select_current_epoch q db.
Proof. intros Hstep Ho. destruct Hstep; try done. by destruct (Ho p). Qed.

Lemma batched_is_op b c p r :
  batchable p c -> batch r = b ->
  ExecuteBatchedOperation c r =
  let (x, k) := command_op b c (connection r) in (x, mkRepo b k).
Proof. intros [Hkey _] <-. by destruct c; [destruct Hkey| | | |]. Qed.

Lemma honest_command_op b c : honest (command_op b c).
Proof.
  pose proof (honest_op_of b c) as H. destruct c; try done.
  apply honest_bind; [done|intros ?; apply honest_ret].
Qed.

(** The loop of [ExecuteBatch] inside the transaction it opened. *)
Lemma run_commands_spec p e0 commands i r w :
  let b := mkWriteBatch true p e0 in
  batch r = b -> working (connection r) = Some w -> wf_db w ->
  select_current_epoch p w = Some e0 -> Forall (batchable p) commands -> Forall command_typed commands ->
  let (res, r') := run_commands i commands r in
  batch r' = b /\ committed (connection r') = committed (connection r) /\
  match res with
  | None => exists w', working (connection r') = Some w' /\ op_steps (op_of <$> commands) w w'
  | Some (j, st) => ok st = false /\ (i <= j < i + length commands)%nat
  end.
Proof.
  intros b. revert i r w. induction commands as [|c cs IH]; intros i r w Hb Hw Hwf Hcur Hbs Hts; simpl.
  { split_and!; [done..|]. exists w. split; [done|constructor]. }
  apply Forall_cons in Hbs as [Hc Hbs]. apply Forall_cons in Hts as [Ht Hts].
  rewrite (batched_is_op b c p r Hc Hb).
  pose proof (wp_batched p e0 c w (changes (connection r)) Hwf Ht Hc Hcur (connection r)) as Hwp.
  destruct (txn_safe_command_op p e0 c Hc (connection r)) as [Hcom _]; [congruence|].
  fold b in Hwp, Hcom.
  destruct (command_op b c (connection r)) as [[[]|st] k] eqn:Hrun; simpl in *.
  - destruct (Hwp tt k) as (Hopen&_&Hstep); [unfold current_db; by rewrite Hw|done..|].
    destruct (working k) as [w1|] eqn:Hk; [|by rewrite Hw in Hopen; destruct Hopen as [? _]; naive_solver].
    unfold current_db in Hstep. rewrite Hk in Hstep.
    assert (wf_db w1) by (by eapply wf_step).
    assert (select_current_epoch p w1 = Some e0).
    { rewrite (step_same_epoch _ _ _ p Hstep); [done|]. by destruct c. }
    specialize (IH (S i) (mkRepo b k) w1). simpl in IH.
    destruct (run_commands (S i) cs (mkRepo b k)) as [res r'].
    destruct IH as (?&Hcom'&Hres); [done..|].
    split; [done|]. split; [congruence|]. destruct res as [[j st]|].
    + destruct Hres. split; [done|lia].
    + destruct Hres as (w'&?&?). exists w'. split; [done|]. by econstructor.
  - split; [done|]. split; [done|]. split; [|lia]. by eapply honest_command_op.
Qed.

(** ** A whole batch *)

Lemma honest_BeginWriteBatch p e : honest (BeginWriteBatch p e).
Proof.
  unfold BeginWriteBatch.
  assert (forall (c : op unit), honest c -> honest (on_repo (fun _ => c))) as Hon.
  { intros c Hc r x r'. unfold on_repo. destruct (c (connection r)) as [[a|x'] k] eqn:Hck; [done|].
    intros [= <- <-]. by eapply Hc. }
  repeat (apply honest_bind; [|intros ?]); try apply honest_require_ok.
  - intros r. by apply honest_require.
  - apply Hon, honest_execute.
  - apply Hon, honest_or_rollback. unfold ReadCurrentEpochForPlan, prepare, BindText, bind_call.
    solve_honest.
  - by intros r x r' [=].
Qed.

Lemma txn_safe_read_epoch p e :
  txn_safe (OrRollback (
    let* current := ReadCurrentEpochForPlan p in
    require (current =? e) (Invalid "stale executor epoch cannot start a runtime write batch"))).
Proof.
  apply txn_safe_or_rollback, txn_safe_bind; [apply txn_safe_ReadCurrentEpochForPlan|].
  intros ?. apply txn_safe_require.
Qed.

Lemma BeginWriteBatch_spec p e r :
  batch r = no_batch ->
  let (res, r') := BeginWriteBatch p e r in
  committed (connection r') = committed (connection r) /\
  match res with
  | Ok _ => batch r' = mkWriteBatch true p e
      /\ working (connection r') = Some (committed (connection r))
      /\ select_current_epoch p (committed (connection r)) = Some e
  | Err st => ok st = false /\ batch r' = no_batch
  end.
Proof.
  intros Hb. pose proof (honest_BeginWriteBatch p e r) as Hhonest. revert Hhonest.
  unfold BeginWriteBatch.
  match goal with |- context [OrRollback ?c] => set (body := c) end.
  unfold bind, require at 1 2, require_ok. rewrite Hb. simpl.
  destruct (ok (CheckIds p "batch")) eqn:H1; simpl; [|intros H; split; [done|split; [by eapply H|done]]].
  destruct (ok (CheckEpochAttempt e "batch")) eqn:H2; simpl; [|intros H; split; [done|split; [by eapply H|done]]].
  unfold on_repo. destruct (begin_outcome (connection r)) as [Hok Hcom].
  destruct (Execute BEGIN_IMMEDIATE (connection r)) as [[[]|st] k] eqn:Hk; simpl in *.
  2:{ intros H. split; [done|split; [by eapply H|done]]. }
  destruct (Hok eq_refl) as [_ Hw].
  assert (committed (OrRollback body k).2 = committed k) as Hcom'.
  { by apply (txn_safe_read_epoch p e k); rewrite Hw. }
  assert (wp (OrRollback body) (fun _ w _ => w = committed (connection r)
     /\ select_current_epoch p w = Some e) (committed (connection r)) (changes k)) as Hwp.
  { unfold body. apply wp_or_rollback, wp_bind, wp_ReadCurrentEpochForPlan. intros cur Hcur _.
    wp_run. bool_hyps. by subst. }
  specialize (Hwp k tt).
  destruct (OrRollback body k) as [[[]|st] k'] eqn:Hk'; simpl in *.
  - intros _. destruct (Hwp k') as (Hopen&_&Hcur&He); [unfold current_db; by rewrite Hw|done..|].
    split; [congruence|]. split; [done|]. split; [|by rewrite <- Hcur].
    unfold current_db in Hcur. destruct (working k'); [by subst|]. rewrite Hw in Hopen. naive_solver.
  - intros H. split; [congruence|]. split; [by eapply H|done].
Qed.

(** What running a batch may do to the store: everything, in order, or
    nothing. *)
Definition all_or_nothing (commands : list Command) (r : Repo) (outs : list Outcome) (r' : Repo) : Prop :=
  length outs = length commands /\ batch r' = no_batch /\
  ((Forall (fun o => outcome_ok o = true) outs
      /\ op_steps (op_of <$> commands) (committed (connection r)) (committed (connection r')))
   \/ (Forall (fun o => outcome_ok o = false) outs
      /\ committed (connection r') = committed (connection r))).

Lemma Complete_failed c st : ok st = false -> outcome_ok (Complete c st) = false.
Proof. intros Hst. destruct c; try done. simpl. unfold StatusOr_of_status. by rewrite Hst. Qed.

Lemma outcomes_failed st commands :
  ok st = false -> Forall (fun o => outcome_ok o = false) ((fun c => Complete c st) <$> commands).
Proof. intros Hst. apply Forall_fmap, Forall_true. intros c. by apply Complete_failed. Qed.

Lemma outcomes_done p commands :
  Forall (batchable p) commands ->
  Forall (fun o => outcome_ok o = true) ((fun c => Complete c Status_Ok) <$> commands).
Proof.
  intros Hbs. apply Forall_fmap. eapply Forall_impl; [done|]. intros c [Hkey _]. simpl.
  destruct c; try done. by destruct Hkey.
Qed.

Lemma RollbackWriteBatch_spec r :
  committed (connection (RollbackWriteBatch r).2) = committed (connection r)
  /\ (write_batch_active (batch r) = true -> batch (RollbackWriteBatch r).2 = no_batch).
Proof.
  unfold RollbackWriteBatch. destruct (write_batch_active (batch r)); simpl; [|done].
  destruct (working (connection r)); simpl; [|done].
  pose proof (execute_committed ROLLBACK (connection r)) as H.
  destruct (Execute ROLLBACK (connection r)); simpl in *. split; [|done]. by apply H; left.
Qed.

Lemma ExecuteBatch_spec p e first rest r :
  let commands := first :: rest in
  batch_identity first = (p, e) -> batch r = no_batch -> wf_db (committed (connection r)) ->
  Forall (batchable p) commands -> Forall command_typed commands ->
  let (outs, r') := ExecuteBatch commands r in all_or_nothing commands r outs r'.
Proof.
  intros commands Hid Hb Hwf Hbs Hts. unfold ExecuteBatch. subst commands. cbv beta iota. rewrite Hid.
  remember (first :: rest) as commands eqn:E. clear E.
  pose proof (BeginWriteBatch_spec p e r Hb) as Hbegin.
  destruct (BeginWriteBatch p e r) as [[[]|st] r1] eqn:Hr1; simpl in Hbegin.
  2:{ destruct Hbegin as (Hcom&Hst&Hb1). split; [by rewrite length_fmap|]. split; [done|]. right.
      split; [by apply outcomes_failed|done]. }
  destruct Hbegin as (Hcom&Hb1&Hw1&Hcur).
  pose proof (run_commands_spec p e commands 0 r1 _ Hb1 Hw1 Hwf Hcur Hbs Hts) as Hrun.
  destruct (run_commands 0 commands r1) as [[[j st]|] r2]; simpl in Hrun.
  - destruct Hrun as (Hb2&Hcom2&Hst&Hj). destruct (RollbackWriteBatch_spec r2) as [Hcom3 Hb3].
    split; [by rewrite length_imap|]. split; [by apply Hb3; rewrite Hb2|]. right.
    split; [|congruence]. apply Forall_forall. intros o (i&c&->&_)%elem_of_lookup_imap.
    apply Complete_failed. by destruct (i =? j)%nat.
  - destruct Hrun as (Hb2&Hcom2&w'&Hw2&Hsteps). unfold CommitWriteBatch. rewrite Hb2. simpl negb.
    unfold CommitOrRollback, OrRollback.
    destruct (commit_outcome (connection r2)) as [Hok Herr]; [by rewrite Hw2|].
    pose proof (execute_committed ROLLBACK (Execute COMMIT (connection r2)).2) as Hroll.
    assert (forall u k, Execute COMMIT (connection r2) = (Ok u, k) -> committed k = w') as Hpub.
    { intros u k. unfold Execute, transact. destruct (next_fault (connection r2)) as [[f|] s] eqn:Hf; [done|].
      apply next_fault_none in Hf as (Hws&_&_&_). rewrite Hws, Hw2. by intros [= <- <-]. }
    pose proof (honest_execute (DB := Db) COMMIT (connection r2)) as Hhon.
    destruct (Execute COMMIT (connection r2)) as [[[]|st] k] eqn:Hk; simpl in *.
    + split; [by rewrite length_fmap|]. split; [done|]. left.
      split; [by apply (outcomes_done p)|]. simpl. by rewrite (Hpub tt k eq_refl).
    + unfold Rollback. destruct (Execute ROLLBACK k) as [? k2] eqn:Hk2; simpl in *.
      split; [by rewrite length_fmap|]. split; [done|]. right. split.
      * apply outcomes_failed. by eapply Hhon.
      * simpl. rewrite Hroll, Herr by (done || by left). congruence.
Qed.

(** ** A single command *)

(** [stuck c]: when a failed ROLLBACK left a transaction open, [c] returns an
    error and publishes nothing. *)
Definition stuck {DB A} (c : M (Conn DB) A) : Prop :=
  forall s, working s <> None -> is_ok (c s).1 = false /\ committed (c s).2 = committed s.

Lemma stuck_transaction {DB A} (body : M (Conn DB) A) : stuck (Transaction body).
Proof.
  intros s Hw. unfold Transaction, bind. destruct (begin_outcome s) as [Hok Hcom].
  destruct (Execute BEGIN_IMMEDIATE s) as [[[]|e] k]; simpl in *; [|done].
  by destruct (Hok eq_refl).
Qed.

Lemma stuck_bind {DB A B} (c : M (Conn DB) A) (k : A -> M (Conn DB) B) : stuck c -> stuck (bind c k).
Proof.
  intros Hc s Hw. destruct (Hc s Hw). unfold bind. by destruct (c s) as [[a|e] s1].
Qed.

Lemma stuck_guard {DB A B} (c : M (Conn DB) A) (k : A -> M (Conn DB) B) :
  (forall s, (c s).2 = s) -> (forall a, stuck (k a)) -> stuck (bind c k).
Proof.
  intros Hc Hk s Hw. unfold bind. specialize (Hc s).
  destruct (c s) as [[a|e] s1]; simpl in *; subst; [by apply Hk|done].
Qed.

Lemma stuck_throw {DB A} e : stuck (DB := DB) (throw (A := A) e).
Proof. by intros s Hw. Qed.

Ltac solve_guard :=
  intros ?; unfold require, require_ok;
  repeat match goal with |- context [if ?b then _ else _] => destruct b end; reflexivity.

Lemma stuck_command c : stuck (run_op (op_of c)).
Proof.
  destruct c; simpl;
    unfold ClaimNextReadyImpl, MarkCommitIntent, MarkTempWritten, MarkRetryable, PersistVerifiedReceipt,
      AdvanceAttempt, FinishTask, in_transaction;
    rewrite ?no_batch_epoch;
    [apply stuck_bind|..];
    repeat (apply stuck_guard; [solve_guard|intros ?]); try apply stuck_transaction.
  case_match; [|apply stuck_throw]. case_match; [|apply stuck_throw].
  repeat (apply stuck_guard; [solve_guard|intros ?]). apply stuck_transaction.
Qed.

Lemma Execute_command_run c r :
  batch r = no_batch ->
  outcome_ok (Execute_command c r).1 = is_ok (run_op (op_of c) (connection r)).1
  /\ (Execute_command c r).2 = mkRepo no_batch (run_op (op_of c) (connection r)).2.
Proof.
  intros Hb. pose proof (honest_op_of no_batch c) as Hhon.
  destruct c; simpl; unfold on_repo; rewrite Hb.
  1:{ unfold bind, ClaimNextReady.
      by destruct (ClaimNextReadyImpl plan_id epoch None (connection r)) as [[a|e] k]. }
  all: match goal with |- context [is_ok (?c ?s).1] =>
         destruct (c s) as [[[]|e] k] eqn:Hk end;
       simpl; [done|split; [by eapply Hhon|done]].
Qed.

Lemma Execute_command_spec c r :
  batch r = no_batch -> wf_db (committed (connection r)) -> command_typed c ->
  let (o, r') := Execute_command c r in all_or_nothing [c] r [o] r'.
Proof.
  intros Hb Hwf Hty. pose proof (Execute_command_run c r Hb) as [Ho Hr].
  destruct (Execute_command c r) as [o r']; simpl in *; subst r'.
  split; [done|]. split; [done|]. simpl.
  destruct (working (connection r)) as [w|] eqn:Hw.
  - right. destruct (stuck_command c (connection r)) as [He Hcom]; [by rewrite Hw|].
    split; [|done]. by repeat constructor; rewrite Ho.
  - pose proof (call_outcome (connection r) (op_of c) Hw Hwf Hty) as Hcall.
    destruct (run_op (op_of c) (connection r)) as [[u|e] k]; simpl in *.
    + left. destruct Hcall as [_ Hstep]. split; [by repeat constructor|].
      econstructor; [done|constructor].
    + right. split; [by repeat constructor|done].
Qed.
