(* ===== verification/DbWriterRuns.v ===== *)
(** * DbWriterRuns: the writer over every interleaving

    The steps of workers, [Stop], the writer thread and the other connections
    to the database, the invariant they keep, and what follows: every accepted
    command is answered exactly once and in order, a batch is applied whole or
    not at all, and after [Stop] the queue is drained. *)

From S2P Require Import Prelude Status Bytes RelativePath Task Reconciler Sqlite Logic Tables TaskRepository DbWriter RepositorySpec RepositoryRefine RepositoryInvariant RepositoryTotal RepositoryTheorems DbWriterTheorems.

Definition store (w : Writer) : Db := committed (connection (repository w)).

(** Another process publishes [db]. *)
Definition publish (db : Db) (w : Writer) : Writer :=
  let c := connection (repository w) in
  mkWriter (mkRepo (batch (repository w)) (mkConn db (working c) (changes c) (faults c) (times c)))
    (commands w) (max_batch_size w) (stopping w) (fatal w) (stats w) (thread w)
    (next_promise w) (accepted w) (completed w).

(** An exception leaves the store as it was, or as the whole batch left it. *)
Definition interrupted (batch : list Entry) (w : Writer) (r : Repo) : Prop :=
  committed (connection r) = store w
  \/ op_steps (op_of <$> (snd <$> batch)) (store w) (committed (connection r)).

Inductive writer_step : Writer -> Writer -> Prop :=
| step_call c w : command_typed c -> writer_step w (Call c w).2
| step_stop w : writer_step w (Stop w)
| step_take w w' : Take w = Some w' -> writer_step w w'
| step_work w w' : Work w = Some w' -> writer_step w w'
| step_throw w w' r what b :
    thread w = Working b -> interrupted b w r -> Throw r what w = Some w' -> writer_step w w'
| step_other w o db :
    working (connection (repository w)) = None -> op_typed o -> op_step (store w) o db ->
    writer_step w (publish db w).

(** ** The invariant *)

Definition in_flight (w : Writer) : list Entry :=
  match thread w with Working b => b | _ => [] end.

Definition ids (l : list Entry) : list nat := fst <$> l.

(** What a batch of the writer looks like. *)
Definition good_batch (max : nat) (b : list Entry) : Prop :=
  (1 <= length b <= max)%nat
  /\ ((1 < length b)%nat -> exists p, Forall (fun e => batchable p e.2) b).

Record writer_ok (w : Writer) : Prop := {
  wo_store : wf_db (store w);
  wo_batch : thread w <> Exited -> batch (repository w) = no_batch;
  wo_max : (1 <= max_batch_size w <= 16)%nat;
  wo_ids : ids (accepted w) = seq 0 (next_promise w);
  wo_fifo : ids (accepted w) = (fst <$> completed w) ++ ids (in_flight w) ++ ids (commands w);
  wo_typed : Forall (fun e => command_typed e.2) (in_flight w ++ commands w);
  wo_good : forall b, thread w = Working b -> good_batch (max_batch_size w) b;
  wo_exited : thread w = Exited -> commands w = [] /\ stopping w = true;
  wo_fatal : ok (fatal w) = false -> stopping w = true;
  wo_stats : accepted_commands (stats w) = Z.of_nat (length (accepted w))
    /\ (largest_batch (stats w) <= max_batch_size w)%nat
    /\ (ok (fatal w) = true -> command_count (stats w) = Z.of_nat (length (completed w)));
}.

Lemma Start_ok c max w :
  wf_db (committed c) -> Start c max = Ok w -> writer_ok w.
Proof.
  intros Hwf. unfold Start. destruct (Nat.eqb_spec max 0); [done|].
  destruct (Nat.ltb_spec 16 max); [done|]. intros [= <-].
  split; try done; simpl; try lia; try constructor.
  all: lia.
Qed.

Lemma member_batchable kind p ep t e : batch_member kind p ep t e -> batchable p e.2.
Proof.
  unfold batch_member. intros Hk. split; [by rewrite Hk|].
  destruct e.2; simpl in *; by simplify_eq.
Qed.

Lemma taken_good max first queue b rest :
  (1 <= max)%nat -> take_batch max first queue = (b, rest) ->
  first :: queue = b ++ rest /\ good_batch max b.
Proof.
  intros Hmax Htake. destruct (take_batch_spec _ _ _ _ _ Hmax Htake) as (Happ&Hlen&Hgood).
  split; [done|]. split; [done|]. intros Hmany. destruct (Hgood Hmany) as (k&p&ep&ts&Hall&_).
  exists p. clear -Hall. induction Hall; constructor; [by eapply member_batchable|done].
Qed.

Lemma op_steps_wf os db db' :
  wf_db db -> Forall op_typed os -> op_steps os db db' -> wf_db db'.
Proof.
  intros Hwf Hty Hsteps. induction Hsteps; [done|].
  apply Forall_cons in Hty as [??]. apply IHHsteps; [by eapply wf_step|done].
Qed.

Lemma batchable_identity p c : batchable p c -> (batch_identity c).1 = p.
Proof. by intros [_ ?]. Qed.

(** The writer's turn. *)
Lemma run_batch_spec max b r :
  good_batch max b -> batch r = no_batch -> wf_db (committed (connection r)) ->
  Forall (fun e => command_typed e.2) b ->
  let (outs, r') := run_batch b r in all_or_nothing (snd <$> b) r outs r'.
Proof.
  intros [Hlen Hmany] Hb Hwf Hty. unfold run_batch.
  destruct b as [|e [|e2 b]]; [simpl in Hlen; lia| |].
  - pose proof (Execute_command_spec e.2 r Hb Hwf) as H.
    apply Forall_cons in Hty as [Hty _]. specialize (H Hty).
    by destruct (Execute_command e.2 r).
  - destruct Hmany as [p Hbs]; [simpl; lia|].
    destruct (batch_identity e.2) as [q ep] eqn:Hid.
    assert (q = p) as ->.
    { apply Forall_cons in Hbs as [[_ Hq] _]. by rewrite Hid in Hq. }
    rewrite fmap_cons.
    apply (ExecuteBatch_spec p ep e.2 (snd <$> (e2 :: b)) r); try done;
      rewrite <- fmap_cons; by apply Forall_fmap.
Qed.

Lemma in_flight_working w b : thread w = Working b -> in_flight w = b.
Proof. unfold in_flight. by intros ->. Qed.

Lemma zip_ids (b : list Entry) (outs : list Outcome) :
  length outs = length b -> fst <$> zip (ids b) outs = ids b.
Proof. intros Hlen. apply fst_zip. unfold ids. rewrite length_fmap. by rewrite Hlen. Qed.

Lemma count_stats b s :
  (1 <= length b)%nat ->
  accepted_commands (count b s) = accepted_commands s
  /\ command_count (count b s) = command_count s + Z.of_nat (length b)
  /\ largest_batch (count b s) = (if (1 <? length b)%nat then Nat.max (largest_batch s) (length b)
                                   else largest_batch s).
Proof.
  intros Hlen. unfold count. destruct (Nat.ltb_spec 1 (length b)); simpl.
  - split_and!; [done|lia|]. destruct (Nat.ltb_spec (largest_batch s) (length b)); lia.
  - split_and!; [done|lia|done].
Qed.

Lemma enqueue_ok c w : writer_ok w -> command_typed c -> writer_ok (Enqueue c w).2.
Proof.
  intros H Hc. unfold Enqueue. destruct (ok (fatal w)) eqn:Hf; [|done]. simpl.
  destruct (stopping w) eqn:Hs; [done|]. destruct H, wo_stats0 as (?&?&?).
  split; simpl; try done.
  - unfold ids in *. rewrite fmap_app, wo_ids0. symmetry. apply (seq_S (next_promise w) 0).
  - unfold ids in *. rewrite !fmap_app, wo_fifo0. by rewrite !app_assoc.
  - rewrite app_assoc. apply Forall_app. split; [done|by repeat constructor].
  - intros Hx. destruct (wo_exited0 Hx). congruence.
  - congruence.
  - split_and!; [rewrite length_app; simpl; lia|done|done].
Qed.

Lemma call_ok c w : writer_ok w -> command_typed c -> writer_ok (Call c w).2.
Proof.
  intros H Hc. pose proof (enqueue_ok c w H Hc) as Hok. unfold Call.
  by destruct (Enqueue c w).
Qed.

Lemma stop_ok w : writer_ok w -> writer_ok (Stop w).
Proof. intros H. destruct H. split; simpl; try done. intros Hx. by destruct (wo_exited0 Hx). Qed.

Lemma take_ok w w' : writer_ok w -> Take w = Some w' -> writer_ok w'.
Proof.
  intros H. unfold Take. destruct (thread w) eqn:Ht; [|done..].
  destruct H. unfold in_flight in *. rewrite Ht in *.
  destruct (commands w) as [|first queue] eqn:Hq.
  - destruct (stopping w) eqn:Hs; [|done]. intros [= <-]. by split.
  - destruct (take_batch (max_batch_size w) first queue) as [b rest] eqn:Hb. intros [= <-].
    destruct (taken_good _ _ _ _ _ (proj1 wo_max0) Hb) as [Happ Hgood].
    split; unfold in_flight; simpl; try done.
    + intros _. by apply wo_batch0.
    + unfold ids in *. by rewrite wo_fifo0, Happ, fmap_app.
    + by rewrite <- Happ.
    + by intros ? [= <-].
Qed.

Lemma work_outcome w w' b :
  writer_ok w -> thread w = Working b -> Work w = Some w' ->
  exists outs, all_or_nothing (snd <$> b) (repository w) outs (repository w')
    /\ completed w' = completed w ++ zip (ids b) outs.
Proof.
  intros H Hb. unfold Work. rewrite Hb. destruct H. unfold in_flight in *. rewrite Hb in *.
  apply Forall_app in wo_typed0 as [Hty _].
  pose proof (run_batch_spec _ b (repository w) (wo_good0 b eq_refl) (wo_batch0 ltac:(done))
    wo_store0 Hty) as Hrun.
  destruct (run_batch b (repository w)) as [outs r]. intros [= <-]. by exists outs.
Qed.

Lemma work_ok w w' : writer_ok w -> Work w = Some w' -> writer_ok w'.
Proof.
  intros H Hw. destruct (thread w) as [|b|] eqn:Hb; try (unfold Work in Hw; by rewrite Hb in Hw).
  destruct (work_outcome w w' b H Hb Hw) as (outs&(Hlen&Hbatch&Hres)&Hcomp).
  unfold Work in Hw. rewrite Hb in Hw. destruct (run_batch b (repository w)) as [outs' r] eqn:Hrun.
  injection Hw as <-. simpl in *. clear Hcomp. destruct H, wo_stats0 as (Ha&Hl&Hc).
  unfold in_flight in *. rewrite Hb in *. apply Forall_app in wo_typed0 as [Hty Hty'].
  assert (length outs' = length b) as Hlen'.
  { pose proof (run_batch_spec _ b (repository w) (wo_good0 b eq_refl) (wo_batch0 ltac:(done))
      wo_store0 Hty) as Hspec. rewrite Hrun in Hspec. destruct Hspec as [-> _]. by rewrite length_fmap. }
  destruct (wo_good0 b eq_refl) as [Hsize _].
  destruct (count_stats b (stats w)) as (H1&H2&H3); [lia|].
  split; unfold in_flight; simpl; try done.
  - destruct Hres as [[_ Hsteps]|[_ Heq]]; [|unfold store in *; simpl; by rewrite Heq].
    eapply op_steps_wf; [exact wo_store0| |exact Hsteps]. by do 2 apply Forall_fmap.
  - rewrite fmap_app, zip_ids by done. by rewrite <- app_assoc.
  - rewrite H1, H2, H3. split_and!; [done|destruct (1 <? length b)%nat; lia|].
    intros Hok. rewrite length_app, length_zip, Hc by done. unfold ids. rewrite length_fmap, Hlen', Nat.min_id. lia.
Qed.

Lemma failed_ids (l : list Entry) failure :
  fst <$> ((fun e : Entry => (e.1, Fail e.2 failure)) <$> l) = ids l.
Proof. unfold ids. rewrite <- list_fmap_compose. by apply list_fmap_ext. Qed.

Lemma throw_ok w w' r what b :
  writer_ok w -> thread w = Working b -> interrupted b w r -> Throw r what w = Some w' -> writer_ok w'.
Proof.
  intros H Hb Hr. unfold Throw. rewrite Hb. intros [= <-].
  destruct H, wo_stats0 as (Ha&Hl&_). unfold in_flight in *. rewrite Hb in *.
  apply Forall_app in wo_typed0 as [Hty Hty'].
  destruct (wo_good0 b eq_refl) as [Hsize _].
  destruct (count_stats b (stats w)) as (H1&H2&H3); [lia|].
  destruct (RollbackWriteBatch_spec r) as [Hcom _].
  split; unfold in_flight; simpl; try done.
  - unfold store in *. simpl. rewrite Hcom. destruct Hr as [->|Hsteps]; [done|].
    eapply op_steps_wf; [exact wo_store0| |exact Hsteps]. by do 2 apply Forall_fmap.
  - rewrite !fmap_app, !failed_ids, app_nil_r. done.
  - rewrite H1, H3. split_and!; [done|destruct (1 <? length b)%nat; lia|done].
Qed.

Lemma publish_ok w o db :
  writer_ok w -> op_typed o -> op_step (store w) o db -> writer_ok (publish db w).
Proof.
  intros H Hty Hstep. destruct H. split; try done.
  unfold store. simpl. by eapply wf_step.
Qed.

Lemma step_ok w w' : writer_ok w -> writer_step w w' -> writer_ok w'.
Proof.
  intros H Hstep. destruct Hstep;
    eauto using call_ok, stop_ok, take_ok, work_ok, throw_ok, publish_ok.
Qed.

(** ** The writer over every interleaving *)

Definition runs_to (c : Conn Db) (max : nat) (w : Writer) : Prop :=
  wf_db (committed c) /\ exists w0, Start c max = Ok w0 /\ rtc writer_step w0 w.

Lemma runs_ok c max w : runs_to c max w -> writer_ok w.
Proof.
  intros (Hwf&w0&Hstart&Hrun). apply Start_ok in Hstart; [|done].
  induction Hrun; eauto using step_ok.
Qed.

(** The writer takes a non-empty prefix of the queue, in order and at most
    as long as configured, never more than 16; more than one command are taken
    only when they are of one kind, one plan and one epoch, of pairwise
    different tasks, and none of them is a claim.  It returns only when it is
    told to stop and the queue is empty. *)
Lemma batches_are_compatible_prefixes c max w w' :
  runs_to c max w -> Take w = Some w' ->
  (thread w' = Exited /\ commands w = [] /\ stopping w = true)
  \/ exists b, thread w' = Working b /\ commands w = b ++ commands w'
       /\ (1 <= length b <= max_batch_size w)%nat /\ (max_batch_size w <= 16)%nat
       /\ ((1 < length b)%nat -> exists kind p ep ts, Forall2 (batch_member kind p ep) ts b /\ NoDup ts).
Proof.
  intros Hok%runs_ok. unfold Take. destruct (thread w); [|done..].
  destruct (commands w) as [|first queue]; [destruct (stopping w) eqn:Hs; [|done]|].
  { intros [= <-]. by left. }
  destruct (take_batch (max_batch_size w) first queue) as [b rest] eqn:Hb. intros [= <-]. right.
  destruct (take_batch_spec _ _ _ _ _ (proj1 (wo_max _ Hok)) Hb) as (Happ&Hlen&Hmany).
  exists b. destruct (wo_max _ Hok), Hlen. by split_and!.
Qed.

(** C9. A batch is applied as a whole or not at all: every command of it is
    answered, and either all are told success and the database has moved by
    exactly their operations, in order, as if each had run in its own
    transaction, or all are told an error and nothing has been published,
    whatever database calls failed. *)
Theorem batches_are_all_or_nothing c max w b w' :
  runs_to c max w -> thread w = Working b -> Work w = Some w' ->
  exists outs, completed w' = completed w ++ zip (ids b) outs /\ length outs = length b /\
    ((Forall (fun o => outcome_ok o = true) outs
        /\ op_steps (op_of <$> (snd <$> b)) (store w) (store w'))
     \/ (Forall (fun o => outcome_ok o = false) outs /\ store w' = store w)).
Proof.
  intros Hok%runs_ok Hb Hw.
  destruct (work_outcome w w' b Hok Hb Hw) as (outs&(Hlen&_&Hres)&Hcomp).
  exists outs. rewrite length_fmap in Hlen. by split_and!.
Qed.

(** C10. Whatever the interleaving of the workers, [Stop], other connections
    and exceptions in the writer: promises are fulfilled in the order the
    commands were accepted, none twice, and when the writer has returned none
    is left. *)
Theorem every_promise_is_kept_once c max w :
  runs_to c max w ->
  (fst <$> completed w) ++ ids (in_flight w) ++ ids (commands w) = seq 0 (next_promise w)
  /\ ids (accepted w) = seq 0 (next_promise w)
  /\ (thread w = Exited -> fst <$> completed w = seq 0 (next_promise w)).
Proof.
  intros Hok%runs_ok. destruct Hok. rewrite <- wo_ids0. split_and!; [done|done|].
  intros Hx. destruct (wo_exited0 Hx) as [Hempty _].
  rewrite wo_fifo0, Hempty. unfold in_flight, ids. rewrite Hx. simpl. by rewrite app_nil_r.
Qed.

(** The writer thread on its own for [n] turns. *)
Fixpoint turns (n : nat) (w : Writer) : Writer :=
  match n with
  | O => w
  | S n =>
      match Work w with
      | Some w => turns n w
      | None => match Take w with Some w => turns n w | None => w end
      end
  end.

Definition turns_left (w : Writer) : nat :=
  match thread w with
  | Waiting => S (2 * length (commands w))
  | Working _ => S (S (2 * length (commands w)))
  | Exited => 0
  end.

Lemma turns_exit n w :
  writer_ok w -> stopping w = true -> (turns_left w <= n)%nat ->
  thread (turns n w) = Exited /\ writer_ok (turns n w).
Proof.
  revert w. induction n as [|n IH]; intros w Hok Hs Hn; simpl;
    unfold turns_left in Hn; destruct (thread w) as [|b|] eqn:Ht; try lia; try done.
  - assert (Work w = None) as -> by (unfold Work; by rewrite Ht).
    destruct (Take w) as [w1|] eqn:Htake.
    + pose proof (take_ok _ _ Hok Htake) as Hok1. pose proof (wo_max _ Hok) as [Hmax _].
      unfold Take in Htake. rewrite Ht in Htake. destruct (commands w) as [|first queue].
      * rewrite Hs in Htake. injection Htake as <-. apply IH; [done|done|]. unfold turns_left. simpl. lia.
      * destruct (take_batch _ first queue) as [b rest] eqn:Hb. injection Htake as <-.
        destruct (taken_good _ _ _ _ _ Hmax Hb) as [Happ [Hlen _]].
        apply IH; [done|done|]. unfold turns_left. simpl.
        apply (f_equal length) in Happ. rewrite length_app in Happ. simpl in *. lia.
    + unfold Take in Htake. rewrite Ht, Hs in Htake.
      destruct (commands w); [done|]. by destruct (take_batch _ _ _).
  - destruct (Work w) as [w1|] eqn:Hw.
    + pose proof (work_ok _ _ Hok Hw) as Hok1. unfold Work in Hw. rewrite Ht in Hw.
      destruct (run_batch b (repository w)). injection Hw as <-. apply IH; [done|done|].
      unfold turns_left. simpl. lia.
    + unfold Work in Hw. rewrite Ht in Hw. by destruct (run_batch b (repository w)).
  - assert (Work w = None) as -> by (unfold Work; by rewrite Ht).
    assert (Take w = None) as -> by (unfold Take; by rewrite Ht). done.
Qed.

(** Once [Stop] is requested the writer thread needs no help to finish:
    at most two turns per queued command and two more bring it to return, with
    every accepted command answered, even if every database call fails. *)
Lemma stop_drains_the_queue c max w :
  runs_to c max w ->
  let w' := turns (2 + 2 * length (commands w)) (Stop w) in
  thread w' = Exited /\ commands w' = [] /\ fst <$> completed w' = ids (accepted w').
Proof.
  intros Hok%runs_ok w'. destruct (turns_exit (2 + 2 * length (commands w)) (Stop w)) as [Hx Hok'].
  - by apply stop_ok.
  - done.
  - unfold turns_left. simpl. destruct (thread w); lia.
  - fold w' in Hx, Hok'. destruct Hok'. destruct (wo_exited0 Hx) as [Hempty _].
    split_and!; [done|done|]. rewrite wo_fifo0, Hempty. unfold in_flight, ids. rewrite Hx.
    simpl. by rewrite app_nil_r.
Qed.

(** The counters the writer reports are exact: every accepted command is
    counted, no group was larger than configured, and, unless the writer died
    of an exception, as many commands were executed as promises fulfilled. *)
Lemma stats_count_the_work c max w :
  runs_to c max w ->
  accepted_commands (stats w) = Z.of_nat (length (accepted w))
  /\ (largest_batch (stats w) <= 16)%nat
  /\ (ok (fatal w) = true -> command_count (stats w) = Z.of_nat (length (completed w))).
Proof. intros Hok%runs_ok. destruct Hok, wo_stats0 as (?&?&?). split_and!; [done|lia|done]. Qed.

(** ** Examples *)

Module WriterDemo.
(** Two tasks claimed by two workers, which both announce their commit. *)
Definition history : list Op :=
  [OpAddTask "p" (Demo.spec "t1" "k1"); OpAddTask "p" (Demo.spec "t2" "k2");
   OpSetReady "p" "t1"; OpSetReady "p" "t2"; OpAcquireEpoch "p";
   OpClaim "p" 4 (Some "a1"); OpClaim "p" 4 (Some "a2")].
Definition running : Db := foldl Demo.after Demo.seed history.
Definition w0 : Writer :=
  mkWriter (mkRepo no_batch (Demo.conn running)) [] 8 false Status_Ok (mkStats 0 0 0 0 0) Waiting 0 [] [].
Definition w1 : Writer := (Call (CommitIntent "p" "t1" "a1" 4) w0).2.
Definition w2 : Writer := (Call (CommitIntent "p" "t2" "a2" 4) w1).2.
Definition w3 : Writer := default w2 (Take w2).
Definition w4 : Writer := default w3 (Work w3).
Definition taken : list Entry := [(0%nat, CommitIntent "p" "t1" "a1" 4); (1%nat, CommitIntent "p" "t2" "a2" 4)].
End WriterDemo.

Lemma demo_wf : wf_db WriterDemo.running.
Proof.
  apply (reachable_wf Demo.seed); [apply wf_seed|]. unfold WriterDemo.running, WriterDemo.history. cbn [foldl].
  repeat apply reachable_after; first [exact I | apply reach_start | vm_compute; split; discriminate].
Qed.

Lemma demo_runs w : rtc writer_step WriterDemo.w0 w -> runs_to (Demo.conn WriterDemo.running) 8 w.
Proof. intros Hr. split; [apply demo_wf|]. exists WriterDemo.w0. by split. Qed.

Lemma demo_w2 : rtc writer_step WriterDemo.w0 WriterDemo.w2.
Proof.
  apply (rtc_l _ _ WriterDemo.w1).
  - apply (step_call (CommitIntent "p" "t1" "a1" 4)). by vm_compute.
  - apply rtc_once, (step_call (CommitIntent "p" "t2" "a2" 4)). by vm_compute.
Qed.

Lemma demo_w3 : rtc writer_step WriterDemo.w0 WriterDemo.w3.
Proof. apply (rtc_r _ WriterDemo.w2); [apply demo_w2|]. by apply step_take. Qed.

Lemma demo_w4 : rtc writer_step WriterDemo.w0 WriterDemo.w4.
Proof.
  apply (rtc_r _ WriterDemo.w3); [apply demo_w3|]. apply step_work. unfold WriterDemo.w4.
  assert (is_Some (Work WriterDemo.w3)) as [w ->]; [|done].
  unfold Work. change (thread WriterDemo.w3) with (Working WriterDemo.taken).
  cbv beta iota. destruct (run_batch _ _). by eexists.
Qed.

Lemma batches_are_compatible_prefixes_witness :
  exists b, thread WriterDemo.w3 = Working b /\ commands WriterDemo.w2 = b ++ commands WriterDemo.w3
    /\ length b = 2%nat.
Proof.
  destruct (batches_are_compatible_prefixes (Demo.conn WriterDemo.running) 8 WriterDemo.w2 WriterDemo.w3
    (demo_runs _ demo_w2) eq_refl) as [(Hx&_)|(b&Hb&Hq&_)]; [discriminate Hx|].
  exists b. split; [exact Hb|]. split; [exact Hq|].
  change (thread WriterDemo.w3) with (Working WriterDemo.taken) in Hb. by injection Hb as <-.
Defined.

Lemma batches_are_all_or_nothing_witness :
  op_steps [OpCommitIntent "p" "t1" 4 "a1"; OpCommitIntent "p" "t2" 4 "a2"]
    (store WriterDemo.w3) (store WriterDemo.w4).
Proof.
  destruct (batches_are_all_or_nothing (Demo.conn WriterDemo.running) 8 WriterDemo.w3 WriterDemo.taken
    WriterDemo.w4 (demo_runs _ demo_w3) eq_refl) as (outs&Hcomp&Hlen&[[_ Hsteps]|[Hbad _]]).
  - by vm_compute.
  - exact Hsteps.
  - exfalso. assert (outs = [StatusOutcome Status_Ok; StatusOutcome Status_Ok]) as ->.
    { assert (zip (ids WriterDemo.taken) outs = completed WriterDemo.w4) as Hz by (by rewrite Hcomp).
      destruct outs as [|o1 [|o2 [|? ?]]]; simpl in Hlen; try discriminate Hlen.
      vm_compute in Hz. by injection Hz as -> ->. }
    clear -Hbad. apply Forall_cons in Hbad as [Hbad _]. discriminate Hbad.
Defined.

Lemma every_promise_is_kept_once_witness :
  (fst <$> completed WriterDemo.w4) = [0%nat; 1%nat].
Proof.
  destruct (every_promise_is_kept_once (Demo.conn WriterDemo.running) 8 WriterDemo.w4
    (demo_runs _ demo_w4)) as (H&_&_).
  by vm_compute.
Defined.

Lemma stop_drains_the_queue_witness :
  thread (turns 6 (Stop WriterDemo.w2)) = Exited.
Proof.
  exact (proj1 (stop_drains_the_queue (Demo.conn WriterDemo.running) 8 WriterDemo.w2
    (demo_runs _ demo_w2))).
Defined.

Lemma stats_count_the_work_witness :
  accepted_commands (stats WriterDemo.w4) = 2.
Proof.
  exact (proj1 (stats_count_the_work (Demo.conn WriterDemo.running) 8 WriterDemo.w4
    (demo_runs _ demo_w4))).
Defined.
