(* ===== verification/FileOps.v ===== *)
(** * FileOps: the file and runtime-store interfaces of the pipeline

    Models the abstract classes of include/photobridge/filesystem/file_ops.h
    and include/photobridge/app/migration_runtime_store.h as type classes
    over the state [W] of the outside world, and the loops the file code is
    made of.  A [World] pairs a file system with a store and keeps the [log]
    of the calls made on both with what they returned: the theorems about the
    copy and commit protocol are about that log, for every file system and
    every store, failures included.

    A [UniqueFd] closes its descriptor at the end of its scope; no operation
    depends on it, so closing is not an event. *)

From S2P Require Import Prelude Status Bytes Json RelativePath Task Reconciler Sqlite TaskRepository.

Definition Fd : Type := Z.
Inductive OpenRootMode := kExisting | kCreateIfMissing.

(** [class FileOps].  [Read] gives the bytes it put in the buffer, [Write]
    the number of bytes it took. *)
Class FileOps (W : Type) := {
  OpenRoot : string -> OpenRootMode -> M W Fd;
  OpenSource : Fd -> RelativePath -> M W Fd;
  StatFd : Fd -> M W FileIdentity.t;
  CreateTempNoReplace : Fd -> string -> Z -> M W Fd;
  Read : Fd -> Z -> M W string;
  Write : Fd -> string -> M W nat;
  Fdatasync : Fd -> M W unit;
  FsyncDirectory : Fd -> M W unit;
  RenameNoReplace : Fd -> string -> Fd -> string -> M W unit;
  UnlinkAt : Fd -> string -> M W unit;
}.

(** [class MigrationRuntimeStore] *)
Class MigrationRuntimeStore (W : Type) := {
  store_ClaimNextReady : string -> Z -> M W ClaimedTask;
  store_MarkCommitIntent : string -> string -> Z -> string -> M W unit;
  store_MarkTempWritten : string -> string -> Z -> string -> M W unit;
  store_PersistVerifiedReceipt : string -> VerifiedReceipt.t -> M W unit;
  store_MarkRetryable : string -> string -> Z -> string -> Status -> M W unit;
}.

(** What the recovery and verification commands ask of the repository and of
    the tables besides (src/pipeline/). *)
Class RecoveryStore (W : Type) := {
  store_ReadRuntime : string -> string -> M W TaskRuntime;
  store_ReadVerifiedReceipt : string -> string -> string -> M W VerifiedReceipt.t;
  store_ReadManifestSourceRoot : string -> M W string;
  store_AcquireNextExecutionEpoch : string -> M W Z;
  store_RecoverSucceeded : string -> string -> Z -> Z -> string -> string -> M W unit;
  store_RecoverRetryable : string -> string -> Z -> Z -> string -> string -> M W unit;
  store_RecoverInconsistent : string -> string -> Z -> Z -> string -> string -> M W unit;
}.

(** What a command does before its work: reading the plan file, the exclusive
    lock of the plan, the connection and its schema. *)
Class Workspace (W : Type) := {
  workspace_ReadPlanFile : string -> M W string;
  workspace_Acquire : string -> M W unit;
  workspace_OpenDatabase : M W unit;
}.

(** [context.out] *)
Class Console (W : Type) := { Print : string -> M W unit }.

(** What the copy and its fallback return. *)
Record CopyResult := mkCopyResult { bytes_copied : Z; source_digest : Digest }.

(** [TryIoUringCopyAndHash]: no result where io_uring is unavailable. *)
Class CopyEngine (W : Type) := {
  TryIoUringCopyAndHash : Fd -> Fd -> Z -> M W (option CopyResult);
}.

(** A C++ exception: nothing above the commands catches one, so the process
    ends; the error stands for that end. *)
Definition throwing {W A} (x : Exn A) : M W A :=
  match x with
  | inl what => throw (Internal ("uncaught exception: " +:+ what))
  | inr a => ret a
  end.

(** ** The record of calls *)

Inductive Event :=
  | EvOpenRoot (path : string) (mode : OpenRootMode) (r : StatusOr Fd)
  | EvOpenSource (root : Fd) (path : RelativePath) (r : StatusOr Fd)
  | EvStatFd (fd : Fd) (r : StatusOr FileIdentity.t)
  | EvCreateTemp (parent : Fd) (name : string) (mode : Z) (r : StatusOr Fd)
  | EvRead (fd : Fd) (size : Z) (r : StatusOr string)
  | EvWrite (fd : Fd) (data : string) (r : StatusOr nat)
  | EvFdatasync (fd : Fd) (r : StatusOr unit)
  | EvFsyncDirectory (fd : Fd) (r : StatusOr unit)
  | EvRename (old_dir : Fd) (old_name : string) (new_dir : Fd) (new_name : string) (r : StatusOr unit)
  | EvUnlink (dir : Fd) (name : string) (r : StatusOr unit)
  | EvAccelerated (source target : Fd) (size : Z) (r : StatusOr (option CopyResult))
  | EvClaim (plan_id : string) (epoch : Z) (r : StatusOr ClaimedTask)
  | EvCommitIntent (plan_id task_id : string) (epoch : Z) (attempt_id : string) (r : StatusOr unit)
  | EvTempWritten (plan_id task_id : string) (epoch : Z) (attempt_id : string) (r : StatusOr unit)
  | EvReceipt (plan_id : string) (receipt : VerifiedReceipt.t) (r : StatusOr unit)
  | EvRetryable (plan_id task_id : string) (epoch : Z) (attempt_id : string) (error : Status) (r : StatusOr unit)
  | EvReadRuntime (plan_id task_id : string) (r : StatusOr TaskRuntime)
  | EvReadReceipt (plan_id task_id attempt_id : string) (r : StatusOr VerifiedReceipt.t)
  | EvReadSourceRoot (manifest_id : string) (r : StatusOr string)
  | EvAcquireEpoch (plan_id : string) (r : StatusOr Z)
  | EvRecoverSucceeded (plan_id task_id : string) (epoch old_epoch : Z) (old_attempt reason : string) (r : StatusOr unit)
  | EvRecoverRetryable (plan_id task_id : string) (epoch old_epoch : Z) (old_attempt reason : string) (r : StatusOr unit)
  | EvRecoverInconsistent (plan_id task_id : string) (epoch old_epoch : Z) (old_attempt reason : string) (r : StatusOr unit)
  | EvReadPlanFile (path : string) (r : StatusOr string)
  | EvAcquireLock (plan_id : string) (r : StatusOr unit)
  | EvOpenDatabase (r : StatusOr unit)
  | EvPrint (text : string).

Record World (F D : Type) := mkWorld { files : F; store : D; log : list Event }.
Arguments mkWorld {F D}.
Arguments files {F D}.
Arguments store {F D}.
Arguments log {F D}.

Section World.
Context {F D : Type}.

Definition on_files {A} (event : StatusOr A -> Event) (c : M F A) : M (World F D) A :=
  fun w => let (r, f) := c (files w) in (r, mkWorld f (store w) (log w ++ [event r])).
Definition on_store {A} (event : StatusOr A -> Event) (c : M D A) : M (World F D) A :=
  fun w => let (r, d) := c (store w) in (r, mkWorld (files w) d (log w ++ [event r])).

#[export] Instance world_FileOps `{FileOps F} : FileOps (World F D) := {|
  OpenRoot path mode := on_files (EvOpenRoot path mode) (OpenRoot path mode);
  OpenSource root path := on_files (EvOpenSource root path) (OpenSource root path);
  StatFd fd := on_files (EvStatFd fd) (StatFd fd);
  CreateTempNoReplace parent name mode :=
    on_files (EvCreateTemp parent name mode) (CreateTempNoReplace parent name mode);
  Read fd size := on_files (EvRead fd size) (Read fd size);
  Write fd data := on_files (EvWrite fd data) (Write fd data);
  Fdatasync fd := on_files (EvFdatasync fd) (Fdatasync fd);
  FsyncDirectory fd := on_files (EvFsyncDirectory fd) (FsyncDirectory fd);
  RenameNoReplace od on nd nn := on_files (EvRename od on nd nn) (RenameNoReplace od on nd nn);
  UnlinkAt dir name := on_files (EvUnlink dir name) (UnlinkAt dir name);
|}.

#[export] Instance world_CopyEngine `{CopyEngine F} : CopyEngine (World F D) := {|
  TryIoUringCopyAndHash s t n := on_files (EvAccelerated s t n) (TryIoUringCopyAndHash s t n);
|}.

#[export] Instance world_Store `{MigrationRuntimeStore D} : MigrationRuntimeStore (World F D) := {|
  store_ClaimNextReady p e := on_store (EvClaim p e) (store_ClaimNextReady p e);
  store_MarkCommitIntent p t e a := on_store (EvCommitIntent p t e a) (store_MarkCommitIntent p t e a);
  store_MarkTempWritten p t e a := on_store (EvTempWritten p t e a) (store_MarkTempWritten p t e a);
  store_PersistVerifiedReceipt p r := on_store (EvReceipt p r) (store_PersistVerifiedReceipt p r);
  store_MarkRetryable p t e a err := on_store (EvRetryable p t e a err) (store_MarkRetryable p t e a err);
|}.

#[export] Instance world_RecoveryStore `{RecoveryStore D} : RecoveryStore (World F D) := {|
  store_ReadRuntime p t := on_store (EvReadRuntime p t) (store_ReadRuntime p t);
  store_ReadVerifiedReceipt p t a := on_store (EvReadReceipt p t a) (store_ReadVerifiedReceipt p t a);
  store_ReadManifestSourceRoot m := on_store (EvReadSourceRoot m) (store_ReadManifestSourceRoot m);
  store_AcquireNextExecutionEpoch p := on_store (EvAcquireEpoch p) (store_AcquireNextExecutionEpoch p);
  store_RecoverSucceeded p t e oe oa r :=
    on_store (EvRecoverSucceeded p t e oe oa r) (store_RecoverSucceeded p t e oe oa r);
  store_RecoverRetryable p t e oe oa r :=
    on_store (EvRecoverRetryable p t e oe oa r) (store_RecoverRetryable p t e oe oa r);
  store_RecoverInconsistent p t e oe oa r :=
    on_store (EvRecoverInconsistent p t e oe oa r) (store_RecoverInconsistent p t e oe oa r);
|}.

#[export] Instance world_Workspace `{Workspace F} : Workspace (World F D) := {|
  workspace_ReadPlanFile path := on_files (EvReadPlanFile path) (workspace_ReadPlanFile path);
  workspace_Acquire plan_id := on_files (EvAcquireLock plan_id) (workspace_Acquire plan_id);
  workspace_OpenDatabase := on_files EvOpenDatabase workspace_OpenDatabase;
|}.

#[export] Instance world_Console : Console (World F D) := {|
  Print text := fun w => (Ok tt, mkWorld (files w) (store w) (log w ++ [EvPrint text]));
|}.

End World.

(** The repository is a store (outside and inside a write batch). *)
#[export] Instance repository_store : MigrationRuntimeStore Repo := {|
  store_ClaimNextReady p e := on_repo (fun _ => ClaimNextReady p e);
  store_MarkCommitIntent p t e a := on_repo (fun b => MarkCommitIntent b p t e a);
  store_MarkTempWritten p t e a := on_repo (fun b => MarkTempWritten b p t e a);
  store_PersistVerifiedReceipt p r := on_repo (fun b => PersistVerifiedReceipt b p r);
  store_MarkRetryable p t e a err := on_repo (fun b => MarkRetryable b p t e a err);
|}.

(** ** Reading a log *)

(** The bytes successful reads of [fd] gave, and those successful writes took. *)
Definition str_concat (l : list string) : string := foldr String.append "" l.

Definition reads_of (fd : Fd) (l : list Event) : string :=
  str_concat (omap (fun e => match e with
    | EvRead fd' _ (Ok data) => if fd' =? fd then Some data else None
    | _ => None
    end) l).
Definition writes_of (fd : Fd) (l : list Event) : string :=
  str_concat (omap (fun e => match e with
    | EvWrite fd' data (Ok n) => if fd' =? fd then Some (str_take n data) else None
    | _ => None
    end) l).

Lemma str_concat_app a b : str_concat (a ++ b) = str_concat a +:+ str_concat b.
Proof. induction a as [|x a IH]; [done|]. simpl. by rewrite IH, str_app_assoc. Qed.

Lemma reads_of_app fd a b : reads_of fd (a ++ b) = reads_of fd a +:+ reads_of fd b.
Proof. unfold reads_of. by rewrite omap_app, str_concat_app. Qed.
Lemma writes_of_app fd a b : writes_of fd (a ++ b) = writes_of fd a +:+ writes_of fd b.
Proof. unfold writes_of. by rewrite omap_app, str_concat_app. Qed.

(** ** Loops

    [for (;;)] whose body may go on with a new state or finish with a result.
    The bound is a binary number, so it can be as large as a loop's measure
    and still be run: the body stops at its first result.  Each client proves
    that its bound is not reached. *)

Section Loop.
Context {W A R : Type} (body : A -> M W (A + R)).

Fixpoint loop (bound : positive) (a : A) : M W (A + R) :=
  let twice (p : positive) (a : A) : M W (A + R) :=
    let* r := loop p a in
    match r with inl a => loop p a | inr r => ret (inr r) end in
  match bound with
  | xH => body a
  | xO p => twice p a
  | xI p => let* r := body a in match r with inl a => twice p a | inr r => ret (inr r) end
  end.

End Loop.

(** The number of turns a [std::uint64_t] counter allows. *)
Definition uint64_turns : positive := Pos.pow 2 64.

(** A loop run to its end within a bound; the source's loop has none, and the
    [unreachable] result is never given where the bound is enough. *)
Definition within {W A R} (bound : positive) (body : A -> M W (A + R)) (a : A) : M W R :=
  let* r := loop body bound a in
  match r with inl _ => throw (Internal "unreachable: the loop's bound") | inr r => ret r end.

(** The loop stops of itself. *)
Definition ends {W A R} (bound : positive) (body : A -> M W (A + R)) (a : A) : Prop :=
  forall w a' w', loop body bound a w <> (Ok (inl a'), w').

(** ** Reasoning about a computation by its result and final state *)

Definition runs {W A} (c : M W A) (w : W) (Q : StatusOr A -> W -> Prop) : Prop :=
  let (r, w') := c w in Q r w'.

Section Runs.
Context {W : Type}.

Lemma runs_ret {A} (a : A) (w : W) Q : Q (Ok a) w -> runs (ret a) w Q.
Proof. done. Qed.
Lemma runs_throw {A} e (w : W) (Q : StatusOr A -> W -> Prop) : Q (Err e) w -> runs (throw e) w Q.
Proof. done. Qed.
Lemma runs_lift {A} (x : StatusOr A) (w : W) Q : Q x w -> runs (lift x) w Q.
Proof. done. Qed.

Lemma runs_mono {A} (c : M W A) w (P Q : StatusOr A -> W -> Prop) :
  runs c w P -> (forall r w', P r w' -> Q r w') -> runs c w Q.
Proof. unfold runs. destruct (c w). auto. Qed.

Lemma runs_bind {A B} (c : M W A) (k : A -> M W B) w Q :
  runs c w (fun r w' => match r with Ok a => runs (k a) w' Q | Err e => Q (Err e) w' end) ->
  runs (bind c k) w Q.
Proof. unfold runs, bind. by destruct (c w) as [[a|e] w']. Qed.

Lemma runs_require b e (w : W) (Q : StatusOr unit -> W -> Prop) :
  (b = true -> Q (Ok tt) w) -> (b = false -> Q (Err e) w) -> runs (require b e) w Q.
Proof. destruct b; unfold require; intros H1 H2; [by apply H1|by apply H2]. Qed.

Lemma runs_require_ok st (w : W) (Q : StatusOr unit -> W -> Prop) :
  (ok st = true -> Q (Ok tt) w) -> (ok st = false -> Q (Err st) w) -> runs (require_ok st) w Q.
Proof. unfold require_ok. destruct (ok st); intros H1 H2; [by apply H1|by apply H2]. Qed.

(** An invariant of the body holds when the loop stops, at its bound or with
    a result. *)
Lemma runs_loop {A R} (body : A -> M W (A + R)) (I : A -> W -> Prop) (Q : StatusOr R -> W -> Prop) :
  (forall a w, I a w -> runs (body a) w (fun r w' => match r with
     | Ok (inl a') => I a' w' | Ok (inr x) => Q (Ok x) w' | Err e => Q (Err e) w' end)) ->
  forall bound a w, I a w -> runs (loop body bound a) w (fun r w' => match r with
     | Ok (inl a') => I a' w' | Ok (inr x) => Q (Ok x) w' | Err e => Q (Err e) w' end).
Proof.
  intros Hbody. induction bound as [p IH|p IH|]; intros a w Ha; cbn [loop].
  - apply runs_bind. eapply runs_mono; [by apply Hbody|]. intros [[a'|x]|e] w' H; [|done|done].
    apply runs_bind. eapply runs_mono; [by apply IH|]. intros [[a2|x]|e] w2 H2; [|done|done].
    by apply IH.
  - apply runs_bind. eapply runs_mono; [by apply IH|]. intros [[a'|x]|e] w' H; [|done|done]. by apply IH.
  - by apply Hbody.
Qed.

(** The bound is out of reach of a body that decreases a measure below it. *)
Lemma loop_measure {A R} (body : A -> M W (A + R)) (P : A -> Prop) (mu : A -> Z) :
  (forall a w a' w', P a -> body a w = (Ok (inl a'), w') -> P a' /\ mu a' < mu a) ->
  forall bound a w a' w', P a -> loop body bound a w = (Ok (inl a'), w') ->
    P a' /\ mu a' + Z.pos bound <= mu a.
Proof.
  intros Hbody. induction bound as [p IH|p IH|]; intros a w a' w' Ha; cbn [loop]; unfold bind.
  - destruct (body a w) as [[[a1|x]|e] w1] eqn:H1; [|done|done]. apply Hbody in H1 as [Ha1 H1]; [|done].
    destruct (loop body p a1 w1) as [[[a2|x]|e] w2] eqn:H2; [|done|done].
    intros H3. apply IH in H2 as [Ha2 H2]; [|done]. apply IH in H3 as [Ha3 H3]; [|done]. split; [done|lia].
  - destruct (loop body p a w) as [[[a1|x]|e] w1] eqn:H1; [|done|done].
    intros H2. apply IH in H1 as [Ha1 H1]; [|done]. apply IH in H2 as [Ha2 H2]; [|done]. split; [done|lia].
  - intros H. apply Hbody in H as [? ?]; [|done]. split; [done|lia].
Qed.

Lemma measure_ends {A R} (body : A -> M W (A + R)) (P : A -> Prop) (mu : A -> Z) bound a :
  (forall a w a' w', P a -> body a w = (Ok (inl a'), w') -> P a' /\ mu a' < mu a) ->
  (forall a, P a -> 0 <= mu a) -> P a -> mu a < Z.pos bound -> ends bound body a.
Proof.
  intros Hbody Hmu Ha Hlt w a' w' Hl.
  apply (loop_measure body P mu Hbody) in Hl as [Ha' Hle]; [|done]. specialize (Hmu a' Ha'). lia.
Qed.

End Runs.

(** One call on a [World]: the log grows by its event. *)
Lemma runs_on_files {F D A} (event : StatusOr A -> Event) (c : M F A) (w : World F D) Q :
  (forall r f, Q r (mkWorld f (store w) (log w ++ [event r]))) -> runs (on_files event c) w Q.
Proof. intros H. unfold runs, on_files. by destruct (c (files w)). Qed.
Lemma runs_on_store {F D A} (event : StatusOr A -> Event) (c : M D A) (w : World F D) Q :
  (forall r d, Q r (mkWorld (files w) d (log w ++ [event r]))) -> runs (on_store event c) w Q.
Proof. intros H. unfold runs, on_store. by destruct (c (store w)). Qed.
