(* ===== verification/LinuxFileOps.v ===== *)
(** * LinuxFileOps: the file operations over the system calls of Linux

    Models src/filesystem/linux_file_ops.cpp and
    src/app/plan_execution_lock.cpp over a class [Kernel] of the system calls
    they make; what a call does is the kernel's.  [Traced] keeps the list of
    the calls, so that the theorem at the end is about every kernel: each name
    handed to it is one component, no symbolic link is followed, and every
    descriptor but the result is closed.

    A call interrupted by a signal is made again; [pending] is the number of
    signals still to come, and the loop has no other bound.  The descriptor of
    a [UniqueFd] is closed where the source resets or destroys it inside these
    functions. *)

From stdpp Require Import pretty.
From S2P Require Import Prelude Status Bytes RelativePath Task Sqlite FileOps.

(** A system call returns, or sets [errno], never to 0. *)
Inductive SysResult (A : Type) := SysOk (a : A) | SysErr (error_number : positive).
Arguments SysOk {A} a.
Arguments SysErr {A} error_number.

Record Timespec := mkTimespec { tv_sec : Z; tv_nsec : Z }.
Record Stat := mkStat { st_dev : Z; st_ino : Z; st_size : Z; st_mtim : Timespec; st_ctim : Timespec }.

(** Flags of [open], [renameat2] and [flock] (x86-64). *)
Definition O_RDONLY : Z := 0.
Definition O_RDWR : Z := 2.
Definition O_CREAT : Z := 64.
Definition O_EXCL : Z := 128.
Definition O_DIRECTORY : Z := 65536.
Definition O_NOFOLLOW : Z := 131072.
Definition O_CLOEXEC : Z := 524288.
Definition RENAME_NOREPLACE : Z := 1.
Definition ssize_max : Z := int64_max.
Definition EWOULDBLOCK : Z := EAGAIN.

Definition flags (l : list Z) : Z := foldl Z.lor 0 l.

Class Kernel (K : Type) := {
  sys_mkdir : string -> Z -> K -> SysResult unit * K;
  sys_open : string -> Z -> Z -> K -> SysResult N * K;
  sys_dup : Fd -> K -> SysResult N * K;
  sys_openat : Fd -> string -> Z -> Z -> K -> SysResult N * K;
  sys_close : Fd -> K -> K;
  sys_fstat : Fd -> K -> SysResult Stat * K;
  sys_read : Fd -> Z -> K -> SysResult string * K;
  sys_write : Fd -> string -> K -> SysResult nat * K;
  sys_fdatasync : Fd -> K -> SysResult unit * K;
  sys_fsync : Fd -> K -> SysResult unit * K;
  sys_renameat2 : Fd -> string -> Fd -> string -> Z -> K -> SysResult unit * K;
  sys_unlinkat : Fd -> string -> K -> SysResult unit * K;
  sys_flock : Fd -> K -> SysResult unit * K;
  strerror : Z -> string;
  pending : K -> nat;
}.

(** ** Names, times and sizes *)

(** [ValidateLeafName(name)] *)
Definition ValidateLeafName (name : string) : Status :=
  if str_empty name || str_contains slash name || str_contains NUL name || (name == ".") || (name == "..")
  then Invalid "name must be a single safe path component" else Status_Ok.

Definition kNanosecondsPerSecond : Z := 1000000000.

(** [TimespecToNanoseconds(timestamp, field_name)]; C++ division truncates. *)
Definition TimespecToNanoseconds (timestamp : Timespec) (field_name : string) : StatusOr Z :=
  let seconds := tv_sec timestamp in
  let nanoseconds := tv_nsec timestamp in
  let overflow := Internal ("file timestamp overflows nanoseconds: " +:+ field_name) in
  if (nanoseconds <? 0) || (kNanosecondsPerSecond <=? nanoseconds)
  then Err (Internal ("invalid file timestamp: " +:+ field_name))
  else if (Z.quot int64_max kNanosecondsPerSecond <? seconds) || (seconds <? Z.quot int64_min kNanosecondsPerSecond)
  then Err overflow
  else if (seconds =? Z.quot int64_max kNanosecondsPerSecond)
          && (Z.rem int64_max kNanosecondsPerSecond <? nanoseconds)
  then Err overflow
  else Ok (to_int64 (to_int64 (seconds * kNanosecondsPerSecond) + nanoseconds)).

(** [ToUint64(value, field_name)]; no field is wider than 64 bits. *)
Definition ToUint64 (value : Z) (field_name : string) : StatusOr Z :=
  if value <? 0 then Err (Internal ("negative file identity field: " +:+ field_name)) else Ok (to_uint64 value).

Section Linux.
Context {K : Type} `{Kernel K}.

(** [StatusFromErrno(error_number, operation)] *)
Definition StatusFromErrno (error_number : Z) (operation : string) : Status :=
  let code := StatusCodeFromErrno error_number in
  if bool_decide (code = StatusCode.kOk) then Status_Ok
  else mkStatus code (operation +:+ ": [" +:+ pretty error_number +:+ "] " +:+ strerror error_number).

(** [if (result == -1) return StatusFromErrno(errno, operation);] in a
    function that returns [StatusOr]. *)
Definition or_errno {A} (operation : string) (c : K -> SysResult A * K) : M K A :=
  fun k => match c k with
           | (SysOk a, k) => (Ok a, k)
           | (SysErr e, k) => (StatusOr_of_status (StatusFromErrno (Z.pos e) operation), k)
           end.
(** The same in a function that returns [Status]. *)
Definition status_errno (operation : string) (c : K -> SysResult unit * K) : M K unit :=
  fun k => match c k with
           | (SysOk a, k) => (Ok a, k)
           | (SysErr e, k) => require_ok (StatusFromErrno (Z.pos e) operation) k
           end.

(** [while (true) { ...; if (errno == EINTR) continue; ... }] *)
Fixpoint retried {A} (signals : nat) (c : K -> SysResult A * K) (k : K) : SysResult A * K :=
  match c k with
  | (SysErr e, k) =>
      match signals with
      | S signals => if Z.pos e =? EINTR then retried signals c k else (SysErr e, k)
      | O => (SysErr e, k)
      end
  | r => r
  end.
Definition retry_interrupted {A} (c : K -> SysResult A * K) (k : K) : SysResult A * K := retried (pending k) c k.

(** A descriptor the kernel gives is not negative. *)
Definition descriptor (r : SysResult N * K) : SysResult Fd * K :=
  match r with (SysOk fd, k) => (SysOk (Z.of_N fd), k) | (SysErr e, k) => (SysErr e, k) end.
Definition open path flags mode (k : K) : SysResult Fd * K := descriptor (sys_open path flags mode k).
Definition openat dir name flags mode (k : K) : SysResult Fd * K := descriptor (sys_openat dir name flags mode k).
Definition dup fd (k : K) : SysResult Fd * K := descriptor (sys_dup fd k).

(** [~UniqueFd], [UniqueFd::reset] *)
Definition close_fd (fd : Fd) : M K unit := fun k => (Ok tt, if 0 <=? fd then sys_close fd k else k).

(** [LinuxFileOps::OpenRoot] *)
Definition Linux_OpenRoot (path : string) (mode : OpenRootMode) : M K Fd :=
  do* match mode with
      | kCreateIfMissing => fun k =>
          match sys_mkdir (c_str path) 493 k with
          | (SysErr e, k) =>
              if negb (Z.pos e =? EEXIST)
              then (StatusOr_of_status (StatusFromErrno (Z.pos e) "mkdir workspace root"), k) else (Ok tt, k)
          | (SysOk _, k) => (Ok tt, k)
          end
      | kExisting => ret tt
      end;
  or_errno "open directory root" (open (c_str path) (flags [O_RDONLY; O_DIRECTORY; O_CLOEXEC]) 0).

(** The loop of [OpenSource] over the components; [current_fd] is owned. *)
Fixpoint walk (current_fd : Fd) (components : list string) : M K Fd :=
  match components with
  | [] => do* close_fd current_fd; throw (Invalid "relative path has no components")
  | component :: rest =>
      let is_last := match rest with [] => true | _ => false end in
      let flags := flags ([O_RDONLY; O_CLOEXEC; O_NOFOLLOW] ++ if is_last then [] else [O_DIRECTORY]) in
      let* child := outcome (or_errno "open source relative path" (openat current_fd (c_str component) flags 0)) in
      do* close_fd current_fd;
      let* child_fd := lift child in
      if is_last then ret child_fd else walk child_fd rest
  end.

(** [LinuxFileOps::OpenSource] *)
Definition Linux_OpenSource (root_fd : Fd) (path : RelativePath) : M K Fd :=
  let* duplicate_fd := or_errno "duplicate source root fd" (dup root_fd) in
  walk duplicate_fd (components path).

(** [LinuxFileOps::StatFd] *)
Definition identity_of_stat (info : Stat) : StatusOr FileIdentity.t :=
  let? mtime_ns := TimespecToNanoseconds (st_mtim info) "mtime" in
  let? ctime_ns := TimespecToNanoseconds (st_ctim info) "ctime" in
  let? device := ToUint64 (st_dev info) "device" in
  let? inode := ToUint64 (st_ino info) "inode" in
  let? size := ToUint64 (st_size info) "size" in
  Ok (FileIdentity.mk device inode size mtime_ns ctime_ns None).
Definition Linux_StatFd (fd : Fd) : M K FileIdentity.t :=
  let* info := or_errno "fstat file descriptor" (sys_fstat fd) in
  lift (identity_of_stat info).

(** [LinuxFileOps::CreateTempNoReplace] *)
Definition Linux_CreateTempNoReplace (parent_fd : Fd) (temp_name : string) (mode : Z) : M K Fd :=
  do* require_ok (ValidateLeafName temp_name);
  or_errno "create temporary file"
    (openat parent_fd (c_str temp_name) (flags [O_RDWR; O_CREAT; O_EXCL; O_CLOEXEC; O_NOFOLLOW]) mode).

(** [LinuxFileOps::Read], [LinuxFileOps::Write] *)
Definition Linux_Read (fd : Fd) (buffer : Z) : M K string :=
  if buffer =? 0 then ret ""
  else
    do* require (negb (ssize_max <? buffer)) (Invalid "read buffer is too large");
    or_errno "read file descriptor" (retry_interrupted (sys_read fd buffer)).
Definition Linux_Write (fd : Fd) (buffer : string) : M K nat :=
  if str_empty buffer then ret 0%nat
  else
    do* require (negb (ssize_max <? str_size buffer)) (Invalid "write buffer is too large");
    or_errno "write file descriptor" (retry_interrupted (sys_write fd buffer)).

(** [LinuxFileOps::Fdatasync], [LinuxFileOps::FsyncDirectory] *)
Definition Linux_Fdatasync (fd : Fd) : M K unit :=
  status_errno "fdatasync file descriptor" (retry_interrupted (sys_fdatasync fd)).
Definition Linux_FsyncDirectory (dir_fd : Fd) : M K unit :=
  status_errno "fsync directory descriptor" (retry_interrupted (sys_fsync dir_fd)).

(** [LinuxFileOps::RenameNoReplace] *)
Definition Linux_RenameNoReplace (old_dir_fd : Fd) (old_name : string) (new_dir_fd : Fd) (new_name : string)
    : M K unit :=
  do* require_ok (ValidateLeafName old_name);
  do* require_ok (ValidateLeafName new_name);
  status_errno "rename without replace"
    (sys_renameat2 old_dir_fd (c_str old_name) new_dir_fd (c_str new_name) RENAME_NOREPLACE).

(** [LinuxFileOps::UnlinkAt] *)
Definition Linux_UnlinkAt (dir_fd : Fd) (name : string) : M K unit :=
  do* require_ok (ValidateLeafName name);
  status_errno "unlink directory entry" (sys_unlinkat dir_fd (c_str name)).

(** [PlanExecutionLock::Acquire]: the descriptor that holds the lock. *)
Definition PlanExecutionLock_Acquire (lock_path : string) : M K Fd :=
  let* fd := or_errno "open plan execution lock"
    (open (c_str lock_path) (flags [O_CREAT; O_RDWR; O_CLOEXEC]) 384) in
  fun k => match sys_flock fd k with
           | (SysOk _, k) => (Ok fd, k)
           | (SysErr e, k) =>
               let k := sys_close fd k in
               if (Z.pos e =? EWOULDBLOCK) || (Z.pos e =? EAGAIN)
               then (Err (mkStatus StatusCode.kAlreadyExists ("plan already has an active executor: " +:+ lock_path)), k)
               else (StatusOr_of_status (StatusFromErrno (Z.pos e) "acquire plan execution lock"), k)
           end.

(** [class LinuxFileOps : public FileOps] *)
#[export] Instance LinuxFileOps : FileOps K := {|
  OpenRoot := Linux_OpenRoot;
  OpenSource := Linux_OpenSource;
  StatFd := Linux_StatFd;
  CreateTempNoReplace := Linux_CreateTempNoReplace;
  Read := Linux_Read;
  Write := Linux_Write;
  Fdatasync := Linux_Fdatasync;
  FsyncDirectory := Linux_FsyncDirectory;
  RenameNoReplace := Linux_RenameNoReplace;
  UnlinkAt := Linux_UnlinkAt;
|}.

End Linux.

(** ** The calls made *)

Inductive SysCall :=
  | CallMkdir (path : string) (mode : Z)
  | CallOpen (path : string) (flags mode : Z) (r : SysResult N)
  | CallDup (fd : Fd) (r : SysResult N)
  | CallOpenat (dir : Fd) (name : string) (flags mode : Z) (r : SysResult N)
  | CallClose (fd : Fd)
  | CallOnFd (fd : Fd)
  | CallRename (old_dir : Fd) (old_name : string) (new_dir : Fd) (new_name : string) (flags : Z) (r : SysResult unit)
  | CallUnlink (dir : Fd) (name : string) (r : SysResult unit).

Record Traced (K : Type) := mkTraced { kernel : K; calls : list SysCall }.
Arguments mkTraced {K}.
Arguments kernel {K}.
Arguments calls {K}.

Section Traced.
Context {K : Type} `{Kernel K}.

Definition traced {A} (call : SysResult A -> SysCall) (c : K -> SysResult A * K) (t : Traced K) : SysResult A * Traced K :=
  let (r, k) := c (kernel t) in (r, mkTraced k (calls t ++ [call r])).

#[export] Instance traced_Kernel : Kernel (Traced K) := {|
  sys_mkdir p m := traced (fun _ => CallMkdir p m) (sys_mkdir p m);
  sys_open p f m := traced (CallOpen p f m) (sys_open p f m);
  sys_dup fd := traced (CallDup fd) (sys_dup fd);
  sys_openat d n f m := traced (CallOpenat d n f m) (sys_openat d n f m);
  sys_close fd t := mkTraced (sys_close fd (kernel t)) (calls t ++ [CallClose fd]);
  sys_fstat fd := traced (fun _ => CallOnFd fd) (sys_fstat fd);
  sys_read fd n := traced (fun _ => CallOnFd fd) (sys_read fd n);
  sys_write fd s := traced (fun _ => CallOnFd fd) (sys_write fd s);
  sys_fdatasync fd := traced (fun _ => CallOnFd fd) (sys_fdatasync fd);
  sys_fsync fd := traced (fun _ => CallOnFd fd) (sys_fsync fd);
  sys_renameat2 od on nd nn f := traced (CallRename od on nd nn f) (sys_renameat2 od on nd nn f);
  sys_unlinkat d n := traced (CallUnlink d n) (sys_unlinkat d n);
  sys_flock fd := traced (fun _ => CallOnFd fd) (sys_flock fd);
  strerror := strerror;
  pending t := pending (kernel t);
|}.

End Traced.

(** The descriptors a list of calls leaves open; none if it closes one it does
    not hold. *)
Fixpoint remove_one (fd : Fd) (l : list Fd) : option (list Fd) :=
  match l with
  | [] => None
  | x :: l => if x =? fd then Some l else cons x <$> remove_one fd l
  end.
Fixpoint held (h : list Fd) (l : list SysCall) : option (list Fd) :=
  match l with
  | [] => Some h
  | CallOpen _ _ _ (SysOk fd) :: l | CallDup _ (SysOk fd) :: l | CallOpenat _ _ _ _ (SysOk fd) :: l =>
      held (Z.of_N fd :: h) l
  | CallClose fd :: l => h ← remove_one fd h; held h l
  | _ :: l => held h l
  end.

(** A call that names an entry names it inside the directory it is given,
    and follows no link. *)
Definition confined (c : SysCall) : Prop :=
  match c with
  | CallOpenat _ name flags _ _ => normal_component name /\ Z.testbit flags 17 = true /\ Z.testbit flags 19 = true
  | CallRename _ old_name _ new_name flags _ =>
      normal_component old_name /\ normal_component new_name /\ flags = RENAME_NOREPLACE
  | CallUnlink _ name _ => normal_component name
  | CallOpen _ _ _ _ | CallMkdir _ _ => False
  | _ => True
  end.

(** The calls that open [components] one by one, each from its parent. *)
Definition step_flags (last : bool) : Z := flags ([O_RDONLY; O_CLOEXEC; O_NOFOLLOW] ++ if last then [] else [O_DIRECTORY]).
Inductive walked (dir : Fd) : list string -> Fd -> list SysCall -> Prop :=
  | walked_last name fd :
      walked dir [name] (Z.of_N fd) [CallOpenat dir name (step_flags true) 0 (SysOk fd); CallClose dir]
  | walked_next name fd next rest target l :
      walked (Z.of_N fd) (next :: rest) target l ->
      walked dir (name :: next :: rest) target
        (CallOpenat dir name (step_flags false) 0 (SysOk fd) :: CallClose dir :: l).

(** From every kernel state, the calls [c] makes satisfy [P] with its result. *)
Definition makes {K A} (c : M (Traced K) A) (P : StatusOr A -> list SysCall -> Prop) : Prop :=
  forall t, runs c t (fun r t' => exists l, calls t' = calls t ++ l /\ P r l).

(** ** Names *)

Lemma ValidateLeafName_ok name : ok (ValidateLeafName name) = true <-> normal_component name.
Proof.
  unfold ValidateLeafName, normal_component.
  destruct (str_empty name) eqn:He; [apply str_empty_true in He as ->; naive_solver|].
  apply str_empty_false in He.
  destruct (str_contains slash name); [naive_solver|]. destruct (str_contains NUL name); [naive_solver|].
  destruct (decide (name = ".")) as [->|]; [naive_solver|]. destruct (decide (name = "..")) as [->|]; [naive_solver|].
  rewrite !bool_decide_eq_false_2 by done. naive_solver.
Qed.

Lemma remove_one_under fd x h : remove_one fd (x :: fd :: h) = Some (x :: h).
Proof. simpl. rewrite Z.eqb_refl. destruct (Z.eqb_spec x fd) as [->|]; done. Qed.

Lemma errno_not_ok {K} `{Kernel K} e operation : ok (StatusFromErrno (Z.pos e) operation) = false.
Proof.
  unfold StatusFromErrno. destruct (bool_decide_reflect (StatusCodeFromErrno (Z.pos e) = StatusCode.kOk)) as [Hk|Hk].
  - revert Hk. unfold StatusCodeFromErrno. change (Z.pos e =? 0) with false. cbn iota.
    by repeat (case_match; [done|]).
  - unfold ok. cbn [code]. by apply bool_decide_eq_false.
Qed.

Lemma confined_step dir name last r :
  normal_component name -> Forall confined [CallOpenat dir name (step_flags last) 0 r; CallClose dir].
Proof. intros Hname. constructor; [by destruct last|]. by constructor. Qed.

(** ** The calls of each operation *)

Section Calls.
Context {K : Type} `{Kernel K}.

Lemma makes_walk components : forall dir h, 0 <= dir -> components <> [] -> Forall normal_component components ->
  makes (walk (K := Traced K) dir components) (fun r l => Forall confined l
    /\ held (dir :: h) l = Some (match r with Ok fd => fd :: h | Err _ => h end)
    /\ forall fd, r = Ok fd -> walked dir components fd l).
Proof.
  induction components as [|name rest IH]; intros dir h Hdir Hne Hall t; [done|]. clear Hne.
  inversion_clear Hall as [|?? Hname Hrest].
  unfold runs. cbn [walk]. unfold bind, outcome, or_errno, openat, close_fd.
  rewrite c_str_plain by apply Hname. cbn [sys_openat traced_Kernel]. unfold traced.
  rewrite (proj2 (Z.leb_le 0 dir) Hdir). cbn [sys_close traced_Kernel].
  set (last := match rest with [] => true | _ => false end).
  change (flags _) with (step_flags last).
  destruct (sys_openat dir name (step_flags last) 0 (kernel t)) as [[fd|e] k]; cbn -[step_flags held walk].
  2:{ set (call := CallOpenat _ _ _ _ _). pose proof (confined_step dir name last (SysErr e) Hname) as Hc.
      unfold StatusOr_of_status, lift. destruct (ok _); eexists; rewrite <- app_assoc; (split; [done|]); (split; [exact Hc|]);
        (split; [|done]); cbn; by rewrite Z.eqb_refl. }
  set (call := CallOpenat _ _ _ _ _). pose proof (confined_step dir name last (SysOk fd) Hname) as Hc.
  assert (held (dir :: h) [call; CallClose dir] = Some (Z.of_N fd :: h)) as Hheld.
  { unfold held, call. by rewrite remove_one_under. }
  destruct rest as [|next rest]; cbn [last] in *; subst last.
  - eexists. rewrite <- app_assoc. split; [done|]. split; [done|]. split; [done|]. intros ? [= <-]. constructor.
  - set (t1 := mkTraced _ _). pose proof (IH (Z.of_N fd) h ltac:(lia) ltac:(done) Hrest t1) as IH1.
    unfold runs in IH1. destruct (walk _ _ t1) as [r t2]. destruct IH1 as (l&Hl&Hconf&Hh&Hw).
    exists (call :: CallClose dir :: l). subst t1. cbn [calls] in Hl. rewrite Hl, <- !app_assoc. split; [done|].
    split; [by apply (Forall_app_2 _ [call; CallClose dir])|]. split.
    + unfold call. cbn [held] in *. rewrite remove_one_under. cbn. exact Hh.
    + intros fd' ->. constructor. by apply Hw.
Qed.

Lemma makes_status_errno operation call (c : K -> SysResult unit * K) :
  makes (status_errno operation (traced call c)) (fun r l =>
    match r with Ok _ => l = [call (SysOk tt)] | Err _ => exists e, l = [call (SysErr e)] end).
Proof.
  intros t. unfold runs, status_errno, traced. destruct (c (kernel t)) as [[[]|e] k].
  - by exists [call (SysOk tt)].
  - unfold require_ok. rewrite errno_not_ok. eexists. split; [done|]. by eexists.
Qed.

Lemma makes_require_ok st (P : StatusOr unit -> list SysCall -> Prop) (c : M (Traced K) unit) :
  (ok st = true -> makes c P) -> (ok st = false -> P (Err st) []) -> makes (do* require_ok st; c) P.
Proof.
  intros Hok Herr t. unfold runs, bind, require_ok. destruct (ok st); [by apply Hok|].
  exists []. rewrite app_nil_r. split; [done|by apply Herr].
Qed.

Lemma makes_OpenSource root path : wf_path path ->
  makes (Linux_OpenSource (K := Traced K) root path) (fun r l => Forall confined l /\
    match r with
    | Ok fd => held [] l = Some [fd]
        /\ exists d l', l = CallDup root (SysOk d) :: l' /\ walked (Z.of_N d) (components path) fd l'
    | Err _ => held [] l = Some []
    end).
Proof.
  intros Hpath t. unfold Linux_OpenSource, runs, bind, or_errno, dup. cbn [sys_dup traced_Kernel]. unfold traced.
  destruct (sys_dup root (kernel t)) as [[d|e] k]; cbn [descriptor].
  2:{ unfold StatusOr_of_status. destruct (ok _); eexists; (split; [done|]); by repeat constructor. }
  apply Parse_Ok in Hpath as (_&Hne&_&Hall). set (t1 := mkTraced _ _).
  pose proof (makes_walk _ (Z.of_N d) [] ltac:(lia) Hne Hall t1) as Hw. unfold runs in Hw.
  destruct (walk (Z.of_N d) (components path) t1) as [r t2]. destruct Hw as (l&Hl&Hc&Hh&Hw).
  exists (CallDup root (SysOk d) :: l). rewrite Hl. subst t1. cbn [calls]. rewrite <- app_assoc. split; [done|].
  split; [by constructor|]. destruct r as [fd|e]; [|exact Hh]. split; [exact Hh|]. eauto 6.
Qed.

Lemma makes_CreateTemp dir name mode :
  makes (Linux_CreateTempNoReplace (K := Traced K) dir name mode) (fun r l => Forall confined l /\
    match r with
    | Ok fd => exists n, fd = Z.of_N n
        /\ l = [CallOpenat dir name (flags [O_RDWR; O_CREAT; O_EXCL; O_CLOEXEC; O_NOFOLLOW]) mode (SysOk n)]
    | Err _ => held [] l = Some []
    end).
Proof.
  intros t. unfold Linux_CreateTempNoReplace, runs, bind, require_ok.
  destruct (ok (ValidateLeafName name)) eqn:Hn; [|exists []; by rewrite app_nil_r].
  apply ValidateLeafName_ok in Hn. unfold ret, or_errno, openat. rewrite c_str_plain by apply Hn.
  cbn [sys_openat traced_Kernel]. unfold traced. destruct (sys_openat _ _ _ _ _) as [[n|e] k]; cbn [descriptor].
  - eexists. split; [done|]. split; [by apply Forall_singleton|]. by exists n.
  - unfold StatusOr_of_status. destruct (ok _); eexists; (split; [done|]); (split; [by apply Forall_singleton|done]).
Qed.

Lemma makes_Rename dir name dir' name' :
  makes (Linux_RenameNoReplace (K := Traced K) dir name dir' name') (fun r l => Forall confined l
    /\ (r = Ok tt -> l = [CallRename dir name dir' name' RENAME_NOREPLACE (SysOk tt)])).
Proof.
  apply makes_require_ok; [intros Hn%ValidateLeafName_ok|by repeat constructor].
  apply makes_require_ok; [intros Hn'%ValidateLeafName_ok|by repeat constructor].
  intros t. rewrite !c_str_plain by (apply Hn || apply Hn').
  eapply runs_mono; [apply makes_status_errno|]. intros [[]|e] t' (l&Hl&Hr); exists l; (split; [done|]).
  - subst l. split; [by apply Forall_singleton|done].
  - destruct Hr as [x ->]. split; [by apply Forall_singleton|done].
Qed.

Lemma makes_Unlink dir name :
  makes (Linux_UnlinkAt (K := Traced K) dir name) (fun r l => Forall confined l
    /\ (r = Ok tt -> l = [CallUnlink dir name (SysOk tt)])).
Proof.
  apply makes_require_ok; [intros Hn%ValidateLeafName_ok|by repeat constructor].
  intros t. rewrite c_str_plain by apply Hn.
  eapply runs_mono; [apply makes_status_errno|]. intros [[]|e] t' (l&Hl&Hr); exists l; (split; [done|]).
  - subst l. split; [by apply Forall_singleton|done].
  - destruct Hr as [x ->]. split; [by apply Forall_singleton|done].
Qed.

End Calls.

(** ** Interrupted calls and exact identities *)

(** A call that is interrupted finitely often is made until it is not: the
    result is that of the first call that ends otherwise. *)
Lemma retry_ends {K} `{Kernel K} {A} (c : K -> SysResult A * K) k :
  (forall k k', c k = (SysErr 4%positive, k') -> (pending k' < pending k)%nat) ->
  (retry_interrupted c k).1 <> SysErr 4%positive.
Proof.
  intros Hsignals. unfold retry_interrupted. generalize (le_n (pending k)). generalize (pending k) at 2 3 as n.
  intros n. revert k. induction n as [|n IH]; intros k Hn; cbn [retried];
    destruct (c k) as [[a|e] k'] eqn:Hc; try done.
  - intros [= ->]. specialize (Hsignals _ _ Hc). lia.
  - destruct (Z.eqb_spec (Z.pos e) EINTR) as [He|He]; [|cbn; intros [= ->]; by apply He].
    apply IH. injection He as ->. specialize (Hsignals _ _ Hc). lia.
Qed.

(** The nanoseconds of an accepted time are exact: no sum wraps. *)
Lemma TimespecToNanoseconds_exact timestamp field n :
  TimespecToNanoseconds timestamp field = Ok n ->
  n = tv_sec timestamp * kNanosecondsPerSecond + tv_nsec timestamp /\ int64_min <= n <= int64_max.
Proof.
  destruct timestamp as [seconds nanoseconds]. unfold TimespecToNanoseconds. cbn [tv_sec tv_nsec].
  change (Z.quot int64_max kNanosecondsPerSecond) with 9223372036.
  change (Z.quot int64_min kNanosecondsPerSecond) with (-9223372036).
  change (Z.rem int64_max kNanosecondsPerSecond) with 854775807.
  destruct ((nanoseconds <? 0) || _) eqn:E1; [done|].
  destruct ((9223372036 <? seconds) || _) eqn:E2; [done|].
  destruct ((seconds =? 9223372036) && _) eqn:E3; [done|].
  apply andb_false_iff in E3. bool_hyps. unfold kNanosecondsPerSecond in *. intros [= <-].
  assert (int64_min <= seconds * 1000000000 + nanoseconds <= int64_max) as Hr.
  { unfold int64_min, int64_max. destruct E3; bool_hyps; lia. }
  rewrite (to_int64_signed (seconds * 1000000000)); [by rewrite to_int64_signed|].
  unfold int64_min, int64_max in *. lia.
Qed.

(** C21. Whatever the kernel answers: [OpenSource] opens the components of its
    path one after the other, each from the directory of the one before and
    without following links, and leaves open the file alone, or nothing on an
    error; a temporary file is created exclusively, a file renamed without
    replacing another, and a name handed to the kernel is one component of
    the directory it is looked up in. *)
Theorem linux_calls_are_confined {K} `{Kernel K} root path dir dir' name name' mode :
  wf_path path ->
  makes (OpenSource (W := Traced K) root path) (fun r l => Forall confined l /\
    match r with
    | Ok fd => held [] l = Some [fd]
        /\ exists d l', l = CallDup root (SysOk d) :: l' /\ walked (Z.of_N d) (components path) fd l'
    | Err _ => held [] l = Some []
    end)
  /\ makes (CreateTempNoReplace (W := Traced K) dir name mode) (fun r l => Forall confined l /\
    match r with
    | Ok fd => exists n, fd = Z.of_N n
        /\ l = [CallOpenat dir name (flags [O_RDWR; O_CREAT; O_EXCL; O_CLOEXEC; O_NOFOLLOW]) mode (SysOk n)]
    | Err _ => held [] l = Some []
    end)
  /\ makes (RenameNoReplace (W := Traced K) dir name dir' name') (fun r l => Forall confined l
       /\ (r = Ok tt -> l = [CallRename dir name dir' name' RENAME_NOREPLACE (SysOk tt)]))
  /\ makes (UnlinkAt (W := Traced K) dir name) (fun r l => Forall confined l
       /\ (r = Ok tt -> l = [CallUnlink dir name (SysOk tt)])).
Proof.
  intros Hpath. split; [by apply makes_OpenSource|]. split; [apply makes_CreateTemp|].
  split; [apply makes_Rename|apply makes_Unlink].
Qed.

(** A kernel that has every file and numbers the descriptors. *)
Definition every_file : Kernel N := {|
  sys_mkdir _ _ n := (SysOk tt, n);
  sys_open _ _ _ n := (SysOk n, N.succ n);
  sys_dup _ n := (SysOk n, N.succ n);
  sys_openat _ _ _ _ n := (SysOk n, N.succ n);
  sys_close _ n := n;
  sys_fstat _ n := (SysErr 5, n);
  sys_read _ _ n := (SysOk "", n);
  sys_write _ s n := (SysOk (String.length s), n);
  sys_fdatasync _ n := (SysOk tt, n);
  sys_fsync _ n := (SysOk tt, n);
  sys_renameat2 _ _ _ _ _ n := (SysOk tt, n);
  sys_unlinkat _ _ n := (SysOk tt, n);
  sys_flock _ n := (SysOk tt, n);
  strerror _ := "";
  pending _ := 0%nat;
|}.

Lemma linux_calls_are_confined_witness :
  let path := mkRelativePath "a/b" ["a"; "b"] in
  wf_path path
  /\ (@OpenSource _ (@LinuxFileOps _ (@traced_Kernel _ every_file)) 3 path (mkTraced 4%N [])).1 = Ok 6
  /\ @makes N _ (@OpenSource _ (@LinuxFileOps _ (@traced_Kernel _ every_file)) 3 path) (fun r l => Forall confined l /\
    match r with
    | Ok fd => held [] l = Some [fd]
        /\ exists d l', l = CallDup 3 (SysOk d) :: l' /\ walked (Z.of_N d) (components path) fd l'
    | Err _ => held [] l = Some []
    end).
Proof.
  split; [by vm_compute|]. split; [by vm_compute|].
  apply (@linux_calls_are_confined _ every_file 3 _ 3 3 "" "" 0). by vm_compute.
Defined.
