(* ===== verification/CopyVerify.v ===== *)
(** * CopyVerify: copying, hashing and verifying bytes

    Models src/filesystem/copy_and_hash.cpp, binary_verifier.cpp and
    mutation_guard.cpp over any [FileOps].  A buffer is its size; the hasher
    is the bytes it has been given, BLAKE3 of which is a parameter. *)

From S2P Require Import Prelude Status Bytes RelativePath Task Assets Sqlite FileOps.

(** ** [class Blake3Hasher] *)

Record Blake3Hasher := mkBlake3Hasher { hashed : string; finalized : bool }.
Definition new_hasher : Blake3Hasher := mkBlake3Hasher "" false.

Definition Update (h : Blake3Hasher) (data : string) : StatusOr Blake3Hasher :=
  if finalized h then Err (Invalid "cannot update a finalized hasher")
  else Ok (mkBlake3Hasher (hashed h +:+ data) false).

(** ** [class MutationGuard] *)

Record MutationGuard := mkMutationGuard {
  guard_fd : Fd;
  manifest_identity : FileIdentity.t;
  opened_identity : FileIdentity.t;
}.

Definition IdentityMismatch (phase : string) : Status :=
  Internal ("source file identity changed " +:+ phase).

Inductive BinaryVerification := kIdentical | kMismatch | kNotApplicable | kUnverifiable.
#[export] Instance BinaryVerification_eq_dec : EqDecision BinaryVerification.
Proof. solve_decision. Defined.

Record BinaryVerificationResult := mkBinaryVerificationResult {
  verification_status : BinaryVerification;
  bytes_read : Z;
  target_digest : Digest;
  target_before : FileIdentity.t;
  target_after : FileIdentity.t;
}.

Section Copy.
Context (Blake3 : string -> Digest).
Context {W : Type} `{FileOps W}.

(** [Blake3Hasher::Finalize()] *)
Definition Finalize (h : Blake3Hasher) : StatusOr Digest :=
  if finalized h then Err (Invalid "hasher was already finalized") else Ok (Blake3 (hashed h)).

(** One turn of [WriteAll], on the bytes from [offset] on. *)
Definition write_body (target_fd : Fd) (remaining : string) : M W (string + unit) :=
  if str_empty remaining then ret (inr tt)
  else
    let* written := Write target_fd remaining in
    do* require (negb (written =? 0)%nat) (mkStatus StatusCode.kIoError "target write made no progress");
    do* require (negb (String.length remaining <? written)%nat)
      (Internal "target write exceeded requested byte count");
    ret (inl (str_drop written remaining)).

Definition write_turns (data : string) : positive := Pos.of_succ_nat (String.length data).
Definition WriteAll (target_fd : Fd) (data : string) : M W unit :=
  within (write_turns data) (write_body target_fd) data.

(** One turn of the copy: [result.bytes_copied] and the hasher. *)
Definition copy_body (source_fd target_fd : Fd) (buffer : Z) (s : Z * Blake3Hasher)
    : M W ((Z * Blake3Hasher) + (Z * Blake3Hasher)) :=
  let (copied, hasher) := s in
  let* data := Read source_fd buffer in
  do* require (negb (buffer <? str_size data)) (Internal "source read exceeded buffer capacity");
  if str_size data =? 0 then ret (inr (copied, hasher))
  else
    do* require (negb (uint64_max - str_size data <? copied)) (Internal "copied byte count overflowed");
    let* hasher := lift (Update hasher data) in
    do* WriteAll target_fd data;
    ret (inl (copied + str_size data, hasher)).

(** [CopyAndHash(file_ops, hasher, source_fd, target_fd, buffer)] *)
Definition CopyAndHash (hasher : Blake3Hasher) (source_fd target_fd : Fd) (buffer : Z) : M W CopyResult :=
  do* require (negb (buffer =? 0)) (Invalid "copy buffer must not be empty");
  let* result := within uint64_turns (copy_body source_fd target_fd buffer) (0, hasher) in
  let* digest := lift (Finalize result.2) in
  ret (mkCopyResult result.1 digest).

(** [VerifyIdentity(file_ops, fd, expected, phase)] *)
Definition VerifyIdentity (fd : Fd) (expected : FileIdentity.t) (phase : string) : M W unit :=
  let* actual := StatFd fd in
  require (actual == expected) (IdentityMismatch phase).

(** [MutationGuard::Open] *)
Definition Open (source_root_fd : Fd) (asset : PhysicalAsset) : M W MutationGuard :=
  let* fd := OpenSource source_root_fd (relative_path asset) in
  let* opened_identity := StatFd fd in
  do* require (opened_identity == identity asset) (IdentityMismatch "before read");
  ret (mkMutationGuard fd (identity asset) opened_identity).

(** [VerifyBeforeRead] updates the guard. *)
Definition VerifyBeforeRead (g : MutationGuard) : M W MutationGuard :=
  let* current := StatFd (guard_fd g) in
  do* require (current == manifest_identity g) (IdentityMismatch "before read");
  ret (mkMutationGuard (guard_fd g) (manifest_identity g) current).

Definition VerifyAfterRead (g : MutationGuard) : M W unit :=
  VerifyIdentity (guard_fd g) (opened_identity g) "during read".

(** [CopyAndHash(file_ops, hasher, source_guard, target_fd, buffer)] *)
Definition CopyAndHashGuarded (hasher : Blake3Hasher) (g : MutationGuard) (target_fd : Fd) (buffer : Z)
    : M W CopyResult :=
  let* g := VerifyBeforeRead g in
  let* result := CopyAndHash hasher (guard_fd g) target_fd buffer in
  do* VerifyAfterRead g;
  ret result.

(** One turn of the verification: [result.bytes_read] and the hasher. *)
Definition verify_body (target_fd : Fd) (buffer : Z) (s : Z * Blake3Hasher)
    : M W ((Z * Blake3Hasher) + (Z * Blake3Hasher)) :=
  let (count, hasher) := s in
  let* data := Read target_fd buffer in
  do* require (negb (buffer <? str_size data)) (Internal "target read exceeded buffer capacity");
  if str_size data =? 0 then ret (inr (count, hasher))
  else
    do* require (negb (uint64_max - str_size data <? count)) (Internal "verified byte count overflowed");
    let* hasher := lift (Update hasher data) in
    ret (inl (count + str_size data, hasher)).

(** [VerifyBinary] *)
Definition VerifyBinary (hasher : Blake3Hasher) (target_fd : Fd) (expected_size : Z)
    (expected_digest : option Digest) (buffer : Z) : M W BinaryVerificationResult :=
  do* require (negb (buffer =? 0)) (Invalid "verification buffer must not be empty");
  let* before := StatFd target_fd in
  let* result := within uint64_turns (verify_body target_fd buffer) (0, hasher) in
  let* after := StatFd target_fd in
  do* require (before == after) (Internal "target file identity changed during verification");
  let* digest := lift (Finalize result.2) in
  let status :=
    match expected_digest with
    | None => kNotApplicable
    | Some expected =>
        if (result.1 =? expected_size) && (digest == expected) then kIdentical else kMismatch
    end in
  ret (mkBinaryVerificationResult status result.1 digest before after).

(** ** The loops end *)

Lemma write_ends fd data : ends (write_turns data) (write_body fd) data.
Proof.
  apply (measure_ends _ (fun _ => True) (fun s => Z.of_nat (String.length s))); [|lia|done|].
  - intros s w s' w' _. unfold write_body, bind, require. destruct (str_empty s); [done|].
    destruct (Write fd s w) as [[n|] w1]; [|done]. destruct (Nat.eqb_spec n 0); [done|]. cbn [negb ret].
    destruct (Nat.ltb_spec (String.length s) n); [done|]. cbn [negb ret]. intros [= <- _].
    rewrite str_drop_length. split; [done|lia].
  - unfold write_turns. lia.
Qed.

Definition counted_turn (a : Z * Blake3Hasher) : Prop := 0 <= a.1 <= uint64_max.

Lemma copy_body_measure sfd tfd buffer a w a' w' :
  counted_turn a -> copy_body sfd tfd buffer a w = (Ok (inl a'), w') ->
  counted_turn a' /\ uint64_max - a'.1 < uint64_max - a.1.
Proof.
  destruct a as [copied h]. unfold copy_body, bind, counted_turn. cbn [fst].
  destruct (Read sfd buffer w) as [[data|] w1]; [|done]. unfold require.
  destruct (buffer <? str_size data); [done|]. cbn [negb ret].
  destruct (Z.eqb_spec (str_size data) 0); [done|].
  destruct (Z.ltb_spec (uint64_max - str_size data) copied) as [|Hle]; [done|]. cbn [negb ret lift].
  destruct (Update h data); [|done]. destruct (WriteAll tfd data w1) as [[[]|] ?]; [|done].
  intros ? [= <- _]. cbn [fst]. unfold str_size in *. lia.
Qed.

Lemma verify_body_measure fd buffer a w a' w' :
  counted_turn a -> verify_body fd buffer a w = (Ok (inl a'), w') ->
  counted_turn a' /\ uint64_max - a'.1 < uint64_max - a.1.
Proof.
  destruct a as [count h]. unfold verify_body, bind, counted_turn. cbn [fst].
  destruct (Read fd buffer w) as [[data|] w1]; [|done]. unfold require.
  destruct (buffer <? str_size data); [done|]. cbn [negb ret].
  destruct (Z.eqb_spec (str_size data) 0); [done|].
  destruct (Z.ltb_spec (uint64_max - str_size data) count) as [|Hle]; [done|]. cbn [negb ret lift].
  destruct (Update h data); [|done]. intros ? [= <- _]. cbn [fst]. unfold str_size in *. lia.
Qed.

Lemma uint64_turns_enough : uint64_max < Z.pos uint64_turns.
Proof. done. Qed.

Lemma copy_ends sfd tfd buffer h : ends uint64_turns (copy_body sfd tfd buffer) (0, h).
Proof.
  apply (measure_ends _ counted_turn (fun a => uint64_max - a.1)); [apply copy_body_measure|..];
    unfold counted_turn; cbn [fst]; pose proof uint64_turns_enough; unfold uint64_max in *; lia.
Qed.

Lemma verify_ends fd buffer h : ends uint64_turns (verify_body fd buffer) (0, h).
Proof.
  apply (measure_ends _ counted_turn (fun a => uint64_max - a.1)); [apply verify_body_measure|..];
    unfold counted_turn; cbn [fst]; pose proof uint64_turns_enough; unfold uint64_max in *; lia.
Qed.

(** Whatever the file system does, short reads and writes included, the
    loops of the copy, of the write and of the verification end: each turn
    makes progress or stops, and the 64-bit byte counters bound the turns. *)
Lemma file_loops_terminate source_fd target_fd buffer hasher data :
  ends uint64_turns (copy_body source_fd target_fd buffer) (0, hasher)
  /\ ends uint64_turns (verify_body target_fd buffer) (0, hasher)
  /\ ends (write_turns data) (write_body target_fd) data.
Proof. split; [apply copy_ends|]. split; [apply verify_ends|apply write_ends]. Qed.

End Copy.
