(* ===== verification/CopyTheorems.v ===== *)
(** * CopyTheorems: what the log of a copy or a verification shows

    The calls each routine of CopyVerify.v makes on a [World], for every file
    system: which descriptors it touches, and, when it succeeds, that the
    bytes written and hashed are the bytes read. *)

From S2P Require Import Prelude Status Bytes RelativePath Task Assets Sqlite FileOps CopyVerify.

Section Traces.
Context (Blake3 : string -> Digest).
Context {F D : Type} `{FileOps F}.
Implicit Types (w : World F D) (l : list Event).

(** The log of [w'] is that of [w] and [l]; the store is untouched. *)
Definition grows w w' l : Prop := log w' = log w ++ l /\ store w' = store w.

Lemma grows_refl w : grows w w [].
Proof. split; [by rewrite app_nil_r|done]. Qed.

Lemma grows_trans w1 w2 w3 l1 l2 : grows w1 w2 l1 -> grows w2 w3 l2 -> grows w1 w3 (l1 ++ l2).
Proof. intros [Hl1 Hs1] [Hl2 Hs2]. split; [by rewrite Hl2, Hl1, app_assoc|by rewrite Hs2]. Qed.

Lemma grows_one w f e : grows w (mkWorld f (store w) (log w ++ [e])) [e].
Proof. done. Qed.

Definition on_fd (fd : Fd) (e : Event) : Prop :=
  match e with EvRead fd' _ _ | EvStatFd fd' _ => fd' = fd | _ => False end.
Definition is_write (fd : Fd) (e : Event) : Prop :=
  match e with EvWrite fd' _ _ => fd' = fd | _ => False end.
Definition is_copy (source_fd target_fd : Fd) (e : Event) : Prop :=
  match e with EvRead fd _ _ => fd = source_fd | EvWrite fd _ _ => fd = target_fd | _ => False end.

(** The last read found the end of the file, before the last [StatFd]. *)
Definition to_the_end (fd : Fd) (l : list Event) : Prop :=
  exists l0 size r, l = l0 ++ [EvRead fd size (Ok ""); EvStatFd fd r] /\ 0 <> size.

Lemma writes_only fd fd' l : Forall (is_write fd) l -> reads_of fd' l = "".
Proof. induction 1 as [|e l He _ IH]; [done|]. by destruct e. Qed.

Lemma read_one fd n data : reads_of fd [EvRead fd n (Ok data)] = data.
Proof. unfold reads_of. simpl. rewrite Z.eqb_refl. apply str_app_nil. Qed.

Lemma write_one fd data n : writes_of fd [EvWrite fd data (Ok n)] = str_take n data.
Proof. unfold writes_of. simpl. rewrite Z.eqb_refl. apply str_app_nil. Qed.

Lemma runs_WriteAll fd data w :
  runs (WriteAll fd data) w (fun r w' => exists l, grows w w' l /\ Forall (is_write fd) l
    /\ (r = Ok tt -> writes_of fd l = data)).
Proof.
  unfold WriteAll, within. apply runs_bind.
  eapply runs_mono; [apply (runs_loop _ (fun remaining w' => exists l, grows w w' l /\ Forall (is_write fd) l
      /\ writes_of fd l +:+ remaining = data)
    (fun r w' => exists l, grows w w' l /\ Forall (is_write fd) l /\ (r = Ok tt -> writes_of fd l = data)))|].
  - intros remaining w1 (l&Hg&Hl&Hd). unfold write_body.
    destruct remaining as [|c rest] eqn:Hrem; cbn [str_empty].
    { apply runs_ret. exists l. rewrite str_app_nil in Hd. by split_and!. }
    rewrite <- Hrem in *. apply runs_bind, runs_on_files. intros r f.
    pose proof (grows_trans _ _ _ _ _ Hg (grows_one w1 f (EvWrite fd remaining r))) as Hg1.
    assert (Forall (is_write fd) (l ++ [EvWrite fd remaining r])) as Hl1 by (apply Forall_app; by repeat constructor).
    destruct r as [n|e]; [|by eexists].
    apply runs_bind, runs_require; [intros _|intros _; by eexists].
    apply runs_bind, runs_require; [intros _|intros _; by eexists].
    apply runs_ret. eexists. split; [exact Hg1|]. split; [done|].
    by rewrite writes_of_app, write_one, str_app_assoc, str_take_drop.
  - exists []. split; [apply grows_refl|]. by split.
  - intros [[remaining|[]]|e] w' Hw'; [|done|done].
    destruct Hw' as (l&Hg&Hl&_). by exists l.
Qed.

Lemma runs_CopyAndHash h sfd tfd buffer w :
  finalized h = false ->
  runs (CopyAndHash Blake3 h sfd tfd buffer) w (fun r w' => exists l, grows w w' l /\ Forall (is_copy sfd tfd) l
    /\ forall c, r = Ok c -> bytes_copied c = str_size (reads_of sfd l)
         /\ source_digest c = Blake3 (hashed h +:+ reads_of sfd l) /\ writes_of tfd l = reads_of sfd l).
Proof.
  intros Hh. set (I := fun (s : Z * Blake3Hasher) w' => exists l, grows w w' l /\ Forall (is_copy sfd tfd) l
    /\ finalized s.2 = false /\ hashed s.2 = hashed h +:+ reads_of sfd l
    /\ writes_of tfd l = reads_of sfd l /\ s.1 = str_size (reads_of sfd l)).
  assert (forall (e : Status) w', (exists l, grows w w' l /\ Forall (is_copy sfd tfd) l) ->
    exists l, grows w w' l /\ Forall (is_copy sfd tfd) l
    /\ forall c, @Err CopyResult e = Ok c -> bytes_copied c = str_size (reads_of sfd l)
         /\ source_digest c = Blake3 (hashed h +:+ reads_of sfd l) /\ writes_of tfd l = reads_of sfd l) as Herr.
  { intros e w' (l&?&?). by exists l. }
  unfold CopyAndHash, within. apply runs_bind, runs_require; [intros _|intros _; apply Herr; exists []; split; [apply grows_refl|done]].
  apply runs_bind, runs_bind. eapply runs_mono; [apply (runs_loop _ I (fun r w' => match r with
    | Ok s => I s w' | Err _ => exists l, grows w w' l /\ Forall (is_copy sfd tfd) l end))|].
  - intros [copied h1] w1 (l&Hg&Hl&Hf&Hd&Hw&Hc). cbn [fst snd] in *. unfold copy_body.
    apply runs_bind, runs_on_files. intros r f.
    pose proof (grows_trans _ _ _ _ _ Hg (grows_one w1 f (EvRead sfd buffer r))) as Hg1.
    assert (Forall (is_copy sfd tfd) (l ++ [EvRead sfd buffer r])) as Hl1 by (apply Forall_app; by repeat constructor).
    destruct r as [data|e]; [|by eexists].
    apply runs_bind, runs_require; [intros _|intros _; by eexists].
    assert (reads_of sfd (l ++ [EvRead sfd buffer (Ok data)]) = reads_of sfd l +:+ data) as Hr1
      by by rewrite reads_of_app, read_one.
    assert (writes_of tfd (l ++ [EvRead sfd buffer (Ok data)]) = writes_of tfd l) as Hw1
      by by rewrite writes_of_app, str_app_nil.
    destruct (Z.eqb_spec (str_size data) 0) as [Hz|Hz].
    { assert (data = "") as -> by by destruct data. apply runs_ret. eexists. split; [exact Hg1|].
      split; [done|]. rewrite Hr1, Hw1, str_app_nil. by split_and!. }
    apply runs_bind, runs_require; [intros _|intros _; by eexists].
    apply runs_bind, runs_lift. unfold Update. rewrite Hf. apply runs_bind.
    eapply runs_mono; [apply runs_WriteAll|]. intros [[]|e] w2 (lw&Hg2&Hlw&Hwr);
      pose proof (grows_trans _ _ _ _ _ Hg1 Hg2) as Hg3;
      (assert (Forall (is_copy sfd tfd) ((l ++ [EvRead sfd buffer (Ok data)]) ++ lw)) as Hl3;
       [apply Forall_app; split; [done|]; eapply Forall_impl; [exact Hlw|]; by intros []|]);
      [|by eexists].
    apply runs_ret. eexists. split; [exact Hg3|]. split; [done|]. cbn [fst snd finalized hashed].
    rewrite (reads_of_app _ _ lw), Hr1, (writes_of_app _ _ lw), Hw1, (writes_only tfd _ lw), Hwr, str_app_nil by done.
    split; [done|]. rewrite Hd, Hw, str_app_assoc, Hc. split; [done|]. split; [done|].
    unfold str_size. rewrite str_length_app. lia.
  - exists []. split; [apply grows_refl|]. cbn [fst snd]. rewrite str_app_nil. by split_and!.
  - intros [[s|s]|e] w1; cbn beta iota.
    + intros (l&Hg&Hl&_). apply runs_throw. apply Herr. by exists l.
    + intros (l&Hg&Hl&Hf&Hd&Hw&Hc). apply runs_ret, runs_bind, runs_lift. unfold Finalize. rewrite Hf.
      apply runs_ret. exists l. split; [done|]. split; [done|]. intros c [= <-]. cbn. by rewrite Hd, Hc.
    + by apply Herr.
Qed.

Lemma runs_VerifyBinary h fd size digest buffer w :
  finalized h = false ->
  runs (VerifyBinary Blake3 h fd size digest buffer) w (fun r w' => exists l, grows w w' l /\ Forall (on_fd fd) l
    /\ forall v, r = Ok v ->
         target_before v = target_after v
         /\ head l = Some (EvStatFd fd (Ok (target_before v))) /\ last l = Some (EvStatFd fd (Ok (target_after v)))
         /\ to_the_end fd l
         /\ bytes_read v = str_size (reads_of fd l) /\ target_digest v = Blake3 (hashed h +:+ reads_of fd l)
         /\ verification_status v = match digest with
              | None => kNotApplicable
              | Some d => if (bytes_read v =? size) && (target_digest v == d) then kIdentical else kMismatch
              end).
Proof.
  intros Hh. set (I := fun (s : Z * Blake3Hasher) w' => exists l, grows w w' l /\ Forall (on_fd fd) l
    /\ finalized s.2 = false /\ hashed s.2 = hashed h +:+ reads_of fd l /\ s.1 = str_size (reads_of fd l)).
  assert (forall (e : Status) w' (P : list Event -> BinaryVerificationResult -> Prop),
    (exists l, grows w w' l /\ Forall (on_fd fd) l) ->
    exists l, grows w w' l /\ Forall (on_fd fd) l /\ forall v, @Err BinaryVerificationResult e = Ok v -> P l v) as Herr.
  { intros e w' P (l&?&?). by exists l. }
  unfold VerifyBinary, within.
  apply runs_bind, runs_require; [intros Hbuffer|intros _; apply Herr; exists []; split; [apply grows_refl|done]].
  apply negb_true_iff, Z.eqb_neq in Hbuffer.
  apply runs_bind, runs_on_files. intros r0 f0. pose proof (grows_one w f0 (EvStatFd fd r0)) as Hg0.
  assert (Forall (on_fd fd) [EvStatFd fd r0]) as Hl0 by by repeat constructor.
  destruct r0 as [before|e]; [|apply Herr; by eexists]. cbn beta iota. set (w0 := mkWorld f0 _ _) in *.
  apply runs_bind, runs_bind. eapply runs_mono; [apply (runs_loop _
    (fun s w' => exists l, grows w0 w' l /\ Forall (on_fd fd) l
      /\ finalized s.2 = false /\ hashed s.2 = hashed h +:+ reads_of fd l /\ s.1 = str_size (reads_of fd l))
    (fun r w' => exists l, grows w0 w' l /\ Forall (on_fd fd) l /\ forall s, r = Ok s ->
      last l = Some (EvRead fd buffer (Ok "")) /\ finalized s.2 = false /\ hashed s.2 = hashed h +:+ reads_of fd l /\ s.1 = str_size (reads_of fd l)))|].
  - intros [count h1] w1 (l&Hg&Hl&Hf&Hd&Hc). cbn [fst snd] in *. unfold verify_body.
    apply runs_bind, runs_on_files. intros r f.
    pose proof (grows_trans _ _ _ _ _ Hg (grows_one w1 f (EvRead fd buffer r))) as Hg1.
    assert (Forall (on_fd fd) (l ++ [EvRead fd buffer r])) as Hl1 by (apply Forall_app; by repeat constructor).
    destruct r as [data|e]; [|by eexists].
    apply runs_bind, runs_require; [intros _|intros _; by eexists].
    assert (reads_of fd (l ++ [EvRead fd buffer (Ok data)]) = reads_of fd l +:+ data) as Hr1
      by by rewrite reads_of_app, read_one.
    destruct (Z.eqb_spec (str_size data) 0) as [Hz|Hz].
    { assert (data = "") as -> by by destruct data. apply runs_ret. eexists. split; [exact Hg1|].
      split; [done|]. intros s [= <-]. rewrite last_snoc, Hr1, str_app_nil. by split_and!. }
    apply runs_bind, runs_require; [intros _|intros _; by eexists].
    apply runs_bind, runs_lift. unfold Update. rewrite Hf. apply runs_ret. eexists. split; [exact Hg1|].
    split; [done|]. cbn [fst snd finalized hashed]. rewrite Hr1, Hd, str_app_assoc, Hc. split; [done|]. split; [done|].
    unfold str_size. rewrite str_length_app. lia.
  - exists []. split; [apply grows_refl|]. cbn [fst snd]. rewrite str_app_nil. by split_and!.
  - intros [[s|s]|e] w1 (l&Hg&Hl&Hs); pose proof (grows_trans _ _ _ _ _ Hg0 Hg) as Hg1;
      (assert (Forall (on_fd fd) ([EvStatFd fd (Ok before)] ++ l)) as Hl1 by by constructor);
      [apply runs_throw, Herr; by eexists| |apply Herr; by eexists].
    destruct (Hs s eq_refl) as (Hend&Hf&Hd&Hc). apply runs_ret, runs_bind, runs_on_files. intros r1 f1.
    pose proof (grows_trans _ _ _ _ _ Hg1 (grows_one w1 f1 (EvStatFd fd r1))) as Hg2.
    assert (Forall (on_fd fd) (([EvStatFd fd (Ok before)] ++ l) ++ [EvStatFd fd r1])) as Hl2
      by (apply Forall_app; by repeat constructor).
    destruct r1 as [after|e]; [|apply Herr; by eexists].
    apply runs_bind, runs_require; [intros Heq|intros _; apply Herr; by eexists].
    apply runs_bind, runs_lift. unfold Finalize. rewrite Hf. apply runs_ret.
    eexists. split; [exact Hg2|]. split; [done|]. intros v [= <-].
    cbn [target_before target_after bytes_read target_digest verification_status]. bool_hyps. subst after.
    rewrite last_snoc, reads_of_app.
    assert (to_the_end fd (([EvStatFd fd (Ok before)] ++ l) ++ [EvStatFd fd (Ok before)])) as Hto.
    { apply last_Some in Hend as [l' ->]. exists (EvStatFd fd (Ok before) :: l'), buffer, (Ok before).
      split; [by rewrite <- !app_assoc|congruence]. }
    change (reads_of fd (EvStatFd fd (Ok before) :: l)) with (reads_of fd l).
    change (reads_of fd [EvStatFd fd (Ok before)]) with "". rewrite str_app_nil, Hd, Hc. by split_and!.
Qed.

End Traces.
