(* ===== verification/IoUring.v ===== *)
(** * IoUring: the accelerated copy

    Models src/filesystem/io_uring_copy_engine.cpp.  Up to [queue_depth]
    chunks are in flight at once; a slot is read into, waits until its chunk
    is the next to be hashed, is written, and starts over.  The kernel
    completes any request it holds, in any order and for any part of it; what
    it does is read from a list of [Completion]s, and how many requests a
    submission takes from a list of answers.  A request names bytes of its
    slot's buffer: the kernel reads and writes them when it completes.  The
    ring is the one of the call: that a thread keeps it for its next copy, once
    it is empty again, is not modelled.

    Sizes are natural numbers: no sum below exceeds [source_size], which the
    first guard bounds by the largest [off_t]. *)

From S2P Require Import Prelude Status Bytes Sqlite FileOps CopyVerify LinuxFileOps.

(** [enum class Phase] *)
Inductive Phase := kFree | kReading | kReady | kWriting.
#[export] Instance Phase_eq_dec : EqDecision Phase.
Proof. solve_decision. Defined.

Record BufferSlot := mkBufferSlot {
  buffer : list ascii; sequence : nat; offset : nat; slot_length : nat; progress : nat; phase : Phase;
}.
#[export] Instance BufferSlot_inhabited : Inhabited BufferSlot := populate (mkBufferSlot [] 0 0 0 0 kFree).

(** What a submission entry says: the slot and direction of [user_data], the
    file offset, the position in the buffer and the number of bytes. *)
Record Request := mkRequest {
  req_index : nat; req_write : bool; req_offset : nat; req_position : nat; req_length : nat;
}.

(** The ring and the files behind it. *)
Record Ring := mkRing {
  entries : nat;
  sq : list Request;           (* prepared, not submitted *)
  running : list Request;      (* submitted, not completed *)
  answers : list Z;            (* how many requests the next submissions take, or their errors; all when empty *)
  source : list ascii;
  target : gmap nat ascii;
}.

Record Engine := mkEngine {
  slots : list BufferSlot;
  next_read : nat;
  next_hash : nat;
  completed : nat;
  queued : nat;
  in_flight : nat;
  copied : nat;
  hash : Blake3Hasher;
  failure : Status;
  ring : Ring;
}.

Definition set_slots ss e := mkEngine ss (next_read e) (next_hash e) (completed e) (queued e) (in_flight e) (copied e) (hash e) (failure e) (ring e).
Definition set_slot i s e := set_slots (<[i := s]> (slots e)) e.
Definition set_next_read n e := mkEngine (slots e) n (next_hash e) (completed e) (queued e) (in_flight e) (copied e) (hash e) (failure e) (ring e).
Definition set_hash n h e := mkEngine (slots e) (next_read e) n (completed e) (queued e) (in_flight e) (copied e) h (failure e) (ring e).
Definition set_completed n c e := mkEngine (slots e) (next_read e) (next_hash e) n (queued e) (in_flight e) c (hash e) (failure e) (ring e).
Definition set_counts q f e := mkEngine (slots e) (next_read e) (next_hash e) (completed e) q f (copied e) (hash e) (failure e) (ring e).
Definition set_failure st e := mkEngine (slots e) (next_read e) (next_hash e) (completed e) (queued e) (in_flight e) (copied e) (hash e) st (ring e).
Definition set_ring r e := mkEngine (slots e) (next_read e) (next_hash e) (completed e) (queued e) (in_flight e) (copied e) (hash e) (failure e) r.

Definition with_phase p s := mkBufferSlot (buffer s) (sequence s) (offset s) (slot_length s) (progress s) p.
Definition with_progress n s := mkBufferSlot (buffer s) (sequence s) (offset s) (slot_length s) n (phase s).

Definition slice {A} (from n : nat) (l : list A) : list A := take n (drop from l).
Definition overwrite {A} (from : nat) (data l : list A) : list A :=
  take from l ++ data ++ drop (from + length data) l.

(** ** The kernel *)

(** [io_uring_submit]: the first requests in the queue are handed over. *)
Definition io_uring_submit (e : Engine) : Z * Engine :=
  let r := ring e in
  let available := Z.of_nat (length (sq r)) in
  let (answer, rest) := match answers r with [] => (available, []) | a :: rest => (Z.min a available, rest) end in
  let n := Z.to_nat answer in
  (answer, set_ring (mkRing (entries r) (drop n (sq r)) (running r ++ take n (sq r)) rest (source r) (target r)) e).

(** What [io_uring_wait_cqe] gives: nothing, an error, or the completion of
    the [k]-th running request with its result. *)
Inductive Completion := Interrupted | WaitFails (error_number : positive) | Completes (k : nat) (transferred : Z).

(** A read gives bytes the source has, and no request exceeds its length. *)
Definition possible (r : Ring) (req : Request) (transferred : Z) : bool :=
  (transferred <=? Z.of_nat (req_length req))
  && (req_write req || (transferred <=? Z.of_nat (length (source r) - req_offset req))).

Definition transfer (req : Request) (n : nat) (e : Engine) : Engine :=
  let slot := slots e !!! req_index req in
  let r := ring e in
  if req_write req
  then set_ring (mkRing (entries r) (sq r) (running r) (answers r) (source r)
                   (map_seq (req_offset req) (slice (req_position req) n (buffer slot)) ∪ target r)) e
  else set_slot (req_index req)
         (mkBufferSlot (overwrite (req_position req) (slice (req_offset req) n (source r)) (buffer slot))
            (sequence slot) (offset slot) (slot_length slot) (progress slot) (phase slot)) e.

Definition kernel_completes (k : nat) (transferred : Z) (e : Engine) : option (Request * Engine) :=
  let r := ring e in
  match running r !! k with
  | Some req =>
      if possible r req transferred
      then Some (req, transfer req (Z.to_nat transferred)
             (set_ring (mkRing (entries r) (sq r) (delete k (running r)) (answers r) (source r) (target r)) e))
      else None
  | None => None
  end.

Section Engine.
Context (Blake3 : string -> Digest).
Context {K : Type} `{Kernel K}.
Context (source_size chunk_size : nat).

(** [IoError(result, operation)] *)
Definition IoError (result : Z) (operation : string) : Status := StatusFromErrno (- result) operation.

Definition chunk_count : nat := source_size / chunk_size + (if (source_size mod chunk_size =? 0)%nat then 0 else 1).

(** [flush()]; every turn but the last submits at least one request. *)
Fixpoint flush_loop (turns : nat) : M Engine unit := fun e =>
  match turns with
  | O => (Ok tt, e)
  | S turns =>
      if (queued e =? 0)%nat then (Ok tt, e)
      else
        let (submitted, e) := io_uring_submit e in
        if submitted <? 0 then (Err (IoError submitted "submit io_uring copy I/O"), e)
        else if (submitted =? 0) || (Z.of_nat (queued e) <? submitted)
        then (Err (Internal "io_uring submitted an invalid I/O count"), e)
        else flush_loop turns (set_counts (queued e - Z.to_nat submitted) (in_flight e + Z.to_nat submitted) e)
  end.
Definition flush : M Engine unit := fun e => flush_loop (queued e) e.

(** [submit_request(index, write)] *)
Definition submit_request (index : nat) (write : bool) : M Engine unit := fun e =>
  let slot := slots e !!! index in
  let r := ring e in
  if (entries r <=? length (sq r))%nat then (Err (Internal "io_uring copy queue is full"), e)
  else
    let req := mkRequest index write (offset slot + progress slot) (progress slot) (slot_length slot - progress slot) in
    let e := set_slot index (with_phase (if write then kWriting else kReading) slot) e in
    (Ok tt, set_counts (S (queued e)) (in_flight e)
       (set_ring (mkRing (entries r) (sq r ++ [req]) (running r) (answers r) (source r) (target r)) e)).

(** [start_read(index)] *)
Definition start_read (index : nat) : M Engine unit := fun e =>
  let slot := slots e !!! index in
  let offset := (next_read e * chunk_size)%nat in
  let slot := mkBufferSlot (buffer slot) (next_read e) offset (Nat.min chunk_size (source_size - offset)) 0 (phase slot) in
  submit_request index false (set_next_read (S (next_read e)) (set_slot index slot e)).

(** The next chunk to hash, where a slot holds it. *)
Definition ready_slot (e : Engine) : option (nat * BufferSlot) :=
  list_find (fun s => phase s = kReady /\ sequence s = next_hash e) (slots e).

(** [hash_ready()] *)
Fixpoint hash_loop (turns : nat) : M Engine unit := fun e =>
  match turns with
  | O => (Ok tt, e)
  | S turns =>
      match ready_slot e with
      | None => (Ok tt, e)
      | Some (index, slot) =>
          match Update (hash e) (String.string_of_list_ascii (take (slot_length slot) (buffer slot))) with
          | Err st => (Err st, e)
          | Ok h =>
              (do* submit_request index true; hash_loop turns)
                (set_slot index (with_progress 0 slot) (set_hash (S (next_hash e)) h e))
          end
      end
  end.
Definition hash_ready : M Engine unit := fun e => hash_loop (chunk_count - next_hash e) e.

(** The part of a completion after its checks, [slot.progress] updated. *)
Definition advance (index : nat) (write : bool) : M Engine unit := fun e =>
  let slot := slots e !!! index in
  if (progress slot <? slot_length slot)%nat then (do* submit_request index write; flush) e
  else
    (do* (fun e =>
        if write then
          let e := set_completed (S (completed e)) (copied e + slot_length slot) (set_slot index (with_phase kFree slot) e) in
          if (next_read e <? chunk_count)%nat then start_read index e else (Ok tt, e)
        else (Ok tt, set_slot index (with_phase kReady slot) e));
     do* hash_ready; flush) e.

(** The completion of a request, past the first failure test. *)
Definition handle (req : Request) (transferred : Z) : M Engine unit := fun e =>
  let index := req_index req in
  let write := req_write req in
  if (length (slots e) <=? index)%nat then (Err (Internal "invalid io_uring copy completion"), e)
  else
    let slot := slots e !!! index in
    if negb (phase slot == (if write then kWriting else kReading))
    then (Err (Internal "unexpected io_uring copy phase"), e)
    else if transferred <? 0
    then (Err (IoError transferred (if write then "write io_uring copy chunk" else "read io_uring copy chunk")), e)
    else if (transferred =? 0) || (Z.of_nat (slot_length slot - progress slot) <? transferred)
    then (Err (mkStatus StatusCode.kIoError (if write then "io_uring copy write made no progress"
                else "io_uring copy source ended before expected size")), e)
    else advance index write (set_slot index (with_progress (progress slot + Z.to_nat transferred) slot) e).

Definition recorded (r : StatusOr unit * Engine) : Engine := set_failure (status_of r.1) r.2.

(** One turn of the wait loop, on a completion. *)
Definition complete (req : Request) (transferred : Z) (e : Engine) : Engine :=
  let e := set_counts (queued e) (in_flight e - 1) e in
  if negb (ok (failure e)) then e else recorded (handle req transferred e).

(** [while (in_flight != 0)]: none when the completions run out first. *)
Fixpoint wait_loop (l : list Completion) (e : Engine) : option (StatusOr unit * Engine) :=
  if (in_flight e =? 0)%nat then Some (Ok tt, e)
  else match l with
       | [] => None
       | Interrupted :: l => wait_loop l e
       | WaitFails error_number :: _ =>
           Some (Err (IoError (- Z.pos error_number) "wait for io_uring copy completion"), e)
       | Completes k transferred :: l =>
           match kernel_completes k transferred e with
           | Some (req, e) => wait_loop l (complete req transferred e)
           | None => None
           end
       end.

(** The first reads. *)
Fixpoint start_reads (indices : list nat) : M Engine unit :=
  match indices with [] => ret tt | index :: indices => do* start_read index; start_reads indices end.

Definition start_engine (slot_count : nat) (hasher : Blake3Hasher) (r : Ring) : Engine :=
  recorded ((do* start_reads (seq 0 slot_count); flush)
    (mkEngine (replicate slot_count (mkBufferSlot (replicate chunk_size NUL) 0 0 0 0 kFree)) 0 0 0 0 0 0
       hasher Status_Ok r)).

Definition finish (e : Engine) : StatusOr (option CopyResult) :=
  if negb (ok (failure e)) then Err (failure e)
  else if negb (completed e =? chunk_count)%nat || negb (next_hash e =? chunk_count)%nat
          || negb (copied e =? source_size)%nat
  then Err (Internal "io_uring copy ended early")
  else match Finalize Blake3 (hash e) with
       | Err st => Err st
       | Ok digest => Ok (Some (mkCopyResult (Z.of_nat (copied e)) digest))
       end.

(** [TryIoUringCopyAndHash]: [disabled] is the environment's switch and
    [queue_init] what [io_uring_queue_init] returned for the context. *)
Definition ENOSYS : Z := 38.
Definition EOPNOTSUPP : Z := 95.
Definition TryIoUring (disabled : bool) (queue_init : Z) (hasher : Blake3Hasher) (source_fd target_fd : Fd)
    (queue_depth : nat) (r : Ring) (completions : list Completion)
    : option (StatusOr (option CopyResult) * Ring) :=
  if (source_fd <? 0) || (target_fd <? 0) || (chunk_size =? 0)%nat || (uint32_max <? Z.of_nat chunk_size)
     || (queue_depth =? 0)%nat || (16 <? queue_depth)%nat || (int64_max <? Z.of_nat source_size)
  then Some (Err (Invalid "invalid io_uring copy descriptors, size, or queue depth"), r)
  else if disabled then Some (Ok None, r)
  else if negb (queue_init =? 0) then
    Some (if (queue_init =? - ENOSYS) || (queue_init =? - EPERM) || (queue_init =? - EOPNOTSUPP)
             || (queue_init =? - EINVAL)
          then Ok None else Err (IoError queue_init "initialize io_uring copy queue"), r)
  else
    match wait_loop completions (start_engine (Nat.min queue_depth chunk_count) hasher r) with
    | None => None
    | Some (Err st, e) => Some (Err st, ring e)
    | Some (Ok _, e) => Some (finish e, ring e)
    end.

End Engine.
