(* ===== verification/IoUringTheorems.v ===== *)
(** * IoUringTheorems: the accelerated copy is the copy

    Whatever the order and the sizes of the completions, a copy that succeeds
    has hashed and written the bytes of the source in their order; and where
    every completion transfers something it succeeds after a bounded number of
    them.  [Core] relates slots, target and hasher to the chunks of the
    source; [Outstanding] relates the requests of the ring to the slots. *)

From S2P Require Import Prelude Status Bytes Sqlite FileOps CopyVerify CopyTheorems LinuxFileOps IoUring.

(** ** Lists *)

Lemma insert_cases {A} (l : list A) i x j y :
  <[i:=x]> l !! j = Some y -> (j = i /\ y = x) \/ (j <> i /\ l !! j = Some y).
Proof. rewrite list_lookup_insert_Some. naive_solver. Qed.

Lemma take_slice {A} (a b : nat) (l : list A) : take (a + b) l = take a l ++ slice a b l.
Proof. unfold slice. by rewrite take_take_drop. Qed.

Lemma slice_slice {A} (a b c : nat) (l : list A) : slice a (b + c) l = slice a b l ++ slice (a + b) c l.
Proof. unfold slice. by rewrite <- (take_take_drop _ b c), drop_drop. Qed.

Lemma slice_length {A} (a b : nat) (l : list A) : length (slice a b l) = Nat.min b (length l - a).
Proof. unfold slice. by rewrite length_take, length_drop. Qed.

Lemma overwrite_length {A} (a : nat) (data l : list A) :
  (a + length data <= length l)%nat -> length (overwrite a data l) = length l.
Proof. intros. unfold overwrite. rewrite !length_app, length_take, length_drop. lia. Qed.

Lemma take_overwrite {A} (a : nat) (data l : list A) :
  (a <= length l)%nat -> take (a + length data) (overwrite a data l) = take a l ++ data.
Proof.
  intros. unfold overwrite. rewrite app_assoc. apply take_app_length'. rewrite length_app, length_take. lia.
Qed.

Lemma lookup_slice {A} (a b i : nat) (l : list A) :
  slice a b l !! i = if decide (i < b)%nat then l !! (a + i)%nat else None.
Proof.
  unfold slice. case_decide; [by rewrite lookup_take_lt, lookup_drop by done|].
  apply lookup_take_ge. lia.
Qed.

Lemma string_of_app (a b : list ascii) :
  String.string_of_list_ascii (a ++ b) = String.string_of_list_ascii a +:+ String.string_of_list_ascii b.
Proof. induction a as [|x a IH]; [done|]. simpl. by rewrite IH. Qed.

(** ** Requests *)

Definition req_of (i : nat) (s : BufferSlot) : list Request :=
  match phase s with
  | kReading | kWriting =>
      [mkRequest i (phase s == kWriting) (offset s + progress s) (progress s) (slot_length s - progress s)]
  | kFree | kReady => []
  end.
Fixpoint requests_from (k : nat) (l : list BufferSlot) : list Request :=
  match l with [] => [] | s :: l => req_of k s ++ requests_from (S k) l end.
Notation requests := (requests_from 0).

Definition idle : BufferSlot := mkBufferSlot [] 0 0 0 0 kFree.

Lemma requests_insert k l i s :
  l !! i = Some s -> requests_from k l ≡ₚ req_of (k + i) s ++ requests_from k (<[i:=idle]> l).
Proof.
  revert k i. induction l as [|x l IH]; intros k [|i]; cbn [lookup list_lookup requests_from]; try done.
  - intros [= ->]. rewrite Nat.add_0_r. done.
  - intros Hi. change (<[S i:=idle]> (x :: l)) with (x :: <[i:=idle]> l). cbn [requests_from].
    rewrite (IH (S k) i Hi), Nat.add_succ_comm, !app_assoc. f_equiv. apply Permutation_app_comm.
Qed.

Lemma requests_slot k l r :
  r ∈ requests_from k l -> exists i s, l !! i = Some s /\ req_of (k + i) s = [r].
Proof.
  revert k. induction l as [|x l IH]; intros k; cbn [requests_from]; [by intros ?%elem_of_nil|].
  rewrite elem_of_app. intros [Hr|Hr].
  - exists 0%nat, x. split; [done|]. rewrite Nat.add_0_r. unfold req_of in *.
    destruct (phase x); try (by apply elem_of_nil in Hr); by apply list_elem_of_singleton in Hr as ->.
  - destruct (IH _ Hr) as (i&s&Hi&Hs). exists (S i), s. split; [done|]. by rewrite <- Hs, Nat.add_succ_comm.
Qed.

Lemma requests_length k l : (length (requests_from k l) <= length l)%nat.
Proof.
  revert k. induction l as [|x l IH]; intros k; cbn [requests_from]; [done|].
  rewrite length_app. specialize (IH (S k)). unfold req_of. destruct (phase x); cbn [length]; lia.
Qed.

Lemma requests_room k l i s : l !! i = Some s -> (length (requests_from k (<[i:=idle]> l)) < length l)%nat.
Proof.
  revert k i. induction l as [|x l IH]; intros k [|i]; cbn [lookup list_lookup]; try done; intros Hi.
  - cbn. pose proof (requests_length (S k) l). lia.
  - change (<[S i:=idle]> (x :: l)) with (x :: <[i:=idle]> l). cbn [requests_from]. rewrite length_app.
    specialize (IH (S k) i Hi). unfold req_of. destruct (phase x); cbn [length]; lia.
Qed.

Section Copy.
Context {K : Type} `{Kernel K}.
Context (source_size chunk_size : nat) (src : list ascii) (h0 : string) (Hchunk : (0 < chunk_size)%nat).
Local Open Scope nat_scope.
Notation chunk_count := (chunk_count source_size chunk_size).

(** ** Chunks *)

Definition chunk_offset (q : nat) : nat := q * chunk_size.
Definition chunk_length (q : nat) : nat := Nat.min chunk_size (source_size - q * chunk_size).
Definition chunks_end (n : nat) : nat := Nat.min source_size (n * chunk_size).

Lemma chunk_count_lt q : q < chunk_count <-> q * chunk_size < source_size.
Proof.
  unfold chunk_count. pose proof (Nat.div_mod source_size chunk_size ltac:(lia)).
  pose proof (Nat.mod_upper_bound source_size chunk_size ltac:(lia)).
  destruct (Nat.eqb_spec (source_size mod chunk_size) 0); nia.
Qed.

Lemma chunks_end_count n : chunk_count <= n -> chunks_end n = source_size.
Proof.
  unfold chunks_end. intros Hn. destruct (decide (n * chunk_size < source_size)) as [Hlt|]; [|lia].
  apply chunk_count_lt in Hlt. lia.
Qed.

Lemma chunks_end_succ n : n < chunk_count -> chunks_end (S n) = chunks_end n + chunk_length n.
Proof. rewrite chunk_count_lt. unfold chunks_end, chunk_length. lia. Qed.

Lemma chunk_length_pos q : q < chunk_count -> 0 < chunk_length q.
Proof. rewrite chunk_count_lt. unfold chunk_length. lia. Qed.

(** ** The state of the chunks *)

Definition full (s : BufferSlot) : Prop := take (slot_length s) (buffer s) = slice (offset s) (slot_length s) src.

Record slot_ok (nr nh : nat) (tgt : gmap nat ascii) (s : BufferSlot) : Prop := {
  so_buffer : length (buffer s) = chunk_size;
  so_chunk : phase s <> kFree ->
    sequence s < nr /\ offset s = chunk_offset (sequence s) /\ slot_length s = chunk_length (sequence s);
  so_progress : progress s <= slot_length s;
  so_read : phase s = kReading -> nh <= sequence s /\ take (progress s) (buffer s) = slice (offset s) (progress s) src;
  so_ready : phase s = kReady -> nh <= sequence s /\ full s;
  so_write : phase s = kWriting -> sequence s < nh /\ full s
    /\ forall x, offset s <= x < offset s + progress s -> is_Some (tgt !! x);
}.

Definition active_length (s : BufferSlot) : nat := if phase s == kFree then 0 else slot_length s.
Definition active_one (s : BufferSlot) : nat := if phase s == kFree then 0 else 1.

Lemma active_free s : phase s = kFree -> active_length s = 0 /\ active_one s = 0.
Proof. intros Hs. unfold active_length, active_one. by rewrite Hs. Qed.
Lemma active_busy s : phase s <> kFree -> active_length s = slot_length s /\ active_one s = 1.
Proof. intros Hs. unfold active_length, active_one. by rewrite bool_decide_eq_false_2. Qed.

(** The two sums when slot [i] changes from [s] to [s']. *)
Lemma active_sums ss i s s' : ss !! i = Some s ->
  sum_list_with active_length (<[i:=s']> ss) + active_length s = sum_list_with active_length ss + active_length s'
  /\ sum_list_with active_one (<[i:=s']> ss) + active_one s = sum_list_with active_one ss + active_one s'.
Proof. intros Hi. split; by apply sum_list_insert. Qed.

Record Chunks (ss : list BufferSlot) (nr nh done cp : nat) (h : Blake3Hasher) (tgt : gmap nat ascii) : Prop := {
  c_slots : forall i s, ss !! i = Some s -> slot_ok nr nh tgt s;
  c_order : nh <= nr <= chunk_count;
  c_distinct : forall i j s t, ss !! i = Some s -> ss !! j = Some t -> phase s <> kFree -> phase t <> kFree ->
    sequence s = sequence t -> i = j;
  c_cover : forall q, q < nr -> (exists i s, ss !! i = Some s /\ phase s <> kFree /\ sequence s = q)
    \/ (q < nh /\ forall x, chunk_offset q <= x < chunk_offset q + chunk_length q -> is_Some (tgt !! x));
  c_target : forall x b, tgt !! x = Some b -> x < source_size /\ src !! x = Some b;
  c_hash : finalized h = false /\ hashed h = (h0 +:+ String.string_of_list_ascii (take (chunks_end nh) src))%string;
  c_copied : cp + sum_list_with active_length ss = chunks_end nr;
  c_completed : done + sum_list_with active_one ss = nr;
}.

Definition Core (e : Engine) : Prop :=
  Chunks (slots e) (next_read e) (next_hash e) (completed e) (copied e) (hash e) (target (ring e))
  /\ source (ring e) = src.

(** A slot that goes on with its chunk. *)
Lemma chunks_slot ss nr nh d c h tgt i s s' tgt' :
  Chunks ss nr nh d c h tgt -> ss !! i = Some s -> slot_ok nr nh tgt' s' ->
  phase s <> kFree -> phase s' <> kFree -> sequence s' = sequence s -> tgt ⊆ tgt' ->
  (forall x b, tgt' !! x = Some b -> x < source_size /\ src !! x = Some b) ->
  Chunks (<[i:=s']> ss) nr nh d c h tgt'.
Proof.
  intros Hc Hi Hok Hs Hs' Hseq Hsub Htgt.
  assert (forall j t, <[i:=s']> ss !! j = Some t -> exists t0, ss !! j = Some t0 /\ sequence t = sequence t0
    /\ (phase t0 <> kFree <-> phase t <> kFree) /\ (t = t0 \/ t = s')) as Hold.
  { intros j t [[-> ->]|[_ Ht]]%insert_cases; [exists s|exists t]; (do 2 (split; [done|])); [|by split; [|left]].
    split; [by split|by right]. }
  assert (slot_length s' = slot_length s) as Hlen.
  { destruct (so_chunk _ _ _ _ Hok Hs') as (_&_&->).
    destruct (so_chunk _ _ _ _ (c_slots _ _ _ _ _ _ _ Hc _ _ Hi) Hs) as (_&_&->). by rewrite Hseq. }
  destruct (active_sums ss i s s' Hi) as [H1 H2]. destruct (active_busy _ Hs), (active_busy _ Hs').
  destruct Hc as [Hslots Hord Hdist Hcov _ Hhash Hcp Hdone]. split.
  - intros j t Ht. destruct (Hold _ _ Ht) as (t0&Ht0&_&_&[->| ->]); [|done].
    destruct (Hslots _ _ Ht0). split; try done. intros Hw. destruct (so_write0 Hw) as (?&?&Hx). split; [done|].
    split; [done|]. intros x Hr. destruct (Hx x Hr) as [b Hb]. exists b. by eapply lookup_weaken.
  - done.
  - intros j k t u Ht Hu Hft Hfu Htu. destruct (Hold _ _ Ht) as (t0&?&E1&P1&_). destruct (Hold _ _ Hu) as (u0&?&E2&P2&_).
    eapply (Hdist j k t0 u0); try done; [by apply P1|by apply P2|congruence].
  - intros q Hq. destruct (Hcov q Hq) as [(j&t&Ht&Hf&Hsq)|[Hn Hx]].
    + left. destruct (decide (j = i)) as [->|Hne].
      * exists i, s'. rewrite list_lookup_insert_eq by (by eapply lookup_lt_Some). split; [done|]. split; [done|]. congruence.
      * exists j, t. by rewrite list_lookup_insert_ne.
    + right. split; [done|]. intros x Hr. destruct (Hx x Hr) as [b Hb]. exists b. by eapply lookup_weaken.
  - done.
  - done.
  - lia.
  - lia.
Qed.

(** The old slots of a list one slot of which changed. *)
Lemma still_covered (ss : list BufferSlot) i s' nr nh nh' tgt q :
  nh <= nh' ->
  (exists j t, ss !! j = Some t /\ phase t <> kFree /\ sequence t = q) \/ (q < nh
    /\ forall x, chunk_offset q <= x < chunk_offset q + chunk_length q -> is_Some ((tgt : gmap nat ascii) !! x)) ->
  (forall t, ss !! i = Some t -> phase t <> kFree -> sequence t = q ->
     (phase s' <> kFree /\ sequence s' = q) \/ (q < nh'
    /\ forall x, chunk_offset q <= x < chunk_offset q + chunk_length q -> is_Some (tgt !! x))) ->
  q < nr ->
  (exists j t, <[i:=s']> ss !! j = Some t /\ phase t <> kFree /\ sequence t = q) \/ (q < nh'
    /\ forall x, chunk_offset q <= x < chunk_offset q + chunk_length q -> is_Some (tgt !! x)).
Proof.
  intros Hnh [(j&t&Ht&Hf&Hsq)|[Hn Hx]] Hi _; [|right; split; [lia|done]].
  destruct (decide (j = i)) as [->|Hne].
  - destruct (Hi t Ht Hf Hsq) as [[Hf' Hs']|Hw]; [|by right].
    left. exists i, s'. by rewrite list_lookup_insert_eq by (by eapply lookup_lt_Some).
  - left. exists j, t. by rewrite list_lookup_insert_ne.
Qed.

(** A chunk is written: its slot is free. *)
Lemma chunks_written ss nr nh d c h tgt i s :
  Chunks ss nr nh d c h tgt -> ss !! i = Some s -> phase s = kWriting -> progress s = slot_length s ->
  Chunks (<[i:=with_phase kFree s]> ss) nr nh (S d) (c + slot_length s) h tgt.
Proof.
  intros [Hslots Hord Hdist Hcov Htgt Hhash Hcp Hdone] Hi Hs Hp. pose proof (Hslots _ _ Hi) as Hok.
  destruct (so_chunk _ _ _ _ Hok ltac:(congruence)) as (Hnr&Hoff&Hlen).
  destruct (so_write _ _ _ _ Hok Hs) as (Hnh&_&Hw). split; try done.
  - intros j t [[-> ->]|[_ Ht]]%insert_cases; [|by eapply Hslots]. destruct Hok. by split.
  - intros j k t u [[-> ->]|[? Ht]]%insert_cases [[-> ->]|[? Hu]]%insert_cases; try done. by apply Hdist.
  - intros q Hq. apply (still_covered _ _ _ nr nh); [lia|by apply Hcov| |done].
    intros t Ht Hf <-. right. assert (t = s) as -> by congruence. split; [done|]. rewrite <- Hoff, <- Hlen, <- Hp. done.
  - destruct (active_sums ss i s (with_phase kFree s) Hi), (active_busy s), (active_free (with_phase kFree s)); try done; try congruence. lia.
  - destruct (active_sums ss i s (with_phase kFree s) Hi), (active_busy s), (active_free (with_phase kFree s)); try done; try congruence. lia.
Qed.

(** A free slot starts the next chunk. *)
Definition started_slot (nr : nat) (s : BufferSlot) : BufferSlot :=
  mkBufferSlot (buffer s) nr (chunk_offset nr) (chunk_length nr) 0 kReading.

Lemma chunks_started ss nr nh d c h tgt i s :
  Chunks ss nr nh d c h tgt -> ss !! i = Some s -> phase s = kFree -> nr < chunk_count ->
  Chunks (<[i:=started_slot nr s]> ss) (S nr) nh d c h tgt.
Proof.
  intros [Hslots Hord Hdist Hcov Htgt Hhash Hcp Hdone] Hi Hs Hnr. pose proof (Hslots _ _ Hi) as Hok.
  split; try done; try lia.
  - intros j t [[-> ->]|[_ Ht]]%insert_cases.
    + destruct Hok. unfold started_slot. split; cbn; try done; [auto with lia|lia|]. intros _. split; [lia|].
      unfold slice. by rewrite !take_0.
    + destruct (Hslots _ _ Ht). split; try done. intros Hf. destruct (so_chunk0 Hf) as (?&?&?). auto with lia.
  - assert (forall j t, ss !! j = Some t -> phase t <> kFree -> sequence t <> nr) as Hnew.
    { intros j t Ht Hf ?. destruct (so_chunk _ _ _ _ (Hslots _ _ Ht) Hf). lia. }
    intros j k t u [[-> ->]|[? Ht]]%insert_cases [[-> ->]|[? Hu]]%insert_cases Hft Hfu Htu; try done.
    + by destruct (Hnew _ _ Hu Hfu).
    + by destruct (Hnew _ _ Ht Hft).
    + by eapply Hdist.
  - intros q Hq. destruct (decide (q = nr)) as [->|Hne].
    { left. exists i, (started_slot nr s). by rewrite list_lookup_insert_eq by (by eapply lookup_lt_Some). }
    apply (still_covered _ _ _ nr nh); [lia|apply Hcov; lia| |lia]. intros t Ht Hf _.
    assert (t = s) as -> by congruence. done.
  - destruct (active_sums ss i s (started_slot nr s) Hi), (active_free s), (active_busy (started_slot nr s)); try done; try congruence. rewrite chunks_end_succ by done. cbn in *. lia.
  - destruct (active_sums ss i s (started_slot nr s) Hi), (active_free s), (active_busy (started_slot nr s)); try done; try congruence. lia.
Qed.

(** The next chunk is hashed. *)
Lemma chunks_hashed ss nr nh d c h tgt i s h' :
  Chunks ss nr nh d c h tgt -> ss !! i = Some s -> phase s = kReady -> sequence s = nh ->
  Update h (String.string_of_list_ascii (take (slot_length s) (buffer s))) = Ok h' ->
  Chunks (<[i:=with_phase kWriting (with_progress 0 s)]> ss) nr (S nh) d c h' tgt.
Proof.
  intros [Hslots Hord Hdist Hcov Htgt Hhash Hcp Hdone] Hi Hs Hseq Hup. pose proof (Hslots _ _ Hi) as Hok.
  destruct (so_chunk _ _ _ _ Hok ltac:(congruence)) as (Hnr&Hoff&Hlen).
  destruct (so_ready _ _ _ _ Hok Hs) as [_ Hfull].
  split; try done; try lia.
  - intros j t [[-> ->]|[Hne Ht]]%insert_cases.
    + destruct Hok. split; cbn; try done; try lia. intros _. split; [lia|]. split; [exact Hfull|]. intros x. lia.
    + assert (phase t <> kFree -> sequence t <> nh) as Hother.
      { intros Hf Ht'. apply Hne. eapply Hdist; try done; [congruence|congruence]. }
      destruct (Hslots _ _ Ht). split; try done.
      * intros Hp. destruct (so_read0 Hp). split; [|done]. specialize (Hother ltac:(congruence)). lia.
      * intros Hp. destruct (so_ready0 Hp). split; [|done]. specialize (Hother ltac:(congruence)). lia.
      * intros Hp. destruct (so_write0 Hp) as (?&?&?). split; [lia|done].
  - intros j k t u [[-> ->]|[? Ht]]%insert_cases [[-> ->]|[? Hu]]%insert_cases Hft Hfu Htu; try done; cbn in Htu.
    + eapply Hdist; try done; congruence.
    + eapply Hdist; try done; congruence.
    + by eapply Hdist.
  - intros q Hq. apply (still_covered _ _ _ nr nh); [lia|by apply Hcov| |done].
    intros t Ht Hf <-. left. assert (t = s) as -> by congruence. done.
  - destruct Hhash as [Hf Hh]. unfold Update in Hup. rewrite Hf in Hup. injection Hup as <-. cbn.
    split; [done|]. rewrite Hh, str_app_assoc. f_equal. rewrite Hfull, Hoff, Hlen, Hseq.
    rewrite chunks_end_succ by lia. rewrite take_slice. unfold chunks_end, chunk_offset.
    rewrite string_of_app. do 2 f_equal. f_equal.
    assert (nh * chunk_size < source_size) by (apply chunk_count_lt; lia). lia.
  - destruct (active_sums ss i s (with_phase kWriting (with_progress 0 s)) Hi), (active_busy s), (active_busy (with_phase kWriting (with_progress 0 s))); try done; try congruence. cbn in *. lia.
  - destruct (active_sums ss i s (with_phase kWriting (with_progress 0 s)) Hi), (active_busy s), (active_busy (with_phase kWriting (with_progress 0 s))); try done; try congruence. lia.
Qed.

(** ** The requests of an engine *)

Ltac engine := cbn [set_counts set_ring set_slot set_slots set_completed set_hash set_next_read set_failure
  queued in_flight ring sq running slots entries answers source target next_read next_hash completed copied hash
  failure] in *.

Definition free_slot (ex : option nat) (ss : list BufferSlot) : list BufferSlot :=
  match ex with Some i => <[i:=idle]> ss | None => ss end.

(** The ring holds one request for each slot that waits for one, but [ex]. *)
Record Outstanding (ex : option nat) (e : Engine) : Prop := {
  o_queued : queued e = length (sq (ring e));
  o_flight : in_flight e = length (running (ring e));
  o_requests : sq (ring e) ++ running (ring e) ≡ₚ requests (free_slot ex (slots e));
  o_room : length (slots e) <= entries (ring e);
  o_lengths : Forall (fun r => 0 < req_length r) (sq (ring e) ++ running (ring e));
}.

Lemma Outstanding_idle i s e :
  slots e !! i = Some s -> req_of i s = [] -> Outstanding (Some i) e <-> Outstanding None e.
Proof.
  intros Hi Hs. pose proof (requests_insert 0 _ _ _ Hi) as Hp. rewrite Nat.add_0_l, Hs in Hp. cbn [app] in Hp.
  split; intros [? ? Hr ? ?]; split; try done; cbn [free_slot] in *; by rewrite Hr, Hp.
Qed.

Lemma Outstanding_slot i s e : Outstanding (Some i) e -> Outstanding (Some i) (set_slot i s e).
Proof.
  intros [? ? Hr ? ?]. split; engine; try done; cbn [free_slot] in *.
  - by rewrite list_insert_insert_eq.
  - by rewrite length_insert.
Qed.

(** The rest of the state: everything but slots, counters and queues. *)
Definition rest_of (e : Engine) :=
  (next_read e, next_hash e, completed e, copied e, hash e, failure e, source (ring e), target (ring e)).

Definition willing (e : Engine) : Prop := Forall (fun a => 0 < a)%Z (answers (ring e)).

(** [c] leads to [Q], and fails only on a kernel that refuses requests. *)
Definition leads (c : M Engine unit) (e : Engine) (Q : Engine -> Prop) : Prop :=
  match c e with
  | (Ok _, e') => (willing e -> willing e') /\ Q e'
  | (Err st, _) => ok st = false /\ ~ willing e
  end.

Lemma leads_bind c1 c2 e Q : leads c1 e (fun e1 => leads c2 e1 Q) -> leads (do* c1; c2) e Q.
Proof.
  unfold leads, bind. destruct (c1 e) as [[[]|st] e1]; [|done]. intros [Hw H2].
  destruct (c2 e1) as [[[]|st] e2]; [|naive_solver]. naive_solver.
Qed.

Lemma leads_mono c e (P Q : Engine -> Prop) : leads c e P -> (forall e', P e' -> Q e') -> leads c e Q.
Proof. unfold leads. destruct (c e) as [[[]|st] e1]; naive_solver. Qed.

Lemma leads_ok c e e' (Q : Engine -> Prop) : c e = (Ok tt, e') -> (willing e -> willing e') -> Q e' -> leads c e Q.
Proof. unfold leads. by intros ->. Qed.

Lemma IoError_not_ok result operation : (result < 0)%Z -> ok (IoError result operation) = false.
Proof. unfold IoError. destruct result; try lia. intros _. apply errno_not_ok. Qed.

(** ** Submission *)

Lemma submit_leads i (w : bool) e s :
  Outstanding (Some i) e -> slots e !! i = Some s -> progress s < slot_length s ->
  leads (submit_request i w) e (fun e' => slots e' = <[i:=with_phase (if w then kWriting else kReading) s]> (slots e)
    /\ Outstanding None e' /\ rest_of e' = rest_of e).
Proof.
  intros Ho Hi Hp. destruct Ho as [Hq Hf Hr Hroom Hlen]. cbn [free_slot] in Hr.
  pose proof (Permutation_length Hr) as Hn. rewrite length_app in Hn.
  pose proof (requests_room 0 _ _ _ Hi). apply (leads_ok _ _ (submit_request i w e).2).
  - unfold submit_request. rewrite (proj2 (Nat.leb_gt _ _)) by lia. done.
  - unfold submit_request, willing. by destruct (_ <=? _).
  - unfold submit_request. rewrite (proj2 (Nat.leb_gt _ _)) by lia. cbn [snd].
    rewrite (list_lookup_total_correct _ _ _ Hi). cbn [set_counts set_ring set_slot set_slots slots ring sq running].
    split; [done|]. split; [|done]. set (s' := with_phase _ s).
    assert (<[i:=s']> (slots e) !! i = Some s') as Hi' by (by apply list_lookup_insert_eq; eapply lookup_lt_Some).
    split; engine; cbn [free_slot].
    + rewrite length_app. cbn. lia.
    + done.
    + rewrite (requests_insert 0 _ _ _ Hi'), list_insert_insert_eq, <- Hr, Nat.add_0_l.
      assert (req_of i s' = [mkRequest i w (offset s + progress s) (progress s) (slot_length s - progress s)]) as ->.
      { unfold req_of, s'. by destruct w. }
      rewrite <- app_assoc. rewrite Permutation_app_comm, <- app_assoc. cbn [app]. by rewrite Permutation_app_comm.
    + by rewrite length_insert.
    + rewrite !Forall_app in *. destruct Hlen. split; [split; [done|]|done]. repeat constructor. cbn. lia.
Qed.

Lemma flush_loop_leads turns e :
  queued e <= turns -> Outstanding None e ->
  leads (flush_loop turns) e (fun e' => slots e' = slots e /\ Outstanding None e' /\ rest_of e' = rest_of e /\ queued e' = 0).
Proof.
  revert e. induction turns as [|turns IH]; intros e Hturns Ho.
  { split; [done|]. do 3 (split; [done|]). lia. }
  unfold leads. cbn [flush_loop]. destruct (Nat.eqb_spec (queued e) 0) as [Hz|Hz]; [done|].
  destruct (io_uring_submit e) as [a e1] eqn:Hsub.
  assert (queued e1 = queued e /\ in_flight e1 = in_flight e /\ slots e1 = slots e /\ rest_of e1 = rest_of e
    /\ entries (ring e1) = entries (ring e)
    /\ (a <= Z.of_nat (queued e))%Z /\ (willing e -> 0 < a /\ willing e1)%Z
    /\ sq (ring e1) = drop (Z.to_nat a) (sq (ring e))
    /\ running (ring e1) = running (ring e) ++ take (Z.to_nat a) (sq (ring e))) as (Eq&Ef&Es&Er&En&Ha&Hw&Esq&Erun).
  { destruct Ho as [Hq _ _ _ _]. unfold io_uring_submit in Hsub. unfold willing.
    destruct (answers (ring e)) as [|x rest] eqn:Ean; injection Hsub as <- <-;
      (do 5 (split; [done|])); (split; [lia|]); (split; [|done]).
    - intros _. split; [lia|constructor].
    - intros [Hx ?]%Forall_cons. split; [lia|done]. }
  destruct (Z.ltb_spec a 0) as [Hneg|Hneg].
  { split; [by apply IoError_not_ok|]. intros Hwill. apply Hw in Hwill. lia. }
  destruct (Z.eqb_spec a 0) as [Ha0|Ha0]; cbn [orb]; [split; [done|]; intros Hwill; apply Hw in Hwill; lia|].
  destruct (Z.ltb_spec (Z.of_nat (queued e1)) a) as [Hbig|_]; [lia|].
  set (e2 := set_counts _ _ e1). assert (Outstanding None e2) as Ho2.
  { destruct Ho as [Hq Hf Hr Hroom Hlen]. subst e2. split; engine; cbn [free_slot] in *.
    - rewrite Esq, length_drop. lia.
    - rewrite Erun, length_app, length_take. lia.
    - rewrite Esq, Erun, Es, <- Hr. rewrite (Permutation_app_comm (running _)), app_assoc.
      rewrite (Permutation_app_comm (drop _ _)), take_drop. done.
    - by rewrite Es, En.
    - rewrite Esq, Erun. rewrite Forall_app in Hlen. destruct Hlen as [Hl1 Hl2].
      rewrite !Forall_app. split; [by apply Forall_drop|]. split; [done|by apply Forall_take]. }
  specialize (IH e2 ltac:(cbn; lia) Ho2). unfold leads in IH.
  assert (willing e -> willing e2) as Hwe by (intros ?%Hw; by apply H0).
  destruct (flush_loop turns e2) as [[[]|st] e3].
  - destruct IH as [Hw3 (Hs3&Ho3&Hr3&Hq3)]. split; [auto|]. split; [by rewrite Hs3|]. split; [done|].
    split; [by rewrite Hr3|done].
  - destruct IH as [? Hn]. split; [done|]. auto.
Qed.

Lemma flush_leads e :
  Outstanding None e ->
  leads flush e (fun e' => slots e' = slots e /\ Outstanding None e' /\ rest_of e' = rest_of e /\ queued e' = 0).
Proof. exact (flush_loop_leads (queued e) e (le_n _)). Qed.

(** ** Hashing and submitting what is ready *)

Definition slot_work (s : BufferSlot) : nat :=
  match phase s with
  | kFree => 0
  | kReading => 2 * slot_length s - progress s
  | kReady => slot_length s
  | kWriting => slot_length s - progress s
  end.
(** The bytes still to be read and to be written. *)
Definition work (e : Engine) : nat :=
  sum_list_with slot_work (slots e) + 2 * (source_size - chunks_end (next_read e)).

Record Good (e : Engine) : Prop := {
  g_core : Core e;
  g_out : Outstanding None e;
  g_fed : forall i s, slots e !! i = Some s -> phase s = kFree -> next_read e = chunk_count;
}.
(** No chunk waits to be hashed that could be. *)
Definition Settled (e : Engine) : Prop :=
  forall i s, slots e !! i = Some s -> phase s = kReady -> sequence s <> next_hash e.

Lemma Core_rest ss e e' :
  Chunks ss (next_read e) (next_hash e) (completed e) (copied e) (hash e) (target (ring e)) ->
  source (ring e) = src -> slots e' = ss -> rest_of e' = rest_of e -> Core e'.
Proof. intros Hc Hsrc Hs Hr. injection Hr as E1 E2 E3 E4 E5 E6 E7 E8. split; [|congruence]. by rewrite Hs, E1, E2, E3, E4, E5, E8. Qed.

Lemma work_slot e i s s' : slots e !! i = Some s ->
  sum_list_with slot_work (<[i:=s']> (slots e)) + slot_work s = sum_list_with slot_work (slots e) + slot_work s'.
Proof. apply sum_list_insert. Qed.

Lemma hash_loop_leads turns e :
  Good e -> turns = chunk_count - next_hash e ->
  leads (hash_loop turns) e (fun e' => Good e' /\ Settled e' /\ work e' = work e /\ failure e' = failure e).
Proof.
  revert e. induction turns as [|turns IH]; intros e [[Hc Hsrc] Ho Hf] Hturns.
  { split; [done|]. split; [done|]. split; [|done]. intros i s Hi Hs.
    destruct (so_chunk _ _ _ _ (c_slots _ _ _ _ _ _ _ Hc _ _ Hi) ltac:(congruence)).
    pose proof (c_order _ _ _ _ _ _ _ Hc). lia. }
  unfold leads. cbn [hash_loop]. fold (leads (hash_loop turns)).
  destruct (ready_slot e) as [[i s]|] eqn:Hready.
  2:{ split; [done|]. split; [done|]. split; [|done]. intros i s Hi Hs Hseq.
      apply list_find_None in Hready. rewrite Forall_lookup in Hready. by apply (Hready _ _ Hi). }
  apply list_find_Some in Hready as (Hi&[Hs Hseq]&_). pose proof (c_slots _ _ _ _ _ _ _ Hc _ _ Hi) as Hok.
  destruct (so_chunk _ _ _ _ Hok ltac:(congruence)) as (Hnr&_&Hlen).
  destruct (Update _ _) as [h|] eqn:Hup; [|unfold Update in Hup; by rewrite (proj1 (c_hash _ _ _ _ _ _ _ Hc)) in Hup].
  pose proof (chunks_hashed _ _ _ _ _ _ _ _ _ _ Hc Hi Hs Hseq Hup) as Hc1.
  set (e1 := set_slot i (with_progress 0 s) (set_hash (S (next_hash e)) h e)).
  assert (willing e1 = willing e) as Hwe by done. unfold leads. rewrite <- Hwe. apply leads_bind.
  assert (slots e1 !! i = Some (with_progress 0 s)) as Hi1 by (apply list_lookup_insert_eq; by eapply lookup_lt_Some).
  eapply leads_mono; [apply (submit_leads i true e1 (with_progress 0 s))|].
  - apply Outstanding_slot. assert (req_of i s = []) as Hreq by (unfold req_of; by rewrite Hs).
    destruct (proj2 (Outstanding_idle i s e Hi Hreq) Ho). by split.
  - done.
  - cbn. rewrite Hlen. apply chunk_length_pos. pose proof (c_order _ _ _ _ _ _ _ Hc). lia.
  - intros e2 (Hs2&Ho2&Hr2). assert (slots e2 = <[i:=with_phase kWriting (with_progress 0 s)]> (slots e)) as Hs2'.
    { rewrite Hs2. cbn. by rewrite list_insert_insert_eq. }
    injection Hr2 as E1 E2 E3 E4 E5 E6 E7 E8. engine.
    eapply leads_mono; [apply IH|].
    + split; [|done|].
      * split; [|by rewrite E7]. rewrite Hs2', E1, E2, E3, E4, E5, E8. exact Hc1.
      * intros j t. rewrite Hs2', E1. intros [[-> ->]|[_ Ht]]%insert_cases; [done|by eapply Hf].
    + rewrite E2. lia.
    + intros e3 (Hg&Hset&Hwork&Hfail). split; [done|]. split; [done|]. split; [|congruence]. rewrite Hwork.
      unfold work. rewrite Hs2', E1. pose proof (work_slot e i s (with_phase kWriting (with_progress 0 s)) Hi) as Hsum.
      assert (slot_work s = slot_length s) by (unfold slot_work; by rewrite Hs).
      assert (slot_work (with_phase kWriting (with_progress 0 s)) = slot_length s - 0) by done. lia.
Qed.

Lemma settle_leads e :
  Good e ->
  leads (do* hash_ready source_size chunk_size; flush) e (fun e' => Good e' /\ Settled e' /\ queued e' = 0
    /\ work e' = work e /\ failure e' = failure e).
Proof.
  intros Hg. apply leads_bind. eapply leads_mono; [apply (hash_loop_leads _ e Hg eq_refl)|].
  intros e1 ([Hc Ho Hf]&Hset&Hwork&Hfail). eapply leads_mono; [by apply flush_leads|].
  intros e2 (Hs&Ho2&Hr&Hq). pose proof Hr as Hr0. injection Hr0 as E1 E2 E3 E4 E5 E6 E7 E8. split; [|split; [|split; [done|]]].
  - split; [|done|].
    + destruct Hc as [Hc Hsrc]. by eapply Core_rest.
    + intros i s. rewrite Hs, E1. apply Hf.
  - intros i s. rewrite Hs, E2. apply Hset.
  - unfold work in *. rewrite Hs, E1. split; [done|congruence].
Qed.

(** ** Slots *)

Lemma start_leads i e s :
  Core e -> Outstanding None e -> slots e !! i = Some s -> phase s = kFree -> next_read e < chunk_count ->
  leads (start_read source_size chunk_size i) e (fun e' => Core e' /\ Outstanding None e'
    /\ slots e' = <[i:=started_slot (next_read e) s]> (slots e) /\ next_read e' = S (next_read e)
    /\ next_hash e' = next_hash e /\ work e' = work e /\ failure e' = failure e).
Proof.
  intros [Hc Hsrc] Ho Hi Hs Hnr. unfold leads, start_read. rewrite (list_lookup_total_correct _ _ _ Hi), Hs.
  set (s1 := mkBufferSlot _ _ _ _ _ _). set (e1 := set_next_read _ _).
  assert (slots e1 !! i = Some s1) as Hi1 by (apply list_lookup_insert_eq; by eapply lookup_lt_Some).
  assert (willing e1 = willing e) as Hwe by done.
  cut (leads (submit_request i false) e1 (fun e' => Core e' /\ Outstanding None e'
    /\ slots e' = <[i:=started_slot (next_read e) s]> (slots e) /\ next_read e' = S (next_read e)
    /\ next_hash e' = next_hash e /\ work e' = work e /\ failure e' = failure e)); [done|].
  eapply leads_mono; [apply (submit_leads i false e1 s1); [|done|by apply chunk_length_pos]|].
  - assert (req_of i s = []) as Hreq by (unfold req_of; by rewrite Hs).
    pose proof (Outstanding_slot i s1 _ (proj2 (Outstanding_idle i s e Hi Hreq) Ho)) as Ho1. destruct Ho1. by split.
  - intros e2 (Hs2&Ho2&Hr2). assert (slots e2 = <[i:=started_slot (next_read e) s]> (slots e)) as Hs2'.
    { rewrite Hs2. cbn. by rewrite list_insert_insert_eq. }
    injection Hr2 as E1 E2 E3 E4 E5 E6 E7 E8. engine.
    pose proof (chunks_started _ _ _ _ _ _ _ _ _ Hc Hi Hs Hnr) as Hc1.
    split; [|do 2 (split; [done|])|..].
    + split; [|by rewrite E7]. by rewrite Hs2', E1, E2, E3, E4, E5, E8.
    + split; [done|]. split; [done|]. split; [|done]. unfold work. rewrite Hs2', E1, chunks_end_succ by done.
      pose proof (work_slot e i s (started_slot (next_read e) s) Hi) as Hsum.
      assert (slot_work s = 0) by (unfold slot_work; by rewrite Hs).
      assert (slot_work (started_slot (next_read e) s) = 2 * chunk_length (next_read e)) by (cbn; lia).
      assert (chunks_end (S (next_read e)) <= source_size) by (unfold chunks_end; lia).
      rewrite chunks_end_succ in * by done. lia.
Qed.

(** What the handling of a completion leaves. *)
Definition handled (e e' : Engine) : Prop :=
  Good e' /\ Settled e' /\ queued e' = 0 /\ work e' = work e /\ failure e' = failure e.

Definition fed (e : Engine) : Prop :=
  forall i s, slots e !! i = Some s -> phase s = kFree -> next_read e = chunk_count.

Lemma resubmit_leads i (w : bool) e s :
  Core e -> Outstanding (Some i) e -> fed e -> Settled e -> slots e !! i = Some s ->
  phase s = (if w then kWriting else kReading) -> progress s < slot_length s ->
  leads (do* submit_request i w; flush) e (handled e).
Proof.
  intros [Hc Hsrc] Ho Hf Hset Hi Hs Hp. apply leads_bind. eapply leads_mono; [by apply submit_leads|].
  intros e1 (Hs1&Ho1&Hr1). eapply leads_mono; [by apply flush_leads|]. intros e2 (Hs2&Ho2&Hr2&Hq2).
  assert (with_phase (if w then kWriting else kReading) s = s) as Hsame by (rewrite <- Hs; by destruct s).
  rewrite Hsame, list_insert_id in Hs1 by done. rewrite Hs1 in Hs2. rewrite Hr1 in Hr2.
  pose proof Hr2 as Hr0. injection Hr0 as E1 E2 E3 E4 E5 E6 E7 E8. split; [|split; [|split; [done|]]].
  - split; [by eapply Core_rest|done|]. intros j t. rewrite Hs2, E1. apply Hf.
  - intros j t. rewrite Hs2, E2. apply Hset.
  - split; [|done]. unfold work. by rewrite Hs2, E1.
Qed.

Lemma read_done_leads i e s :
  Core e -> Outstanding (Some i) e -> fed e -> slots e !! i = Some s ->
  phase s = kReading -> progress s = slot_length s ->
  leads (do* hash_ready source_size chunk_size; flush) (set_slot i (with_phase kReady s) e) (handled e).
Proof.
  intros [Hc Hsrc] Ho Hf Hi Hs Hp. set (e1 := set_slot _ _ _). pose proof (c_slots _ _ _ _ _ _ _ Hc _ _ Hi) as Hok.
  destruct (so_read _ _ _ _ Hok Hs) as [Hnh Hfull].
  assert (slots e1 !! i = Some (with_phase kReady s)) as Hi1 by (apply list_lookup_insert_eq; by eapply lookup_lt_Some).
  assert (Good e1) as Hg.
  { split.
    - split; [|done]. eapply chunks_slot; try done; [|by rewrite Hs|apply (c_target _ _ _ _ _ _ _ Hc)].
      pose proof (so_chunk _ _ _ _ Hok ltac:(congruence)). destruct Hok. split; cbn; try done.
      intros _. split; [done|]. unfold full. cbn. by rewrite <- Hp.
    - apply (Outstanding_idle i _ _ Hi1 eq_refl). by apply Outstanding_slot.
    - intros j t [[-> ->]|[_ Ht]]%insert_cases; [done|by eapply Hf]. }
  eapply leads_mono; [by apply settle_leads|]. intros e2 (Hg2&Hset2&Hq2&Hwork2&Hfail2).
  split; [done|]. split; [done|]. split; [done|]. split; [|done]. rewrite Hwork2.
  unfold work. cbn [e1 set_slot set_slots slots next_read].
  pose proof (work_slot e i s (with_phase kReady s) Hi) as Hsum.
  assert (slot_work s = slot_length s) by (unfold slot_work; rewrite Hs; lia).
  assert (slot_work (with_phase kReady s) = slot_length s) by done. subst e1. engine. lia.
Qed.

Lemma write_done_leads i e s :
  Core e -> Outstanding (Some i) e -> fed e -> slots e !! i = Some s ->
  phase s = kWriting -> progress s = slot_length s ->
  leads (do* (fun e => let e := set_completed (S (completed e)) (copied e + slot_length s) (set_slot i (with_phase kFree s) e) in
           if next_read e <? chunk_count then start_read source_size chunk_size i e else (Ok tt, e));
         do* hash_ready source_size chunk_size; flush) e (handled e).
Proof.
  intros [Hc Hsrc] Ho Hf Hi Hs Hp. set (e1 := set_completed (S (completed e)) (copied e + slot_length s) (set_slot i (with_phase kFree s) e)).
  assert (slots e1 !! i = Some (with_phase kFree s)) as Hi1 by (apply list_lookup_insert_eq; by eapply lookup_lt_Some).
  pose proof (chunks_written _ _ _ _ _ _ _ _ _ Hc Hi Hs Hp) as Hc1.
  assert (Core e1) as Hcore1 by by split.
  assert (Outstanding None e1) as Ho1.
  { apply (Outstanding_idle i _ _ Hi1 eq_refl). pose proof (Outstanding_slot i (with_phase kFree s) _ Ho) as Ho1.
    destruct Ho1. by split. }
  assert (work e1 = work e) as Hw1.
  { unfold work, e1. engine. pose proof (work_slot e i s (with_phase kFree s) Hi) as Hsum.
    assert (slot_work s = 0) by (unfold slot_work; rewrite Hs; lia).
    assert (slot_work (with_phase kFree s) = 0) by done. lia. }
  apply leads_bind.
  assert (forall e2, Good e2 -> work e2 = work e -> failure e2 = failure e ->
    leads (do* hash_ready source_size chunk_size; flush) e2 (handled e)) as Hrest.
  { intros e2 Hg2 Hw2 Hf2. eapply leads_mono; [by apply settle_leads|]. intros e3 (?&?&?&?&?).
    split; [done|]. split; [done|]. split; [done|]. split; congruence. }
  cut (leads (fun e1 => if next_read e1 <? chunk_count then start_read source_size chunk_size i e1 else (Ok tt, e1)) e1
    (fun e2 => leads (do* hash_ready source_size chunk_size; flush) e2 (handled e))); [done|].
  unfold leads at 1. destruct (Nat.ltb_spec (next_read e1) chunk_count) as [Hlt|Hge].
  - fold (leads (start_read source_size chunk_size i) e1
      (fun e2 => leads (do* hash_ready source_size chunk_size; flush) e2 (handled e))).
    eapply leads_mono; [by apply (start_leads i e1 (with_phase kFree s))|].
    intros e2 (Hc2&Ho2&Hs2&Hn2&_&Hw2&Hf2). apply Hrest; [|by rewrite Hw2|by rewrite Hf2].
    split; [done|done|]. intros j t. rewrite Hs2. intros [[-> ->]|[Hne Ht]]%insert_cases Hfree; [done|].
    exfalso. destruct (insert_cases _ _ _ _ _ Ht) as [[? _]|[_ Ht0]]; [done|]. specialize (Hf _ _ Ht0 Hfree).
    cbn in Hlt. lia.
  - split; [done|]. apply Hrest; [|done|done]. split; [done|done|]. intros j t _ _.
    pose proof (c_order _ _ _ _ _ _ _ Hc). cbn in *. lia.
Qed.

Lemma advance_leads i (w : bool) e s :
  Core e -> Outstanding (Some i) e -> fed e -> Settled e -> slots e !! i = Some s ->
  phase s = (if w then kWriting else kReading) ->
  leads (advance source_size chunk_size i w) e (handled e).
Proof.
  intros Hcore Ho Hf Hset Hi Hs. pose proof (so_progress _ _ _ _ (c_slots _ _ _ _ _ _ _ (proj1 Hcore) _ _ Hi)) as Hp.
  unfold leads, advance. rewrite (list_lookup_total_correct _ _ _ Hi). destruct (Nat.ltb_spec (progress s) (slot_length s)).
  - by apply (resubmit_leads i w e s).
  - destruct w.
    + apply (write_done_leads i e s); try done. lia.
    + apply (read_done_leads i e s); try done. lia.
Qed.

(** ** Completions *)

Lemma written_lookup (a x : nat) (d : list ascii) :
  (map_seq a d : gmap nat ascii) !! x = if decide (a <= x) then d !! (x - a) else None.
Proof. rewrite lookup_map_seq. by destruct (decide (a <= x)); [rewrite option_guard_True|rewrite option_guard_False]. Qed.

(** What is read is the source's; what is written too. *)
Definition progressed (n : nat) (r : Ring) (s : BufferSlot) : BufferSlot :=
  mkBufferSlot (if phase s == kWriting then buffer s
                else overwrite (progress s) (slice (offset s + progress s) n (source r)) (buffer s))
    (sequence s) (offset s) (slot_length s) (progress s + n) (phase s).

Lemma read_progress nr nh tgt s n :
  slot_ok nr nh tgt s -> phase s = kReading -> n <= slot_length s - progress s -> n <= length src - (offset s + progress s) ->
  forall r, source r = src -> slot_ok nr nh tgt (progressed n r s).
Proof.
  intros Hok Hs Hn Hsrc r Hr. destruct (so_chunk _ _ _ _ Hok ltac:(congruence)) as (Hseq&Hoff&Hlen).
  destruct (so_read _ _ _ _ Hok Hs) as [Hnh Htake]. pose proof (so_buffer _ _ _ _ Hok) as Hbuf.
  pose proof (so_progress _ _ _ _ Hok).
  assert (slot_length s <= chunk_size) as Hcs by (rewrite Hlen; unfold chunk_length; lia).
  assert (length (slice (offset s + progress s) n src) = n) as Hsl by (rewrite slice_length; lia).
  unfold progressed. rewrite Hs, Hr. rewrite bool_decide_eq_false_2 by done.
  split; cbn [buffer sequence offset slot_length progress phase]; try done.
  - rewrite overwrite_length; [done|lia].
  - lia.
  - intros _. split; [done|]. rewrite slice_slice, <- Htake. rewrite <- Hsl at 1. apply take_overwrite. lia.
Qed.

(** The target after [n] bytes of a slot are written. *)
Definition target_after (n : nat) (s : BufferSlot) (tgt : gmap nat ascii) : gmap nat ascii :=
  map_seq (offset s + progress s) (slice (progress s) n (buffer s)) ∪ tgt.

Lemma written_bytes nr nh tgt s n x b :
  slot_ok nr nh tgt s -> phase s = kWriting -> n <= slot_length s - progress s ->
  (map_seq (offset s + progress s) (slice (progress s) n (buffer s)) : gmap nat ascii) !! x = Some b ->
  x < source_size /\ src !! x = Some b.
Proof.
  intros Hok Hs Hn. destruct (so_chunk _ _ _ _ Hok ltac:(congruence)) as (Hseq&Hoff&Hlen).
  destruct (so_write _ _ _ _ Hok Hs) as (_&Hfull&_). unfold full in Hfull.
  rewrite written_lookup. case_decide as Hx; [|done]. rewrite lookup_slice. case_decide as Hxn; [|done]. intros Hb.
  assert (slice (offset s) (slot_length s) src !! (x - offset s) = Some b) as Hsrc.
  { rewrite <- Hfull, lookup_take_lt by lia. rewrite <- Hb. f_equal. lia. }
  rewrite lookup_slice in Hsrc. case_decide; [|done]. replace (offset s + (x - offset s)) with x in Hsrc by lia.
  split; [|done]. unfold chunk_length, chunk_offset in *. lia.
Qed.

Lemma write_progress nr nh tgt s n :
  slot_ok nr nh tgt s -> phase s = kWriting -> n <= slot_length s - progress s ->
  (forall x b, tgt !! x = Some b -> x < source_size /\ src !! x = Some b) ->
  forall r, slot_ok nr nh (target_after n s tgt) (progressed n r s) /\ tgt ⊆ target_after n s tgt
    /\ forall x b, target_after n s tgt !! x = Some b -> x < source_size /\ src !! x = Some b.
Proof.
  intros Hok Hs Hn Htgt r. pose proof (fun x b => written_bytes _ _ _ _ _ x b Hok Hs Hn) as Hw.
  destruct (so_chunk _ _ _ _ Hok ltac:(congruence)) as (Hseq&Hoff&Hlen).
  destruct (so_write _ _ _ _ Hok Hs) as (Hnh&Hfull&Hdone). pose proof (so_progress _ _ _ _ Hok).
  assert (tgt ⊆ target_after n s tgt) as Hsub.
  { apply map_subseteq_spec. intros x b Hb. unfold target_after. rewrite lookup_union_Some_raw.
    destruct (map_seq _ _ !! x) as [b'|] eqn:Hb'; [left|by right]. destruct (Hw _ _ Hb'), (Htgt _ _ Hb). congruence. }
  split; [|split; [done|]].
  - unfold progressed. rewrite Hs. rewrite bool_decide_eq_true_2 by done. destruct Hok.
    split; cbn [buffer sequence offset slot_length progress phase]; try done; [lia|].
    intros _. split; [done|]. split; [exact Hfull|]. intros x Hx.
    destruct (decide (x < offset s + progress s)) as [Hlt|Hge].
    { destruct (Hdone x ltac:(lia)) as [b Hb]. exists b. by eapply lookup_weaken. }
    assert (is_Some (slice (progress s) n (buffer s) !! (x - (offset s + progress s)))) as [b Hb].
    { apply lookup_lt_is_Some. rewrite slice_length, so_buffer0. unfold chunk_length in Hlen. lia. }
    exists b. unfold target_after. rewrite lookup_union_Some_raw. left. by rewrite written_lookup, decide_True by lia.
  - intros x b. unfold target_after. rewrite lookup_union_Some_raw. intros [Hb|[_ Hb]]; [by apply Hw|by apply Htgt].
Qed.

(** A completed request is that of a slot. *)
Lemma completed_slot k n e req e1 :
  Good e -> kernel_completes k n e = Some (req, e1) ->
  exists s, slots e !! req_index req = Some s /\ req_of (req_index req) s = [req] /\ running (ring e) !! k = Some req
    /\ 0 < req_length req /\ possible (ring e) req n = true.
Proof.
  intros [_ [_ _ Hr _ Hlen] _]. unfold kernel_completes. destruct (running (ring e) !! k) as [r|] eqn:Hk; [|done].
  destruct (possible (ring e) r n) eqn:Hp; [|done]. intros [= <- _].
  assert (r ∈ running (ring e)) as Hin by (by eapply list_elem_of_lookup_2).
  assert (r ∈ requests (slots e)) as Hin2 by (cbn [free_slot] in Hr; rewrite <- Hr; apply elem_of_app; by right).
  destruct (requests_slot _ _ _ Hin2) as (i&s&Hi&Hreq). rewrite Nat.add_0_l in Hreq.
  assert (req_index r = i) as ->. { unfold req_of in Hreq. by destruct (phase s); simplify_eq. }
  exists s. do 3 (split; [done|]). split; [|done]. rewrite Forall_app, !Forall_forall in Hlen. by apply Hlen.
Qed.

Lemma req_of_inv i s req :
  req_of i s = [req] -> (phase s = if req_write req then kWriting else kReading)
    /\ req_offset req = offset s + progress s /\ req_position req = progress s
    /\ req_length req = slot_length s - progress s.
Proof. unfold req_of. by destruct (phase s) eqn:Hs; intros ?; simplify_eq. Qed.

Definition counted (e : Engine) : Engine := set_counts (queued e) (in_flight e - 1) e.

(** The engine when the completion's progress is recorded. *)
Lemma progress_recorded k n e req e1 s :
  Good e -> Settled e -> (0 < n)%Z -> kernel_completes k n e = Some (req, e1) ->
  slots e !! req_index req = Some s -> req_of (req_index req) s = [req] ->
  let e2 := set_slot (req_index req) (with_progress (progress s + Z.to_nat n) (slots e1 !!! req_index req)) (counted e1) in
  Core e2 /\ Outstanding (Some (req_index req)) e2 /\ fed e2 /\ Settled e2
  /\ slots e2 !! req_index req = Some (progressed (Z.to_nat n) (ring e) s)
  /\ work e2 + Z.to_nat n = work e /\ failure e2 = failure e /\ (willing e2 <-> willing e)
  /\ (slots e1 !! req_index req) = Some (with_progress (progress s) (progressed (Z.to_nat n) (ring e) s)).
Proof.
  intros Hg Hset Hn Hk Hi Hreq. destruct (completed_slot _ _ _ _ _ Hg Hk) as (s0&Hi0&_&Hrun&Hpos&Hposs).
  assert (s0 = s) as -> by congruence. clear Hi0. destruct Hg as [[Hc Hsrc] Ho Hf].
  destruct (req_of_inv _ _ _ Hreq) as (Hs&Hro&Hrp&Hrl). set (i := req_index req) in *.
  pose proof (c_slots _ _ _ _ _ _ _ Hc _ _ Hi) as Hok. pose proof (so_progress _ _ _ _ Hok) as Hp.
  unfold kernel_completes in Hk. rewrite Hrun, Hposs in Hk. injection Hk as <-.
  unfold possible in Hposs. apply andb_true_iff in Hposs as [Hlen Hread%orb_true_iff]. apply Z.leb_le in Hlen.
  assert (Z.to_nat n <= slot_length s - progress s) as Hn' by lia.
  set (r' := mkRing _ _ (delete k _) _ _ _). set (p := progressed (Z.to_nat n) (ring e) s).
  assert (length (slots e) > i) as Hil by (by eapply lookup_lt_Some).
  set (e1 := transfer req (Z.to_nat n) (set_ring r' e)).
  set (tgt := if req_write req then target_after (Z.to_nat n) s (target (ring e)) else target (ring e)).
  assert (slots e1 = <[i:=with_progress (progress s) p]> (slots e)
    /\ ring e1 = mkRing (entries r') (sq r') (running r') (answers r') src tgt
    /\ rest_of (set_ring (ring e) (set_slots (slots e) e1)) = rest_of e /\ queued e1 = queued e /\ in_flight e1 = in_flight e)
    as (Hs1&Hr1&Hrest1&Hq1&Hf1).
  { unfold e1, transfer, tgt, p, progressed. fold i. cbn [set_ring slots]. rewrite (list_lookup_total_correct _ _ _ Hi), Hs.
    rewrite Hro, Hrp. destruct (req_write req); cbn; rewrite Hsrc; split_and!; try done.
    - rewrite list_insert_id; [done|]. rewrite Hi. f_equal. destruct s; cbn in *. by subst.
    - unfold r'. by rewrite Hsrc. }
  assert (slots e1 !! i = Some (with_progress (progress s) p)) as Hi1 by (rewrite Hs1; by apply list_lookup_insert_eq).
  rewrite (list_lookup_total_correct _ _ _ Hi1). intros e2.
  assert (slots e2 = <[i:=p]> (slots e)) as Hs2.
  { unfold e2. engine. cbn [counted set_counts slots]. rewrite Hs1, list_insert_insert_eq. f_equal. }
  assert (ring e2 = ring e1) as Hr2 by done.
  injection Hrest1 as E1 E2 E3 E4 E5 E6. engine.
  assert (next_read e2 = next_read e /\ next_hash e2 = next_hash e /\ completed e2 = completed e /\ copied e2 = copied e
    /\ hash e2 = hash e /\ failure e2 = failure e) as (F1&F2&F3&F4&F5&F6) by done.
  assert (phase p = phase s) as Hpp by done.
  assert (phase s <> kFree /\ phase s <> kReady) as [Hbusy Hnr] by (rewrite Hs; by destruct (req_write req)).
  assert (slot_ok (next_read e) (next_hash e) tgt p /\ target (ring e) ⊆ tgt
    /\ forall x b, tgt !! x = Some b -> x < source_size /\ src !! x = Some b) as (Hok'&Hsub&Htgt).
  { unfold tgt, p. destruct (req_write req) eqn:Hw.
    - apply write_progress; try done. apply (c_target _ _ _ _ _ _ _ Hc).
    - split; [|split; [done|apply (c_target _ _ _ _ _ _ _ Hc)]]. destruct Hread as [?|Hread]; [done|].
      apply Z.leb_le in Hread. rewrite Hro, Hsrc in Hread. apply read_progress; try done. lia. }
  split; [|split; [|split; [|split; [|split; [|split; [|split; [|split]]]]]]].
  - split; [|by rewrite Hr2, Hr1]. rewrite Hs2, F1, F2, F3, F4, F5, Hr2, Hr1. by apply (chunks_slot _ _ _ _ _ _ _ _ _ _ _ Hc Hi).
  - destruct Ho as [Hq Hfl Hperm Hroom Hlens]. cbn [free_slot] in Hperm.
    assert (running (ring e) ≡ₚ req :: delete k (running (ring e))) as Hdel by (by apply delete_Permutation).
    split; rewrite ?Hr2, ?Hr1; cbn [sq running r' entries].
    + change (queued e2) with (queued e1). by rewrite Hq1.
    + change (in_flight e2) with (in_flight e1 - 1). rewrite Hf1, Hfl. apply Permutation_length in Hdel. cbn in Hdel. lia.
    + cbn [free_slot]. rewrite Hs2, list_insert_insert_eq. apply (Permutation_cons_inv (a := req)).
      rewrite (requests_insert 0 _ _ _ Hi), Nat.add_0_l, Hreq in Hperm. cbn [app] in Hperm.
      etrans; [|exact Hperm]. etrans; [apply Permutation_middle|]. by apply Permutation_app_head.
    + by rewrite Hs2, length_insert.
    + rewrite Forall_app in *. destruct Hlens. split; [done|]. by apply Forall_delete.
  - intros j t. rewrite Hs2, F1. intros [[-> ->]|[_ Ht]]%insert_cases Hfree; [congruence|by eapply Hf].
  - intros j t. rewrite Hs2, F2. intros [[-> ->]|[_ Ht]]%insert_cases Hrd; [congruence|by eapply Hset].
  - rewrite Hs2. by apply list_lookup_insert_eq.
  - unfold work. rewrite Hs2, F1. pose proof (work_slot e i s p Hi) as Hsum.
    assert (slot_work p + Z.to_nat n = slot_work s); [|lia].
    unfold slot_work. rewrite Hpp, Hs. cbn [p progressed slot_length progress]. destruct (req_write req); lia.
  - done.
  - unfold willing. by rewrite Hr2, Hr1.
  - done.
Qed.

Lemma handle_leads k n e req e1 :
  Good e -> Settled e -> (0 < n)%Z -> kernel_completes k n e = Some (req, e1) ->
  leads (handle source_size chunk_size req n) (counted e1) (fun e' => Good e' /\ Settled e' /\ queued e' = 0
    /\ work e' + Z.to_nat n = work e /\ failure e' = failure e) /\ (willing (counted e1) <-> willing e).
Proof.
  intros Hg Hset Hn Hk. destruct (completed_slot _ _ _ _ _ Hg Hk) as (s&Hi&Hreq&_&Hpos&Hposs).
  destruct (progress_recorded _ _ _ _ _ _ Hg Hset Hn Hk Hi Hreq) as (Hc&Ho&Hf&Hset2&Hs2&Hw&Hfail&Hwill&Hs1).
  split; [|exact Hwill]. destruct (req_of_inv _ _ _ Hreq) as (Hs&_&_&Hrl).
  pose proof (list_lookup_total_correct _ _ _ Hs1) as Hs1'.
  unfold leads, handle. cbn [counted set_counts slots].
  rewrite (proj2 (Nat.leb_gt _ _)) by (by eapply lookup_lt_Some). set (s1 := slots e1 !!! req_index req) in *.
  assert (phase s1 = phase s /\ slot_length s1 = slot_length s /\ progress s1 = progress s) as (->&->&->) by by rewrite Hs1'.
  rewrite (bool_decide_eq_true_2 _ Hs). cbn [negb].
  unfold possible in Hposs. apply andb_true_iff in Hposs as [Hlen _]. apply Z.leb_le in Hlen. rewrite Hrl in Hlen.
  destruct (Z.ltb_spec n 0); [lia|]. destruct (Z.eqb_spec n 0); [lia|]. cbn [orb].
  rewrite (proj2 (Z.ltb_ge _ _)) by lia.
  pose proof (advance_leads (req_index req) (req_write req) _ _ Hc Ho Hf Hset2 Hs2 Hs) as Hadv. unfold leads in Hadv.
  match type of Hadv with match ?x with _ => _ end => change x with (advance source_size chunk_size (req_index req) (req_write req)
    (set_slot (req_index req) (with_progress (progress s + Z.to_nat n) s1) (set_counts (queued e1) (in_flight e1 - 1) e1))) in Hadv end.
  destruct (advance _ _ _ _ _) as [[[]|st] e']; [|done].
  destruct Hadv as [Hwe (Hg'&Hset'&Hq'&Hwork&Hfail')]. split; [done|]. do 3 (split; [done|]).
  split; [by rewrite Hwork|by rewrite Hfail'].
Qed.

Lemma handle_fails req n e : (n <= 0)%Z -> exists st e', handle source_size chunk_size req n e = (Err st, e') /\ ok st = false.
Proof.
  intros Hn. unfold handle. destruct (_ <=? _); [by eexists _, _|]. destruct (negb _); [by eexists _, _|].
  destruct (Z.ltb_spec n 0); [eexists _, _; split; [done|]; by apply IoError_not_ok|].
  assert (n = 0)%Z as -> by lia. by eexists _, _.
Qed.

Definition sound (e : Engine) : Prop := ok (failure e) = true -> Good e /\ Settled e /\ queued e = 0.

Lemma Good_failure st e : Good e -> Good (set_failure st e).
Proof. intros [Hc [? ? ? ? ?] ?]. split; [exact Hc|by split|done]. Qed.

Lemma complete_spec k n e req e1 :
  sound e -> ok (failure e) = true -> kernel_completes k n e = Some (req, e1) ->
  sound (complete source_size chunk_size req n e1)
  /\ (willing e -> (0 < n)%Z -> ok (failure (complete source_size chunk_size req n e1)) = true
      /\ willing (complete source_size chunk_size req n e1)
      /\ work (complete source_size chunk_size req n e1) + Z.to_nat n = work e).
Proof.
  intros Hsound Hok Hk. destruct (Hsound Hok) as (Hg&Hset&_).
  assert (failure (counted e1) = failure e) as Hfe.
  { unfold kernel_completes in Hk. destruct (_ !! _); [|done]. destruct (possible _ _ _); [|done]. injection Hk as <- <-.
    unfold transfer. by destruct (req_write _). }
  unfold complete. fold (counted e1). rewrite Hfe, Hok. cbn [negb].
  destruct (decide (0 < n)%Z) as [Hn|Hn].
  - destruct (handle_leads _ _ _ _ _ Hg Hset Hn Hk) as [Hl Hw]. unfold leads in Hl. unfold recorded.
    destruct (handle _ _ _ _ _) as [[[]|st] e']; cbn [fst snd status_of].
    + destruct Hl as [Hwe (Hg'&Hset'&Hq'&Hwork&_)]. split; [intros _; split; [by apply Good_failure|by split]|].
      intros Hwill _. split; [done|]. split; [by apply Hwe, Hw|exact Hwork].
    + destruct Hl as [Hst Hnw]. split; [unfold sound; cbn; congruence|]. intros Hwill. by apply Hw in Hwill.
  - destruct (handle_fails req n (counted e1) ltac:(lia)) as (st&e'&Hh&Hst). unfold recorded. rewrite Hh.
    cbn [fst snd status_of]. split; [unfold sound; cbn; congruence|]. lia.
Qed.

Lemma failed_stays k n e req e1 :
  ok (failure e) = false -> kernel_completes k n e = Some (req, e1) ->
  ok (failure (complete source_size chunk_size req n e1)) = false.
Proof.
  intros Hok Hk. unfold complete.
  assert (failure (set_counts (queued e1) (in_flight e1 - 1) e1) = failure e) as Hfe.
  { unfold kernel_completes in Hk. destruct (_ !! _); [|done]. destruct (possible _ _ _); [|done]. injection Hk as <- <-.
    unfold transfer. by destruct (req_write _). }
  rewrite Hfe, Hok. cbn. exact (eq_trans (f_equal ok Hfe) Hok).
Qed.

Lemma wait_sound l e e' :
  sound e -> wait_loop source_size chunk_size l e = Some (Ok tt, e') -> sound e' /\ in_flight e' = 0.
Proof.
  revert e. induction l as [|c l IH]; intros e Hs; cbn [wait_loop];
    (destruct (Nat.eqb_spec (in_flight e) 0); [by intros [= <-]|]); [done|].
  destruct c as [|?|k m]; [by apply IH|done|].
  destruct (kernel_completes k m e) as [[req e1]|] eqn:Hk; [|done]. intros Hw. apply (IH _) in Hw; [done|].
  destruct (ok (failure e)) eqn:Hok; [by eapply complete_spec|].
  unfold sound. by rewrite (failed_stays _ _ _ _ _ Hok Hk).
Qed.

(** ** The first reads *)

Lemma sum_zero {A} (f : A -> nat) l : Forall (fun x => f x = 0) l -> sum_list_with f l = 0.
Proof. induction 1 as [|x l Hx _ IH]; [done|]. cbn. lia. Qed.

Lemma requests_free k n s : phase s = kFree -> requests_from k (replicate n s) = [].
Proof. intros Hs. revert k. induction n as [|n IH]; intros k; cbn; [done|]. rewrite IH. unfold req_of. by rewrite Hs. Qed.

Lemma Chunks_initial slot_count hasher :
  finalized hasher = false -> hashed hasher = h0 ->
  Chunks (replicate slot_count (mkBufferSlot (replicate chunk_size NUL) 0 0 0 0 kFree)) 0 0 0 0 hasher ∅.
Proof.
  intros Hf Hh. split; try done.
  - intros i s [-> _]%lookup_replicate. split; cbn; try done. apply length_replicate.
  - lia.
  - intros i j s t [-> _]%lookup_replicate. done.
  - intros q. lia.
  - split; [done|]. unfold chunks_end. rewrite Nat.mul_0_l, Nat.min_0_r, take_0. cbn. by rewrite str_app_nil.
  - rewrite sum_zero; [unfold chunks_end; lia|]. by apply Forall_replicate.
  - rewrite sum_zero; [lia|]. by apply Forall_replicate.
Qed.

(** The slots below [j] read, the others are free. *)
Definition started (j n : nat) (e : Engine) : Prop :=
  Core e /\ Outstanding None e /\ next_read e = j /\ length (slots e) = n
  /\ forall i s, slots e !! i = Some s -> phase s = if decide (i < j) then kReading else kFree.

Lemma start_reads_leads n m : forall j e,
  j + m = n -> n <= chunk_count -> started j n e ->
  leads (start_reads source_size chunk_size (seq j m)) e (fun e' => started n n e' /\ work e' = work e /\ failure e' = failure e).
Proof.
  induction m as [|m IH]; intros j e Hn Hcount Hst; cbn [seq start_reads].
  { replace j with n in * by lia. done. }
  destruct Hst as (Hc&Ho&Hnr&Hlen&Hph). apply leads_bind.
  destruct (lookup_lt_is_Some_2 (slots e) j ltac:(lia)) as [s Hj]. pose proof (Hph _ _ Hj) as Hs.
  rewrite decide_False in Hs by lia. eapply leads_mono; [apply (start_leads j e s); try done; lia|].
  intros e1 (Hc1&Ho1&Hs1&Hn1&_&Hw1&Hf1). eapply leads_mono; [apply (IH (S j)); [lia|done|]|].
  - split; [done|]. split; [done|]. split; [lia|]. rewrite Hs1. split; [by rewrite length_insert|].
    intros i t [[-> ->]|[Hne Ht]]%insert_cases; [by rewrite decide_True by lia|].
    rewrite (Hph _ _ Ht). repeat case_decide; try done; lia.
  - intros e2 (Hst2&Hw2&Hf2). split; [done|]. split; congruence.
Qed.

(** The engine when it first waits. *)
Lemma start_spec queue_depth hasher r :
  finalized hasher = false -> hashed hasher = h0 -> source r = src -> target r = ∅ ->
  sq r = [] -> running r = [] -> queue_depth <= entries r ->
  let e := start_engine source_size chunk_size (Nat.min queue_depth chunk_count) hasher r in
  0 < queue_depth ->
  sound e /\ (Forall (fun a => 0 < a)%Z (answers r) -> ok (failure e) = true /\ willing e /\ work e = 2 * source_size).
Proof.
  intros Hfin Hh Hsrc Htgt Hsq Hrun Hroom e Hdepth. unfold e, start_engine. set (n := Nat.min queue_depth chunk_count).
  set (e0 := mkEngine _ _ _ _ _ _ _ _ _ _).
  assert (started 0 n e0) as Hst0.
  { split; [split; [|done]|]; [cbn; rewrite Htgt; by apply Chunks_initial|]. split; [|split; [done|split]].
    - split; cbn; rewrite ?Hsq, ?Hrun, ?length_replicate; try done; [|lia]. by rewrite requests_free.
    - apply length_replicate.
    - intros i s [-> _]%lookup_replicate. done. }
  assert (work e0 = 2 * source_size) as Hw0.
  { unfold work. cbn [e0 slots next_read]. rewrite sum_zero; [unfold chunks_end; lia|]. by apply Forall_replicate. }
  assert (leads (do* start_reads source_size chunk_size (seq 0 n); flush) e0 (fun e' =>
    Good e' /\ Settled e' /\ queued e' = 0 /\ work e' = 2 * source_size)) as Hl.
  { apply leads_bind. eapply leads_mono; [apply (start_reads_leads n n 0 e0); [done|unfold n; lia|done]|].
    intros e1 ((Hc1&Ho1&Hn1&Hl1&Hp1)&Hw1&_). eapply leads_mono; [by apply flush_leads|].
    intros e2 (Hs2&Ho2&Hr2&Hq2). pose proof Hr2 as Hr0. injection Hr0 as E1 E2 E3 E4 E5 E6 E7 E8.
    assert (forall i s, slots e2 !! i = Some s -> phase s = kReading) as Hall.
    { intros i s. rewrite Hs2. intros Hi. rewrite (Hp1 _ _ Hi), decide_True; [done|]. apply lookup_lt_Some in Hi. lia. }
    split; [|split; [|split; [done|]]].
    - split; [|done|].
      + destruct Hc1. by eapply Core_rest.
      + intros i s Hi Hfree. specialize (Hall _ _ Hi). congruence.
    - intros i s Hi Hrd. specialize (Hall _ _ Hi). congruence.
    - unfold work in *. rewrite Hs2, E1. lia. }
  unfold leads in Hl. unfold recorded. destruct ((do* _; _) e0) as [[[]|st] e']; cbn [fst snd status_of].
  - destruct Hl as [Hwe (Hg&Hset&Hq&Hw)]. split; [intros _; split; [by apply Good_failure|by split]|].
    intros Ha. split; [done|]. split; [by apply Hwe|exact Hw].
  - destruct Hl as [Hst Hnw]. split; [unfold sound; cbn; congruence|]. intros Ha. by destruct Hnw.
Qed.

(** ** The end *)

Context (Blake3 : string -> Digest).

(** What a finished copy has done. *)
Lemma copied_all e c :
  Core e -> finish Blake3 source_size chunk_size e = Ok (Some c) ->
  c = mkCopyResult (Z.of_nat source_size) (Blake3 (h0 +:+ String.string_of_list_ascii (take source_size src))%string)
  /\ target (ring e) = map_seq 0 (take source_size src).
Proof.
  intros [Hc _]. unfold finish. destruct (negb (ok _)); [done|]. destruct (_ || _) eqn:Hends; [done|].
  bool_hyps. repeat match goal with H : (_ =? _) = true |- _ => apply Nat.eqb_eq in H end.
  destruct (c_hash _ _ _ _ _ _ _ Hc) as [Hf Hh]. unfold Finalize. rewrite Hf. intros [= <-].
  rewrite Hh, H1, H2, chunks_end_count by lia. split; [done|].
  assert (forall x, x < source_size -> is_Some (target (ring e) !! x)) as Hall.
  { intros x Hx. set (q := x / chunk_size). pose proof (Nat.div_mod x chunk_size ltac:(lia)).
    pose proof (Nat.mod_upper_bound x chunk_size ltac:(lia)).
    assert (q < chunk_count) as Hq by (apply chunk_count_lt; unfold q; nia).
    pose proof (c_completed _ _ _ _ _ _ _ Hc) as Hdone. pose proof (c_order _ _ _ _ _ _ _ Hc).
    destruct (c_cover _ _ _ _ _ _ _ Hc q) as [(i&s&Hi&Hs&_)|[_ Hw]]; [lia| |].
    - exfalso. pose proof (sum_list_insert active_one _ i s idle Hi) as Hsum. destruct (active_busy s Hs) as [_ Hone].
      assert (active_one idle = 0) by done. lia.
    - apply Hw. unfold chunk_offset, chunk_length, q. nia. }
  apply map_eq. intros x. rewrite written_lookup, decide_True, Nat.sub_0_r by lia.
  destruct (decide (x < source_size)) as [Hx|Hx].
  - destruct (Hall x Hx) as [b Hb]. destruct (c_target _ _ _ _ _ _ _ Hc _ _ Hb) as [_ Hsrc].
    by rewrite Hb, lookup_take_lt.
  - rewrite lookup_take_ge by lia. destruct (target (ring e) !! x) as [b|] eqn:Hb; [|done].
    by destruct (c_target _ _ _ _ _ _ _ Hc _ _ Hb).
Qed.

(** With nothing in flight, a settled engine has copied everything. *)
Lemma nothing_left e :
  Good e -> Settled e -> queued e = 0 -> in_flight e = 0 -> (slots e = [] -> chunk_count = 0) ->
  ok (failure e) = true -> exists c, finish Blake3 source_size chunk_size e = Ok (Some c).
Proof.
  intros [[Hc _] [Hq Hfl Hr _ _] Hf] Hset Hq0 Hf0 Hempty Hok.
  assert (forall i s, slots e !! i = Some s -> req_of i s = []) as Hnone.
  { intros i s Hi. cbn [free_slot] in Hr. rewrite (requests_insert 0 _ _ _ Hi), Nat.add_0_l in Hr.
    apply Permutation_length in Hr. rewrite !length_app in Hr. apply nil_length_inv. lia. }
  assert (forall i s, slots e !! i = Some s -> phase s = kFree \/ phase s = kReady) as Hph.
  { intros i s Hi. specialize (Hnone _ _ Hi). unfold req_of in Hnone. destruct (phase s); auto; done. }
  pose proof (c_order _ _ _ _ _ _ _ Hc) as Hord.
  assert (next_hash e = next_read e) as Heq.
  { destruct (decide (next_hash e < next_read e)) as [Hlt|]; [|lia]. exfalso.
    destruct (c_cover _ _ _ _ _ _ _ Hc _ Hlt) as [(i&s&Hi&Hs&Hseq)|[? _]]; [|lia].
    destruct (Hph _ _ Hi) as [|Hrd]; [done|]. by apply (Hset _ _ Hi Hrd). }
  assert (forall i s, slots e !! i = Some s -> phase s = kFree) as Hfree.
  { intros i s Hi. destruct (Hph _ _ Hi) as [|Hrd]; [done|]. pose proof (c_slots _ _ _ _ _ _ _ Hc _ _ Hi) as Hslot.
    destruct (so_chunk _ _ _ _ Hslot ltac:(congruence)). destruct (so_ready _ _ _ _ Hslot Hrd). lia. }
  assert (next_read e = chunk_count) as Hnr.
  { destruct (slots e) as [|s ss] eqn:Hss; [rewrite Hempty in * by done; lia|]. apply (Hf 0 s); [done|]. by apply (Hfree 0). }
  assert (forall f, (forall s, phase s = kFree -> f s = 0) -> sum_list_with f (slots e) = 0) as Hsum.
  { intros f Hz. apply sum_zero, Forall_lookup. intros i s Hi. apply Hz. by eapply Hfree. }
  pose proof (c_completed _ _ _ _ _ _ _ Hc) as Hcomp. pose proof (c_copied _ _ _ _ _ _ _ Hc) as Hcop.
  rewrite Hsum in Hcomp by apply active_free. rewrite Hsum in Hcop by apply active_free.
  unfold finish. rewrite Hok, Heq, Hnr. cbn [negb].
  rewrite (proj2 (Nat.eqb_eq (completed e) _)) by lia. rewrite Nat.eqb_refl.
  rewrite (proj2 (Nat.eqb_eq (copied e) _)) by (rewrite <- (chunks_end_count (next_read e)) by lia; lia).
  cbn [negb orb]. unfold Finalize. rewrite (proj1 (c_hash _ _ _ _ _ _ _ Hc)). by eexists.
Qed.

(** A kernel that holds requests can go on. *)
Lemma kernel_can_go_on e :
  Good e -> in_flight e <> 0 -> source_size <= length src -> is_Some (kernel_completes 0 1 e).
Proof.
  intros [[Hc Hsrc] [_ Hfl Hr _ Hlens] _] Hf Hlen. unfold kernel_completes.
  destruct (running (ring e)) as [|req rest] eqn:Hrun; [done|]. cbn [lookup list_lookup].
  assert (req ∈ requests (slots e)) as Hin by (cbn [free_slot] in Hr; rewrite <- Hr; apply elem_of_app; right; by left).
  destruct (requests_slot _ _ _ Hin) as (i&s&Hi&Hreq). rewrite Nat.add_0_l in Hreq.
  destruct (req_of_inv _ _ _ Hreq) as (Hs&Ho&_&Hl). rewrite Forall_app, Forall_cons in Hlens. destruct Hlens as (_&Hpos&_).
  assert (phase s <> kFree) as Hbusy by (rewrite Hs; by destruct (req_write req)).
  destruct (so_chunk _ _ _ _ (c_slots _ _ _ _ _ _ _ Hc _ _ Hi) Hbusy) as (Hseq&Hoff&Hsl).
  unfold possible. rewrite (proj2 (Z.leb_le _ _)) by lia. cbn [andb].
  rewrite (proj2 (Z.leb_le 1 (Z.of_nat (_ - _)))), orb_true_r; [by eexists|]. rewrite Hsrc, Ho.
  unfold chunk_length, chunk_offset in *. lia.
Qed.

End Copy.

(** ** The number of slots *)

Section Runs.
Context {K : Type} `{Kernel K} (source_size chunk_size : nat).
Local Open Scope nat_scope.

Definition keeps (c : M Engine unit) : Prop := forall e, length (slots (c e).2) = length (slots e).

Lemma keeps_bind c1 c2 : keeps c1 -> keeps c2 -> keeps (do* c1; c2).
Proof. intros H1 H2 e. unfold bind. specialize (H1 e). destruct (c1 e) as [[[]|st] e1]; cbn in *; [by rewrite H2|done]. Qed.

Lemma keeps_submit i w : keeps (submit_request i w).
Proof. intros e. unfold submit_request. destruct (_ <=? _); [done|]. cbn. by rewrite length_insert. Qed.

Lemma keeps_flush : keeps flush.
Proof.
  unfold keeps, flush. intros e. generalize (queued e) as n. intros n. revert e. induction n as [|n IH]; intros e; [done|].
  cbn [flush_loop]. destruct (_ =? _); [done|]. destruct (io_uring_submit e) as [a e1] eqn:Hsub.
  assert (slots e1 = slots e) as <-. { unfold io_uring_submit in Hsub. destruct (answers _); by injection Hsub as <- <-. }
  destruct (_ <? _)%Z; [done|]. destruct (_ || _); [done|]. by rewrite IH.
Qed.

Lemma keeps_hash_loop n : keeps (hash_loop n).
Proof.
  induction n as [|n IH]; intros e; cbn [hash_loop]; [done|]. destruct (ready_slot e) as [[i s]|]; [|done].
  destruct (Update _ _); [|done]. rewrite keeps_bind; [|apply keeps_submit|done]. cbn. by rewrite length_insert.
Qed.

Lemma keeps_start_read i : keeps (start_read source_size chunk_size i).
Proof. intros e. unfold start_read. rewrite keeps_submit. cbn. by rewrite length_insert. Qed.

Lemma keeps_advance i w : keeps (advance source_size chunk_size i w).
Proof.
  intros e. unfold advance. set (slot := slots e !!! i). destruct (_ <? _).
  - apply keeps_bind; [apply keeps_submit|apply keeps_flush].
  - apply keeps_bind; [|apply keeps_bind; [intros e1; apply keeps_hash_loop|apply keeps_flush]].
    intros e1. destruct w; [|cbn; by rewrite length_insert].
    destruct (_ <? _); [rewrite keeps_start_read|]; cbn; by rewrite length_insert.
Qed.

Lemma keeps_handle req n : keeps (handle source_size chunk_size req n).
Proof.
  intros e. unfold handle. destruct (_ <=? _); [done|]. set (slot := slots e !!! _). destruct (negb _); [done|].
  destruct (_ <? _)%Z; [done|]. destruct (_ || _); [done|]. rewrite keeps_advance. cbn. by rewrite length_insert.
Qed.

Lemma keeps_complete req n e : length (slots (complete source_size chunk_size req n e)) = length (slots e).
Proof.
  unfold complete. destruct (negb _); [done|]. exact (keeps_handle req n (set_counts (queued e) (in_flight e - 1) e)).
Qed.

Lemma keeps_start_reads l : keeps (start_reads source_size chunk_size l).
Proof. induction l as [|i l IH]; [done|]. apply keeps_bind; [apply keeps_start_read|done]. Qed.

Lemma start_slots n hasher r : length (slots (start_engine source_size chunk_size n hasher r)) = n.
Proof.
  unfold start_engine, recorded. cbn [set_failure slots].
  rewrite keeps_bind; [apply length_replicate|apply keeps_start_reads|apply keeps_flush].
Qed.

(** ** Runs *)

(** The engine after the completions [l], where the kernel can give them. *)
Fixpoint turns (l : list (nat * Z)) (e : Engine) : option Engine :=
  match l with
  | [] => Some e
  | (k, n) :: l =>
      match kernel_completes k n e with
      | Some (req, e) => turns l (complete source_size chunk_size req n e)
      | None => None
      end
  end.

Definition live (src : list ascii) (h0 : string) (e : Engine) : Prop :=
  sound source_size chunk_size src h0 e /\ ok (failure e) = true /\ willing e.

Lemma kernel_completes_slots k n e req e1 : kernel_completes k n e = Some (req, e1) -> length (slots e1) = length (slots e).
Proof.
  unfold kernel_completes. destruct (_ !! _); [|done]. destruct (possible _ _ _); [|done]. intros [= <- <-].
  unfold transfer. destruct (req_write _); [done|]. cbn. by rewrite length_insert.
Qed.

Lemma turns_run src h0 (Hchunk : 0 < chunk_size) l : forall e e',
  live src h0 e -> Forall (fun c => 0 < c.2)%Z l -> turns l e = Some e' ->
  live src h0 e' /\ work source_size chunk_size e' + length l <= work source_size chunk_size e
  /\ length (slots e') = length (slots e)
  /\ forall rest, wait_loop source_size chunk_size ((uncurry Completes <$> l) ++ rest) e = wait_loop source_size chunk_size rest e'.
Proof.
  induction l as [|[k n] l IH]; intros e e' Hlive Hpos; cbn [turns].
  { intros [= <-]. split; [done|]. split; [cbn; lia|]. by split. }
  inversion_clear Hpos as [|?? Hn Hpos']. cbn [snd] in Hn.
  destruct (kernel_completes k n e) as [[req e1]|] eqn:Hk; [|done]. intros Hturns. destruct Hlive as (Hs&Hok&Hw).
  destruct (complete_spec source_size chunk_size src h0 Hchunk _ _ _ _ _ Hs Hok Hk) as [Hs1 Hlive].
  destruct (Hlive Hw Hn) as (Hok1&Hw1&Hwork1). destruct (IH _ _ (conj Hs1 (conj Hok1 Hw1)) Hpos' Hturns) as (Hl&Hwork&Hlen&Hrest).
  split; [done|]. cbn [length]. split; [lia|].
  split; [by rewrite Hlen, keeps_complete, (kernel_completes_slots _ _ _ _ _ Hk)|].
  intros rest. cbn [fmap list_fmap uncurry app wait_loop]. rewrite Hk, Hrest.
  destruct (Nat.eqb_spec (in_flight e) 0) as [Hz|]; [|done]. exfalso. destruct (Hs Hok) as ([_ [_ Hfl _ _ _] _]&_).
  unfold kernel_completes in Hk. destruct (running (ring e)); [done|]. cbn in Hfl. lia.
Qed.

Lemma turns_snoc l c e e' : turns l e = Some e' -> is_Some (kernel_completes c.1 c.2 e') -> is_Some (turns (l ++ [c]) e).
Proof.
  revert e. induction l as [|[k n] l IH]; intros e; cbn [turns app].
  - intros [= ->] [[req e1] Hk]. destruct c as [k n]. cbn in *. rewrite Hk. by eexists.
  - destruct (kernel_completes k n e) as [[req e1]|]; [|done]. apply IH.
Qed.

End Runs.

Lemma string_of_length l : String.length (String.string_of_list_ascii l) = length l.
Proof. induction l as [|c l IH]; [done|]. cbn. by rewrite IH. Qed.

(** A ring between two copies, with a new target file. *)
Definition fresh_ring (queue_depth : nat) (r : Ring) : Prop :=
  sq r = [] /\ running r = [] /\ target r = ∅ /\ (Nat.max 8 queue_depth <= entries r)%nat.

Lemma TryIoUring_copied {K} `{Kernel K} Blake3 source_size chunk_size disabled init hasher sfd tfd depth r cs c r' :
  fresh_ring depth r -> finalized hasher = false ->
  TryIoUring Blake3 source_size chunk_size disabled init hasher sfd tfd depth r cs = Some (Ok (Some c), r') ->
  c = mkCopyResult (Z.of_nat source_size)
        (Blake3 (hashed hasher +:+ String.string_of_list_ascii (take source_size (source r))))
  /\ target r' = map_seq 0 (take source_size (source r)).
Proof.
  intros (Hsq&Hrun&Htgt&Hroom) Hf. unfold TryIoUring.
  destruct (_ || (int64_max <? _)) eqn:Hguard; [done|]. destruct disabled; [done|].
  destruct (negb (init =? 0)); [case_match; by intros [=]|].
  assert ((chunk_size =? 0)%nat = false /\ (depth =? 0)%nat = false) as [Hc0%Nat.eqb_neq Hd0%Nat.eqb_neq]
    by by repeat (apply orb_false_iff in Hguard as [Hguard ?]).
  destruct (wait_loop _ _ _ _) as [[[[]|st] e]|] eqn:Hw; [|done|done]. intros [= Hfin <-].
  destruct (start_spec source_size chunk_size (source r) (hashed hasher) ltac:(lia) depth hasher r Hf eq_refl eq_refl
    Htgt Hsq Hrun ltac:(lia) ltac:(lia)) as [Hs _].
  destruct (wait_sound source_size chunk_size (source r) (hashed hasher) ltac:(lia) _ _ _ Hs Hw) as [Hsound _].
  assert (ok (failure e) = true) as Hok by (unfold finish in Hfin; by destruct (ok (failure e))).
  destruct (Hsound Hok) as [[Hc _ _] _].
  exact (copied_all source_size chunk_size _ _ ltac:(lia) Blake3 _ _ Hc Hfin).
Qed.

(** C19. The accelerated copy is equivalent to the loop it replaces.  For any
    order and sizes of the completions, a copy that succeeds has written the
    first [source_size] bytes of the source and nothing else, and returns that
    size and the digest of those bytes; and where [CopyAndHash] has read the
    same source of that size, both return the same and both targets hold the
    same bytes. *)
Theorem accelerated_copy_is_the_copy {K} `{Kernel K} {F D} `{FileOps F} Blake3 source_size chunk_size disabled init
    hasher sfd tfd depth r cs c r' buffer (w w' : World F D) c' :
  fresh_ring depth r -> finalized hasher = false ->
  TryIoUring Blake3 source_size chunk_size disabled init hasher sfd tfd depth r cs = Some (Ok (Some c), r') ->
  CopyAndHash Blake3 hasher sfd tfd buffer w = (Ok c', w') ->
  (c = mkCopyResult (Z.of_nat source_size)
         (Blake3 (hashed hasher +:+ String.string_of_list_ascii (take source_size (source r))))
   /\ target r' = map_seq 0 (take source_size (source r)))
  /\ exists l, log w' = log w ++ l
     /\ (reads_of sfd l = String.string_of_list_ascii (source r) -> length (source r) = source_size ->
         c = c' /\ target r' = map_seq 0 (String.list_ascii_of_string (writes_of tfd l))).
Proof.
  intros Hr Hf Htry Hcopy. pose proof (TryIoUring_copied _ _ _ _ _ _ _ _ _ _ _ _ _ Hr Hf Htry) as [Hc Ht].
  split; [done|]. pose proof (runs_CopyAndHash Blake3 hasher sfd tfd buffer w Hf) as Hrun. unfold runs in Hrun.
  rewrite Hcopy in Hrun. destruct Hrun as (l&[Hl _]&_&Hres). exists l. split; [done|]. intros Hreads Hlen.
  destruct (Hres c' eq_refl) as (Hb&Hd&Hwr). rewrite take_ge in Hc, Ht by lia. split.
  - destruct c' as [b d]. cbn in Hb, Hd. subst c b d. rewrite Hreads. f_equal. unfold str_size.
    by rewrite <- Hlen, string_of_length.
  - by rewrite Ht, Hwr, Hreads, String.list_ascii_of_string_of_list_ascii.
Qed.

(** C20. The accelerated copy ends.  With a source long enough and a kernel
    that takes a request at each submission and transfers a byte at each
    completion, at most [2 * source_size] completions are handled; as long as
    a request is in flight another completion is possible, and when none is
    the copy has succeeded: no queue is full, no phase unexpected, and no
    chunk left out. *)
Theorem accelerated_copy_ends {K} `{Kernel K} Blake3 source_size chunk_size hasher depth r l e :
  (0 < chunk_size)%nat -> (0 < depth)%nat -> fresh_ring depth r -> finalized hasher = false ->
  (source_size <= length (source r))%nat -> Forall (fun a => 0 < a) (answers r) ->
  Forall (fun c => 0 < c.2) l ->
  let start := start_engine source_size chunk_size (Nat.min depth (chunk_count source_size chunk_size)) hasher r in
  turns source_size chunk_size l start = Some e ->
  (length l <= 2 * source_size)%nat
  /\ (in_flight e <> 0%nat -> is_Some (turns source_size chunk_size (l ++ [(0%nat, 1)]) start))
  /\ (in_flight e = 0%nat -> exists c,
       (forall rest, wait_loop source_size chunk_size ((uncurry Completes <$> l) ++ rest) start = Some (Ok tt, e))
       /\ finish Blake3 source_size chunk_size e = Ok (Some c)).
Proof.
  intros Hchunk Hdepth (Hsq&Hrun&Htgt&Hroom) Hf Hlen Hans Hpos start Hturns.
  destruct (start_spec source_size chunk_size (source r) (hashed hasher) Hchunk depth hasher r Hf eq_refl eq_refl
    Htgt Hsq Hrun ltac:(lia) Hdepth) as [Hs Hok]. destruct (Hok Hans) as (Hok0&Hw0&Hwork0).
  destruct (turns_run source_size chunk_size _ _ Hchunk l _ _ (conj Hs (conj Hok0 Hw0)) Hpos Hturns)
    as ((Hs'&Hok'&_)&Hwork&Hslots&Hrest). destruct (Hs' Hok') as (Hg&Hset&Hq).
  split; [lia|]. split; intros Hin.
  - apply (turns_snoc _ _ _ _ _ _ Hturns). by apply (kernel_can_go_on source_size chunk_size (source r) (hashed hasher)).
  - destruct (nothing_left source_size chunk_size (source r) (hashed hasher) Hchunk Blake3 e Hg Hset Hq Hin) as [c Hfin]; [|done|].
    + intros Hempty. rewrite Hempty in Hslots. unfold start in *. rewrite start_slots in Hslots. cbn in Hslots. lia.
    + exists c. split; [|done]. intros rest. rewrite Hrest. destruct rest; cbn; by rewrite Hin.
Qed.

(** ** Witnesses *)

Definition demo_source : string := "io_uring copies in any order".
Definition demo_ring : Ring := mkRing 8 [] [] [1; 5] (String.list_ascii_of_string demo_source) ∅.
Definition zero_hash (_ : string) : Digest := Digest_of (fun _ => NUL).

(** The second chunk is read first, whole; then a byte at a time. *)
Definition demo_completions : list (nat * Z) := (1%nat, 4) :: replicate 52 (0%nat, 1).
Local Notation demo_copy :=
  (@TryIoUring zero_hash N every_file 28 4 false 0 new_hasher 3 4 2 demo_ring
    (Interrupted :: (uncurry Completes <$> demo_completions))).

(** A file system whose source is read whole, and which takes what is written. *)
Definition demo_files : FileOps string := {|
  OpenRoot _ _ := ret 3;
  OpenSource _ _ := ret 3;
  StatFd _ := throw (Internal "");
  CreateTempNoReplace _ _ _ := ret 4;
  Read _ _ := fun s => (Ok s, "");
  Write _ data := ret (String.length data);
  Fdatasync _ := ret tt;
  FsyncDirectory _ := ret tt;
  RenameNoReplace _ _ _ _ := ret tt;
  UnlinkAt _ _ := ret tt;
|}.
Definition demo_world : World string unit := mkWorld demo_source tt [].
Local Notation demo_loop :=
  (@CopyAndHash zero_hash _ (@world_FileOps string unit demo_files) new_hasher 3 4 64 demo_world).

Definition copied_by_ring (x : option (StatusOr (option CopyResult) * Ring)) : option CopyResult :=
  match x with Some (Ok (Some c), _) => Some c | _ => None end.

Lemma demo_fresh : fresh_ring 2 demo_ring.
Proof. by vm_compute. Qed.

Lemma demo_copied : exists c r', demo_copy = Some (Ok (Some c), r').
Proof.
  assert (has_value (copied_by_ring demo_copy) = true) as H by (vm_compute; reflexivity).
  destruct demo_copy as [[[[c|]|e] r']|]; try discriminate H. by exists c, r'.
Qed.

Lemma demo_looped : exists c w, demo_loop = (Ok c, w).
Proof.
  assert (is_ok demo_loop.1 = true) as H by (vm_compute; reflexivity).
  destruct demo_loop as [[c|e] w]; [by exists c, w|discriminate H].
Qed.

Lemma accelerated_copy_is_the_copy_witness : exists c r' c' w',
  demo_copy = Some (Ok (Some c), r') /\ demo_loop = (Ok c', w')
  /\ (c = mkCopyResult (Z.of_nat 28) (zero_hash (hashed new_hasher +:+ String.string_of_list_ascii (take 28 (source demo_ring))))
      /\ target r' = map_seq 0 (take 28 (source demo_ring)))
  /\ exists l, log w' = log demo_world ++ l
     /\ (reads_of 3 l = String.string_of_list_ascii (source demo_ring) -> length (source demo_ring) = 28%nat ->
         c = c' /\ target r' = map_seq 0 (String.list_ascii_of_string (writes_of 4 l))).
Proof.
  destruct demo_copied as (c&r'&Hc), demo_looped as (c'&w'&Hl). exists c, r', c', w'. split; [done|]. split; [done|].
  exact (@accelerated_copy_is_the_copy N every_file string unit demo_files zero_hash 28 4 false 0 new_hasher 3 4 2
           demo_ring _ c r' 64 demo_world w' c' demo_fresh eq_refl Hc Hl).
Defined.

Local Notation demo_start :=
  (@start_engine N every_file 28 4 (Nat.min 2 (chunk_count 28 4)) new_hasher demo_ring).
Local Notation demo_end := (@turns N every_file 28 4 demo_completions demo_start).

Lemma demo_ends : exists e, demo_end = Some e /\ in_flight e = 0%nat.
Proof.
  assert ((match demo_end with Some e => (in_flight e =? 0)%nat | None => false end) = true) as H
    by (vm_compute; reflexivity).
  destruct demo_end as [e|]; [|discriminate H]. exists e. split; [done|]. by apply Nat.eqb_eq.
Qed.

Lemma accelerated_copy_ends_witness : exists e, demo_end = Some e /\ in_flight e = 0%nat
  /\ (length demo_completions <= 2 * 28)%nat
  /\ (in_flight e <> 0%nat -> is_Some (@turns N every_file 28 4 (demo_completions ++ [(0%nat, 1)]) demo_start))
  /\ (in_flight e = 0%nat -> exists c,
       (forall rest, @wait_loop N every_file 28 4 ((uncurry Completes <$> demo_completions) ++ rest) demo_start = Some (Ok tt, e))
       /\ finish zero_hash 28 4 e = Ok (Some c)).
Proof.
  destruct demo_ends as (e&He&Hin). exists e. split; [done|]. split; [done|].
  apply (@accelerated_copy_ends N every_file zero_hash 28 4 new_hasher 2 demo_ring demo_completions e);
    [lia|lia|exact demo_fresh|done|by vm_compute|by repeat constructor|by repeat constructor|exact He].
Defined.
