(* ===== verification/Logs.v ===== *)
(** * Logs: reasoning about what a computation adds to the log

    [logs c P E]: from every world, the run of [c] adds a log that satisfies
    [P] with its result, or [E] with its error.  The rules follow the program;
    the last part gives the logs of a verification, shared by the attempt, the
    recovery and the verification of a plan. *)

From S2P Require Import Prelude Status Bytes Json RelativePath Task Reconciler Assets Sqlite FileOps CopyVerify CopyTheorems.

Section Logs.
Context {F D : Type}.
Implicit Types (w : World F D) (l : list Event).

(** What a run adds to the log: [P] of it on success, [E] of it on failure. *)
Definition logs {A} (c : M (World F D) A) (P : A -> list Event -> Prop) (E : Status -> list Event -> Prop) : Prop :=
  forall w, runs c w (fun r w' => exists l, log w' = log w ++ l /\
    match r with Ok a => P a l | Err e => E e l end).

Lemma logs_ret {A} (a : A) (P : A -> list Event -> Prop) E : P a [] -> logs (ret a) P E.
Proof. intros HP w. exists []. by rewrite app_nil_r. Qed.
Lemma logs_throw {A} e (P : A -> list Event -> Prop) (E : Status -> list Event -> Prop) :
  E e [] -> logs (throw e) P E.
Proof. intros HE w. exists []. by rewrite app_nil_r. Qed.
Lemma logs_lift {A} (x : StatusOr A) P (E : Status -> list Event -> Prop) :
  match x with Ok a => P a [] | Err e => E e [] end -> logs (lift x) P E.
Proof. intros Hx w. exists []. rewrite app_nil_r. by destruct x. Qed.
Lemma logs_require b e (P : unit -> list Event -> Prop) (E : Status -> list Event -> Prop) :
  (b = true -> P tt []) -> (b = false -> E e []) -> logs (require b e) P E.
Proof. destruct b; intros HP HE; [apply logs_ret; auto|apply logs_throw; auto]. Qed.

Lemma logs_on_files {A} (ev : StatusOr A -> Event) (c : M F A) P E :
  (forall a, P a [ev (Ok a)]) -> (forall e, E e [ev (Err e)]) -> logs (on_files ev c) P E.
Proof. intros HP HE w. apply runs_on_files. intros [a|e] f; eexists; split; [done|apply HP|done|apply HE]. Qed.
Lemma logs_on_store {A} (ev : StatusOr A -> Event) (c : M D A) P E :
  (forall a, P a [ev (Ok a)]) -> (forall e, E e [ev (Err e)]) -> logs (on_store ev c) P E.
Proof. intros HP HE w. apply runs_on_store. intros [a|e] f; eexists; split; [done|apply HP|done|apply HE]. Qed.

Lemma logs_mono {A} (c : M (World F D) A) (P P' : A -> list Event -> Prop) (E E' : Status -> list Event -> Prop) :
  logs c P E -> (forall a l, P a l -> P' a l) -> (forall e l, E e l -> E' e l) -> logs c P' E'.
Proof.
  intros Hc HP HE w. eapply runs_mono; [apply Hc|]. intros [a|e] w' (l&Hl&H'); exists l; auto.
Qed.

(** Sequencing: the second log follows the first. *)
Lemma logs_bind {A B} (c : M (World F D) A) (k : A -> M (World F D) B) (P1 : A -> list Event -> Prop) P E :
  logs c P1 (fun e l => E e l) ->
  (forall a l1, P1 a l1 -> logs (k a) (fun b l2 => P b (l1 ++ l2)) (fun e l2 => E e (l1 ++ l2))) ->
  logs (bind c k) P E.
Proof.
  intros Hc Hk w. apply runs_bind. eapply runs_mono; [apply Hc|]. intros [a|e] w1 (l1&Hl1&Hr1).
  - eapply runs_mono; [by apply Hk|]. intros r w2 (l2&Hl2&Hr2). exists (l1 ++ l2).
    rewrite Hl2, Hl1, app_assoc. split; [done|]. by destruct r.
  - by exists l1.
Qed.

(** An error handled by the program. *)
Lemma logs_outcome {A} (c : M (World F D) A) (P : A -> list Event -> Prop) (E : Status -> list Event -> Prop) E' :
  logs c P E ->
  logs (outcome c) (fun r l => match r with Ok a => P a l | Err e => E e l end) E'.
Proof. intros Hc w. specialize (Hc w). unfold runs, outcome in *. by destruct (c w) as [[a|e] w']. Qed.

Lemma logs_outcome_files {A} (ev : StatusOr A -> Event) (c : M F A) P E :
  (forall r, P r [ev r]) -> logs (outcome (on_files ev c)) P E.
Proof. intros HP w. unfold runs, outcome, on_files. destruct (c (files w)) as [r f]. by exists [ev r]. Qed.
Lemma logs_outcome_store {A} (ev : StatusOr A -> Event) (c : M D A) P E :
  (forall r, P r [ev r]) -> logs (outcome (on_store ev c)) P E.
Proof. intros HP w. unfold runs, outcome, on_store. destruct (c (store w)) as [r d]. by exists [ev r]. Qed.

Lemma logs_Print text (P : unit -> list Event -> Prop) E : P tt [EvPrint text] -> logs (Print text) P E.
Proof. intros HP w. by exists [EvPrint text]. Qed.

Lemma logs_throwing {A} (x : Exn A) (P : A -> list Event -> Prop) (E : Status -> list Event -> Prop) :
  (forall a, x = inr a -> P a []) -> (forall e, E e []) -> logs (throwing x) P E.
Proof. intros HP HE. unfold throwing. destruct x; [apply logs_throw; auto|apply logs_ret; auto]. Qed.

End Logs.

Section Verification.
Context (Blake3 : string -> Digest).
Context {F D : Type} `{FileOps F}.

(** A verification reads one file; the result reports what the reads gave. *)
Definition verified_read (fd : Fd) (size : Z) (digest : Digest) (v : BinaryVerificationResult) (l : list Event) : Prop :=
  Forall (on_fd fd) l
  /\ (bytes_read v = str_size (reads_of fd l) /\ target_digest v = Blake3 (reads_of fd l))
  /\ (verification_status v = kIdentical -> bytes_read v = size /\ target_digest v = digest)
  /\ to_the_end fd l.

Lemma logs_VerifyBinary fd size digest buffer :
  logs (D := D) (VerifyBinary Blake3 new_hasher fd size (Some digest) buffer) (verified_read fd size digest)
    (fun _ l => Forall (on_fd fd) l).
Proof.
  intros w. eapply runs_mono; [by apply (runs_VerifyBinary Blake3)|]. intros r w' (l&[Hl _]&Hall&Hv).
  exists l. split; [done|]. destruct r as [v|e]; [|done].
  split; [done|]. destruct (Hv v eq_refl) as (_&_&_&Hend&Hb&Hd&->).
  change (hashed new_hasher +:+ reads_of fd l) with (reads_of fd l) in Hd. split; [done|].
  split; [|done]. destruct (Z.eqb_spec (bytes_read v) size) as [Hs|]; [|done].
  cbn [andb]. by destruct (bool_decide_reflect (target_digest v = digest)).
Qed.

End Verification.
