(* ===== verification/Attempt.v ===== *)
(** * Attempt: one claimed task, from its file to its receipt

    Models src/app/migration_attempt_preparer.cpp ([Prepare]), the per-task
    function of src/pipeline/migration_service.cpp ([ExecuteClaimedTask]) and
    the names of src/pipeline/pipeline_shared.cpp they use.  The protocol is
    the order of the calls: intent, temporary file, copy, sync, mark, read
    back, receipt.  Its specification is the relation [prepared] on logs. *)

From stdpp Require Import pretty.
From S2P Require Import Prelude Status Bytes RelativePath Task Reconciler Assets CanonicalPlan PlanArtifact Sqlite TaskRepository FileOps CopyVerify CopyTheorems.

(** [AssetKind::kUnknown] with no extension, as a guard's asset. *)
Definition guarded_asset (asset : MinimalPlanAsset) : PhysicalAsset :=
  mkPhysicalAsset (plan_source_path asset) (source_identity asset) kUnknown "".

Definition kBufferSize : Z := 1024 * 1024.
Definition mode_0600 : Z := 384.

Section Attempt.
Context (Blake3 : string -> Digest).

(** [TempNameFor(plan_id, task_id, attempt_id)] *)
Definition append_sized (payload value : string) : string :=
  payload +:+ pretty (str_size value) +:+ ":" +:+ value.
Definition temp_payload (plan_id task_id attempt_id : string) : string :=
  append_sized (append_sized (append_sized ("photobridge-temp-v1" +:+ String "010" "") plan_id) task_id) attempt_id.
Definition TempNameFor (plan_id task_id attempt_id : string) : string :=
  ".photobridge." +:+ ToHex (Blake3 (temp_payload plan_id task_id attempt_id)) +:+ ".pbtmp".

(** [TaskSpecForPlanAsset(asset)] *)
Definition TaskSpecForPlanAsset (asset : MinimalPlanAsset) : StatusOr TaskSpec :=
  let spec id key := mkTaskSpec id key TaskType.kMigrateFile (plan_logical_id asset)
    (Some (plan_source_id asset)) (plan_target_path asset) (FileIdentity.size (source_identity asset)) None in
  let? key := TaskKeyFor Blake3 (spec "" "") in
  Ok (spec key key).

Context {W : Type} `{FileOps W} `{CopyEngine W} `{MigrationRuntimeStore W}.

(** The copy of [Prepare]: io_uring where it is available, else the loop. *)
Definition copy_source (g : MutationGuard) (temp_fd : Fd) (buffer : Z) : M W CopyResult :=
  let* g := VerifyBeforeRead g in
  let* accelerated := TryIoUringCopyAndHash (guard_fd g) temp_fd (FileIdentity.size (manifest_identity g)) in
  match accelerated with
  | Some copy => do* VerifyAfterRead g; ret copy
  | None => CopyAndHashGuarded Blake3 new_hasher g temp_fd buffer
  end.

(** [MigrationAttemptPreparer::Prepare] *)
Definition Prepare (g : MutationGuard) (target_root_fd : Fd) (plan_asset : MinimalPlanAsset)
    (plan_id task_id : string) (epoch : Z) (attempt_id temp_name : string) (buffer : Z) : M W VerifiedReceipt.t :=
  do* require (negb (str_empty plan_id || str_empty task_id || str_empty attempt_id || str_empty temp_name))
    (Invalid "migration attempt fields must not be empty");
  do* require (length (components (plan_target_path plan_asset)) =? 1)%nat
    (Invalid "single-thread temp preparation requires a single target path component");
  do* store_MarkCommitIntent plan_id task_id epoch attempt_id;
  let* temp_fd := CreateTempNoReplace target_root_fd temp_name mode_0600 in
  let* copy := copy_source g temp_fd buffer in
  do* Fdatasync temp_fd;
  do* store_MarkTempWritten plan_id task_id epoch attempt_id;
  let* temp_path := lift (RelativePath.Parse temp_name) in
  let* verify_fd := OpenSource target_root_fd temp_path in
  let* verification := VerifyBinary Blake3 new_hasher verify_fd (bytes_copied copy)
                         (Some (source_digest copy)) buffer in
  do* require (verification_status verification == kIdentical)
    (Internal "temporary file failed independent binary verification");
  let receipt := VerifiedReceipt.mk task_id attempt_id epoch temp_name
    (raw_bytes (plan_target_path plan_asset)) (bytes_copied copy) (Some (source_digest copy))
    (target_digest verification) (Some (manifest_identity g)) in
  do* store_PersistVerifiedReceipt plan_id receipt;
  ret receipt.

(** [retry(error)]: the error reported, once the task is released. *)
Definition retry {A} (plan_id task_id : string) (epoch : Z) (attempt_id : string) (error : Status) : M W A :=
  do* store_MarkRetryable plan_id task_id epoch attempt_id error;
  throw error.

(** [if (!x.ok()) return retry(x.status());] *)
Definition or_retry {A} (plan_id task_id : string) (epoch : Z) (attempt_id : string) (c : M W A) : M W A :=
  fun w => match c w with
           | (Ok a, w) => (Ok a, w)
           | (Err error, w) => retry plan_id task_id epoch attempt_id error w
           end.

Definition claimed_message (plan_id task_id temp_name : string) (task_count source_bytes : Z)
    (digest : Digest) : string :=
  "migrate claimed: " +:+ plan_id +:+ " task=" +:+ task_id +:+ " tasks=" +:+ pretty task_count
  +:+ " source_bytes=" +:+ pretty source_bytes +:+ " temp=" +:+ temp_name +:+ " digest=" +:+ ToHex digest
  +:+ " receipt=VERIFIED_DURABLE state=RUNNING" +:+ String "010" "".

(** [ExecuteClaimedTask]; reading the attempt id of a claim without one, or the
    digest of a receipt without one, would throw: claims have an attempt and
    [Prepare]'s receipts a digest. *)
Definition ExecuteClaimedTask (artifact : FrozenPlanFile) (plan_asset : MinimalPlanAsset)
    (claimed : ClaimedTask) (epoch : Z) (source_root : string) (task_count : Z) : M W string :=
  let plan_id := frozen_plan_id artifact in
  let task_id := claimed_task_id claimed in
  match Task.attempt_id (claimed_runtime claimed) with
  | None => throw (Internal "bad optional access")
  | Some attempt_id =>
      let or_retry {A} (c : M W A) := or_retry plan_id task_id epoch attempt_id c in
      let* source_root_fd := or_retry (OpenRoot source_root kExisting) in
      let* source_guard := or_retry (Open source_root_fd (guarded_asset plan_asset)) in
      let* target_root_fd := or_retry (OpenRoot (target_root (frozen_plan artifact)) kCreateIfMissing) in
      let temp_name := TempNameFor plan_id task_id attempt_id in
      let* receipt := or_retry (Prepare source_guard target_root_fd plan_asset plan_id task_id epoch
                                  attempt_id temp_name kBufferSize) in
      match VerifiedReceipt.source_digest receipt with
      | None => throw (Internal "bad optional access")
      | Some digest =>
          ret (claimed_message plan_id task_id temp_name task_count
                 (FileIdentity.size (manifest_identity source_guard)) digest)
      end
  end.

End Attempt.
