(* ===== verification/AttemptTheorems.v ===== *)
(** * AttemptTheorems: a receipt is evidence

    The logs of [Prepare] and [ExecuteClaimedTask] for every file system,
    copy engine and store: a receipt is persisted only at the end of the whole
    protocol, and a claimed task that fails is handed back. *)

From S2P Require Import Prelude Status Bytes RelativePath Task Reconciler Assets CanonicalPlan PlanArtifact Sqlite TaskRepository FileOps CopyVerify CopyTheorems Logs Attempt.

(** ** The protocol as a relation on logs *)

Section Protocol.
Context (Blake3 : string -> Digest).

(** The bytes of [source_fd] go to [temp_fd], its identity checked before and
    after: by the copy engine, or by reads and writes of the same bytes. *)
Inductive copied (source_fd temp_fd : Fd) (id : FileIdentity.t) : list Event -> CopyResult -> Prop :=
  | copied_by_engine copy :
      copied source_fd temp_fd id
        [EvStatFd source_fd (Ok id);
         EvAccelerated source_fd temp_fd (FileIdentity.size id) (Ok (Some copy));
         EvStatFd source_fd (Ok id)] copy
  | copied_by_loop l :
      Forall (is_copy source_fd temp_fd) l -> writes_of temp_fd l = reads_of source_fd l ->
      copied source_fd temp_fd id
        ([EvStatFd source_fd (Ok id);
          EvAccelerated source_fd temp_fd (FileIdentity.size id) (Ok None);
          EvStatFd source_fd (Ok id)] ++ l ++ [EvStatFd source_fd (Ok id)])
        (mkCopyResult (str_size (reads_of source_fd l)) (Blake3 (reads_of source_fd l))).

(** The whole protocol: a new temporary file, the copy, its sync and mark, the
    independent reading back of the same size and digest, the receipt. *)
Inductive prepared (source_fd root : Fd) (asset : MinimalPlanAsset) (plan_id task_id : string) (epoch : Z)
    (attempt_id temp_name : string) (id : FileIdentity.t) : list Event -> VerifiedReceipt.t -> Prop :=
  | prepared_intro temp_fd verify_fd temp_path lc copy lv :
      copied source_fd temp_fd id lc copy ->
      RelativePath.Parse temp_name = Ok temp_path ->
      Forall (on_fd verify_fd) lv -> to_the_end verify_fd lv ->
      str_size (reads_of verify_fd lv) = bytes_copied copy ->
      Blake3 (reads_of verify_fd lv) = source_digest copy ->
      let receipt := VerifiedReceipt.mk task_id attempt_id epoch temp_name
        (raw_bytes (plan_target_path asset)) (bytes_copied copy) (Some (source_digest copy))
        (source_digest copy) (Some id) in
      prepared source_fd root asset plan_id task_id epoch attempt_id temp_name id
        (EvCommitIntent plan_id task_id epoch attempt_id (Ok tt)
         :: EvCreateTemp root temp_name mode_0600 (Ok temp_fd)
         :: lc ++ [EvFdatasync temp_fd (Ok tt); EvTempWritten plan_id task_id epoch attempt_id (Ok tt);
                   EvOpenSource root temp_path (Ok verify_fd)]
         ++ lv ++ [EvReceipt plan_id receipt (Ok tt)]) receipt.

(** No receipt was persisted and nothing handed back. *)
Definition quiet_event (e : Event) : Prop :=
  match e with EvReceipt _ _ (Ok tt) | EvRetryable _ _ _ _ _ _ => False | _ => True end.

Lemma on_fd_quiet fd l : Forall (on_fd fd) l -> Forall quiet_event l.
Proof. intros Hl. eapply Forall_impl; [exact Hl|]. by intros []. Qed.
Lemma is_copy_quiet s t l : Forall (is_copy s t) l -> Forall quiet_event l.
Proof. intros Hl. eapply Forall_impl; [exact Hl|]. by intros []. Qed.
Lemma copied_quiet s t id l c : copied s t id l c -> Forall quiet_event l.
Proof.
  intros [|l' Hl _]; [by repeat constructor|]. apply Forall_app. split; [by repeat constructor|].
  apply Forall_app. split; [by eapply is_copy_quiet|by repeat constructor].
Qed.
End Protocol.

Section Logs.
Context (Blake3 : string -> Digest).
Context {F D : Type} `{FileOps F} `{CopyEngine F} `{MigrationRuntimeStore D}.
Implicit Types (w : World F D) (l : list Event).

Local Notation logs := (Logs.logs (F := F) (D := D)).

Definition fails_quietly (_ : Status) (l : list Event) : Prop := Forall quiet_event l.

(** The logs of the routines of CopyVerify.v. *)
Lemma logs_VerifyBeforeRead g :
  logs (VerifyBeforeRead g) (fun g' l => g' = mkMutationGuard (guard_fd g) (manifest_identity g) (manifest_identity g)
      /\ l = [EvStatFd (guard_fd g) (Ok (manifest_identity g))]) fails_quietly.
Proof.
  unfold VerifyBeforeRead. eapply logs_bind with (P1 := fun i l => l = [EvStatFd (guard_fd g) (Ok i)]).
  - apply logs_on_files; [done|]. intros e. by repeat constructor.
  - intros i l1 ->. eapply logs_bind with (P1 := fun _ l => l = [] /\ i = manifest_identity g).
    + apply logs_require; intros Hb; [by bool_hyps|by repeat constructor].
    + intros _ l2 [-> ->]. by apply logs_ret.
Qed.

Lemma logs_VerifyAfterRead g :
  logs (VerifyAfterRead g) (fun _ l => l = [EvStatFd (guard_fd g) (Ok (opened_identity g))]) fails_quietly.
Proof.
  unfold VerifyAfterRead, VerifyIdentity.
  eapply logs_bind with (P1 := fun i l => l = [EvStatFd (guard_fd g) (Ok i)]).
  - apply logs_on_files; [done|]. intros e. by repeat constructor.
  - intros i l1 ->. apply logs_require; intros Hb; bool_hyps; [by subst|by repeat constructor].
Qed.

Lemma logs_CopyAndHash sfd tfd buffer :
  logs (CopyAndHash Blake3 new_hasher sfd tfd buffer)
    (fun c l => Forall (is_copy sfd tfd) l /\ writes_of tfd l = reads_of sfd l
       /\ c = mkCopyResult (str_size (reads_of sfd l)) (Blake3 (reads_of sfd l))) fails_quietly.
Proof.
  intros w. eapply runs_mono; [by apply (runs_CopyAndHash Blake3)|]. intros r w' (l&[Hl _]&Hall&Hc).
  exists l. split; [done|]. destruct r as [[n d]|e]; [|by eapply is_copy_quiet].
  destruct (Hc _ eq_refl) as (Hn&Hd&Hw). cbn in Hn, Hd. by rewrite Hn, Hd.
Qed.

Lemma quiet_VerifyBinary fd size digest buffer :
  logs (VerifyBinary Blake3 new_hasher fd size (Some digest) buffer) (verified_read Blake3 fd size digest) fails_quietly.
Proof.
  eapply logs_mono; [apply logs_VerifyBinary|by intros|]. intros e l. apply on_fd_quiet.
Qed.

Lemma logs_copy_source g temp_fd buffer :
  logs (copy_source Blake3 g temp_fd buffer)
    (fun c l => copied Blake3 (guard_fd g) temp_fd (manifest_identity g) l c) fails_quietly.
Proof.
  set (s := guard_fd g). set (i := manifest_identity g).
  eapply logs_bind; [apply logs_VerifyBeforeRead|]. intros g' l1 [-> ->].
  eapply logs_bind with (P1 := fun r l => l = [EvAccelerated s temp_fd (FileIdentity.size i) (Ok r)]).
  { apply logs_on_files; [done|]. intros e. by repeat constructor. }
  intros [copy|] l2 ->.
  - eapply logs_bind; [eapply logs_mono; [apply logs_VerifyAfterRead|by intros|]|].
    + intros e l Hl. by repeat constructor.
    + intros _ l3 ->. apply logs_ret, copied_by_engine.
  - unfold CopyAndHashGuarded.
    eapply logs_bind; [eapply logs_mono; [apply logs_VerifyBeforeRead|by intros|]|].
    { intros e l Hl. by repeat constructor. }
    intros g2 l3 [-> ->].
    eapply logs_bind; [eapply logs_mono; [apply logs_CopyAndHash|by intros|]|].
    { intros e l Hl. by repeat constructor. }
    intros c l4 (Hl4&Hw&->).
    eapply logs_bind; [eapply logs_mono; [apply logs_VerifyAfterRead|by intros|]|].
    { intros e l Hl. repeat constructor. apply Forall_app. split; [by eapply is_copy_quiet|done]. }
    intros _ l5 ->. apply logs_ret. rewrite app_nil_r. by apply copied_by_loop.
Qed.

(** Solves that a log built from known quiet parts is quiet. *)
Ltac quiet_log :=
  unfold fails_quietly in *;
  repeat first
    [ exact I | assumption | apply Forall_nil_2 | apply Forall_cons_2 | apply Forall_app_2
    | eapply copied_quiet; eassumption | eapply on_fd_quiet; eassumption | progress cbn [quiet_event] ].

Lemma logs_Prepare g root asset p t e a temp buffer :
  logs (Prepare Blake3 g root asset p t e a temp buffer)
    (fun receipt l => prepared Blake3 (guard_fd g) root asset p t e a temp (manifest_identity g) l receipt)
    fails_quietly.
Proof.
  unfold Prepare.
  eapply logs_bind with (P1 := fun _ l => l = []); [apply logs_require; intros _; by try quiet_log|].
  intros _ l1 ->.
  eapply logs_bind with (P1 := fun _ l => l = []); [apply logs_require; intros _; by try quiet_log|].
  intros _ l2 ->.
  eapply logs_bind with (P1 := fun _ l => l = [EvCommitIntent p t e a (Ok tt)]).
  { apply logs_on_store; [by intros []|intros; quiet_log]. }
  intros [] l3 ->.
  eapply logs_bind with (P1 := fun fd l => l = [EvCreateTemp root temp mode_0600 (Ok fd)]).
  { apply logs_on_files; [done|intros; quiet_log]. }
  intros temp_fd l4 ->.
  eapply logs_bind; [eapply logs_mono; [apply logs_copy_source|by intros|intros; quiet_log]|].
  intros copy lc Hc.
  eapply logs_bind with (P1 := fun _ l => l = [EvFdatasync temp_fd (Ok tt)]).
  { apply logs_on_files; [by intros []|intros; quiet_log]. }
  intros [] l5 ->.
  eapply logs_bind with (P1 := fun _ l => l = [EvTempWritten p t e a (Ok tt)]).
  { apply logs_on_store; [by intros []|intros; quiet_log]. }
  intros [] l6 ->.
  eapply logs_bind with (P1 := fun path l => l = [] /\ RelativePath.Parse temp = Ok path).
  { apply logs_lift. destruct (RelativePath.Parse temp); [done|quiet_log]. }
  intros path l7 [-> Hpath].
  eapply logs_bind with (P1 := fun fd l => l = [EvOpenSource root path (Ok fd)]).
  { apply logs_on_files; [done|intros; quiet_log]. }
  intros verify_fd l8 ->.
  eapply logs_bind; [eapply logs_mono; [apply quiet_VerifyBinary|by intros|intros; quiet_log]|].
  intros v lv (Hlv&[Hread Hhash]&Hv&Hend).
  eapply logs_bind with (P1 := fun _ l => l = [] /\ verification_status v = kIdentical).
  { apply logs_require; intros Hb; [by bool_hyps|quiet_log]. }
  intros _ l9 [-> Hid]. destruct (Hv Hid) as [Hsize Htarget].
  rewrite Hread in Hsize. rewrite Hhash in Htarget.
  eapply logs_bind with (P1 := fun _ l => l = [EvReceipt p _ (Ok tt)]).
  { apply logs_on_store; [by intros []|intros; quiet_log]. }
  intros [] l10 ->. apply logs_ret. rewrite Hhash, Htarget. simpl.
  pose proof (prepared_intro Blake3 (guard_fd g) root asset p t e a temp (manifest_identity g)
    temp_fd verify_fd path lc copy lv Hc Hpath Hlv Hend Hsize Htarget) as Hp.
  exact Hp.
Qed.

(** The task was handed back with [err], and [e] is what the caller is told. *)
Definition handed_back (p t : string) (ep : Z) (a : string) (e : Status) (l : list Event) : Prop :=
  exists l0 err res, l = l0 ++ [EvRetryable p t ep a err res] /\ Forall quiet_event l0
    /\ e = match res with Ok _ => err | Err refused => refused end.

(** The receipt of this attempt was persisted, and nothing else decided. *)
Definition receipt_persisted (p t : string) (ep : Z) (a : string) (l : list Event) : Prop :=
  exists l0 receipt, l = l0 ++ [EvReceipt p receipt (Ok tt)] /\ Forall quiet_event l0
    /\ VerifiedReceipt.task_id receipt = t /\ VerifiedReceipt.attempt_id receipt = a
    /\ VerifiedReceipt.owner_epoch receipt = ep.

Lemma logs_or_retry {A} p t ep a (c : M (World F D) A) P :
  logs c P fails_quietly -> logs (or_retry p t ep a c) P (handed_back p t ep a).
Proof.
  intros Hc w. specialize (Hc w). unfold runs, or_retry in *. destruct (c w) as [[x|err] w1]; [done|].
  destruct Hc as (l&Hl&Hq). unfold retry, bind. simpl. unfold on_store.
  destruct (store_MarkRetryable p t ep a err (store w1)) as [[[]|refused] d]; cbn [log];
    (eexists; split; [by rewrite Hl, <- app_assoc|]); by eexists _, _, _.
Qed.

Lemma handed_back_after p t ep a e l1 l2 :
  Forall quiet_event l1 -> handed_back p t ep a e l2 -> handed_back p t ep a e (l1 ++ l2).
Proof.
  intros Hq (l0&err&res&->&Hq0&->). exists (l1 ++ l0), err, res. rewrite app_assoc. split; [done|].
  split; [quiet_log|done].
Qed.

Lemma prepared_receipt s root asset p t ep a temp id l r :
  prepared Blake3 s root asset p t ep a temp id l r ->
  receipt_persisted p t ep a l /\ is_Some (VerifiedReceipt.source_digest r).
Proof.
  intros [temp_fd vfd path lc copy lv Hc Hp Hlv Hend Hs Hd receipt]. split; [|by eexists].
  exists (EvCommitIntent p t ep a (Ok tt) :: EvCreateTemp root temp mode_0600 (Ok temp_fd)
    :: lc ++ [EvFdatasync temp_fd (Ok tt); EvTempWritten p t ep a (Ok tt); EvOpenSource root path (Ok vfd)] ++ lv),
    receipt. split; [cbn [app]; by rewrite <- (app_assoc lc)|].
  split; [|done]. repeat quiet_log.
Qed.

Lemma logs_Open root asset :
  logs (Open root asset) (fun g l => Forall quiet_event l /\ manifest_identity g = identity asset) fails_quietly.
Proof.
  unfold Open. eapply logs_bind with (P1 := fun _ l => Forall quiet_event l).
  { apply logs_on_files; intros; quiet_log. }
  intros fd l1 Hl1. eapply logs_bind with (P1 := fun _ l => Forall quiet_event l).
  { apply logs_on_files; intros; quiet_log. }
  intros i l2 Hl2. eapply logs_bind with (P1 := fun _ l => l = []); [apply logs_require; intros _; [done|quiet_log]|].
  intros _ l3 ->. apply logs_ret. split; [quiet_log|done].
Qed.

Lemma logs_ExecuteClaimedTask artifact asset id tid st own count err a ep root n :
  logs (ExecuteClaimedTask Blake3 artifact asset (mkClaimed id (mkTaskRuntime tid st own (Some a) count err)) ep root n)
    (fun _ l => receipt_persisted (frozen_plan_id artifact) id ep a l)
    (handed_back (frozen_plan_id artifact) id ep a).
Proof.
  set (p := frozen_plan_id artifact). unfold ExecuteClaimedTask. cbn [claimed_runtime Task.attempt_id claimed_task_id].
  eapply logs_bind with (P1 := fun _ l => Forall quiet_event l).
  { apply logs_or_retry, logs_on_files; intros; quiet_log. }
  intros sfd l1 Hl1. eapply logs_bind with (P1 := fun _ l => Forall quiet_event l).
  { eapply logs_mono; [apply logs_or_retry, logs_Open|by intros ?? []|]. intros e l. by apply handed_back_after. }
  intros g l2 Hl2. eapply logs_bind with (P1 := fun _ l => Forall quiet_event l).
  { eapply logs_mono; [apply logs_or_retry, (logs_on_files _ _ (fun _ l => Forall quiet_event l)); intros; quiet_log|by intros|].
    intros e l Hl. by apply handed_back_after, handed_back_after. }
  intros tfd l3 Hl3. eapply logs_bind with (P1 := fun r l => receipt_persisted p id ep a l
    /\ is_Some (VerifiedReceipt.source_digest r)).
  { eapply logs_mono; [apply logs_or_retry, logs_Prepare|intros r l; apply prepared_receipt|].
    intros e l Hl. by apply handed_back_after, handed_back_after, handed_back_after. }
  intros r l4 [(l0&receipt&->&Hq&Hr) [digest ->]]. apply logs_ret. rewrite app_nil_r.
  exists (l1 ++ l2 ++ l3 ++ l0), receipt. rewrite <- !app_assoc. split; [done|]. split; [|done]. repeat quiet_log.
Qed.

End Logs.

(** C22. For every file system, copy engine and store, an attempt that returns a
    receipt has followed the whole protocol in order: intent, exclusive
    temporary file, copy with the source's identity checked before and after,
    sync, mark, reading back the same size and digest, and only then the
    receipt; an attempt that fails has persisted no receipt. *)
Theorem attempts_follow_the_protocol {F D} `{FileOps F} `{CopyEngine F} `{MigrationRuntimeStore D}
    Blake3 g root asset p t e a temp buffer (w : World F D) :
  let (r, w') := Prepare Blake3 g root asset p t e a temp buffer w in
  exists l, log w' = log w ++ l /\
    match r with
    | Ok receipt => prepared Blake3 (guard_fd g) root asset p t e a temp (manifest_identity g) l receipt
    | Err _ => Forall quiet_event l
    end.
Proof. apply logs_Prepare. Qed.

(** C23. A worker settles every task it is given: either its receipt is
    persisted, under the claim's epoch and attempt, and nothing else is
    decided, or no receipt is persisted and its last call hands the task back
    with the error it reports, whatever the files, the copy engine and the
    store do. *)
Theorem claimed_tasks_are_settled {F D} `{FileOps F} `{CopyEngine F} `{MigrationRuntimeStore D}
    Blake3 artifact asset id tid st own count err a ep root n (w : World F D) :
  let claimed := mkClaimed id (mkTaskRuntime tid st own (Some a) count err) in
  let (r, w') := ExecuteClaimedTask Blake3 artifact asset claimed ep root n w in
  exists l, log w' = log w ++ l /\
    match r with
    | Ok _ => receipt_persisted (frozen_plan_id artifact) id ep a l
    | Err reported => handed_back (frozen_plan_id artifact) id ep a reported l
    end.
Proof. apply logs_ExecuteClaimedTask. Qed.
