(* ===== verification/Materialize.v ===== *)
(** * Materialize: a frozen plan becomes rows of the runtime database

    Models the database part of src/pipeline/pipeline_shared.cpp: the state
    counts, the root of a manifest, and [MaterializePlan], which binds an
    artifact to its migration, its plan row and one READY task per asset in a
    single transaction, or recognises the artifact it has already bound.
    [RollbackMaterialization] is [Rollback] and [SqliteReadError] is
    [SqliteError] (Sqlite.v). *)

From S2P Require Import Prelude Status Bytes Task CanonicalPlan PlanArtifact Sqlite Tables TaskRepository FileOps Attempt.

Definition int_max : Z := 2147483647.

Definition BindPipelineText (value : string) : op unit :=
  do* require (negb (int_max <? str_size value)) (Invalid "SQLite text value is too large");
  bind_call "SQLite failed to bind text value".

Definition BindPipelineBlob (data : string) : op unit :=
  do* require (negb (int_max <? str_size data)) (Invalid "SQLite blob value is too large");
  bind_call "SQLite failed to bind blob value".

(** [PipelineStatement statement(database, sql)] and its check *)
Definition pipeline_prepare (operation : string) : op unit := api_call (SqliteError operation).

(** ** Reading *)

(** One [sqlite3_step] per row and one for SQLITE_DONE. *)
Fixpoint step_each {R A} (operation : string) (each : A -> R -> StatusOr A) (rows : list R) (a : A) : op A :=
  do* api_call (SqliteError operation);
  match rows with
  | [] => ret a
  | r :: rows => let* a := lift (each a r) in step_each operation each rows a
  end.

Definition count_state (counts : list Z) (row : Z * Z) : StatusOr (list Z) :=
  let (state, count) := row in
  if (state <? 0) || (Z.of_nat (length counts) <=? state) || (count <? 0)
  then Err (Internal "SQLite task state summary is out of range")
  else Ok (<[Z.to_nat state := count]> counts).

Definition ReadTaskStateCounts (plan_id : string) : op (list Z) :=
  do* pipeline_prepare "prepare task state summary";
  do* api_call (SqliteError "bind plan id for task state summary");
  fun s => step_each "read task state summary" count_state
             (select_state_counts plan_id (current_db s)) (replicate 9 0) s.

Definition ReadManifestSourceRoot (manifest_id : string) : op string :=
  do* pipeline_prepare "prepare manifest source root read";
  do* api_call (SqliteError "bind manifest id for source root read");
  let* root := run_query "read manifest source root" (select_source_root manifest_id) in
  match root with
  | None => throw (mkStatus StatusCode.kNotFound ("source manifest was not found: " +:+ manifest_id))
  | Some root =>
      do* require (negb (str_empty root)) (Internal "manifest source root is empty");
      ret root
  end.

(** ** Materialization *)

Section Materialize.
Context (Blake3 : string -> Digest).

(** Whether the artifact is already bound; an error if its id is bound to
    another artifact. *)
Definition CheckMaterializedPlan (artifact : FrozenPlanFile) : op bool :=
  do* pipeline_prepare "prepare materialized plan lookup";
  do* BindPipelineText (frozen_plan_id artifact);
  let* row := run_query "look up materialized plan" (select_plan (frozen_plan_id artifact)) in
  match row with
  | None => ret false
  | Some row =>
      do* require ((str_size (pl_artifact_digest row) =? 32) && (str_size (pl_semantic_digest row) =? 32)
                   && (to_int32 (pl_format_version row) =? kCanonicalMinimalPlanVersion))
        (mkStatus StatusCode.kAlreadyExists
           ("materialized plan metadata differs: " +:+ frozen_plan_id artifact));
      do* require ((pl_artifact_digest row == bytes (artifact_digest artifact))
                   && (pl_semantic_digest row == bytes (semantic_digest artifact)))
        (mkStatus StatusCode.kAlreadyExists
           ("materialized plan digest differs: " +:+ frozen_plan_id artifact));
      ret true
  end.

Definition insert_migration (migration_id : string) (row : MigrationRow) : op unit :=
  do* pipeline_prepare "prepare migration insert";
  do* BindPipelineText migration_id;
  do* BindPipelineText (mig_source_manifest_id row);
  do* BindPipelineBlob (mig_target_root row);
  do* bind_call "SQLite failed to bind migration timestamp";
  run_insert (mkStatus StatusCode.kAlreadyExists ("migration already exists: " +:+ migration_id))
    "insert migration" (insert_migration_row migration_id row).

Definition insert_plan (plan_id : string) (row : PlanRow) : op unit :=
  do* pipeline_prepare "prepare migration plan insert";
  do* BindPipelineText plan_id;
  do* BindPipelineText (plan_migration_id row);
  do* BindPipelineBlob (pl_path row);
  do* BindPipelineBlob (pl_artifact_digest row);
  do* BindPipelineBlob (pl_semantic_digest row);
  do* bind_call "SQLite failed to bind migration plan fields";
  do* bind_call "SQLite failed to bind migration plan fields";
  run_dml "insert migration plan" (insert_plan_row plan_id row).

(** [for (const MinimalPlanAsset& asset : artifact.plan.assets())] *)
Fixpoint add_tasks (plan_id : string) (l : list MinimalPlanAsset) (task_count : Z) : op Z :=
  match l with
  | [] => ret task_count
  | asset :: l =>
      let* task := lift (TaskSpecForPlanAsset Blake3 asset) in
      do* AddTask plan_id task;
      do* SetReady plan_id (spec_id task);
      add_tasks plan_id l (to_uint64 (task_count + 1))
  end.

Definition migration_id_of (artifact : FrozenPlanFile) : string := "migration-" +:+ frozen_plan_id artifact.

(** The statements of [MaterializePlan] between BEGIN and COMMIT; the result
    is the out parameter [task_count]. *)
Definition MaterializeBody (artifact : FrozenPlanFile) (artifact_path : string) : op Z :=
  let plan_id := frozen_plan_id artifact in
  let plan := frozen_plan artifact in
  let* materialized := CheckMaterializedPlan artifact in
  if materialized then
    let* counts := ReadTaskStateCounts plan_id in
    let task_count := foldl (fun total count => to_uint64 (total + count)) 0 counts in
    do* require (task_count =? Z.of_nat (length (assets plan)))
      (Internal "materialized plan task count differs from frozen plan");
    ret task_count
  else
    let* created_at_ns := CurrentTimeNanoseconds in
    do* insert_migration (migration_id_of artifact)
      (mkMigration (source_manifest_id plan) (target_root plan) 0 0 created_at_ns);
    do* insert_plan plan_id
      (mkPlan (migration_id_of artifact) artifact_path (bytes (artifact_digest artifact))
         (bytes (semantic_digest artifact)) 1 kCanonicalMinimalPlanVersion 0 created_at_ns);
    add_tasks plan_id (assets plan) 0.

Definition MaterializePlan (artifact : FrozenPlanFile) (artifact_path : string) : op Z :=
  do* require (negb (str_empty (frozen_plan_id artifact))) (Internal "frozen plan has an empty plan id");
  Transaction (MaterializeBody artifact artifact_path).

End Materialize.

(** The runtime database is the store of the recovery and of the verification. *)
#[export] Instance database_recovery_store : RecoveryStore (Conn Db) := {|
  store_ReadRuntime := ReadRuntime;
  store_ReadVerifiedReceipt := ReadVerifiedReceipt;
  store_ReadManifestSourceRoot := ReadManifestSourceRoot;
  store_AcquireNextExecutionEpoch := AcquireNextExecutionEpoch;
  store_RecoverSucceeded := RecoverSucceeded;
  store_RecoverRetryable := RecoverRetryable;
  store_RecoverInconsistent := RecoverInconsistent;
|}.
