(* ===== verification/MaterializeTheorems.v ===== *)
(** * MaterializeTheorems: binding an artifact is one atomic step

    What [MaterializePlan] commits when it succeeds, that it commits nothing
    otherwise, and that the tables stay well-formed: the databases the
    repository's theorems start from are the ones this function makes. *)

From S2P Require Import Prelude Status Bytes RelativePath Task Capability PathMapper CanonicalPlan PlanArtifact Sqlite Logic Tables TaskRepository RepositorySpec RepositoryRefine RepositoryInvariant RepositoryTheorems Attempt Materialize.

(** ** The state counts *)

Definition state_count (plan_id : string) (db : Db) (state : Z) : Z :=
  Z.of_nat (length (filter (eq state) (states_of_plan plan_id db))).
Definition state_counts (plan_id : string) (db : Db) : list Z :=
  state_count plan_id db <$> seqZ 0 9.

Lemma wp_step_each {R A} what (each : A -> R -> StatusOr A) (I : list R -> A -> Prop) rows a Q w n :
  I rows a ->
  (forall r rows a a', I (r :: rows) a -> each a r = Ok a' -> I rows a') ->
  (forall a, I [] a -> Q a w n) ->
  wp (step_each what each rows a) Q w n.
Proof.
  intros HI Hstep HQ. revert a HI. induction rows as [|r rows IH]; intros a HI; cbn [step_each].
  - wp_run. by apply HQ.
  - wp_run. apply IH. by eapply Hstep.
Qed.

(** What the loop has still to count, and what it has counted. *)
Definition counting (plan_id : string) (db : Db) (rows : list (Z * Z)) (counts : list Z) : Prop :=
  length counts = 9%nat /\ NoDup (rows.*1) /\
  (forall r, r ∈ rows -> r.2 = state_count plan_id db r.1) /\
  (forall st, st ∈ states_of_plan plan_id db -> st ∈ rows.*1 \/ 0 <= st < 9) /\
  forall i, (i < 9)%nat -> counts !! i =
    Some (if decide (Z.of_nat i ∈ rows.*1) then 0 else state_count plan_id db (Z.of_nat i)).

Lemma state_count_absent p db st : st ∉ states_of_plan p db -> state_count p db st = 0.
Proof.
  intros Hst. unfold state_count. destruct (filter (eq st) (states_of_plan p db)) as [|x l] eqn:Hf; [done|].
  destruct Hst. assert (x ∈ filter (eq st) (states_of_plan p db)) as Hx by (rewrite Hf; by left).
  by apply list_elem_of_filter in Hx as [<- ?].
Qed.

Lemma select_state_counts_fst p db :
  (select_state_counts p db).*1 = merge_sort Z.le (remove_dups (states_of_plan p db)).
Proof. unfold select_state_counts. rewrite <- list_fmap_compose. by apply list_fmap_id. Qed.

Lemma counting_start p db : counting p db (select_state_counts p db) (replicate 9 0).
Proof.
  split; [done|]. rewrite select_state_counts_fst.
  pose proof (merge_sort_Permutation Z.le (remove_dups (states_of_plan p db))) as Hperm.
  split; [rewrite Hperm; apply NoDup_remove_dups|].
  split; [by unfold select_state_counts; intros r (st&->&_)%list_elem_of_fmap|].
  split; [intros st Hst; left; by rewrite Hperm, elem_of_remove_dups|].
  intros i Hi. rewrite lookup_replicate_2 by lia. f_equal. case_decide as Hin; [done|].
  rewrite state_count_absent; [done|]. by rewrite Hperm, elem_of_remove_dups in Hin.
Qed.

Lemma counting_step p db r rows counts counts' :
  counting p db (r :: rows) counts -> count_state counts r = Ok counts' -> counting p db rows counts'.
Proof.
  destruct r as [st c]. intros (Hlen&Hnd&Hrows&Hall&Hc). unfold count_state.
  split_if; [done|]. bool_hyps. intros [= <-]. rewrite Hlen in *.
  apply NoDup_cons in Hnd as [Hnin Hnd]. split; [by rewrite length_insert|]. split; [done|].
  split; [intros r Hr; apply Hrows; by right|]. split.
  - intros x Hx. destruct (Hall x Hx) as [[->|?]%elem_of_cons|?]; [right; simpl; lia|by left|by right].
  - intros i Hi. destruct (decide (i = Z.to_nat st)) as [->|Hne].
    + rewrite list_lookup_insert_eq by lia. rewrite Z2Nat.id by lia. rewrite decide_False by done.
      f_equal. apply (Hrows (st, c)). by left.
    + rewrite list_lookup_insert_ne by done. rewrite Hc by done. f_equal. apply decide_ext. cbn [fmap list_fmap fst].
      rewrite elem_of_cons. split; [intros [?|?]; [simpl in *; lia|done]|by right].
Qed.

Lemma counting_done p db counts : counting p db [] counts -> counts = state_counts p db.
Proof.
  intros (Hlen&_&_&_&Hc). apply list_eq. intros i. unfold state_counts. rewrite list_lookup_fmap.
  destruct (decide (i < 9)%nat) as [Hi|Hi].
  - rewrite Hc by done. rewrite lookup_seqZ_lt by lia. cbn [fmap list_fmap]. rewrite decide_False by (by intros ?%elem_of_nil). done.
  - rewrite lookup_ge_None_2 by lia. rewrite lookup_seqZ_ge by lia. done.
Qed.

Lemma wp_ReadTaskStateCounts p Q w n :
  ((forall st, st ∈ states_of_plan p w -> 0 <= st < 9) -> Q (state_counts p w) w n) ->
  wp (ReadTaskStateCounts p) Q w n.
Proof.
  intros HQ. unfold ReadTaskStateCounts, pipeline_prepare. wp_run.
  intros s a s' Hw Hn. rewrite Hw. revert s a s' Hw Hn. apply (wp_step_each _ _ (counting p w)).
  - apply counting_start.
  - intros r rows c c'. apply counting_step.
  - intros c Hc. pose proof Hc as (_&_&_&Hall&_). rewrite (counting_done p w c Hc). apply HQ.
    intros st Hst. destruct (Hall st Hst) as [[]%elem_of_nil|?]; done.
Qed.

(** The states of the tasks are all counted. *)
Lemma sum_shift (f g : Z -> Z) ks acc :
  foldl Z.add acc ((fun k => f k + g k) <$> ks) = foldl Z.add acc (f <$> ks) + foldl Z.add 0 (g <$> ks).
Proof.
  assert (forall l a b, foldl Z.add (a + b) l = a + foldl Z.add b l) as Hacc.
  { induction l as [|z l IHl]; intros a b; cbn [foldl]; [done|]. by rewrite <- IHl, Z.add_assoc. }
  revert acc. induction ks as [|k ks IH]; intros acc; cbn [fmap list_fmap foldl]; [lia|].
  rewrite IH. rewrite (Hacc (f <$> ks) acc (f k + g k)), (Hacc (f <$> ks) acc (f k)).
  rewrite <- (Z.add_0_r (f k + g k)) at 1. rewrite <- (Z.add_0_r (f k)) at 2. rewrite <- (Z.add_0_r (0 + g k)).
  rewrite !Hacc. lia.
Qed.

Lemma sum_of_indicator (x : Z) : 0 <= x < 9 ->
  foldl Z.add 0 ((fun st => if decide (st = x) then 1 else 0) <$> seqZ 0 9) = 1.
Proof.
  intros Hx. assert (x ∈ seqZ 0 9) as Hin by (apply elem_of_seqZ; lia). clear Hx.
  revert x Hin. change (seqZ 0 9) with [0; 1; 2; 3; 4; 5; 6; 7; 8]. by apply Forall_forall; repeat constructor.
Qed.

Lemma sum_of_counts (l : list Z) :
  (forall st, st ∈ l -> 0 <= st < 9) ->
  foldl Z.add 0 ((fun st => Z.of_nat (length (filter (eq st) l))) <$> seqZ 0 9) = Z.of_nat (length l).
Proof.
  induction l as [|x l IH]; intros Hall; [done|].
  assert (0 <= x < 9) as Hx by (apply Hall; by left).
  specialize (IH (fun st H => Hall st (list_elem_of_further _ _ _ H))).
  rewrite (list_fmap_ext _ (fun st => Z.of_nat (length (filter (eq st) l)) + if decide (st = x) then 1 else 0)).
  - rewrite sum_shift, IH, sum_of_indicator by done. cbn [length]. lia.
  - intros i st _. rewrite filter_cons. case_decide; cbn [length]; lia.
Qed.

Lemma fold_uint64 l acc :
  foldl (fun total count => to_uint64 (total + count)) (to_uint64 acc) l = to_uint64 (foldl Z.add acc l).
Proof.
  revert acc. induction l as [|x l IH]; intros acc; [done|]. cbn [foldl]. rewrite <- IH. f_equal.
  unfold to_uint64. by rewrite Zplus_mod_idemp_l.
Qed.

Lemma total_of_counts p db :
  (forall st, st ∈ states_of_plan p db -> 0 <= st < 9) ->
  foldl (fun total count => to_uint64 (total + count)) 0 (state_counts p db)
  = to_uint64 (Z.of_nat (length (states_of_plan p db))).
Proof.
  intros Hall. change 0 with (to_uint64 0). rewrite fold_uint64. by rewrite <- sum_of_counts.
Qed.

(** ** The new rows *)

Section Materialize.
Context (Blake3 : string -> Digest).

Definition ready_row (t : TaskSpec) : TaskRow := released (planned_row t) TaskState.kReady None.

(** The tasks of a list of assets, added one after the other. *)
Inductive tasks_added (p : string) : list MinimalPlanAsset -> Db -> Db -> Prop :=
  | tasks_added_nil db : tasks_added p [] db db
  | tasks_added_cons a l t db db' :
      TaskSpecForPlanAsset Blake3 a = Ok t -> has_task p (spec_id t) db = false ->
      tasks_added p l (task_updated p (spec_id t) (ready_row t) db) db' ->
      tasks_added p (a :: l) db db'.

Lemma task_spec_bytes a t :
  TaskSpecForPlanAsset Blake3 a = Ok t -> estimated_bytes t = FileIdentity.size (source_identity a).
Proof. unfold TaskSpecForPlanAsset, bind_or. destruct (TaskKeyFor _ _); [|done]. by intros [= <-]. Qed.

Lemma wp_add_tasks p l k w n :
  wf_db w -> Forall (fun a => wf_identity (source_identity a)) l ->
  wp (add_tasks Blake3 p l (to_uint64 k)) (fun k' w' _ =>
    k' = to_uint64 (k + Z.of_nat (length l)) /\ tasks_added p l w w' /\ wf_db w') w n.
Proof.
  revert k w n. induction l as [|a l IH]; intros k w n Hwf Hid; cbn [add_tasks].
  - wp_run. rewrite Z.add_0_r. split; [done|]. split; [constructor|done].
  - apply Forall_cons in Hid as [Ha Hl]. wp_run.
    match goal with H : TaskSpecForPlanAsset _ _ = Ok ?t |- _ => rename t into task; rename H into Ht end.
    pose proof (task_spec_bytes a task Ht) as Hb.
    assert (is_uint64 (estimated_bytes task)) as Hty by (rewrite Hb; apply Ha).
    eapply wp_mono; [apply wp_AddTask, Hty|]. intros [] w1 n1 Hs1. apply wp_bind.
    assert (wf_db w1) as Hwf1 by (by apply (wf_step w (OpAddTask p task))).
    eapply wp_mono; [apply wp_SetReady|]. intros [] w2 n2 Hs2.
    assert (wf_db w2) as Hwf2 by (by apply (wf_step w1 (OpSetReady p (spec_id task)))).
    inversion Hs1 as [? ? Hids Hspec Hsz Hnew Hkey Hplan| | | | | | | | | |]; subst; try done.
    inversion Hs2 as [| |? ? row Hids2 Hrow| | | | | | | |]; subst; try done.
    rewrite task_updated_lookup, decide_True in Hrow by done. injection Hrow as <-.
    replace (to_uint64 (to_uint64 k + 1)) with (to_uint64 (k + 1)) by (unfold to_uint64; by rewrite Zplus_mod_idemp_l).
    eapply wp_mono; [by apply IH|]. intros k' w' _ (->&Hadd&Hwf'). split_and!; [f_equal; cbn [length]; lia| |done].
    econstructor; [done|done|]. revert Hadd. unfold task_updated. simpl. by rewrite insert_insert_eq.
Qed.

Lemma tasks_added_others p l db db' :
  tasks_added p l db db' ->
  source_manifest db' = source_manifest db /\ migration db' = migration db /\ migration_plan db' = migration_plan db
  /\ task_dependency db' = task_dependency db /\ task_attempt db' = task_attempt db
  /\ task_event db' = task_event db /\ verified_receipt db' = verified_receipt db
  /\ (forall q t, q <> p -> plan_task db' !! (q, t) = plan_task db !! (q, t))
  /\ (forall t row, plan_task db !! (p, t) = Some row -> plan_task db' !! (p, t) = Some row).
Proof.
  induction 1 as [|a l t db db' Ht Hnew Hadd IH]; [done|].
  destruct IH as (?&?&?&?&?&?&?&Hq&Hp). split_and!; try done.
  - intros q u Hne. rewrite Hq by done. rewrite task_updated_lookup. apply decide_False. by intros [= <- _].
  - intros u row Hu. apply Hp. rewrite task_updated_lookup. rewrite decide_False; [done|].
    intros [= <-]. by rewrite (has_task_Some _ _ _ _ Hu) in Hnew.
Qed.

(** The tasks of the plan are the old ones and one READY task per asset. *)
Lemma tasks_added_rows p l db db' t row :
  tasks_added p l db db' ->
  plan_task db' !! (p, t) = Some row <->
  plan_task db !! (p, t) = Some row \/
  exists a spec, a ∈ l /\ TaskSpecForPlanAsset Blake3 a = Ok spec /\ spec_id spec = t /\ row = ready_row spec.
Proof.
  induction 1 as [db|a l spec db db' Hs Hnew Hadd IH].
  - split; [by left|]. intros [?|(a&?&[]%elem_of_nil&_)]; done.
  - rewrite IH, task_updated_lookup. split.
    + intros [Hr|(b&s&Hb&Hrest)]; [|right; exists b, s; split; [by right|done]].
      case_decide as Heq; [|by left]. injection Heq as <-. injection Hr as <-. right. exists a, spec.
      split; [by left|done].
    + intros [Hr|(b&s&[->|Hb]%elem_of_cons&Hbs&Hid&Hrow)].
      * left. rewrite decide_False; [done|]. intros [= <-]. by rewrite (has_task_Some _ _ _ _ Hr) in Hnew.
      * left. rewrite Hs in Hbs. injection Hbs as <-. by rewrite Hid, decide_True, Hrow.
      * right. by exists b, s.
Qed.

(** ** The rows of the migration and of the plan *)

(** Rows elsewhere keep their invariant when every known plan keeps its epoch. *)
Lemma wf_more_plans db db' :
  wf_db db -> plan_task db' = plan_task db -> task_dependency db' = task_dependency db ->
  task_attempt db' = task_attempt db -> task_event db' = task_event db -> verified_receipt db' = verified_receipt db ->
  (forall q e, select_current_epoch q db = Some e -> select_current_epoch q db' = Some e) ->
  (forall q pr, migration_plan db' !! q = Some pr -> is_Some (migration db' !! plan_migration_id pr)) ->
  (forall m r, migration db' !! m = Some r -> 0 <= current_epoch r <= int64_max) ->
  wf_db db'.
Proof.
  intros Hwf Ht Hd Ha He Hr Hep Hp Hm.
  assert (forall q u a e, select_attempt q u a e db' = select_attempt q u a e db) as Hsel
    by (intros; unfold select_attempt; by rewrite Ha).
  split; [done|done|..].
  - rewrite Ht. intros q u row Hrow. apply (wf_task_frame db); [| |by apply (wf_tasks db Hwf)].
    + intros x [ep Hx]. rewrite (Hep _ _ Hx). eauto.
    + intros a e att _ Hatt Hres. rewrite Hsel. eauto.
  - rewrite Ht. apply (wf_task_keys db Hwf).
  - unfold depends, has_task. rewrite Ht, Hd. apply (wf_dependencies db Hwf).
  - unfold depends. rewrite Hd. apply (wf_acyclic db Hwf).
  - rewrite Ha. intros a att Hatt. apply (wf_attempt_frame db); [| | |by apply (wf_attempts db Hwf)].
    + intros ep Hx. rewrite (Hep _ _ Hx). exists ep. split; [done|lia].
    + rewrite Ht. eauto.
    + by rewrite Hr.
  - rewrite Hr. intros q u a row Hrow. destruct (wf_receipts db Hwf _ _ _ _ Hrow).
    split; try done. by setoid_rewrite Hsel.
  - rewrite He. unfold has_task. rewrite Ht. apply (wf_events db Hwf).
Qed.

Definition migration_row (artifact : FrozenPlanFile) (now : Z) : MigrationRow :=
  mkMigration (source_manifest_id (frozen_plan artifact)) (target_root (frozen_plan artifact)) 0 0 now.
Definition plan_row (artifact : FrozenPlanFile) (path : string) (now : Z) : PlanRow :=
  mkPlan (migration_id_of artifact) path (bytes (artifact_digest artifact)) (bytes (semantic_digest artifact)) 1
    kCanonicalMinimalPlanVersion 0 now.
Definition bound_db (artifact : FrozenPlanFile) (path : string) (now : Z) (db : Db) : Db :=
  let db := set_migration (<[migration_id_of artifact := migration_row artifact now]> (migration db)) db in
  set_migration_plan (<[frozen_plan_id artifact := plan_row artifact path now]> (migration_plan db)) db.

Lemma wf_bound artifact path now db :
  wf_db db -> migration db !! migration_id_of artifact = None ->
  migration_plan db !! frozen_plan_id artifact = None -> wf_db (bound_db artifact path now db).
Proof.
  intros Hwf Hm Hp. apply (wf_more_plans db); try done; unfold bound_db; simpl.
  - intros q e (pr&m&Hpr&Hmr&He)%select_current_epoch_Some. apply select_current_epoch_Some. exists pr, m. simpl.
    rewrite !lookup_insert_ne by congruence. done.
  - intros q pr [[<- <-]|[Hne Hpr]]%lookup_insert_Some; simpl; [rewrite lookup_insert_eq; eauto|].
    destruct (wf_plans db Hwf q pr Hpr) as [m Hmr]. rewrite lookup_insert_ne by congruence. eauto.
  - intros m r [[<- <-]|[_ Hr]]%lookup_insert_Some; [simpl; unfold int64_max; lia|by apply (wf_epochs db Hwf m)].
Qed.

(** ** The whole call *)

(** What a successful call leaves, from the database [db]. *)
Definition materialized (artifact : FrozenPlanFile) (path : string) (db : Db) (n : Z) (db' : Db) : Prop :=
  let id := frozen_plan_id artifact in
  let l := assets (frozen_plan artifact) in
  n = to_uint64 (Z.of_nat (length l)) /\
  match migration_plan db !! id with
  | Some row => db' = db /\ pl_artifact_digest row = bytes (artifact_digest artifact)
      /\ pl_semantic_digest row = bytes (semantic_digest artifact)
      /\ n = to_uint64 (Z.of_nat (length (states_of_plan id db)))
  | None => exists now, migration db !! migration_id_of artifact = None
      /\ tasks_added id l (bound_db artifact path now db) db'
  end.

Lemma wp_CheckMaterializedPlan artifact Q w n :
  (migration_plan w !! frozen_plan_id artifact = None -> Q false w n) ->
  (forall row, migration_plan w !! frozen_plan_id artifact = Some row ->
     pl_artifact_digest row = bytes (artifact_digest artifact) ->
     pl_semantic_digest row = bytes (semantic_digest artifact) -> Q true w n) ->
  wp (CheckMaterializedPlan artifact) Q w n.
Proof.
  intros Hnone Hsome. unfold CheckMaterializedPlan, pipeline_prepare, BindPipelineText. wp_run. unfold select_plan.
  destruct (migration_plan w !! _) as [row|]; wp_run; [|auto]. bool_hyps. by eapply Hsome.
Qed.

Lemma wp_MaterializeBody artifact path w n :
  wf_db w -> Forall (fun a => wf_identity (source_identity a)) (assets (frozen_plan artifact)) ->
  wp (MaterializeBody Blake3 artifact path) (fun k w' _ => wf_db w' /\ materialized artifact path w k w') w n.
Proof.
  intros Hwf Hid. unfold MaterializeBody, materialized. wp_run. apply wp_CheckMaterializedPlan.
  - intros Hnone. rewrite Hnone. unfold insert_migration, insert_plan, pipeline_prepare, BindPipelineText, BindPipelineBlob.
    wp_run. repeat match goal with H : negb _ = true |- _ => clear H end.
    repeat match goal with H : insert_migration_row _ _ _ = _ |- _ => unfold insert_migration_row in H; revert H
      | H : insert_plan_row _ _ _ = _ |- _ => unfold insert_plan_row in H; revert H end.
    split_if; [done|]. intros [= <- <-]. split_if; [done|]. intros [= <- <-].
    assert (migration w !! migration_id_of artifact = None) as Hm by (apply eq_None_not_Some; by bool_hyps).
    change 0 with (to_uint64 0) at 1. eapply wp_mono; [apply (wp_add_tasks _ _ 0); [by apply wf_bound|done]|].
    intros k w' n' (->&Hadd&Hwf'). split; [done|]. split; [done|]. eauto.
  - intros row Hrow Hd1 Hd2. rewrite Hrow. wp_run. apply wp_ReadTaskStateCounts. intros Hall. wp_run.
    rewrite total_of_counts in * by done. bool_hyps. split; [done|].
    match goal with H : to_uint64 _ = _ |- _ => pose proof H as Heq; rewrite Heq end.
    split; [|done]. unfold to_uint64 in *. rewrite <- Heq, Z.mod_mod by done. done.
Qed.

Lemma txn_safe_step_each {R A} what (each : A -> R -> StatusOr A) rows a : txn_safe (step_each what each rows a).
Proof. revert a. induction rows as [|r rows IH]; intros a; cbn [step_each]; solve_shape; apply IH. Qed.

Lemma txn_safe_add_tasks p l k : txn_safe (add_tasks Blake3 p l k).
Proof.
  revert k. induction l as [|a l IH]; intros k; cbn [add_tasks]; unfold AddTask, SetReady; solve_shape; apply IH.
Qed.

Lemma txn_safe_MaterializeBody artifact path : txn_safe (MaterializeBody Blake3 artifact path).
Proof.
  unfold MaterializeBody, CheckMaterializedPlan, ReadTaskStateCounts, insert_migration, insert_plan,
    pipeline_prepare, BindPipelineText, BindPipelineBlob.
  solve_shape; try apply txn_safe_add_tasks. intros s. apply txn_safe_step_each.
Qed.

Lemma atomic_MaterializePlan artifact path : atomic (MaterializePlan Blake3 artifact path).
Proof.
  unfold MaterializePlan. apply atomic_bind_reads; [solve_shape|intros _].
  apply atomic_transaction, txn_safe_MaterializeBody.
Qed.

(** C15. Binding a frozen plan is one atomic step that happens once.  A failing
    call commits nothing, whichever of its SQLite calls fails.  A successful
    call keeps the tables well-formed and reports one task per asset; if the
    plan id was already bound it is bound to the same two digests and nothing
    changes; otherwise one migration, one plan and, for every asset, its task
    in state READY are added, and no other plan's task is touched. *)
Theorem plans_materialize_once artifact path (s : Conn Db) :
  let id := frozen_plan_id artifact in
  let l := assets (frozen_plan artifact) in
  wf_db (committed s) -> working s = None -> Forall (fun a => wf_identity (source_identity a)) l ->
  match MaterializePlan Blake3 artifact path s with
  | (Err _, s') => committed s' = committed s
  | (Ok n, s') =>
      working s' = None /\ wf_db (committed s') /\ n = to_uint64 (Z.of_nat (length l)) /\
      match migration_plan (committed s) !! id with
      | Some row => committed s' = committed s /\ pl_artifact_digest row = bytes (artifact_digest artifact)
          /\ pl_semantic_digest row = bytes (semantic_digest artifact)
          /\ n = to_uint64 (Z.of_nat (length (states_of_plan id (committed s))))
      | None => exists now,
          migration_plan (committed s') = <[id := plan_row artifact path now]> (migration_plan (committed s))
          /\ migration (committed s')
             = <[migration_id_of artifact := migration_row artifact now]> (migration (committed s))
          /\ (forall t row, plan_task (committed s') !! (id, t) = Some row <->
                exists a spec, a ∈ l /\ TaskSpecForPlanAsset Blake3 a = Ok spec /\ spec_id spec = t
                  /\ row = ready_row spec)
          /\ (forall q t, q <> id -> plan_task (committed s') !! (q, t) = plan_task (committed s) !! (q, t))
      end
  end.
Proof.
  intros id l Hwf Hw Hid. pose proof (atomic_MaterializePlan artifact path s Hw) as [_ Herr].
  assert (commits (MaterializePlan Blake3 artifact path)
    (fun n db' => wf_db db' /\ materialized artifact path (committed s) n db') (committed s)) as Hc.
  { unfold MaterializePlan. commits_run. by apply wp_MaterializeBody. }
  destruct (MaterializePlan Blake3 artifact path s) as [[n|e] s'] eqn:Hrun; [|by apply Herr].
  destruct (Hc s n s' Hw eq_refl Hrun) as (Hw'&Hwf'&Hn&Hm). split_and!; [done|done|done|].
  fold id in Hm |- *. destruct (migration_plan (committed s) !! id) as [row|] eqn:Hrow; [done|].
  destruct Hm as (now&Hfresh&Hadd). exists now.
  pose proof (tasks_added_others _ _ _ _ Hadd) as (_&Hmig&Hplan&_&_&_&_&Hq&_).
  split_and!; [done|done| |done]. intros t row. rewrite (tasks_added_rows _ _ _ _ _ _ Hadd). split; [|by right].
  intros [Hold|?]; [|done]. destruct (wf_tasks _ Hwf id t row Hold) as [_ _ [e He] _ _ _].
  apply select_current_epoch_Some in He as (pr&_&Hpr&_). by rewrite Hrow in Hpr.
Qed.

End Materialize.

(** ** A plan of one asset bound beside the demo's plan *)

Module MaterializeDemo.
Definition file_path : RelativePath := mkRelativePath "b.jpg" ["b.jpg"].
Definition asset : MinimalPlanAsset :=
  mkMinimalPlanAsset "l1" "s1" file_path file_path Demo.identity.
Definition plan : MinimalPlanInput :=
  mkMinimalPlanInput "manifest" Demo.digest "/target" LocalDirectoryCapabilitiesV1
    (mkMigrationPolicy "" true 255 4096) [asset].
Definition artifact : FrozenPlanFile := mkFrozenPlanFile "q" "" Demo.digest Demo.digest plan.
Definition Blake3 (_ : string) : Digest := Demo.digest.
Definition run := MaterializePlan Blake3 artifact "q.jsonl" (Demo.conn Demo.seed).
Definition again := MaterializePlan Blake3 artifact "q.jsonl" run.2.
End MaterializeDemo.

Lemma demo_run : is_ok MaterializeDemo.run.1 = true.
Proof. vm_compute. reflexivity. Qed.
Lemma demo_again : is_ok MaterializeDemo.again.1 = true.
Proof. vm_compute. reflexivity. Qed.

Lemma plans_materialize_once_witness :
  exists s' s'', MaterializeDemo.run = (Ok 1, s') /\ MaterializeDemo.again = (Ok 1, s'')
  /\ wf_db (committed s') /\ committed s'' = committed s'
  /\ (forall t row, plan_task (committed s') !! ("q", t) = Some row ->
        row_state row = to_int TaskState.kReady).
Proof.
  assert (forall db, wf_db db -> Forall (fun a => wf_identity (source_identity a)) [MaterializeDemo.asset]) as Hid
    by (intros _ _; repeat constructor; by vm_compute).
  pose proof (plans_materialize_once MaterializeDemo.Blake3 MaterializeDemo.artifact "q.jsonl"
    (Demo.conn Demo.seed) wf_seed eq_refl (Hid _ wf_seed)) as H1.
  fold MaterializeDemo.run in H1. cbv zeta in H1.
  destruct MaterializeDemo.run as [[n|e] s'] eqn:Hrun; [|pose proof demo_run as Hbad; rewrite Hrun in Hbad; discriminate Hbad].
  destruct H1 as (Hw'&Hwf'&->&Hnew).
  assert (migration_plan (committed (Demo.conn Demo.seed)) !! frozen_plan_id MaterializeDemo.artifact = None)
    as Hnone by by vm_compute.
  rewrite Hnone in Hnew. destruct Hnew as (now&Hplan&_&Hrows&_).
  pose proof (plans_materialize_once MaterializeDemo.Blake3 MaterializeDemo.artifact "q.jsonl"
    s' Hwf' Hw' (Hid _ wf_seed)) as H2.
  assert (MaterializePlan MaterializeDemo.Blake3 MaterializeDemo.artifact "q.jsonl" s' = MaterializeDemo.again) as Hag
    by (unfold MaterializeDemo.again; by rewrite Hrun).
  rewrite Hag in H2. cbv zeta in H2.
  destruct MaterializeDemo.again as [[n|e] s''] eqn:Hrun2;
    [|pose proof demo_again as Hbad; rewrite Hrun2 in Hbad; discriminate Hbad].
  destruct H2 as (_&_&->&Hold). rewrite Hplan in Hold.
  change (frozen_plan_id MaterializeDemo.artifact) with "q" in *. rewrite lookup_insert_eq in Hold.
  exists s', s''. split; [reflexivity|]. split; [reflexivity|]. split; [exact Hwf'|]. split; [exact (proj1 Hold)|].
  intros t row Hr. apply Hrows in Hr as (a&spec&_&_&_&->). reflexivity.
Defined.
