(* ===== verification/Recovery.v ===== *)
(** * Recovery: resuming a plan after an interruption

    Models src/pipeline/recovery_service.cpp, src/model/audit_report.cpp and
    [ObserveRecoveryFile] of src/pipeline/pipeline_shared.cpp.  Every task
    that is still RUNNING is decided by [Decide] (Reconciler.v) on what the
    store and the files show, and settled under a new epoch.  The JSON
    printer of the audit line is a parameter, and may throw. *)

From stdpp Require Import pretty.
From S2P Require Import Prelude Status Bytes Json RelativePath Task Reconciler Assets Diff CanonicalPlan PlanArtifact Sqlite TaskRepository FileOps CopyVerify Attempt.

(** ** [struct AuditReport] *)

Record AuditReport := mkAuditReport {
  report_plan_id : string;
  report_task_id : string;
  report_action : string;
  report_verification : string;
  report_diff : list DiffEntry;
  report_error : string;
}.

Definition DiffKindName (kind : DiffKind.t) : string :=
  match kind with
  | DiffKind.kAdded => "added"
  | DiffKind.kRemoved => "removed"
  | DiffKind.kChanged => "changed"
  end.

Definition diff_json (entry : DiffEntry) : Json :=
  Json_object [("path", JString (entry_path entry)); ("kind", JString (DiffKindName (entry_kind entry)))].
Definition report_json (report : AuditReport) : Json :=
  Json_object [("plan_id", JString (report_plan_id report)); ("task_id", JString (report_task_id report));
    ("action", JString (report_action report)); ("verification", JString (report_verification report));
    ("diff", JArray (diff_json <$> report_diff report)); ("error", JString (report_error report))].

Definition ReconcileActionName (a : ReconcileAction) : string :=
  match a with
  | kRetryTask => "retry_task"
  | kResumeCommitFromTemp => "resume_commit"
  | kAdoptFinal => "adopt_final"
  | kAdoptFinalAndCleanupTemp => "adopt_final_cleanup_temp"
  | kReverifyCommitted => "reverify_committed"
  | kTargetConflict => "target_conflict"
  | kInconsistent => "inconsistent"
  end.

Definition RecoveryAudit (plan_id task_id : string) (intent : CommitIntent.t)
    (receipt : option VerifiedReceipt.t) (observed : Observed.t) (decision : ReconcileDecision) : AuditReport :=
  let expected :=
    match receipt with
    | Some r =>
        [mkDiffFileState (VerifiedReceipt.temp_path r) (VerifiedReceipt.content_size r) (Some (VerifiedReceipt.target_digest r));
         mkDiffFileState (VerifiedReceipt.final_path r) (VerifiedReceipt.content_size r) (Some (VerifiedReceipt.target_digest r))]
    | None => []
    end in
  let actual :=
    (if Observed.temp_exists observed
     then [mkDiffFileState (match receipt with Some r => VerifiedReceipt.temp_path r | None => CommitIntent.temp_path intent end)
             (Observed.temp_size observed) (Observed.temp_digest observed)]
     else [])
    ++ (if Observed.final_exists observed
        then [mkDiffFileState (CommitIntent.final_path intent) (Observed.final_size observed) (Observed.final_digest observed)]
        else []) in
  mkAuditReport plan_id task_id (ReconcileActionName (action decision)) (reason decision)
    (DiffFileStates expected actual) "".

(** ** Observation *)

(** [ObservedFileState{}] *)
Definition nothing_observed : Observed.t :=
  Observed.mk false false false false None None None 0 0 None None.
Definition observe_source (available changed : bool) (identity : option FileIdentity.t) (o : Observed.t) : Observed.t :=
  Observed.mk available changed (Observed.temp_exists o) (Observed.final_exists o) identity
    (Observed.temp_identity o) (Observed.final_identity o) (Observed.temp_size o) (Observed.final_size o)
    (Observed.temp_digest o) (Observed.final_digest o).
Definition observe_temp (v : BinaryVerificationResult) (o : Observed.t) : Observed.t :=
  Observed.mk (Observed.source_available o) (Observed.source_changed o) true (Observed.final_exists o)
    (Observed.source_identity o) (Some (target_after v)) (Observed.final_identity o) (bytes_read v)
    (Observed.final_size o) (Some (target_digest v)) (Observed.final_digest o).
Definition observe_final (v : BinaryVerificationResult) (o : Observed.t) : Observed.t :=
  Observed.mk (Observed.source_available o) (Observed.source_changed o) (Observed.temp_exists o) true
    (Observed.source_identity o) (Observed.temp_identity o) (Some (target_after v)) (Observed.temp_size o)
    (bytes_read v) (Observed.temp_digest o) (Some (target_digest v)).

Section Recovery.
Context (Blake3 : string -> Digest).
Context (dump : Json -> Exn string) (parse : string -> Exn Json).
Context {W : Type} `{FileOps W} `{RecoveryStore W} `{Workspace W} `{Console W}.

Definition RenderAuditReport (report : AuditReport) : Exn string :=
  let! line := dump (report_json report) in inr (line +:+ String LF "").

(** The result is the returned bool and the state [observed] is left in. *)
Definition ObserveRecoveryFile (root_fd : Fd) (path_bytes : string) (expected_size : Z)
    (expected_digest : Digest) (temp : bool) (observed : Observed.t) (buffer : Z) : M W (bool * Observed.t) :=
  let* path := lift (RelativePath.Parse path_bytes) in
  let* file := outcome (OpenSource root_fd path) in
  match file with
  | Err e => if bool_decide (code e = StatusCode.kNotFound) then ret (false, observed) else throw e
  | Ok fd =>
      let* v := VerifyBinary Blake3 new_hasher fd expected_size (Some expected_digest) buffer in
      ret (true, if temp then observe_temp v observed else observe_final v observed)
  end.

(** The guard on the source decides what is known of it. *)
Definition ObserveSource (source_root_fd : Fd) (asset : MinimalPlanAsset) : M W Observed.t :=
  let* guard := outcome (Open source_root_fd (guarded_asset asset)) in
  match guard with
  | Ok g => ret (observe_source true false (Some (manifest_identity g)) nothing_observed)
  | Err e =>
      match code e with
      | StatusCode.kNotFound => ret (observe_source false false None nothing_observed)
      | StatusCode.kInternal => ret (observe_source false true None nothing_observed)
      | _ => throw e
      end
  end.

(** [receipt_matches_plan] *)
Definition receipt_matches_plan (task : TaskSpec) (attempt_id : string) (owner_epoch : Z)
    (asset : MinimalPlanAsset) (receipt : VerifiedReceipt.t) : bool :=
  (VerifiedReceipt.task_id receipt == spec_id task) && (VerifiedReceipt.attempt_id receipt == attempt_id)
  && (VerifiedReceipt.owner_epoch receipt =? owner_epoch)
  && (VerifiedReceipt.final_path receipt == raw_bytes (plan_target_path asset))
  && (VerifiedReceipt.content_size receipt =? FileIdentity.size (source_identity asset))
  && (VerifiedReceipt.source_identity receipt == Some (source_identity asset))
  && (VerifiedReceipt.source_digest receipt == Some (VerifiedReceipt.target_digest receipt)).

Section Task.
Context (plan_id : string) (recovery_epoch : Z) (task : TaskSpec) (old_epoch : Z) (attempt_id : string).

Definition recover_retryable (reason : string) : M W unit :=
  store_RecoverRetryable plan_id (spec_id task) recovery_epoch old_epoch attempt_id reason.
Definition recover_inconsistent (reason : string) : M W unit :=
  store_RecoverInconsistent plan_id (spec_id task) recovery_epoch old_epoch attempt_id reason.
Definition recover_succeeded (reason : string) : M W unit :=
  store_RecoverSucceeded plan_id (spec_id task) recovery_epoch old_epoch attempt_id reason.

(** [return status.ok() ? Status(kIoError, reason) : status;] *)
Definition surrender {A} (reason : string) : M W A :=
  do* recover_retryable reason;
  throw (mkStatus StatusCode.kIoError reason).

(** The durable receipt of the attempt, checked against the frozen plan. *)
Definition ReadReceipt (asset : MinimalPlanAsset) : M W (option VerifiedReceipt.t) :=
  let* stored := outcome (store_ReadVerifiedReceipt plan_id (spec_id task) attempt_id) in
  match stored with
  | Ok receipt =>
      if receipt_matches_plan task attempt_id old_epoch asset receipt then ret (Some receipt)
      else
        do* recover_inconsistent "verified receipt does not match the frozen plan";
        throw (Internal "verified receipt does not match the frozen plan")
  | Err e => if bool_decide (code e = StatusCode.kNotFound) then ret None else throw e
  end.

Definition completed (target_path : RelativePath) : M W unit :=
  Print ("resume completed: " +:+ plan_id +:+ " task=" +:+ spec_id task +:+ " target=" +:+ raw_bytes target_path
    +:+ " state=SUCCEEDED" +:+ String LF "").

(** [if (!confirmed.ok() || !confirmed.value() || ...)]: the file still has
    the expected bytes. *)
Definition confirmed_final (confirmed : StatusOr (bool * Observed.t)) (size : Z) (digest : Digest) : bool :=
  match confirmed with
  | Ok (true, o) => (Observed.final_size o =? size) && (Observed.final_digest o == Some digest)
  | _ => false
  end.
Definition confirmed_temp (confirmed : StatusOr (bool * Observed.t)) (size : Z) (digest : Digest) : bool :=
  match confirmed with
  | Ok (true, o) => (Observed.temp_size o =? size) && (Observed.temp_digest o == Some digest)
  | _ => false
  end.

(** [case kAdoptFinal: case kAdoptFinalAndCleanupTemp:]; [Decide] gives these
    actions only with a receipt, whose temporary path is [temp_path]. *)
Definition adopt_final (target_root_fd : Fd) (intent : CommitIntent.t) (temp_path : string) (size : Z)
    (digest : Digest) (target_path : RelativePath) (decision : ReconcileDecision) (buffer : Z) : M W unit :=
  let* confirmed := outcome (ObserveRecoveryFile target_root_fd (CommitIntent.final_path intent) size digest
                               false nothing_observed buffer) in
  let confirmation := match confirmed with Ok (_, o) => o | Err _ => nothing_observed end in
  if negb (confirmed_final confirmed size digest) then surrender "final changed before recovery commit"
  else
    do* (if action decision == kAdoptFinalAndCleanupTemp then
           let* confirmed := outcome (ObserveRecoveryFile target_root_fd temp_path size digest
                                        true confirmation buffer) in
           if negb (confirmed_temp confirmed size digest) then surrender "verified temp changed before cleanup"
           else
             do* UnlinkAt target_root_fd temp_path;
             FsyncDirectory target_root_fd
         else ret tt);
    do* recover_succeeded (reason decision);
    completed target_path.

(** [case kResumeCommitFromTemp:] *)
Definition resume_commit (target_root_fd : Fd) (intent : CommitIntent.t) (size : Z) (digest : Digest)
    (target_path : RelativePath) (decision : ReconcileDecision) (buffer : Z) : M W unit :=
  let* temp_path := lift (RelativePath.Parse (CommitIntent.temp_path intent)) in
  let* temp_fd := OpenSource target_root_fd temp_path in
  let* v := VerifyBinary Blake3 new_hasher temp_fd size (Some digest) buffer in
  if negb (verification_status v == kIdentical) then surrender "verified temp no longer matches receipt"
  else
    do* Fdatasync temp_fd;
    do* RenameNoReplace target_root_fd (CommitIntent.temp_path intent) target_root_fd (CommitIntent.final_path intent);
    do* FsyncDirectory target_root_fd;
    do* recover_succeeded (reason decision);
    completed target_path.

(** [switch (decision.value().action)] *)
Definition act (target_root_fd : Fd) (intent : CommitIntent.t) (receipt : option VerifiedReceipt.t) (size : Z)
    (digest : Digest) (target_path : RelativePath) (decision : ReconcileDecision) (buffer : Z) : M W unit :=
  match action decision with
  | kRetryTask =>
      do* recover_retryable (reason decision);
      throw (mkStatus StatusCode.kIoError (reason decision))
  | kTargetConflict =>
      do* recover_inconsistent (reason decision);
      throw (mkStatus StatusCode.kAlreadyExists (reason decision))
  | kInconsistent =>
      do* recover_inconsistent (reason decision);
      throw (Internal (reason decision))
  | kAdoptFinal | kAdoptFinalAndCleanupTemp =>
      let temp_path := match receipt with Some r => VerifiedReceipt.temp_path r | None => "" end in
      adopt_final target_root_fd intent temp_path size digest target_path decision buffer
  | kResumeCommitFromTemp => resume_commit target_root_fd intent size digest target_path decision buffer
  | kReverifyCommitted => throw (Invalid "resume cannot reverify a non-running task")
  end.

End Task.

(** [Digest{}] *)
Definition zero_digest : Digest := Digest_of (fun _ => NUL).

(** What is observed of the files, and the decision on it.  The audit line may
    throw: the exception passes through every caller, so it is a result of its
    own, which [recover_all] does not take for a task's error. *)
Definition observe_and_act (artifact : FrozenPlanFile) (recovery_epoch : Z) (task : TaskSpec)
    (runtime : TaskRuntime) (attempt_id : string) (asset : MinimalPlanAsset)
    (receipt : option VerifiedReceipt.t) (buffer : Z) : M W (Exn unit) :=
  let plan_id := frozen_plan_id artifact in
  let temp_path := match receipt with
    | Some r => VerifiedReceipt.temp_path r
    | None => TempNameFor Blake3 plan_id (spec_id task) attempt_id
    end in
  let intent := CommitIntent.mk (spec_id task) attempt_id (owner_epoch runtime) temp_path
                  (raw_bytes (plan_target_path asset)) in
  let* source_root := store_ReadManifestSourceRoot (source_manifest_id (frozen_plan artifact)) in
  let* source_root_fd := OpenRoot source_root kExisting in
  let* target_root_fd := OpenRoot (target_root (frozen_plan artifact)) kExisting in
  let* observed := ObserveSource source_root_fd asset in
  let size := match receipt with
    | Some r => VerifiedReceipt.content_size r | None => FileIdentity.size (source_identity asset) end in
  let digest := match receipt with Some r => VerifiedReceipt.target_digest r | None => zero_digest end in
  let* observed := ObserveRecoveryFile target_root_fd temp_path size digest true observed buffer in
  let* observed := ObserveRecoveryFile target_root_fd (CommitIntent.final_path intent) size digest
                     false observed.2 buffer in
  let* decision := lift (Decide task runtime intent receipt observed.2) in
  match RenderAuditReport (RecoveryAudit plan_id (spec_id task) intent receipt observed.2 decision) with
  | inl what => ret (inl what)
  | inr report =>
      do* Print report;
      do* act plan_id recovery_epoch task (owner_epoch runtime) attempt_id target_root_fd intent receipt size digest
        (plan_target_path asset) decision buffer;
      ret (inr tt)
  end.

(** [recover_one] *)
Definition recover_one (artifact : FrozenPlanFile) (recovery_epoch : Z) (asset : MinimalPlanAsset) : M W (Exn unit) :=
  let plan_id := frozen_plan_id artifact in
  let* task := lift (TaskSpecForPlanAsset Blake3 asset) in
  let* runtime := store_ReadRuntime plan_id (spec_id task) in
  let invalid := Invalid "resume requires a running task with an active attempt" in
  do* require ((state runtime == TaskState.kRunning) && negb (owner_epoch runtime =? 0)) invalid;
  match attempt_id runtime with
  | None => throw invalid
  | Some attempt_id =>
      do* require (length (components (plan_target_path asset)) =? 1)%nat
        (Invalid "resume requires a single target path component");
      let* receipt := ReadReceipt plan_id recovery_epoch task (owner_epoch runtime) attempt_id asset in
      observe_and_act artifact recovery_epoch task runtime attempt_id asset receipt kBufferSize
  end.

(** The assets whose task is RUNNING ([running_indices]). *)
Fixpoint running_assets (plan_id : string) (l : list MinimalPlanAsset) : M W (list MinimalPlanAsset) :=
  match l with
  | [] => ret []
  | asset :: l =>
      let* task := lift (TaskSpecForPlanAsset Blake3 asset) in
      let* runtime := store_ReadRuntime plan_id (spec_id task) in
      let* rest := running_assets plan_id l in
      ret (if state runtime == TaskState.kRunning then asset :: rest else rest)
  end.

(** The loop over the running tasks: all are tried, the first error is kept. *)
Fixpoint recover_all (artifact : FrozenPlanFile) (recovery_epoch : Z) (l : list MinimalPlanAsset)
    (first_error : Status) : M W Status :=
  match l with
  | [] => ret first_error
  | asset :: l =>
      let* result := outcome (recover_one artifact recovery_epoch asset) in
      match result with
      | Ok (inl what) => throwing (inl what)
      | _ =>
          let result := status_of result in
          recover_all artifact recovery_epoch l
            (if negb (ok result) && ok first_error then result else first_error)
      end
  end.

(** [RecoveryService::Execute], past the opening of the workspace *)
Definition RecoverPlan (artifact : FrozenPlanFile) : M W unit :=
  let* running := running_assets (frozen_plan_id artifact) (assets (frozen_plan artifact)) in
  do* require (negb (bool_decide (running = [])))
    (mkStatus StatusCode.kNotFound "no RUNNING task remains in the materialized plan");
  let* recovery_epoch := store_AcquireNextExecutionEpoch (frozen_plan_id artifact) in
  let* first_error := recover_all artifact recovery_epoch running Status_Ok in
  require_ok first_error.

(** The plan file of a command, parsed and not empty. *)
Definition ReadPlan (input_path : string) (empty : string) : M W FrozenPlanFile :=
  let* plan_bytes := workspace_ReadPlanFile input_path in
  let* artifact := lift (ReadFrozenPlan Blake3 parse plan_bytes) in
  do* require (negb (length (assets (frozen_plan artifact)) =? 0)%nat) (Invalid empty);
  ret artifact.

(** [RecoveryService::Execute] *)
Definition RecoveryService_Execute (input_path : string) : M W unit :=
  let* artifact := ReadPlan input_path "resume plan must contain at least one asset" in
  do* workspace_Acquire (frozen_plan_id artifact);
  do* workspace_OpenDatabase;
  RecoverPlan artifact.

End Recovery.
