(* ===== verification/RecoveryTheorems.v ===== *)
(** * RecoveryTheorems: recovery acts on proof

    The logs of [recover_one] for every file system and every store: a task
    is declared SUCCEEDED only after the bytes its receipt vouches for were
    read back from the target, and, where they were still in the temporary
    file, after the sync, the exclusive rename and the directory sync. *)

From S2P Require Import Prelude Status Bytes Json RelativePath Task Reconciler Assets Diff CanonicalPlan PlanArtifact Sqlite TaskRepository FileOps CopyVerify CopyTheorems Logs Attempt Recovery.

(** ** What a log shows *)

(** Calls that change neither the target's names nor the state of a task. *)
Definition calm (e : Event) : Prop :=
  match e with
  | EvRename _ _ _ _ _ | EvUnlink _ _ _ | EvRecoverSucceeded _ _ _ _ _ _ _
  | EvRecoverRetryable _ _ _ _ _ _ _ | EvRecoverInconsistent _ _ _ _ _ _ _ => False
  | _ => True
  end.

(** The task is released without success. *)
Definition releases (e : Event) : Prop :=
  match e with
  | EvRecoverRetryable _ _ _ _ _ _ _ | EvRecoverInconsistent _ _ _ _ _ _ _ => True
  | _ => False
  end.

(** The calls that follow a verified read. *)
Definition finishing (e : Event) : Prop :=
  match e with
  | EvFdatasync _ _ | EvRename _ _ _ _ _ | EvUnlink _ _ _ | EvFsyncDirectory _ _ => True
  | EvRecoverSucceeded _ _ _ _ _ _ (Err _) => True
  | _ => False
  end.

Section Recovery.
Context (Blake3 : string -> Digest).

(** The file [path] under [root] was opened and read, and holds the bytes of
    the receipt. *)
Inductive proved (root : Fd) (path : string) (r : VerifiedReceipt.t) : list Event -> Prop :=
  | proved_intro p fd l :
      RelativePath.Parse path = Ok p -> Forall (on_fd fd) l -> to_the_end fd l ->
      str_size (reads_of fd l) = VerifiedReceipt.content_size r ->
      Blake3 (reads_of fd l) = VerifiedReceipt.target_digest r ->
      proved root path r (EvOpenSource root p (Ok fd) :: l).

(** The look at a file before the decision: it was not there, or it was read
    to its end. *)
Inductive looked_at (root : Fd) (path : string) : list Event -> Prop :=
  | not_there p e :
      RelativePath.Parse path = Ok p -> code e = StatusCode.kNotFound -> looked_at root path [EvOpenSource root p (Err e)]
  | was_read p fd l :
      RelativePath.Parse path = Ok p -> Forall (on_fd fd) l -> to_the_end fd l ->
      looked_at root path (EvOpenSource root p (Ok fd) :: l).

(** The three ways a task may be committed, by whether the temporary file had
    the bytes of the receipt when it was looked at: if not, its final file is
    already there; if so, either that is there too and the temporary file,
    proved again, is removed, or the temporary file is proved again, synced
    and renamed without replacing anything. *)
Inductive committing (root : Fd) (r : VerifiedReceipt.t) (temp_proved : Prop) : list Event -> Prop :=
  | commit_adopt l : ~ temp_proved -> proved root (VerifiedReceipt.final_path r) r l -> committing root r temp_proved l
  | commit_cleanup l1 l2 :
      temp_proved ->
      proved root (VerifiedReceipt.final_path r) r l1 -> proved root (VerifiedReceipt.temp_path r) r l2 ->
      committing root r temp_proved
        (l1 ++ l2 ++ [EvUnlink root (VerifiedReceipt.temp_path r) (Ok tt); EvFsyncDirectory root (Ok tt)])
  | commit_rename p fd l :
      temp_proved ->
      RelativePath.Parse (VerifiedReceipt.temp_path r) = Ok p -> Forall (on_fd fd) l -> to_the_end fd l ->
      str_size (reads_of fd l) = VerifiedReceipt.content_size r ->
      Blake3 (reads_of fd l) = VerifiedReceipt.target_digest r ->
      committing root r temp_proved (EvOpenSource root p (Ok fd) :: l
        ++ [EvFdatasync fd (Ok tt);
            EvRename root (VerifiedReceipt.temp_path r) root (VerifiedReceipt.final_path r) (Ok tt);
            EvFsyncDirectory root (Ok tt)]).

(** A failed recovery: nothing was touched; or the task was released, once; or
    the temporary file of a known receipt was proved and a later call failed. *)
Definition failed (known : VerifiedReceipt.t -> Prop) (l : list Event) : Prop :=
  exists pre tail, l = pre ++ tail /\ Forall calm pre /\
    (tail = [] \/ (exists e, tail = [e] /\ releases e)
     \/ (exists root r pre' lv path, known r /\ pre = pre' ++ lv /\ proved root path r lv
           /\ path ∈ [VerifiedReceipt.temp_path r; VerifiedReceipt.final_path r] /\ Forall finishing tail)).

Lemma failed_calm known l : Forall calm l -> failed known l.
Proof. intros Hl. exists l, []. rewrite app_nil_r. auto. Qed.

Lemma failed_released known l e : Forall calm l -> releases e -> failed known (l ++ [e]).
Proof. intros Hl He. exists l, [e]. split; [done|]. split; [done|]. right; left. by exists e. Qed.

Lemma failed_after (known known' : VerifiedReceipt.t -> Prop) l1 l2 :
  (forall r, known r -> known' r) -> Forall calm l1 -> failed known l2 -> failed known' (l1 ++ l2).
Proof.
  intros Hk Hl1 (pre&tail&->&Hpre&Ht). exists (l1 ++ pre), tail. rewrite app_assoc. split; [done|].
  split; [by apply Forall_app|]. destruct Ht as [?|[?|(root&r&pre'&lv&path&?&->&?)]]; [auto|auto|].
  right; right. exists root, r, (l1 ++ pre'), lv, path. rewrite app_assoc. auto.
Qed.

Lemma on_fd_calm fd l : Forall (on_fd fd) l -> Forall calm l.
Proof. intros Hl. eapply Forall_impl; [exact Hl|]. by intros []. Qed.
Lemma proved_calm root path r l : proved root path r l -> Forall calm l.
Proof. intros [p fd l' _ Hl _ _ _]. constructor; [done|]. by eapply on_fd_calm. Qed.

(** Solves that a log built from known calm parts is calm. *)
Ltac calm_log :=
  repeat first
    [ exact I | assumption | apply Forall_nil_2 | apply Forall_cons_2 | apply Forall_app_2
    | eapply on_fd_calm; eassumption | eapply proved_calm; eassumption | progress cbn [calm] | progress cbv beta ].

Context {F D : Type} `{FileOps F} `{RecoveryStore D}.
Local Notation logs := (Logs.logs (F := F) (D := D)).
Implicit Types (l : list Event).

Definition calmly (_ : Status) (l : list Event) : Prop := Forall calm l.

(** An observation: nothing there, or a file read to its end. *)
Definition observation (root : Fd) (path : string) (temp : bool) (o : Observed.t) (r : bool * Observed.t)
    (l : list Event) : Prop :=
  Forall calm l /\ looked_at root path l /\ (r.1 = false -> r.2 = o /\ exists p e, l = [EvOpenSource root p (Err e)]) /\
  (r.1 = true -> exists p fd lv v, RelativePath.Parse path = Ok p /\ l = EvOpenSource root p (Ok fd) :: lv
     /\ Forall (on_fd fd) lv /\ to_the_end fd lv /\ bytes_read v = str_size (reads_of fd lv)
     /\ target_digest v = Blake3 (reads_of fd lv) /\ r.2 = if temp then observe_temp v o else observe_final v o).

Lemma logs_ObserveRecoveryFile root path size digest temp o buffer :
  logs (ObserveRecoveryFile Blake3 root path size digest temp o buffer) (observation root path temp o) calmly.
Proof.
  unfold ObserveRecoveryFile, calmly, observation.
  eapply logs_bind with (P1 := fun p l => l = [] /\ RelativePath.Parse path = Ok p).
  { apply logs_lift. destruct (RelativePath.Parse path); [done|calm_log]. }
  intros p l1 [-> Hp]. eapply logs_bind with (P1 := fun r l => l = [EvOpenSource root p r]).
  { by apply logs_outcome_files. }
  intros [fd|e] l2 ->.
  - eapply logs_bind; [eapply logs_mono; [apply logs_VerifyBinary|by intros|]|].
    { intros e l Hl. cbv beta in Hl. calm_log. }
    intros v lv (Hlv&[Hb Hd]&_&Hend). apply logs_ret. rewrite app_nil_r. split; [calm_log|].
    split; [by apply was_read|]. split; [done|]. intros _. by exists p, fd, lv, v.
  - case_bool_decide; [apply logs_ret|apply logs_throw; calm_log]. split; [calm_log|]. split; [by apply not_there|].
    split; [|done]. intros _. split; [done|]. by exists p, e.
Qed.

(** A release without success. *)
Lemma logs_surrender {A} p rep t oe a reason (P : A -> list Event -> Prop) known l0 :
  Forall calm l0 -> logs (surrender p rep t oe a reason) P (fun _ l => failed known (l0 ++ l)).
Proof.
  intros Hl0. unfold surrender, recover_retryable.
  eapply logs_bind with (P1 := fun _ l => exists e, l = [e] /\ releases e).
  - apply logs_on_store; [intros; eexists; by split|]. intros e. by apply failed_released.
  - intros _ l (e&->&He). apply logs_throw. rewrite app_nil_r. by apply failed_released.
Qed.

(** A release followed by the error reported. *)
Lemma logs_released {A} (ev : StatusOr unit -> Event) (c : M D unit) e (P : A -> list Event -> Prop) known :
  (forall r, releases (ev r)) ->
  logs (do* on_store ev c; throw e) P (fun _ l => failed known l).
Proof.
  intros Hev. eapply logs_bind with (P1 := fun _ l => exists e, l = [e] /\ releases e).
  - apply logs_on_store; [intros u; exists (ev (Ok u)); auto|]. intros err. by apply (failed_released known []).
  - intros _ l (ev'&->&He). apply logs_throw. by apply (failed_released known []).
Qed.

Section Task.
Context (p : string) (rep : Z) (task : TaskSpec) (oe : Z) (a : string).

(** The success of the task, then its line. *)
Definition succeeded (l : list Event) : Prop :=
  exists reason text, l = [EvRecoverSucceeded p (spec_id task) rep oe a reason (Ok tt); EvPrint text].

Lemma logs_succeed root r tp l0 path lv tail reason target_path :
  committing root r tp (l0 ++ lv ++ tail) -> Forall calm l0 -> proved root path r lv ->
  path ∈ [VerifiedReceipt.temp_path r; VerifiedReceipt.final_path r] -> Forall finishing tail ->
  logs (do* recover_succeeded p rep task oe a reason; completed p task target_path)
    (fun _ l => exists l1 l2, l0 ++ lv ++ tail ++ l = l1 ++ l2 /\ committing root r tp l1 /\ succeeded l2)
    (fun _ l => failed (eq r) (l0 ++ lv ++ tail ++ l)).
Proof.
  intros Hc Hl0 Hp Hpath Hf. unfold recover_succeeded, completed.
  eapply logs_bind with (P1 := fun _ l => l = [EvRecoverSucceeded p (spec_id task) rep oe a reason (Ok tt)]).
  - apply logs_on_store; [by intros []|]. intros e. exists (l0 ++ lv). eexists. rewrite <- app_assoc.
    split; [done|]. split; [calm_log|]. right; right. exists root, r, l0, lv, path. split_and!; try done.
    apply Forall_app. by repeat constructor.
  - intros [] l ->. apply logs_Print. eexists (l0 ++ lv ++ tail), _.
    split; [by rewrite <- !app_assoc|]. split; [done|]. by eexists _, _.
Qed.

(** What [act] promises for a receipt. *)
Definition recovered root r (tp : Prop) : unit -> list Event -> Prop := fun _ l =>
  exists l1 l2, l = l1 ++ l2 /\ committing root r tp l1 /\ succeeded l2.

Lemma recovered_iff root r (tp tp' : Prop) u l : (tp <-> tp') -> recovered root r tp u l -> recovered root r tp' u l.
Proof.
  intros Htp (l1&l2&->&Hc&Hs). exists l1, l2. split; [done|]. split; [|done].
  destruct Hc; [apply commit_adopt|apply commit_cleanup|apply commit_rename]; tauto.
Qed.

Lemma confirmed_final_proved root path o r res l :
  observation root path false o res l ->
  confirmed_final (Ok res) (VerifiedReceipt.content_size r) (VerifiedReceipt.target_digest r) = true ->
  proved root path r l.
Proof.
  intros (_&_&_&Hobs) Hc. destruct res as [[] o']; [|done].
  destruct (Hobs eq_refl) as (q&fd&lv&v&Hq&->&Hlv&Hend&Hb&Hd&Ho). cbn in Ho. subst o'.
  unfold confirmed_final, observe_final in Hc. cbn in Hc. bool_hyps. injection H2 as H2.
  constructor; [done..|congruence|congruence].
Qed.

Lemma confirmed_temp_proved root path o r res l :
  observation root path true o res l ->
  confirmed_temp (Ok res) (VerifiedReceipt.content_size r) (VerifiedReceipt.target_digest r) = true ->
  proved root path r l.
Proof.
  intros (_&_&_&Hobs) Hc. destruct res as [[] o']; [|done].
  destruct (Hobs eq_refl) as (q&fd&lv&v&Hq&->&Hlv&Hend&Hb&Hd&Ho). cbn in Ho. subst o'.
  unfold confirmed_temp, observe_temp in Hc. cbn in Hc. bool_hyps. injection H2 as H2.
  constructor; [done..|congruence|congruence].
Qed.

(** The observation of a file, its error handled. *)
Definition observed_file root path temp o (r : StatusOr (bool * Observed.t)) (l : list Event) : Prop :=
  Forall calm l /\ match r with Ok res => observation root path temp o res l | Err _ => True end.

Lemma logs_confirm root path size digest temp o buffer E :
  logs (outcome (ObserveRecoveryFile Blake3 root path size digest temp o buffer)) (observed_file root path temp o) E.
Proof.
  intros w. eapply runs_mono; [apply (logs_outcome _ _ _ E (logs_ObserveRecoveryFile root path size digest temp o buffer))|].
  intros [[res|e]|e] w' (l&Hl&Hr); exists l; (split; [done|]); [split; [apply Hr|done]|by split|done].
Qed.

Lemma logs_adopt_final root intent r tp target_path decision buffer :
  (if action decision == kAdoptFinalAndCleanupTemp then tp else ~ tp) ->
  CommitIntent.final_path intent = VerifiedReceipt.final_path r ->
  logs (adopt_final Blake3 p rep task oe a root intent (VerifiedReceipt.temp_path r) (VerifiedReceipt.content_size r)
          (VerifiedReceipt.target_digest r) target_path decision buffer)
    (recovered root r tp) (fun _ l => failed (eq r) l).
Proof.
  intros Htp Hfinal. unfold adopt_final, recovered. rewrite Hfinal.
  eapply logs_bind; [apply logs_confirm|]. intros c1 l1 [Hl1 Hc1]. cbv zeta.
  destruct (confirmed_final c1 _ _) eqn:Hf; [|by apply logs_surrender].
  destruct c1 as [res1|]; [|done]. pose proof (confirmed_final_proved _ _ _ _ _ _ Hc1 Hf) as Hp1. cbn [negb].
  destruct (action decision == kAdoptFinalAndCleanupTemp).
  - eapply logs_bind with (P1 := fun _ l => exists l2, proved root (VerifiedReceipt.temp_path r) r l2 /\
      l = l2 ++ [EvUnlink root (VerifiedReceipt.temp_path r) (Ok tt); EvFsyncDirectory root (Ok tt)]).
    + eapply logs_bind; [apply logs_confirm|]. intros c2 l2 [Hl2 Hc2]. cbv zeta.
      destruct (confirmed_temp c2 _ _) eqn:Ht.
      2:{ cbn [negb]. eapply logs_mono; [apply (logs_surrender _ _ _ _ _ _ (fun _ _ => False) (eq r) (l1 ++ l2)); calm_log|done|].
          intros e l Hl. cbv beta in Hl. by rewrite <- app_assoc in Hl. }
      destruct c2 as [res2|]; [|done]. pose proof (confirmed_temp_proved _ _ _ _ _ _ Hc2 Ht) as Hp2. cbn [negb].
      assert (forall tail, Forall finishing tail -> failed (eq r) (l1 ++ l2 ++ tail)) as Hfail.
      { intros tail Htail. exists (l1 ++ l2), tail. rewrite app_assoc. split; [done|]. split; [calm_log|].
        right; right. exists root, r, l1, l2, (VerifiedReceipt.temp_path r). split_and!; try done. by left. }
      eapply logs_bind with (P1 := fun _ l => l = [EvUnlink root (VerifiedReceipt.temp_path r) (Ok tt)]).
      { apply logs_on_files; [by intros []|]. intros e. apply Hfail. by repeat constructor. }
      intros [] l3 ->. apply logs_on_files; [intros []; by exists l2|]. intros e. apply Hfail. by repeat constructor.
    + intros _ l2 (l3&Hp3&->).
      eapply logs_mono; [apply (logs_succeed root r tp l1 (VerifiedReceipt.temp_path r) l3
        [EvUnlink root (VerifiedReceipt.temp_path r) (Ok tt); EvFsyncDirectory root (Ok tt)])|..]; try done.
      * by apply commit_cleanup.
      * by left.
      * by repeat constructor.
      * intros u l (la&lb&Hl&?&?). exists la, lb. rewrite <- Hl, <- !app_assoc. done.
      * intros e l Hl. by rewrite <- !app_assoc.
  - eapply logs_bind with (P1 := fun _ l => l = []); [by apply logs_ret|]. intros _ l2 ->.
    eapply logs_mono; [apply (logs_succeed root r tp [] (VerifiedReceipt.final_path r) l1 [])|..]; try done.
    + rewrite app_nil_r. by apply commit_adopt.
    + right. by left.
Qed.

Lemma logs_resume_commit root intent r (tp : Prop) target_path decision buffer :
  tp ->
  CommitIntent.final_path intent = VerifiedReceipt.final_path r ->
  CommitIntent.temp_path intent = VerifiedReceipt.temp_path r ->
  logs (resume_commit Blake3 p rep task oe a root intent (VerifiedReceipt.content_size r)
          (VerifiedReceipt.target_digest r) target_path decision buffer)
    (recovered root r tp) (fun _ l => failed (eq r) l).
Proof.
  intros Htp Hfinal Htemp. unfold resume_commit, recovered. rewrite Hfinal, Htemp.
  eapply logs_bind with (P1 := fun q l => l = [] /\ RelativePath.Parse (VerifiedReceipt.temp_path r) = Ok q).
  { apply logs_lift. destruct (RelativePath.Parse _); [done|]. apply failed_calm. constructor. }
  intros q l1 [-> Hq]. eapply logs_bind with (P1 := fun fd l => l = [EvOpenSource root q (Ok fd)]).
  { apply logs_on_files; [done|]. intros e. apply failed_calm. calm_log. }
  intros fd l1 ->.
  eapply logs_bind; [eapply logs_mono; [apply logs_VerifyBinary|by intros|]|].
  { intros e l Hl. cbv beta in Hl. apply failed_calm. calm_log. }
  intros v lv (Hlv&[Hb Hd]&Hid&Hend).
  destruct (bool_decide_reflect (verification_status v = kIdentical)) as [Hk|].
  2:{ cbn [negb]. eapply logs_mono; [apply (logs_surrender _ _ _ _ _ _ (fun _ _ => False) (eq r) (EvOpenSource root q (Ok fd) :: lv)); calm_log|done|].
      intros e l. done. }
  cbn [negb]. destruct (Hid Hk) as [Hsize Hdig].
  assert (proved root (VerifiedReceipt.temp_path r) r (EvOpenSource root q (Ok fd) :: lv)) as Hp
    by (constructor; congruence).
  assert (forall tail, Forall finishing tail -> failed (eq r) (EvOpenSource root q (Ok fd) :: lv ++ tail)) as Hfail.
  { intros tail Htail. exists (EvOpenSource root q (Ok fd) :: lv), tail. split; [done|]. split; [calm_log|].
    right; right. exists root, r, [], (EvOpenSource root q (Ok fd) :: lv), (VerifiedReceipt.temp_path r).
    split_and!; try done. by left. }
  eapply logs_bind with (P1 := fun _ l => l = [EvFdatasync fd (Ok tt)]).
  { apply logs_on_files; [by intros []|]. intros e. apply Hfail. by repeat constructor. }
  intros [] l3 ->. eapply logs_bind with (P1 := fun _ l =>
    l = [EvRename root (VerifiedReceipt.temp_path r) root (VerifiedReceipt.final_path r) (Ok tt)]).
  { apply logs_on_files; [by intros []|]. intros e. apply Hfail. by repeat constructor. }
  intros [] l4 ->. eapply logs_bind with (P1 := fun _ l => l = [EvFsyncDirectory root (Ok tt)]).
  { apply logs_on_files; [by intros []|]. intros e. apply Hfail. by repeat constructor. }
  intros [] l5 ->.
  eapply logs_mono; [apply (logs_succeed root r tp [] (VerifiedReceipt.temp_path r) (EvOpenSource root q (Ok fd) :: lv)
    [EvFdatasync fd (Ok tt); EvRename root (VerifiedReceipt.temp_path r) root (VerifiedReceipt.final_path r) (Ok tt);
     EvFsyncDirectory root (Ok tt)])|..]; try done.
  - cbn [app]. by apply commit_rename; try congruence.
  - by left.
  - by repeat constructor.
Qed.

(** A decision that commits has a receipt for what it commits. *)
Definition known_to (receipt : option VerifiedReceipt.t) (r : VerifiedReceipt.t) : Prop := receipt = Some r.

Lemma logs_act root intent receipt tp target_path runtime observed buffer size digest :
  (forall r, receipt = Some r -> temp_proven observed r <-> tp) ->
  (forall r, receipt = Some r -> CommitIntent.final_path intent = VerifiedReceipt.final_path r
     /\ CommitIntent.temp_path intent = VerifiedReceipt.temp_path r
     /\ size = VerifiedReceipt.content_size r /\ digest = VerifiedReceipt.target_digest r) ->
  logs (act Blake3 p rep task oe a root intent receipt size digest target_path
          (DecideRules runtime receipt observed) buffer)
    (fun u l => exists r, receipt = Some r /\ recovered root r tp u l) (fun _ l => failed (known_to receipt) l).
Proof.
  intros Htp Hr. pose proof (DecideRules_justified runtime receipt observed) as Hj.
  destruct (DecideRules runtime receipt observed) as [chosen why] eqn:Hd. unfold act. cbn [action reason] in *.
  assert (forall r e l, receipt = Some r -> failed (eq r) l -> (fun (_ : Status) l => failed (known_to receipt) l) e l)
    as Hmono.
  { intros r e l Hrc Hl. apply (failed_after (eq r) _ [] l); [by intros ? <-|constructor|done]. }
  destruct chosen; [by apply logs_released| | | | |by apply logs_released|by apply logs_released].
  - destruct Hj as (_&_&_&r&Hrc&Hproven). destruct (Hr r Hrc) as (Hf&Ht&->&->).
    eapply logs_mono; [by apply (logs_resume_commit root intent r tp); [by apply (Htp r Hrc)|..]|by eauto|intros e l; by apply Hmono].
  - destruct Hj as (_&_&r&Hrc&_&Hproven). destruct (Hr r Hrc) as (Hf&Ht&->&->). rewrite Hrc.
    eapply logs_mono; [apply (logs_adopt_final root intent r tp); [cbn [action]; rewrite bool_decide_false by done; by rewrite <- (Htp r Hrc)|done]
      |by eauto|intros e l; rewrite <- Hrc; by apply Hmono].
  - destruct Hj as (_&_&r&Hrc&_&Hproven). destruct (Hr r Hrc) as (Hf&Ht&->&->). rewrite Hrc.
    eapply logs_mono; [apply (logs_adopt_final root intent r tp); [cbn [action]; rewrite bool_decide_true by done; by apply (Htp r Hrc)|done]
      |by eauto|intros e l; rewrite <- Hrc; by apply Hmono].
  - apply logs_throw, failed_calm. constructor.
Qed.

Lemma logs_ReadReceipt asset :
  logs (ReadReceipt p rep task oe a asset)
    (fun receipt l => exists res, l = [EvReadReceipt p (spec_id task) a res] /\ forall r, receipt = Some r ->
       res = Ok r /\ receipt_matches_plan task a oe asset r = true)
    (fun _ l => failed (fun _ => False) l).
Proof.
  unfold ReadReceipt. eapply logs_bind with (P1 := fun res l => l = [EvReadReceipt p (spec_id task) a res]).
  { by apply logs_outcome_store. }
  intros [r|e] l ->.
  - destruct (receipt_matches_plan task a oe asset r) eqn:Hm.
    + apply logs_ret. eexists. split; [done|]. by intros ? [= <-].
    + eapply logs_mono; [by apply (logs_released _ _ _ (fun _ _ => False) (fun _ => False))|done|].
      intros e l Hl. apply (failed_after (fun _ => False)); [done|calm_log|exact Hl].
  - case_bool_decide; [apply logs_ret; eexists; by split|apply logs_throw, failed_calm; calm_log].
Qed.

End Task.

Lemma logs_ObserveSource root asset :
  logs (ObserveSource root asset) (fun o l => Forall calm l /\ Observed.temp_exists o = false) calmly.
Proof.
  unfold ObserveSource, calmly. eapply logs_bind with (P1 := fun _ l => Forall calm l).
  - intros w. eapply runs_mono; [apply (logs_outcome _ (fun _ l => Forall calm l) (fun _ l => Forall calm l) (fun _ l => Forall calm l))|].
    + unfold Open. eapply logs_bind with (P1 := fun _ l => Forall calm l); [apply logs_on_files; intros; calm_log|].
      intros fd l1 Hl1. eapply logs_bind with (P1 := fun _ l => Forall calm l); [apply logs_on_files; intros; calm_log|].
      intros i l2 Hl2. eapply logs_bind with (P1 := fun _ l => Forall calm l); [apply logs_require; intros; calm_log|].
      intros _ l3 Hl3. apply logs_ret. calm_log.
    + intros [[g|e]|e] w' (l&Hl&Hr); by exists l.
  - intros [g|e] l Hl; [apply logs_ret; split; [calm_log|done]|].
    destruct (code e); first [apply logs_throw; calm_log|apply logs_ret; split; [calm_log|done]].
Qed.

Lemma Decide_rules spec runtime intent receipt o d :
  Decide spec runtime intent receipt o = Ok d -> d = DecideRules runtime receipt o.
Proof. unfold Decide. rewrite !check_status_Ok. by intros (_&_&[= <-]). Qed.

Section Audit.
Context (dump : Json -> Exn string).

(** A task recovered: the target root, the look at the temporary file among
    calm calls, the commit that fits what was found, its success. *)
Definition recovered_under plan_id rep task oe a (target : string) (r : VerifiedReceipt.t) (l : list Event) : Prop :=
  exists pre look mid rest root, l = (pre ++ look ++ mid) ++ rest /\ Forall calm (pre ++ look ++ mid)
    /\ EvOpenRoot target kExisting (Ok root) ∈ pre /\ looked_at root (VerifiedReceipt.temp_path r) look
    /\ recovered plan_id rep task oe a root r (proved root (VerifiedReceipt.temp_path r) r look) tt rest.

(** What was observed of the temporary file is what its look shows. *)
Lemma observed_temp_proved root o o2 o3 path l l' r :
  observation root (VerifiedReceipt.temp_path r) true o o2 l -> Observed.temp_exists o = false ->
  observation root path false o2.2 o3 l' ->
  temp_proven o3.2 r <-> proved root (VerifiedReceipt.temp_path r) r l.
Proof.
  intros (_&_&Hnone&Hsome) Ho (_&_&Hnone'&Hsome'). destruct o2 as [b o2], o3 as [b' o3]. cbn [fst snd] in *.
  assert (temp_proven o3 r <-> temp_proven o2 r) as ->.
  { destruct b'; [|by destruct (Hnone' eq_refl) as [-> _]].
    by destruct (Hsome' eq_refl) as (?&?&?&?&_&_&_&_&_&_&->). }
  unfold temp_proven, proven. destruct b.
  - destruct (Hsome eq_refl) as (q&fd&lv&v&Hq&->&Hlv&Hend&Hb&Hd&->). cbn. split.
    + intros (_&Hsize&[= Hdig]). constructor; [done..|congruence|congruence].
    + inversion 1; subst. split_and!; [done|congruence|f_equal; congruence].
  - destruct (Hnone eq_refl) as [-> (q&e&->)]. split; [intros (?&_); congruence|by inversion 1].
Qed.

Lemma logs_observe_and_act artifact rep task runtime a asset receipt buffer :
  (forall r, receipt = Some r -> receipt_matches_plan task a (owner_epoch runtime) asset r = true) ->
  logs (observe_and_act Blake3 dump artifact rep task runtime a asset receipt buffer)
    (fun res l => match res with
       | inl _ => Forall calm l
       | inr _ => exists r, receipt = Some r /\ recovered_under (frozen_plan_id artifact) rep task (owner_epoch runtime) a
           (target_root (frozen_plan artifact)) r l
       end)
    (fun _ l => failed (known_to receipt) l).
Proof.
  intros Hm. unfold observe_and_act. cbv zeta.
  eapply logs_bind with (P1 := fun _ l => Forall calm l); [apply logs_on_store; intros; [|apply failed_calm]; calm_log|].
  intros root0 l1 Hl1.
  eapply logs_bind with (P1 := fun _ l => Forall calm l); [apply logs_on_files; intros; [|apply failed_calm]; calm_log|].
  intros sfd l2 Hl2.
  eapply logs_bind with (P1 := fun root l => l = [EvOpenRoot (target_root (frozen_plan artifact)) kExisting (Ok root)]);
    [apply logs_on_files; intros; [done|apply failed_calm]; calm_log|].
  intros root l3 ->. set (ev := EvOpenRoot _ _ _).
  eapply logs_bind; [eapply logs_mono; [apply logs_ObserveSource|by intros|intros e l Hl; apply failed_calm; unfold calmly in Hl; calm_log]|].
  intros o1 l4 [Hl4 Hno].
  eapply logs_bind; [eapply logs_mono; [apply logs_ObserveRecoveryFile|by intros|intros e l Hl; apply failed_calm; unfold calmly in Hl; calm_log]|].
  intros o2 l5 Ho2. pose proof (proj1 Ho2) as Hl5.
  eapply logs_bind; [eapply logs_mono; [apply logs_ObserveRecoveryFile|by intros|intros e l Hl; apply failed_calm; unfold calmly in Hl; calm_log]|].
  intros o3 l6 Ho3. pose proof (proj1 Ho3) as Hl6.
  eapply logs_bind with (P1 := fun d l => l = [] /\ d = DecideRules runtime receipt o3.2).
  { apply logs_lift. destruct (Decide _ _ _ _ _) eqn:Hd; [split; [done|by eapply Decide_rules]|].
    apply failed_calm. calm_log. }
  intros d l7 [-> ->]. destruct (RenderAuditReport dump _) as [what|text]; [apply logs_ret; calm_log|].
  eapply logs_bind with (P1 := fun _ l => l = [EvPrint text]); [by apply logs_Print|]. intros _ l8 ->.
  set (pre := (l1 ++ l2 ++ [ev] ++ l4) ++ l5 ++ l6 ++ [EvPrint text]).
  assert (Forall calm pre) as Hpre by (unfold pre; calm_log).
  assert (forall tl, l1 ++ l2 ++ [ev] ++ l4 ++ l5 ++ l6 ++ [] ++ [EvPrint text] ++ tl = pre ++ tl) as Heq
    by (intros tl; unfold pre; by rewrite <- !app_assoc).
  eapply logs_bind; [eapply logs_mono;
    [apply logs_act with (tp := forall r, receipt = Some r -> proved root (VerifiedReceipt.temp_path r) r l5)|by intros|]|].
  - intros r ->. rewrite (observed_temp_proved _ _ _ _ _ _ _ _ Ho2 Hno Ho3). split; [by intros ? ? [= <-]|]. auto.
  - intros r ->. specialize (Hm r eq_refl). unfold receipt_matches_plan in Hm. bool_hyps. cbn. auto.
  - intros e l Hl. rewrite Heq. eapply failed_after; [|exact Hpre|exact Hl]. done.
  - intros u l (r&Hr&Hrec). apply logs_ret. exists r. split; [done|].
    exists (l1 ++ l2 ++ [ev] ++ l4), l5, (l6 ++ [EvPrint text]), l, root. rewrite app_nil_r, Heq. subst receipt.
    split_and!; [done|done| |by apply Ho2|].
    + rewrite !elem_of_app. right. right. left. by left.
    + destruct u. eapply recovered_iff; [|exact Hrec]. split; [auto|by intros ? ? [= <-]].
Qed.

(** What the log shows of a task that was recovered. *)
Definition task_recovered (artifact : FrozenPlanFile) (rep : Z) (asset : MinimalPlanAsset) (l : list Event) : Prop :=
  let plan_id := frozen_plan_id artifact in
  exists task runtime a r l',
    TaskSpecForPlanAsset Blake3 asset = Ok task
    /\ l = EvReadRuntime plan_id (spec_id task) (Ok runtime) :: EvReadReceipt plan_id (spec_id task) a (Ok r) :: l'
    /\ state runtime = TaskState.kRunning /\ attempt_id runtime = Some a
    /\ receipt_matches_plan task a (owner_epoch runtime) asset r = true
    /\ recovered_under plan_id rep task (owner_epoch runtime) a (target_root (frozen_plan artifact)) r l'.

(** What it shows of one that was not. *)
Definition not_recovered (l : list Event) : Prop :=
  failed (fun r => exists p t a, EvReadReceipt p t a (Ok r) ∈ l) l.

Lemma logs_recover_one artifact rep asset :
  logs (recover_one Blake3 dump artifact rep asset)
    (fun res l => match res with inl _ => Forall calm l | inr _ => task_recovered artifact rep asset l end)
    (fun _ l => not_recovered l).
Proof.
  unfold recover_one. cbv zeta. set (p := frozen_plan_id artifact).
  eapply logs_bind with (P1 := fun task l => l = [] /\ TaskSpecForPlanAsset Blake3 asset = Ok task).
  { apply logs_lift. destruct (TaskSpecForPlanAsset _ _); [done|]. apply failed_calm. calm_log. }
  intros task l1 [-> Htask].
  eapply logs_bind with (P1 := fun runtime l => l = [EvReadRuntime p (spec_id task) (Ok runtime)]).
  { apply logs_on_store; [done|]. intros e. apply failed_calm. calm_log. }
  intros runtime l2 ->.
  eapply logs_bind with (P1 := fun _ l => l = [] /\ state runtime = TaskState.kRunning).
  { apply logs_require; intros; [by bool_hyps|apply failed_calm; calm_log]. }
  intros _ l3 [-> Hrun]. destruct (attempt_id runtime) as [a|] eqn:Ha; [|apply logs_throw, failed_calm; calm_log].
  eapply logs_bind with (P1 := fun _ l => l = []); [apply logs_require; intros; [done|apply failed_calm; calm_log]|].
  intros _ l4 ->.
  eapply logs_bind; [eapply logs_mono; [apply logs_ReadReceipt|by intros|]|].
  { intros e l Hl. apply (failed_after (fun _ => False) _ [EvReadRuntime p (spec_id task) (Ok runtime)]); [done|calm_log|exact Hl]. }
  intros receipt l5 (res&->&Hres).
  eapply logs_mono; [apply logs_observe_and_act; intros r Hr; by apply Hres|..].
  - intros [what|u] l Hl; [calm_log|]. destruct Hl as (r&Hr&Hrec). destruct (Hres r Hr) as [-> Hm].
    exists task, runtime, a, r, l. done.
  - intros e l Hl.
    apply (failed_after (known_to receipt) _ [EvReadRuntime p (spec_id task) (Ok runtime); EvReadReceipt p (spec_id task) a res]);
      [|calm_log|exact Hl].
    intros r Hr. destruct (Hres r Hr) as [-> _]. exists p, (spec_id task), a. right. left.
Qed.

End Audit.
End Recovery.

(** C14. Recovery declares success only on proof.  For every file system and
    every store: when [recover_one] succeeds, the task was RUNNING, its
    attempt has a durable receipt that matches the frozen plan, and under the
    plan's target root the temporary file was looked at.  If it was absent or
    had not the receipt's size and digest, the final file was opened and read
    to its end with them.  If it had them, either the final file was read with
    them too and the temporary file was read again, removed and the directory
    synced, or the temporary file was read again, synced, renamed without
    replacing anything and the directory synced.  Only then was the success
    recorded, under the recovery epoch and against the old owner.  When it
    fails no success was recorded, the task was released at most once, and no
    file was renamed or removed unless a file of a stored receipt had been
    proved. *)
Theorem recovery_succeeds_only_on_proof {F D} `{FileOps F} `{RecoveryStore D}
    Blake3 dump artifact rep asset (w : World F D) :
  let (res, w') := recover_one Blake3 dump artifact rep asset w in
  exists l, log w' = log w ++ l /\
    match res with
    | Ok (inr _) => task_recovered Blake3 artifact rep asset l
    | Ok (inl _) => Forall calm l
    | Err _ => not_recovered Blake3 l
    end.
Proof. apply logs_recover_one. Qed.
