(* ===== verification/Verify.v ===== *)
(** * Verify: the independent check of a migrated plan, and its status

    Models src/pipeline/verify_service.cpp over any file system and store,
    and src/pipeline/status_service.cpp over the runtime database. *)

From stdpp Require Import pretty.
From S2P Require Import Prelude Status Bytes Json RelativePath Task Reconciler Assets Diff CanonicalPlan PlanArtifact Sqlite Tables TaskRepository FileOps CopyVerify Attempt Materialize Recovery.

Record VerificationSummary := mkVerificationSummary {
  summary_bytes : Z;
  summary_expected : DiffFileState;
  summary_observed : DiffFileState;
}.

Section Verify.
Context (Blake3 : string -> Digest).
Context (dump : Json -> Exn string) (parse : string -> Exn Json).
Context {W : Type} `{FileOps W} `{RecoveryStore W} `{Workspace W} `{Console W}.

(** [VerifyPlanAsset]: the source is read first, guarded by its identity,
    and the target is read against the digest of the source. *)
Definition VerifyPlanAsset (source_root_fd target_root_fd : Fd) (asset : MinimalPlanAsset) (buffer : Z)
    : M W VerificationSummary :=
  do* require (length (components (plan_target_path asset)) =? 1)%nat
    (Invalid "single-thread verification requires a single target path component");
  let size := FileIdentity.size (source_identity asset) in
  let target := raw_bytes (plan_target_path asset) in
  let* guard := Open source_root_fd (guarded_asset asset) in
  let* guard := VerifyBeforeRead guard in
  let* source := VerifyBinary Blake3 new_hasher (guard_fd guard) size None buffer in
  do* VerifyAfterRead guard;
  do* require ((target_before source == manifest_identity guard) && (target_after source == manifest_identity guard)
               && (bytes_read source =? size))
    (Internal "source changed during independent verification");
  let* target_fd := OpenSource target_root_fd (plan_target_path asset) in
  let* observed := VerifyBinary Blake3 new_hasher target_fd size (Some (target_digest source)) buffer in
  ret (mkVerificationSummary (bytes_read observed)
         (mkDiffFileState target (bytes_read source) (Some (target_digest source)))
         (mkDiffFileState target (bytes_read observed) (Some (target_digest observed)))).

(** The loop over the assets: the bytes so far and both lists of states. *)
Fixpoint verify_assets (plan_id : string) (source_root_fd target_root_fd : Fd) (l : list MinimalPlanAsset)
    (verified_bytes : Z) (expected observed : list DiffFileState)
    : M W (Z * list DiffFileState * list DiffFileState) :=
  match l with
  | [] => ret (verified_bytes, expected, observed)
  | asset :: l =>
      let* task := lift (TaskSpecForPlanAsset Blake3 asset) in
      let* runtime := store_ReadRuntime plan_id (spec_id task) in
      do* require (state runtime == TaskState.kSucceeded)
        (Invalid "binary verification requires every task to be succeeded");
      let* summary := VerifyPlanAsset source_root_fd target_root_fd asset kBufferSize in
      do* require (negb (uint64_max - summary_bytes summary <? verified_bytes))
        (Internal "verified byte count overflowed");
      verify_assets plan_id source_root_fd target_root_fd l (verified_bytes + summary_bytes summary)
        (expected ++ [summary_expected summary]) (observed ++ [summary_observed summary])
  end.

(** [VerifyService::Execute], past the opening of the workspace *)
Definition VerifyPlan (artifact : FrozenPlanFile) : M W unit :=
  let plan := frozen_plan artifact in
  let* source_root := store_ReadManifestSourceRoot (source_manifest_id plan) in
  let* source_root_fd := OpenRoot source_root kExisting in
  let* target_root_fd := OpenRoot (target_root plan) kExisting in
  let* result := verify_assets (frozen_plan_id artifact) source_root_fd target_root_fd (assets plan) 0 [] [] in
  let diff := DiffFileStates result.1.2 result.2 in
  let identical := bool_decide (diff = []) in
  let* report := throwing (RenderAuditReport dump
    (mkAuditReport (frozen_plan_id artifact) "" "verify" (if identical then "IDENTICAL" else "MISMATCH") diff
       (if identical then "" else "target differs from source"))) in
  do* Print report;
  do* require identical (Internal "target binary verification did not match source");
  Print ("verify completed: " +:+ frozen_plan_id artifact +:+ " tasks=" +:+ pretty (Z.of_nat (length (assets plan)))
    +:+ " status=IDENTICAL bytes=" +:+ pretty result.1.1 +:+ String LF "").

(** [VerifyService::Execute] *)
Definition VerifyService_Execute (input_path : string) : M W unit :=
  let* artifact := ReadPlan Blake3 parse input_path "verification plan must contain at least one asset" in
  do* workspace_OpenDatabase;
  VerifyPlan artifact.

End Verify.

(** ** The status of a plan *)

Definition TaskStateName (state : TaskState.t) : string :=
  match state with
  | TaskState.kPlanned => "PLANNED"
  | TaskState.kReady => "READY"
  | TaskState.kRunning => "RUNNING"
  | TaskState.kSucceeded => "SUCCEEDED"
  | TaskState.kRetryable => "RETRYABLE"
  | TaskState.kFailed => "FAILED"
  | TaskState.kNeedsReview => "NEEDS_REVIEW"
  | TaskState.kInconsistent => "INCONSISTENT"
  | TaskState.kSkipped => "SKIPPED"
  end.

(** The artifact on the command line is the one the database is bound to. *)
Definition check_binding (artifact : FrozenPlanFile) : op unit :=
  do* pipeline_prepare "prepare status plan lookup";
  do* BindPipelineText (frozen_plan_id artifact);
  let* row := run_query "read status plan lookup" (select_plan (frozen_plan_id artifact)) in
  match row with
  | None => throw (mkStatus StatusCode.kNotFound ("materialized plan was not found: " +:+ frozen_plan_id artifact))
  | Some row =>
      do* require ((str_size (pl_artifact_digest row) =? 32) && (str_size (pl_semantic_digest row) =? 32))
        (Internal "status plan digest has an invalid type or size");
      require ((pl_artifact_digest row == bytes (artifact_digest artifact))
               && (pl_semantic_digest row == bytes (semantic_digest artifact)))
        (Internal "frozen plan digest does not match SQLite binding")
  end.

(** [" " << TaskStateName(state) << "=" << count] for the counts that are not 0 *)
Definition state_text (index count : Z) : string :=
  if count =? 0 then ""
  else " " +:+ match of_int (E := TaskState.t) index with Some st => TaskStateName st | None => "UNKNOWN" end
       +:+ "=" +:+ pretty count.

Definition status_text (plan_id : string) (counts : list Z) : string :=
  let task_count := foldl (fun total count => to_uint64 (total + count)) 0 counts in
  "status: " +:+ plan_id +:+ " tasks=" +:+ pretty task_count
  +:+ str_concat (imap (fun index count => state_text (Z.of_nat index) count) counts) +:+ String LF "".

(** [StatusService::Execute] on the bytes of the plan file; the result is what
    it prints. *)
Definition StatusService_Execute (Blake3 : string -> Digest) (parse : string -> Exn Json) (plan_bytes : string)
    : op string :=
  let* artifact := lift (ReadFrozenPlan Blake3 parse plan_bytes) in
  do* check_binding artifact;
  let* counts := ReadTaskStateCounts (frozen_plan_id artifact) in
  ret (status_text (frozen_plan_id artifact) counts).
