(* ===== verification/VerifyTheorems.v ===== *)
(** * VerifyTheorems: IDENTICAL means that both files were read and agree

    The log of a verification for every file system and every store: it only
    reads, and when it succeeds each asset's source and target were read to
    the end, the source under its frozen identity, with the same size and
    digest. *)

From S2P Require Import Prelude Status Bytes Json Order RelativePath Task Reconciler Assets Diff CanonicalPlan PlanArtifact Sqlite Logic Tables TaskRepository RepositoryRefine FileOps CopyVerify CopyTheorems Logs Attempt Materialize MaterializeTheorems Recovery Verify.

(** Calls that change nothing. *)
Definition read_only (e : Event) : Prop :=
  match e with
  | EvOpenRoot _ kExisting _ | EvOpenSource _ _ _ | EvStatFd _ _ | EvRead _ _ _ | EvReadRuntime _ _ _
  | EvReadSourceRoot _ _ | EvReadPlanFile _ _ | EvOpenDatabase _ | EvPrint _ => True
  | _ => False
  end.

Lemma on_fd_read_only fd l : Forall (on_fd fd) l -> Forall read_only l.
Proof. intros Hl. eapply Forall_impl; [exact Hl|]. by intros []. Qed.

Ltac read_only_log :=
  repeat first
    [ exact I | assumption | apply Forall_nil_2 | apply Forall_cons_2 | apply Forall_app_2
    | eapply on_fd_read_only; eassumption | progress cbn [read_only] | progress cbv beta ].

Section Verify.
Context (Blake3 : string -> Digest).
Context {F D : Type} `{FileOps F} `{RecoveryStore D}.
Local Notation logs := (Logs.logs (F := F) (D := D)).
Implicit Types (l : list Event).

Definition only_reads (_ : Status) (l : list Event) : Prop := Forall read_only l.

(** The check of one asset: its log, and the bytes read of both files. *)
Record Check := mkCheck { check_log : list Event; source_bytes : string; target_bytes : string }.

Definition source_state (asset : MinimalPlanAsset) (c : Check) : DiffFileState :=
  mkDiffFileState (raw_bytes (plan_target_path asset)) (str_size (source_bytes c)) (Some (Blake3 (source_bytes c))).
Definition target_state (asset : MinimalPlanAsset) (c : Check) : DiffFileState :=
  mkDiffFileState (raw_bytes (plan_target_path asset)) (str_size (target_bytes c)) (Some (Blake3 (target_bytes c))).

(** The source is opened and read to the end, its identity the frozen one
    before and after; the target is opened and read to the end. *)
Inductive files_read (source_root target_root : Fd) (asset : MinimalPlanAsset) : Check -> Prop :=
  | files_read_intro sfd tfd ls lt :
      Forall (on_fd sfd) ls -> Forall (on_fd tfd) lt -> to_the_end sfd ls -> to_the_end tfd lt ->
      str_size (reads_of sfd ls) = FileIdentity.size (source_identity asset) ->
      let stat := EvStatFd sfd (Ok (source_identity asset)) in
      files_read source_root target_root asset
        (mkCheck ([EvOpenSource source_root (plan_source_path asset) (Ok sfd); stat; stat] ++ ls
                  ++ [stat; EvOpenSource target_root (plan_target_path asset) (Ok tfd)] ++ lt)
           (reads_of sfd ls) (reads_of tfd lt)).

Lemma logs_read_file fd size digest buffer :
  logs (VerifyBinary Blake3 new_hasher fd size digest buffer)
    (fun v l => Forall (on_fd fd) l /\ to_the_end fd l /\ bytes_read v = str_size (reads_of fd l) /\ target_digest v = Blake3 (reads_of fd l))
    only_reads.
Proof.
  intros w. eapply runs_mono; [by apply (runs_VerifyBinary Blake3)|]. intros r w' (l&[Hl _]&Hall&Hv).
  exists l. split; [done|]. destruct r as [v|e]; [|by eapply on_fd_read_only].
  by destruct (Hv v eq_refl) as (_&_&_&?&Hb&Hd&_).
Qed.

Lemma logs_guarded source_root asset :
  logs (let* g := Open source_root (guarded_asset asset) in VerifyBeforeRead g)
    (fun g l => exists fd, g = mkMutationGuard fd (source_identity asset) (source_identity asset)
       /\ l = [EvOpenSource source_root (plan_source_path asset) (Ok fd);
               EvStatFd fd (Ok (source_identity asset)); EvStatFd fd (Ok (source_identity asset))])
    only_reads.
Proof.
  unfold only_reads. eapply logs_bind with (P1 := fun g l => exists fd, g = mkMutationGuard fd (source_identity asset) (source_identity asset)
       /\ l = [EvOpenSource source_root (plan_source_path asset) (Ok fd); EvStatFd fd (Ok (source_identity asset))]).
  - unfold Open. eapply logs_bind with (P1 := fun fd l => l = [EvOpenSource source_root (plan_source_path asset) (Ok fd)]).
    { apply logs_on_files; intros; [done|read_only_log]. }
    intros fd l1 ->. eapply logs_bind with (P1 := fun i l => l = [EvStatFd fd (Ok i)]).
    { apply logs_on_files; intros; [done|read_only_log]. }
    intros i l2 ->. eapply logs_bind with (P1 := fun _ l => l = [] /\ i = source_identity asset).
    { apply logs_require; intros; [by bool_hyps|read_only_log]. }
    intros _ l3 [-> ->]. apply logs_ret. by exists fd.
  - intros g l1 (fd&->&->). unfold VerifyBeforeRead. cbn [guard_fd manifest_identity].
    eapply logs_bind with (P1 := fun i l => l = [EvStatFd fd (Ok i)]).
    { apply logs_on_files; intros; [done|read_only_log]. }
    intros i l2 ->. eapply logs_bind with (P1 := fun _ l => l = [] /\ i = source_identity asset).
    { apply logs_require; intros; [by bool_hyps|read_only_log]. }
    intros _ l3 [-> ->]. apply logs_ret. by exists fd.
Qed.

Lemma bind_bind {W A B C} (c : M W A) (f : A -> M W B) (g : B -> M W C) w :
  bind c (fun a => bind (f a) g) w = bind (bind c f) g w.
Proof. unfold bind. by destruct (c w) as [[a|e] w']. Qed.

Lemma logs_bind_bind {A B C} (c : M (World F D) A) (f : A -> M (World F D) B) (g : B -> M (World F D) C) P E :
  logs (bind (bind c f) g) P E -> logs (bind c (fun a => bind (f a) g)) P E.
Proof. intros Hl w. unfold runs. rewrite bind_bind. apply Hl. Qed.

Lemma logs_VerifyPlanAsset source_root target_root asset buffer :
  logs (VerifyPlanAsset Blake3 source_root target_root asset buffer)
    (fun s l => exists c, files_read source_root target_root asset c /\ l = check_log c
       /\ s = mkVerificationSummary (str_size (target_bytes c)) (source_state asset c) (target_state asset c))
    only_reads.
Proof.
  unfold VerifyPlanAsset, only_reads. cbv zeta.
  eapply logs_bind with (P1 := fun _ l => l = []); [apply logs_require; intros; [done|read_only_log]|]. intros _ l0 ->.
  apply logs_bind_bind. eapply logs_bind; [apply logs_guarded|]. intros g l1 (sfd&->&->). cbn [guard_fd manifest_identity].
  eapply logs_bind; [eapply logs_mono; [apply logs_read_file|by intros|intros e l Hl; unfold only_reads in Hl; read_only_log]|].
  intros v ls (Hls&Hse&Hb&Hd).
  eapply logs_bind with (P1 := fun _ l => l = [EvStatFd sfd (Ok (source_identity asset))]).
  { unfold VerifyAfterRead, VerifyIdentity. cbn [guard_fd opened_identity].
    eapply logs_bind with (P1 := fun i l => l = [EvStatFd sfd (Ok i)]); [apply logs_on_files; intros; [done|read_only_log]|].
    intros i l ->. apply logs_require; intros; [by bool_hyps; subst|read_only_log]. }
  intros _ l3 ->.
  eapply logs_bind with (P1 := fun _ l => l = [] /\ bytes_read v = FileIdentity.size (source_identity asset)).
  { apply logs_require; intros; [by bool_hyps|read_only_log]. }
  intros _ l4 [-> Hsize].
  eapply logs_bind with (P1 := fun fd l => l = [EvOpenSource target_root (plan_target_path asset) (Ok fd)]).
  { apply logs_on_files; intros; [done|read_only_log]. }
  intros tfd l5 ->.
  eapply logs_bind; [eapply logs_mono; [apply logs_read_file|by intros|intros e l Hl; unfold only_reads in Hl; read_only_log]|].
  intros v2 lt (Hlt&Hte&Hb2&Hd2). apply logs_ret. rewrite Hb in Hsize.
  eexists. split; [by apply (files_read_intro source_root target_root asset sfd tfd ls lt)|].
  cbn [check_log source_state target_state source_bytes target_bytes]. unfold source_state, target_state.
  cbn [source_bytes target_bytes]. rewrite Hb, Hd, Hb2, Hd2, app_nil_r. done.
Qed.

(** One turn of the loop: the task is SUCCEEDED and the files were read. *)
Definition asset_checked (plan_id : string) (source_root target_root : Fd) (asset : MinimalPlanAsset) (c : Check) : Prop :=
  exists task runtime c', TaskSpecForPlanAsset Blake3 asset = Ok task /\ state runtime = TaskState.kSucceeded
    /\ files_read source_root target_root asset c'
    /\ c = mkCheck (EvReadRuntime plan_id (spec_id task) (Ok runtime) :: check_log c') (source_bytes c') (target_bytes c').

Lemma logs_verify_assets p source_root target_root assets n E O :
  logs (verify_assets Blake3 p source_root target_root assets n E O)
    (fun r l => exists checks, l = concat (check_log <$> checks)
       /\ Forall2 (asset_checked p source_root target_root) assets checks
       /\ r.1.2 = E ++ zip_with source_state assets checks /\ r.2 = O ++ zip_with target_state assets checks)
    only_reads.
Proof.
  unfold only_reads. revert n E O. induction assets as [|asset assets IH]; intros n E O; cbn [verify_assets].
  - apply logs_ret. exists []. rewrite !app_nil_r. by repeat constructor.
  - eapply logs_bind with (P1 := fun task l => l = [] /\ TaskSpecForPlanAsset Blake3 asset = Ok task).
    { apply logs_lift. destruct (TaskSpecForPlanAsset _ _); [done|read_only_log]. }
    intros task l1 [-> Htask].
    eapply logs_bind with (P1 := fun r l => l = [EvReadRuntime p (spec_id task) (Ok r)]).
    { apply logs_on_store; intros; [done|read_only_log]. }
    intros runtime l2 ->. eapply logs_bind with (P1 := fun _ l => l = [] /\ state runtime = TaskState.kSucceeded).
    { apply logs_require; intros; [by bool_hyps|read_only_log]. }
    intros _ l3 [-> Hst].
    eapply logs_bind; [eapply logs_mono; [apply logs_VerifyPlanAsset|by intros|intros e l Hl; unfold only_reads in Hl; read_only_log]|].
    intros s l4 (c&Hc&->&->). cbn [summary_bytes summary_expected summary_observed].
    assert (Forall read_only (check_log c)) as Hro by (destruct Hc; cbn [check_log]; read_only_log).
    eapply logs_bind with (P1 := fun _ l => l = []); [apply logs_require; intros; [done|read_only_log]|]. intros _ l5 ->.
    eapply logs_mono; [apply IH|..].
    + intros r l (checks&->&Hall&Hr1&Hr2).
      set (c0 := mkCheck (EvReadRuntime p (spec_id task) (Ok runtime) :: check_log c) (source_bytes c) (target_bytes c)).
      exists (c0 :: checks). split; [by rewrite app_nil_l|]. split; [constructor; [by exists task, runtime, c|done]|].
      cbn [zip_with]. by rewrite Hr1, Hr2, <- !app_assoc.
    + intros e l Hl. cbv beta in Hl. read_only_log.
Qed.

(** The first asset of the plan with its target path. *)
Definition first_with_target (assets : list MinimalPlanAsset) (i : nat) (asset : MinimalPlanAsset) : Prop :=
  assets !! i = Some asset /\ forall j a, (j < i)%nat -> assets !! j = Some a ->
    raw_bytes (plan_target_path a) <> raw_bytes (plan_target_path asset).

Lemma state_at_first (l : list DiffFileState) i s :
  l !! i = Some s -> (forall j s', (j < i)%nat -> l !! j = Some s' -> path s' <> path s) ->
  state_at l (path s) = Some s.
Proof.
  unfold state_at. revert i. induction l as [|x l IH]; intros i Hi Hfirst; [done|]. destruct i as [|i].
  - injection Hi as ->. by rewrite filter_cons_True.
  - rewrite filter_cons_False.
    + apply (IH i Hi). intros j s' Hj. apply (Hfirst (S j)). lia.
    + apply (Hfirst 0%nat x); [lia|done].
Qed.

Lemma no_difference assets checks i asset c :
  DiffFileStates (zip_with source_state assets checks) (zip_with target_state assets checks) = [] ->
  first_with_target assets i asset -> checks !! i = Some c ->
  str_size (source_bytes c) = str_size (target_bytes c) /\ Blake3 (source_bytes c) = Blake3 (target_bytes c).
Proof.
  intros Hdiff [Hi Hfirst] Hc.
  assert (forall (f : MinimalPlanAsset -> Check -> DiffFileState),
    (forall a c, path (f a c) = raw_bytes (plan_target_path a)) ->
    state_at (zip_with f assets checks) (raw_bytes (plan_target_path asset)) = Some (f asset c)) as Hat.
  { intros f Hf. rewrite <- (Hf asset c). apply (state_at_first _ i); [by rewrite lookup_zip_with, Hi, Hc|].
    intros j s' Hj. rewrite lookup_zip_with. destruct (assets !! j) as [a|] eqn:Ha; [|done].
    destruct (checks !! j); [|done]. intros [= <-]. rewrite !Hf. by apply (Hfirst j). }
  pose proof (Hat source_state ltac:(done)) as H1. pose proof (Hat target_state ltac:(done)) as H2.
  destruct (change_of (state_at (zip_with source_state assets checks) (raw_bytes (plan_target_path asset)))
    (state_at (zip_with target_state assets checks) (raw_bytes (plan_target_path asset)))) as [k|] eqn:Hk.
  - apply elem_of_report in Hk. rewrite Hdiff in Hk. by apply elem_of_nil in Hk.
  - rewrite H1, H2 in Hk. cbn [change_of] in Hk. case_decide as Heq; [|done].
    destruct Heq as [Hs Hd]. cbn in Hs, Hd. by injection Hd.
Qed.

Context (dump : Json -> Exn string).

(** What a successful verification shows. *)
Definition identical (artifact : FrozenPlanFile) (l : list Event) : Prop :=
  let plan := frozen_plan artifact in
  exists pre checks post source_root_path source_root target_root_fd,
    l = pre ++ concat (check_log <$> checks) ++ post
    /\ pre = [EvReadSourceRoot (source_manifest_id plan) (Ok source_root_path);
              EvOpenRoot source_root_path kExisting (Ok source_root);
              EvOpenRoot (target_root plan) kExisting (Ok target_root_fd)]
    /\ Forall2 (asset_checked (frozen_plan_id artifact) source_root target_root_fd) (assets plan) checks
    /\ forall i asset c, first_with_target (assets plan) i asset -> checks !! i = Some c ->
         str_size (source_bytes c) = str_size (target_bytes c) /\ Blake3 (source_bytes c) = Blake3 (target_bytes c).

Lemma checks_read_only p sroot troot assets checks :
  Forall2 (asset_checked p sroot troot) assets checks -> Forall read_only (concat (check_log <$> checks)).
Proof.
  induction 1 as [|a c assets checks (task&runtime&c'&_&_&Hc&->) _ IH]; [constructor|].
  cbn [fmap list_fmap concat check_log]. destruct Hc; cbn [check_log]. read_only_log.
Qed.

Lemma logs_VerifyPlan artifact :
  logs (VerifyPlan Blake3 dump artifact) (fun _ l => Forall read_only l /\ identical artifact l) only_reads.
Proof.
  unfold VerifyPlan, only_reads. cbv zeta. set (plan := frozen_plan artifact).
  eapply logs_bind with (P1 := fun r l => l = [EvReadSourceRoot (source_manifest_id plan) (Ok r)]).
  { apply logs_on_store; intros; [done|read_only_log]. }
  intros spath l1 ->. eapply logs_bind with (P1 := fun fd l => l = [EvOpenRoot spath kExisting (Ok fd)]).
  { apply logs_on_files; intros; [done|read_only_log]. }
  intros sroot l2 ->. eapply logs_bind with (P1 := fun fd l => l = [EvOpenRoot (target_root plan) kExisting (Ok fd)]).
  { apply logs_on_files; intros; [done|read_only_log]. }
  intros troot l3 ->.
  eapply logs_bind; [eapply logs_mono; [apply logs_verify_assets|by intros|intros e l Hl; unfold only_reads in Hl; read_only_log]|].
  intros [[n E] O] l4 (checks&->&Hall&HE&HO). cbn [fst snd] in *. cbn in HE, HO. subst E O.
  pose proof (checks_read_only _ _ _ _ _ Hall) as Hro.
  eapply logs_bind with (P1 := fun _ l => l = []); [apply logs_throwing; intros; [done|read_only_log]|]. intros text l5 ->.
  eapply logs_bind with (P1 := fun _ l => l = [EvPrint text]); [by apply logs_Print|]. intros _ l6 ->.
  eapply logs_bind with (P1 := fun _ l => l = [] /\
    DiffFileStates (zip_with source_state (assets plan) checks) (zip_with target_state (assets plan) checks) = []).
  { apply logs_require; intros; [by bool_hyps|read_only_log]. }
  intros _ l7 [-> Hdiff]. apply logs_Print. split; [read_only_log|].
  exists [EvReadSourceRoot (source_manifest_id plan) (Ok spath); EvOpenRoot spath kExisting (Ok sroot);
    EvOpenRoot (target_root plan) kExisting (Ok troot)], checks. eexists. exists spath, sroot, troot.
  split; [by rewrite !app_nil_l|]. split; [done|]. split; [done|].
  intros i asset c Hfirst Hc. by eapply no_difference.
Qed.

End Verify.

(** C16. A verification changes nothing, and when it succeeds both sides agree:
    for every asset, in order, the store has its task SUCCEEDED, its source
    was opened under the source root and read to the end with its frozen
    identity before and after, and its target was opened under the plan's
    target root and read to the end; and for the first asset of every target
    path the bytes read have the same size and the same digest. *)
Theorem verification_means_identical {F D} `{FileOps F} `{RecoveryStore D} Blake3 dump artifact (w : World F D) :
  let (r, w') := VerifyPlan Blake3 dump artifact w in
  exists l, log w' = log w ++ l /\ Forall read_only l /\
    match r with Ok _ => identical Blake3 artifact l | Err _ => True end.
Proof.
  pose proof (logs_VerifyPlan Blake3 dump artifact w) as Hl. unfold runs in Hl.
  destruct (VerifyPlan Blake3 dump artifact w) as [[u|e] w']; destruct Hl as (l&Hl&Hr); exists l; [|done].
  by destruct Hr.
Qed.

(** The status command reads, and prints the counts of the tables for an
    artifact that is the one they are bound to. *)
Lemma status_counts_the_tasks Blake3 parse plan_bytes db :
  commits (StatusService_Execute Blake3 parse plan_bytes) (fun text db' => db' = db /\
    exists artifact row, ReadFrozenPlan Blake3 parse plan_bytes = Ok artifact
      /\ migration_plan db !! frozen_plan_id artifact = Some row
      /\ pl_artifact_digest row = bytes (artifact_digest artifact)
      /\ pl_semantic_digest row = bytes (semantic_digest artifact)
      /\ text = status_text (frozen_plan_id artifact) (state_counts (frozen_plan_id artifact) db)) db.
Proof.
  apply commits_wp. intros n. unfold StatusService_Execute, check_binding, pipeline_prepare, BindPipelineText. wp_run.
  unfold select_plan. destruct (migration_plan db !! _) as [row|] eqn:Hrow; wp_run. bool_hyps.
  apply wp_ReadTaskStateCounts. intros _. wp_run. split; [done|]. by eexists _, row.
Qed.
