(* ===== verification/Migrate.v ===== *)
(** * Migrate: the migration command and its pool of workers

    Models src/pipeline/migration_service.cpp.  [PrepareMigration] is the
    single-threaded part, on the runtime database; the producer and the
    workers, which share a bounded queue under one mutex, are a step relation
    whose steps are the critical sections and the calls made outside them.  A
    wait on the condition variable tests its predicate under the mutex and
    goes to sleep where it fails; a thread asleep tests again only after a
    [notify_all] or a spurious wakeup.
    What a claim or a task's execution returns is left open here: every value
    is possible ([ExecuteClaimedTask] is in Attempt.v, the writer behind the
    claims in DbWriter.v). *)

From S2P Require Import Prelude Status Bytes Task CanonicalPlan PlanArtifact Sqlite Tables TaskRepository Attempt Materialize.

(** ** Before the threads *)

Section Prepare.
Context (Blake3 : string -> Digest).

(** [workers], [db_batch_size] *)
Definition check_arguments (workers db_batch_size : Z) : Status :=
  if (workers =? 0) || (8 <? workers) then Invalid "migration worker count must be between 1 and 8"
  else if (db_batch_size =? 0) || (16 <? db_batch_size)
  then Invalid "runtime DB batch size must be between 1 and 16"
  else Status_Ok.

(** [asset_indices.emplace(id, index)] keeps the first index. *)
Definition emplace_index (id : string) (index : nat) (m : gmap string nat) : gmap string nat :=
  match m !! id with Some _ => m | None => <[id := index]> m end.

(** The loop that indexes the assets, makes RETRYABLE tasks READY and looks
    for one that can run. *)
Fixpoint index_assets (plan_id : string) (l : list MinimalPlanAsset) (index : nat)
    (asset_indices : gmap string nat) (ready_found : bool) : op (gmap string nat * bool) :=
  match l with
  | [] => ret (asset_indices, ready_found)
  | asset :: l =>
      let* task := lift (TaskSpecForPlanAsset Blake3 asset) in
      let asset_indices := emplace_index (spec_id task) index asset_indices in
      let* runtime := ReadRuntime plan_id (spec_id task) in
      do* (if state runtime == TaskState.kRetryable then SetReady plan_id (spec_id task) else ret tt);
      index_assets plan_id l (S index) asset_indices
        (ready_found || (state runtime == TaskState.kReady) || (state runtime == TaskState.kRetryable))
  end.

Record Prepared := mkPrepared {
  task_count : Z;
  asset_indices : gmap string nat;
  migration_epoch : Z;
  migration_source_root : string;
}.

(** [MigrationService::Execute] from the plan to the start of the writer *)
Definition PrepareMigration (artifact : FrozenPlanFile) (input_path : string) : op Prepared :=
  let plan_id := frozen_plan_id artifact in
  let* count := MaterializePlan Blake3 artifact input_path in
  let* counts := ReadTaskStateCounts plan_id in
  do* require (nth (Z.to_nat (to_int TaskState.kRunning)) counts 0 =? 0)
    (Invalid "migrate found RUNNING task; resume is required before migrate");
  let* indexed := index_assets plan_id (assets (frozen_plan artifact)) 0 ∅ false in
  do* require indexed.2 (mkStatus StatusCode.kNotFound "no READY task remains in the materialized plan");
  let* epoch := AcquireNextExecutionEpoch plan_id in
  let* source_root := ReadManifestSourceRoot (source_manifest_id (frozen_plan artifact)) in
  ret (mkPrepared count indexed.1 epoch source_root).

End Prepare.

(** ** The producer and the workers *)

Record QueuedTask := mkQueuedTask { claim : ClaimedTask; asset_index : nat }.

Definition queue_capacity : nat := 8.

(** Where a worker is: before the test of its wait, asleep in it, executing
    its item, or returned. *)
Inductive Worker := Waiting | Sleeping | Executing (item : QueuedTask) | Returned.

(** Where the producer is: before the test of its wait, asleep in it, calling
    [ClaimNextReady], about to push a claim, to notify of it, to set
    [producer_done], to notify of that, joining the workers, done. *)
Inductive Producer :=
  | AtWait | Suspended | Claiming | Pushing (item : QueuedTask) | Pushed | Leaving | Left | Joining | Finished.

Record Pool := mkPool {
  queue : list QueuedTask;
  producer_done : bool;
  first_error : Status;
  messages : list string;
  workers : list Worker;
  producer : Producer;
  claimed_count : Z;
  producer_error : Status;
}.

Definition start (count : nat) : Pool :=
  mkPool [] false Status_Ok [] (replicate count Waiting) AtWait 0 Status_Ok.

Definition set_producer (p : Producer) (s : Pool) : Pool :=
  mkPool (queue s) (producer_done s) (first_error s) (messages s) (workers s) p (claimed_count s) (producer_error s).
Definition set_worker (i : nat) (w : Worker) (s : Pool) : Pool :=
  mkPool (queue s) (producer_done s) (first_error s) (messages s) (<[i := w]> (workers s)) (producer s)
    (claimed_count s) (producer_error s).
Definition set_queue (q : list QueuedTask) (s : Pool) : Pool :=
  mkPool q (producer_done s) (first_error s) (messages s) (workers s) (producer s) (claimed_count s) (producer_error s).

(** [queue_changed.notify_all()] *)
Definition wake_worker (w : Worker) : Worker := match w with Sleeping => Waiting | w => w end.
Definition wake_producer (p : Producer) : Producer := match p with Suspended => AtWait | p => p end.
Definition notify_all (s : Pool) : Pool :=
  mkPool (queue s) (producer_done s) (first_error s) (messages s) (wake_worker <$> workers s)
    (wake_producer (producer s)) (claimed_count s) (producer_error s).

(** The producer's critical sections and calls. *)
Definition producer_wakes (s : Pool) : bool :=
  (length (queue s) <? queue_capacity)%nat || negb (ok (first_error s)).
Definition producer_checks (s : Pool) : Pool :=
  set_producer (if negb (ok (first_error s)) then Leaving else Claiming) s.
Definition producer_claims (indices : gmap string nat) (r : StatusOr ClaimedTask) (s : Pool) : Pool :=
  let leave count error :=
    mkPool (queue s) (producer_done s) (first_error s) (messages s) (workers s) Leaving count error in
  match r with
  | Err e =>
      leave (claimed_count s) (if bool_decide (code e = StatusCode.kNotFound) then producer_error s else e)
  | Ok c =>
      match indices !! claimed_task_id c with
      | None => leave (claimed_count s + 1) (Internal "claimed task is missing from frozen plan")
      | Some index =>
          mkPool (queue s) (producer_done s) (first_error s) (messages s) (workers s)
            (Pushing (mkQueuedTask c index)) (claimed_count s + 1) (producer_error s)
      end
  end.
Definition producer_pushes (item : QueuedTask) (s : Pool) : Pool :=
  set_producer Pushed (set_queue (queue s ++ [item]) s).
Definition producer_notifies (s : Pool) : Pool := set_producer AtWait (notify_all s).
Definition producer_leaves (s : Pool) : Pool :=
  mkPool (queue s) true (first_error s) (messages s) (workers s) Left (claimed_count s) (producer_error s).
Definition producer_notifies_done (s : Pool) : Pool := set_producer Joining (notify_all s).

(** A worker's result, under the lock. *)
Definition record_result (r : StatusOr string) (s : Pool) : Pool :=
  match r with
  | Ok message =>
      mkPool (queue s) (producer_done s) (first_error s) (messages s ++ [message]) (workers s) (producer s)
        (claimed_count s) (producer_error s)
  | Err e =>
      mkPool (queue s) (producer_done s) (if ok (first_error s) then e else first_error s) (messages s)
        (workers s) (producer s) (claimed_count s) (producer_error s)
  end.

(** The critical sections of a worker, both of which end in [notify_all]. *)
Definition worker_wakes (s : Pool) : bool := producer_done s || match queue s with [] => false | _ => true end.
Definition worker_takes (i : nat) (item : QueuedTask) (rest : list QueuedTask) (s : Pool) : Pool :=
  notify_all (set_worker i (Executing item) (set_queue rest s)).
Definition worker_finishes (i : nat) (r : StatusOr string) (s : Pool) : Pool :=
  notify_all (set_worker i Waiting (record_result r s)).

(** What a step lets be seen. *)
Inductive Label :=
  | Internal_step
  | Spurious_wakeup
  | Claim_returns (r : StatusOr ClaimedTask)
  | Push (item : QueuedTask)
  | Take (item : QueuedTask)
  | Execution_returns (item : QueuedTask) (r : StatusOr string).

Inductive step (indices : gmap string nat) : Pool -> Label -> Pool -> Prop :=
  | producer_check s :
      producer s = AtWait -> producer_wakes s = true -> step indices s Internal_step (producer_checks s)
  | producer_sleep s :
      producer s = AtWait -> producer_wakes s = false -> step indices s Internal_step (set_producer Suspended s)
  | producer_claim s r :
      producer s = Claiming -> step indices s (Claim_returns r) (producer_claims indices r s)
  | producer_push s item :
      producer s = Pushing item -> step indices s (Push item) (producer_pushes item s)
  | producer_notify s :
      producer s = Pushed -> step indices s Internal_step (producer_notifies s)
  | producer_leave s :
      producer s = Leaving -> step indices s Internal_step (producer_leaves s)
  | producer_notify_done s :
      producer s = Left -> step indices s Internal_step (producer_notifies_done s)
  | producer_join s :
      producer s = Joining -> Forall (eq Returned) (workers s) -> step indices s Internal_step (set_producer Finished s)
  | producer_spurious s :
      producer s = Suspended -> step indices s Spurious_wakeup (set_producer AtWait s)
  | worker_take s i item rest :
      workers s !! i = Some Waiting -> worker_wakes s = true -> queue s = item :: rest ->
      step indices s (Take item) (worker_takes i item rest s)
  | worker_return s i :
      workers s !! i = Some Waiting -> worker_wakes s = true -> queue s = [] ->
      step indices s Internal_step (set_worker i Returned s)
  | worker_sleep s i :
      workers s !! i = Some Waiting -> worker_wakes s = false -> step indices s Internal_step (set_worker i Sleeping s)
  | worker_finish s i item r :
      workers s !! i = Some (Executing item) -> step indices s (Execution_returns item r) (worker_finishes i r s)
  | worker_spurious s i :
      workers s !! i = Some Sleeping -> step indices s Spurious_wakeup (set_worker i Waiting s).

Inductive runs_to (indices : gmap string nat) (s : Pool) : list Label -> Pool -> Prop :=
  | run_start : runs_to indices s [] s
  | run_step t l s1 s2 : runs_to indices s t s1 -> step indices s1 l s2 -> runs_to indices s (t ++ [l]) s2.

(** What [Execute] prints and returns once the workers are joined. *)
Definition migration_output (s : Pool) : string := foldr String.append "" (messages s).
Definition migration_result (s : Pool) : Status :=
  if negb (ok (producer_error s)) then producer_error s
  else if negb (ok (first_error s)) then first_error s
  else if claimed_count s =? 0 then mkStatus StatusCode.kNotFound "no eligible ready task exists"
  else Status_Ok.
