(* ===== verification/MigrateTheorems.v ===== *)
(** * MigrateTheorems: the pool of the migration command

    Every interleaving of the producer and the workers: the queue stays
    within its capacity, each claim is executed exactly once before the
    command returns, no wakeup is lost so that nothing can block, and the
    number of steps is bounded by those of the claims and of the spurious
    wakeups. *)

From S2P Require Import Prelude Status Bytes Task Sqlite TaskRepository Migrate.

(** ** What a trace shows *)

Definition claims_of (t : list Label) : list ClaimedTask :=
  omap (fun l => match l with Claim_returns (Ok c) => Some c | _ => None end) t.
Definition claim_results (t : list Label) : list (StatusOr ClaimedTask) :=
  omap (fun l => match l with Claim_returns r => Some r | _ => None end) t.
Definition claim_calls (t : list Label) : nat := length (claim_results t).
Definition spurious (t : list Label) : nat :=
  length (omap (fun l => match l with Spurious_wakeup => Some tt | _ => None end) t).
Definition pushed (t : list Label) : list QueuedTask :=
  omap (fun l => match l with Push item => Some item | _ => None end) t.
Definition taken (t : list Label) : list QueuedTask :=
  omap (fun l => match l with Take item => Some item | _ => None end) t.
Definition executions (t : list Label) : list (QueuedTask * StatusOr string) :=
  omap (fun l => match l with Execution_returns item r => Some (item, r) | _ => None end) t.

(** The messages of the successful executions and the first failure. *)
Definition messages_of (l : list (QueuedTask * StatusOr string)) : list string :=
  omap (fun e => match e.2 with Ok m => Some m | Err _ => None end) l.
Definition first_failure (l : list (QueuedTask * StatusOr string)) : Status :=
  foldl (fun first e => match e.2 with Ok _ => first | Err s => if ok first then s else first end) Status_Ok l.

(** The error of a call of ClaimNextReady, if it is one: that nothing is ready
    is none, a task that the plan has not is. *)
Definition claim_failure (indices : gmap string nat) (r : StatusOr ClaimedTask) : option Status :=
  match r with
  | Err e => if bool_decide (code e = StatusCode.kNotFound) then None else Some e
  | Ok c =>
      match indices !! claimed_task_id c with
      | Some _ => None
      | None => Some (Internal "claimed task is missing from frozen plan")
      end
  end.
Definition producer_failure (indices : gmap string nat) (l : list (StatusOr ClaimedTask)) : Status :=
  foldl (fun e r => default e (claim_failure indices r)) Status_Ok l.

(** What the calls seen should make the command return. *)
Definition expected_result (indices : gmap string nat) (t : list Label) : Status :=
  if negb (ok (producer_failure indices (claim_results t))) then producer_failure indices (claim_results t)
  else if negb (ok (first_failure (executions t))) then first_failure (executions t)
  else match claims_of t with
       | [] => mkStatus StatusCode.kNotFound "no eligible ready task exists"
       | _ => Status_Ok
       end.

Definition item_of (w : Worker) : option QueuedTask := match w with Executing item => Some item | _ => None end.
Definition executing (ws : list Worker) : list QueuedTask := omap item_of ws.

(** The claim in the producer's hands, on its way to the queue or refused. *)
Definition in_hand (indices : gmap string nat) (s : Pool) (pending : list ClaimedTask) : Prop :=
  match producer s with
  | Pushing item => pending = [claim item] /\ indices !! claimed_task_id (claim item) = Some (asset_index item)
  | AtWait | Suspended | Claiming | Pushed => pending = []
  | _ => pending = [] \/ exists c, pending = [c] /\ indices !! claimed_task_id c = None
           /\ producer_error s = Internal "claimed task is missing from frozen plan"
  end.

Definition is_done (p : Producer) : bool := match p with Left | Joining | Finished => true | _ => false end.
(** In its loop: as many calls of ClaimNextReady as claims. *)
Definition is_claiming (p : Producer) : bool :=
  match p with AtWait | Suspended | Claiming | Pushing _ | Pushed => true | _ => false end.
Definition has_room (p : Producer) : bool := match p with Claiming | Pushing _ => true | _ => false end.

(** The invariant of a run, on its trace and its last state. *)
Record invariant (indices : gmap string nat) (count : nat) (t : list Label) (s : Pool) : Prop := {
  inv_fifo : pushed t = taken t ++ queue s;
  inv_taken : taken t ≡ₚ (executions t).*1 ++ executing (workers s);
  inv_claims : exists pending, claims_of t = (claim <$> pushed t) ++ pending /\ in_hand indices s pending;
  inv_indices : Forall (fun item => indices !! claimed_task_id (claim item) = Some (asset_index item)) (pushed t);
  inv_count : claimed_count s = Z.of_nat (length (claims_of t));
  inv_capacity : (length (queue s) + (if has_room (producer s) then 1 else 0) <= queue_capacity)%nat;
  inv_done : producer_done s = is_done (producer s);
  inv_returned : Returned ∈ workers s -> producer_done s = true /\ queue s = [];
  inv_finished : producer s = Finished -> Forall (eq Returned) (workers s);
  inv_messages : messages s = messages_of (executions t);
  inv_error : first_error s = first_failure (executions t);
  inv_workers : length (workers s) = count;
  inv_producer_error : producer_error s = producer_failure indices (claim_results t);
  inv_calls : (claim_calls t <= length (claims_of t) + (if is_claiming (producer s) then 0 else 1))%nat;
}.

(** No wakeup is lost: who sleeps has nothing to do, or will be notified. *)
Definition will_notify (p : Producer) : Prop := p = Pushed \/ p = Left.
Record no_lost_wakeup (s : Pool) : Prop := {
  sleeping_workers : Sleeping ∈ workers s -> worker_wakes s = false \/ will_notify (producer s);
  suspended_producer : producer s = Suspended -> producer_wakes s = false;
}.

Lemma executing_insert (ws : list Worker) i (a b : Worker) :
  ws !! i = Some a ->
  omap item_of [a] ++ executing (<[i := b]> ws) ≡ₚ omap item_of [b] ++ executing ws.
Proof.
  unfold executing. revert i. induction ws as [|w ws IH]; intros [|i] Hi; [done|done| |].
  - injection Hi as ->. cbn [list_insert insert list_omap omap]. simpl. destruct (item_of a), (item_of b); simpl; try done.
    apply Permutation_swap.
  - specialize (IH i Hi). simpl in *. destruct (item_of w) as [x|]; [|done].
    destruct (item_of a) as [y|], (item_of b) as [z|]; simpl in *.
    + rewrite (Permutation_swap x y), IH. apply Permutation_swap.
    + by rewrite (Permutation_swap x y), IH.
    + rewrite IH. apply Permutation_swap.
    + by rewrite IH.
Qed.

Lemma elem_of_set_worker (ws : list Worker) i w x : x ∈ <[i := w]> ws -> x = w \/ x ∈ ws.
Proof.
  intros Hx. apply list_elem_of_lookup in Hx as [j Hj]. apply list_lookup_insert_Some in Hj as [(_&<-&_)|[_ Hj]];
    [by left|]. right. by eapply list_elem_of_lookup_2.
Qed.

Lemma first_failure_app l e : first_failure (l ++ [e]) =
  match e.2 with Ok _ => first_failure l | Err s => if ok (first_failure l) then s else first_failure l end.
Proof. unfold first_failure. by rewrite foldl_app. Qed.

Lemma pushed_app t l : pushed (t ++ [l]) = pushed t ++ match l with Push item => [item] | _ => [] end.
Proof. unfold pushed. rewrite omap_app. by destruct l. Qed.
Lemma taken_app t l : taken (t ++ [l]) = taken t ++ match l with Take item => [item] | _ => [] end.
Proof. unfold taken. rewrite omap_app. by destruct l. Qed.
Lemma executions_app t l :
  executions (t ++ [l]) = executions t ++ match l with Execution_returns item r => [(item, r)] | _ => [] end.
Proof. unfold executions. rewrite omap_app. by destruct l. Qed.
Lemma claims_app t l :
  claims_of (t ++ [l]) = claims_of t ++ match l with Claim_returns (Ok c) => [c] | _ => [] end.
Proof. unfold claims_of. rewrite omap_app. by destruct l as [| |[]| | |]. Qed.
Lemma claim_results_app t l :
  claim_results (t ++ [l]) = claim_results t ++ match l with Claim_returns r => [r] | _ => [] end.
Proof. unfold claim_results. rewrite omap_app. by destruct l. Qed.
Lemma producer_failure_app indices l r :
  producer_failure indices (l ++ [r]) = default (producer_failure indices l) (claim_failure indices r).
Proof. unfold producer_failure. by rewrite foldl_app. Qed.

Ltac trace_step :=
  unfold claim_calls in *;
  rewrite ?pushed_app, ?taken_app, ?executions_app, ?claims_app, ?claim_results_app, ?app_nil_r; cbn [app].

Section Preserved.
Context (indices : gmap string nat) (count : nat).
Local Notation inv := (invariant indices count).

Lemma inv_start : inv [] (start count).
Proof.
  unfold start. split; cbn; try done.
  - unfold executing. by induction count.
  - exists []. by split.
  - lia.
  - by intros [? _]%elem_of_replicate.
  - by rewrite length_replicate.
Qed.

Ltac producer_case Hp :=
  unfold in_hand, set_producer, set_queue in *; rewrite Hp in *; cbn [is_done has_room is_claiming] in *.

(** The producer's steps keep the workers and what they did. *)
Lemma inv_producer_check t s :
  inv t s -> producer s = AtWait -> producer_wakes s = true -> inv (t ++ [Internal_step]) (producer_checks s).
Proof.
  intros [H1 H2 (pend&H3&H4) H5 H6 H7 H8 H9 H10 H11 H12 H13 H14 H15] Hp Hw. unfold producer_checks.
  producer_case Hp. subst pend. split; cbn; trace_step; try done.
  - exists []. split; [by rewrite H3|]. destruct (ok (first_error s)); cbn; auto.
  - unfold producer_wakes in Hw. destruct (ok (first_error s)); cbn in *; [|lia].
    rewrite orb_false_r in Hw. apply Nat.leb_le in Hw. unfold queue_capacity. lia.
  - by destruct (ok (first_error s)).
  - by destruct (ok (first_error s)).
  - destruct (ok (first_error s)); cbn; lia.
Qed.

Lemma inv_producer_claim t s r :
  inv t s -> producer s = Claiming -> inv (t ++ [Claim_returns r]) (producer_claims indices r s).
Proof.
  intros [H1 H2 (pend&H3&H4) H5 H6 H7 H8 H9 H10 H11 H12 H13 H14 H15] Hp. unfold producer_claims.
  producer_case Hp. subst pend. rewrite app_nil_r in H3.
  destruct r as [c|e]; [destruct (indices !! claimed_task_id c) as [i|] eqn:Hi|];
    split; cbn; trace_step; rewrite ?producer_failure_app, ?length_app; cbn [claim_failure length]; rewrite ?Hi;
    try done; try lia.
  - exists [c]. by rewrite H3.
  - exists [c]. rewrite H3. split; [done|]. right. by exists c.
  - exists []. rewrite app_nil_r. auto.
  - by case_bool_decide.
Qed.

Lemma inv_producer_push t s item :
  inv t s -> producer s = Pushing item -> inv (t ++ [Push item]) (producer_pushes item s).
Proof.
  intros [H1 H2 (pend&H3&H4) H5 H6 H7 H8 H9 H10 H11 H12 H13 H14 H15] Hp. unfold producer_pushes.
  producer_case Hp. destruct H4 as [-> Hi].
  split; cbn; trace_step; try done; try lia.
  - by rewrite H1, app_assoc.
  - exists []. by rewrite fmap_app, H3, app_nil_r.
  - apply Forall_app. by split; [|constructor].
  - rewrite length_app. cbn. lia.
  - intros Hr. destruct (H9 Hr). congruence.
Qed.

Lemma inv_producer_leave t s :
  inv t s -> producer s = Leaving -> inv (t ++ [Internal_step]) (producer_leaves s).
Proof.
  intros [H1 H2 (pend&H3&H4) H5 H6 H7 H8 H9 H10 H11 H12 H13 H14 H15] Hp. unfold producer_leaves.
  producer_case Hp. split; cbn; trace_step; try done.
  - by exists pend.
  - intros Hr. destruct (H9 Hr). congruence.
Qed.

Lemma inv_producer_join t s :
  inv t s -> producer s = Joining -> Forall (eq Returned) (workers s) -> inv (t ++ [Internal_step]) (set_producer Finished s).
Proof.
  intros [H1 H2 (pend&H3&H4) H5 H6 H7 H8 H9 H10 H11 H12 H13 H14 H15] Hp Hall.
  producer_case Hp. split; cbn; trace_step; try done. by exists pend.
Qed.

(** The labels that record no call. *)
Definition silent (l : Label) : Prop := l = Internal_step \/ l = Spurious_wakeup.

(** The producer goes to sleep, wakes or notifies. *)
Lemma inv_producer_moves t l s p :
  silent l -> (producer s, p) ∈ [(AtWait, Suspended); (Suspended, AtWait); (Pushed, AtWait); (Left, Joining)] ->
  inv t s -> inv (t ++ [l]) (set_producer p s).
Proof.
  intros Hl Hp [H1 H2 (pend&H3&H4) H5 H6 H7 H8 H9 H10 H11 H12 H13 H14 H15].
  unfold in_hand in *. destruct Hl as [-> | ->];
    repeat (apply elem_of_cons in Hp as [Heq|Hp]; [injection Heq as Hs ->; rewrite Hs in *;
      split; cbn in *; trace_step; try done; try lia; by exists pend|]); by apply elem_of_nil in Hp.
Qed.

Lemma executing_wake (ws : list Worker) : executing (wake_worker <$> ws) = executing ws.
Proof. unfold executing. induction ws as [|w ws IH]; [done|]. destruct w; csimpl; by rewrite IH. Qed.

Lemma inv_notify_all t s : inv t s -> inv t (notify_all s).
Proof.
  intros [H1 H2 (pend&H3&H4) H5 H6 H7 H8 H9 H10 H11 H12 H13 H14 H15].
  assert (forall A (f : Producer -> A), f Suspended = f AtWait -> f (wake_producer (producer s)) = f (producer s)) as Hf
    by (intros A f Hf; by destruct (producer s)).
  unfold notify_all, in_hand in *. split; cbn; rewrite ?executing_wake, ?length_fmap; try done.
  - exists pend. split; [done|]. by destruct (producer s).
  - by rewrite (Hf _ has_room).
  - by rewrite (Hf _ is_done).
  - intros (w & Hr & Hw)%list_elem_of_fmap. destruct w; try done. auto.
  - intros Hfin. apply Forall_fmap. eapply Forall_impl; [apply H10; by destruct (producer s)|]. by intros ? <-.
  - by rewrite (Hf _ is_claiming).
Qed.

(** The workers' steps keep the producer. *)
Lemma inv_not_finished t s i w : inv t s -> workers s !! i = Some w -> w <> Returned -> producer s <> Finished.
Proof.
  intros Hinv Hi Hw Hf. pose proof (inv_finished _ _ _ _ Hinv Hf) as Hall. rewrite Forall_forall in Hall.
  by specialize (Hall _ (list_elem_of_lookup_2 _ _ _ Hi)).
Qed.

Lemma inv_worker_take t s i item rest :
  inv t s -> workers s !! i = Some Waiting -> queue s = item :: rest ->
  inv (t ++ [Take item]) (set_worker i (Executing item) (set_queue rest s)).
Proof.
  intros Hinv Hi Hq. pose proof (inv_not_finished _ _ _ _ Hinv Hi ltac:(done)) as Hnf.
  destruct Hinv as [H1 H2 (pend&H3&H4) H5 H6 H7 H8 H9 H10 H11 H12 H13 H14 H15]. unfold set_worker, set_queue, in_hand in *.
  rewrite Hq in *. split; cbn; trace_step; try done.
  - by rewrite H1, <- app_assoc.
  - pose proof (executing_insert _ _ _ (Executing item) Hi) as Hx. cbn in Hx.
    rewrite Hx, H2, <- app_assoc. by rewrite (Permutation_app_comm (executing (workers s))).
  - by exists pend.
  - cbn in H7. lia.
  - intros [?|Hr]%elem_of_set_worker; [done|]. by destruct (H9 Hr).
  - by rewrite length_insert.
Qed.

(** A worker goes to sleep, wakes or returns. *)
Lemma inv_worker_moves t l s i w w' :
  silent l -> workers s !! i = Some w -> w = Waiting \/ w = Sleeping -> item_of w' = None ->
  (w' = Returned -> producer_done s = true /\ queue s = []) ->
  inv t s -> inv (t ++ [l]) (set_worker i w' s).
Proof.
  intros Hl Hi Hw Hw' Hret Hinv. pose proof (inv_not_finished _ _ _ _ Hinv Hi ltac:(by destruct Hw as [-> | ->])) as Hnf.
  destruct Hinv as [H1 H2 (pend&H3&H4) H5 H6 H7 H8 H9 H10 H11 H12 H13 H14 H15]. unfold set_worker, in_hand in *.
  assert (executing (<[i := w']> (workers s)) ≡ₚ executing (workers s)) as Hx.
  { pose proof (executing_insert _ _ _ w' Hi) as Hx. cbn in Hx. rewrite Hw' in Hx. by destruct Hw as [-> | ->]. }
  destruct Hl as [-> | ->]; (split; cbn; trace_step; rewrite ?Hx, ?length_insert; try done; [by exists pend|]);
    intros [<-|Hr]%elem_of_set_worker; auto.
Qed.

Lemma inv_worker_finish t s i item r :
  inv t s -> workers s !! i = Some (Executing item) ->
  inv (t ++ [Execution_returns item r]) (set_worker i Waiting (record_result r s)).
Proof.
  intros Hinv Hi. pose proof (inv_not_finished _ _ _ _ Hinv Hi ltac:(done)) as Hnf.
  destruct Hinv as [H1 H2 (pend&H3&H4) H5 H6 H7 H8 H9 H10 H11 H12 H13 H14 H15]. unfold set_worker, record_result, in_hand in *.
  pose proof (executing_insert _ _ _ Waiting Hi) as Hx. cbn in Hx.
  assert (taken t ≡ₚ ((executions t).*1 ++ [item]) ++ executing (<[i:=Waiting]> (workers s))) as Htk.
  { by rewrite H2, <- app_assoc, Hx. }
  destruct r as [m|e]; split; cbn; trace_step; rewrite ?fmap_app; try done; try (by exists pend).
  - intros [?|Hr]%elem_of_set_worker; [done|]. by apply H9.
  - unfold messages_of in *. by rewrite omap_app, H11.
  - by rewrite first_failure_app.
  - by rewrite length_insert.
  - intros [?|Hr]%elem_of_set_worker; [done|]. by apply H9.
  - unfold messages_of in *. by rewrite omap_app, app_nil_r.
  - rewrite first_failure_app, <- H12. done.
  - by rewrite length_insert.
Qed.

Lemma runs_invariant t s : runs_to indices (start count) t s -> inv t s.
Proof.
  induction 1 as [|t l s1 s2 _ IH Hstep]; [apply inv_start|].
  destruct Hstep as [s Hp Hw|s Hp Hw|s r Hp|s item Hp|s Hp|s Hp|s Hp|s Hp Hall|s Hp|s i item rest Hi Hw Hq|s i Hi Hw Hq
    |s i Hi Hw|s i item r Hi|s i Hi].
  - by apply inv_producer_check.
  - apply inv_producer_moves; [by left|rewrite Hp; set_solver|done].
  - by apply inv_producer_claim.
  - by apply inv_producer_push.
  - apply inv_producer_moves; [by left|cbn; rewrite Hp; set_solver|by apply inv_notify_all].
  - by apply inv_producer_leave.
  - apply inv_producer_moves; [by left|cbn; rewrite Hp; set_solver|by apply inv_notify_all].
  - by apply inv_producer_join.
  - apply inv_producer_moves; [by right|rewrite Hp; set_solver|done].
  - by apply inv_notify_all, inv_worker_take.
  - eapply inv_worker_moves; [by left|done|by left|done| |done]. unfold worker_wakes in Hw. rewrite Hq, orb_false_r in Hw. done.
  - eapply inv_worker_moves; [by left|done|by left|done..].
  - by apply inv_notify_all, inv_worker_finish.
  - eapply inv_worker_moves; [by right|done|by right|done..].
Qed.

(** *** Wakeups *)

Lemma notify_all_awake s : Sleeping ∉ workers (notify_all s) /\ producer (notify_all s) <> Suspended.
Proof.
  cbn. split; [|by destruct (producer s)]. intros (w & Hw & _)%list_elem_of_fmap. by destruct w.
Qed.

Lemma awake_no_lost s : Sleeping ∉ workers s -> producer s <> Suspended -> no_lost_wakeup s.
Proof. by split. Qed.

Lemma step_no_lost s l s' : step indices s l s' -> no_lost_wakeup s -> no_lost_wakeup s'.
Proof.
  unfold will_notify. intros Hstep [Hs Hp0]. unfold will_notify in *.
  destruct Hstep as [s Hp Hw|s Hp Hw|s r Hp|s item Hp|s Hp|s Hp|s Hp|s Hp Hall|s Hp|s i item rest Hi Hw Hq|s i Hi Hw Hq
    |s i Hi Hw|s i item r Hi|s i Hi].
  all: try (rewrite Hp in Hs).
  - unfold producer_checks. split; cbn; [naive_solver|by destruct (negb _)].
  - split; cbn; [naive_solver|done].
  - unfold producer_claims. destruct r as [c|e]; [destruct (indices !! _)|]; split; cbn; naive_solver.
  - split; cbn; [intros _; right; by left|done].
  - destruct (notify_all_awake s). by apply awake_no_lost.
  - split; cbn; [intros _; right; by right|done].
  - destruct (notify_all_awake s). by apply awake_no_lost.
  - split; cbn; [naive_solver|done].
  - split; cbn; [naive_solver|done].
  - apply awake_no_lost; apply notify_all_awake.
  - split; cbn; [|done]. intros [?|Hin]%elem_of_set_worker; [done|auto].
  - split; cbn; [|done]. intros [_|Hin]%elem_of_set_worker; [by left|auto].
  - apply awake_no_lost; apply notify_all_awake.
  - split; cbn; [|done]. intros [?|Hin]%elem_of_set_worker; [done|auto].
Qed.

Lemma runs_no_lost t s : runs_to indices (start count) t s -> no_lost_wakeup s.
Proof.
  induction 1 as [|t l s1 s2 _ IH Hstep]; [|by eapply step_no_lost].
  apply awake_no_lost; [|done]. cbn. by intros [? _]%elem_of_replicate.
Qed.

End Preserved.

(** ** Progress and the number of steps *)

(** With [n] workers: what a thread can still do, a wakeup of all included. *)
Definition producer_weight (n : nat) (p : Producer) : nat :=
  match p with
  | AtWait => n + 6 | Suspended => n + 5 | Claiming => n + 5 | Pushing _ => 4 * n + 13 | Pushed => 2 * n + 8
  | Leaving => n + 4 | Left => n + 3 | Joining => 1 | Finished => 0
  end.
Definition worker_weight (n : nat) (w : Worker) : nat :=
  match w with Waiting => 2 | Sleeping => 1 | Executing _ => n + 4 | Returned => 0 end.
Definition weight (n : nat) (s : Pool) : nat :=
  (2 * n + 4) * length (queue s) + sum_list_with (worker_weight n) (workers s) + producer_weight n (producer s).

Lemma worker_weights n (ws : list Worker) i a b :
  ws !! i = Some a ->
  (sum_list_with (worker_weight n) (<[i := b]> ws) + worker_weight n a
   = sum_list_with (worker_weight n) ws + worker_weight n b)%nat.
Proof. intros Hi. pose proof (sum_list_insert (worker_weight n) ws i a b Hi). lia. Qed.

Lemma weight_start count : weight count (start count) = (3 * count + 6)%nat.
Proof.
  assert (forall m, sum_list_with (worker_weight count) (replicate m Waiting) = (2 * m)%nat) as Hs
    by (induction m as [|m IH]; simpl in *; lia).
  unfold weight, start. cbn [queue workers producer length producer_weight]. rewrite Hs. lia.
Qed.

(** A notification lets each sleeping thread test once more. *)
Lemma notify_weight n s : (weight n (notify_all s) <= weight n s + length (workers s) + 1)%nat.
Proof.
  assert (sum_list_with (worker_weight n) (wake_worker <$> workers s)
          <= sum_list_with (worker_weight n) (workers s) + length (workers s))%nat as Hw.
  { induction (workers s) as [|[] ws IH]; csimpl; lia. }
  unfold weight. cbn [notify_all queue workers producer].
  assert (producer_weight n (wake_producer (producer s)) <= producer_weight n (producer s) + 1)%nat
    by (destruct (producer s); simpl; lia). lia.
Qed.

Lemma claim_calls_app t l :
  claim_calls (t ++ [l]) = (claim_calls t + match l with Claim_returns _ => 1 | _ => 0 end)%nat.
Proof. unfold claim_calls, claim_results. rewrite omap_app, length_app. by destruct l. Qed.
Lemma spurious_app t l :
  spurious (t ++ [l]) = (spurious t + match l with Spurious_wakeup => 1 | _ => 0 end)%nat.
Proof. unfold spurious. rewrite omap_app, length_app. by destruct l. Qed.

(** Each step uses up weight, which only claims and spurious wakeups provide. *)
Definition provided (n : nat) (l : Label) : nat :=
  match l with Claim_returns _ => 3 * n + 9 | Spurious_wakeup => 2 | _ => 0 end.

Lemma step_weight indices n s l s' :
  length (workers s) = n -> step indices s l s' -> (weight n s' + 1 <= weight n s + provided n l)%nat.
Proof.
  intros Hn. destruct 1 as [s Hp Hw|s Hp Hw|s r Hp|s item Hp|s Hp|s Hp|s Hp|s Hp Hall|s Hp|s i item rest Hi Hw Hq|s i Hi Hw Hq
    |s i Hi Hw|s i item r Hi|s i Hi].
  - unfold weight, producer_checks. destruct (ok (first_error s)); simpl; rewrite Hp; simpl; lia.
  - unfold weight. simpl. rewrite Hp. simpl. lia.
  - unfold weight, producer_claims. destruct r as [c|e]; [destruct (indices !! _)|]; simpl; rewrite Hp; simpl; lia.
  - unfold weight. simpl. rewrite Hp, length_app. simpl. lia.
  - pose proof (notify_weight n s) as Hnotify. unfold weight in *. simpl in *. rewrite Hp in *. simpl in *. lia.
  - unfold weight. simpl. rewrite Hp. simpl. lia.
  - pose proof (notify_weight n s) as Hnotify. unfold weight in *. simpl in *. rewrite Hp in *. simpl in *. lia.
  - unfold weight. simpl. rewrite Hp. simpl. lia.
  - unfold weight. simpl. rewrite Hp. simpl. lia.
  - unfold worker_takes. pose proof (notify_weight n (set_worker i (Executing item) (set_queue rest s))) as Hnotify.
    pose proof (worker_weights n _ _ _ (Executing item) Hi) as Hs. unfold weight in *.
    cbn [set_worker set_queue queue workers producer] in *. rewrite length_insert in Hnotify. rewrite Hq. simpl in *. lia.
  - pose proof (worker_weights n _ _ _ Returned Hi) as Hs. unfold weight. simpl in *. lia.
  - pose proof (worker_weights n _ _ _ Sleeping Hi) as Hs. unfold weight. simpl in *. lia.
  - unfold worker_finishes. pose proof (notify_weight n (set_worker i Waiting (record_result r s))) as Hnotify.
    pose proof (worker_weights n _ _ _ Waiting Hi) as Hs. unfold weight in *.
    assert (workers (record_result r s) = workers s /\ queue (record_result r s) = queue s
      /\ producer (record_result r s) = producer s) as (Hrw&Hrq&Hrp) by by destruct r.
    cbn [set_worker queue workers producer] in *. rewrite length_insert, Hrw, Hrq, Hrp in Hnotify. simpl in *. lia.
  - pose proof (worker_weights n _ _ _ Waiting Hi) as Hs. unfold weight. simpl in *. lia.
Qed.

Lemma runs_weight indices count t s :
  runs_to indices (start count) t s ->
  (length t + weight count s <= (3 * count + 9) * claim_calls t + 2 * spurious t + 3 * count + 6)%nat.
Proof.
  induction 1 as [|t l s1 s2 Hrun IH Hstep]; [rewrite weight_start; simpl; lia|].
  rewrite length_app, claim_calls_app, spurious_app.
  apply (step_weight indices count) in Hstep; [|by eapply inv_workers, runs_invariant].
  unfold provided in Hstep. simpl. destruct l; lia.
Qed.

(** A worker that has not returned can go on, unless it sleeps. *)
Lemma worker_progress indices s i w :
  workers s !! i = Some w -> w <> Returned ->
  (exists l s', step indices s l s' /\ l <> Spurious_wakeup) \/ w = Sleeping.
Proof.
  intros Hi Hw. destruct w as [| |item|]; [|by right| |done]; left.
  - destruct (worker_wakes s) eqn:Hwake; [|eexists _, _; split; [by apply worker_sleep|done]].
    destruct (queue s) as [|item rest] eqn:Hq; eexists _, _;
      [split; [by apply worker_return|done]|split; [by eapply worker_take|done]].
  - eexists _, _. split; [by apply (worker_finish indices s i item (Ok ""))|done].
Qed.

#[local] Instance returned_dec (w : Worker) : Decision (Returned = w).
Proof. destruct w; [by right|by right|by right|by left]. Defined.

Lemma pool_progress indices count t s :
  (0 < count)%nat -> invariant indices count t s -> no_lost_wakeup s ->
  producer s = Finished \/ exists l s', step indices s l s' /\ l <> Spurious_wakeup.
Proof.
  intros Hc Hinv [Hsleep Hsuspend]. pose proof (inv_done _ _ _ _ Hinv) as Hdone. pose proof (inv_workers _ _ _ _ Hinv) as Hlen.
  destruct (producer s) as [| | |item| | | | |] eqn:Hp; [| | | | | | | |by left]; right;
    [| |by eexists _, _; split; [apply (producer_claim indices s (Err Status_Ok) Hp)|done]|..];
    try (by eexists _, _; split; [econstructor; done|done]).
  - destruct (producer_wakes s) eqn:Hw; eexists _, _;
      [split; [by apply producer_check|done]|split; [by apply producer_sleep|done]].
  - specialize (Hsuspend eq_refl). destruct (workers s) as [|w ws] eqn:Hws; [simpl in Hlen; lia|].
    assert (workers s !! 0%nat = Some w) as Hi by by rewrite Hws.
    destruct (decide (Returned = w)) as [<-|Hne].
    + destruct (inv_returned _ _ _ _ Hinv) as [Hd _]; [rewrite Hws; by left|]. by rewrite Hdone in Hd.
    + destruct (worker_progress indices _ _ _ Hi (fun H => Hne (eq_sym H))) as [?| -> ]; [done|]. exfalso.
      destruct Hsleep as [Hw|[|]]; [by left| |done..]. unfold producer_wakes, worker_wakes in *.
      rewrite Hdone in Hw. by destruct (queue s).
  - destruct (decide (Forall (eq Returned) (workers s))) as [Hall|Hnot]; [eexists _, _; split; [by apply producer_join|done]|].
    apply not_Forall_Exists in Hnot; [|apply _]. apply Exists_exists in Hnot as (w&Hin&Hne).
    apply list_elem_of_lookup in Hin as [i Hi].
    destruct (worker_progress indices _ _ _ Hi (fun H => Hne (eq_sym H))) as [?| -> ]; [done|]. exfalso.
    destruct Hsleep as [Hw|[|]]; [by eapply list_elem_of_lookup_2| |done..]. unfold worker_wakes in Hw. by rewrite Hdone in Hw.
Qed.

(** C17. In every interleaving of the producer and its workers, the queue holds
    at most eight claims, claims leave it in the order they entered, and every
    claim taken is being executed or has been, once.  When the command ends
    the queue is empty, every claim of a task of the plan has been executed
    exactly once, and a claim of a task that is not in the plan is the last
    one.  What it prints is the messages of the executions that succeeded, in
    the order they ended; what it returns is the error of the claims, or else
    that of the first execution that failed, or else that nothing was ready
    where nothing was claimed, and OK otherwise. *)
Theorem claims_are_executed_once indices count t s :
  (0 < count)%nat -> runs_to indices (start count) t s ->
  (length (queue s) <= queue_capacity)%nat /\ pushed t = taken t ++ queue s
  /\ taken t ≡ₚ (executions t).*1 ++ executing (workers s)
  /\ Forall (fun item => indices !! claimed_task_id (claim item) = Some (asset_index item)) (pushed t)
  /\ (producer s = Finished ->
        queue s = [] /\ (executions t).*1 ≡ₚ pushed t
        /\ migration_output s = foldr String.append "" (messages_of (executions t))
        /\ migration_result s = expected_result indices t
        /\ (claims_of t = claim <$> pushed t \/
            exists c, claims_of t = (claim <$> pushed t) ++ [c] /\ indices !! claimed_task_id c = None
              /\ migration_result s = Internal "claimed task is missing from frozen plan")).
Proof.
  intros Hc Hr. apply runs_invariant in Hr as [H1 H2 (pend&H3&H4) H5 H6 H7 H8 H9 H10 H11 H12 H13 H14 H15].
  split_and!; [lia|done|done|done|]. intros Hf. specialize (H10 Hf).
  assert (Returned ∈ workers s) as Hret.
  { destruct (workers s) as [|w ws]; [simpl in H13; lia|]. apply Forall_cons in H10 as [<- _]. by left. }
  destruct (H9 Hret) as [_ Hq]. rewrite Hq, app_nil_r in H1.
  assert (executing (workers s) = []) as Hex.
  { clear -H10. unfold executing. induction H10 as [|w ws <- _ IH]; [done|]. exact IH. }
  rewrite Hex, app_nil_r in H2. split_and!; [done|by rewrite H1, H2|by unfold migration_output; rewrite H11| |].
  - unfold migration_result, expected_result. rewrite H14, H12, H6. by destruct (claims_of t).
  - unfold in_hand in H4. rewrite Hf in H4. destruct H4 as [->|(c&->&Hi&He)]; [left; by rewrite app_nil_r in H3|right].
    exists c. split_and!; [done|done|]. unfold migration_result. by rewrite He.
Qed.

(** C18. The pool cannot block and does not run for ever: a thread that waits
    is asleep until it is notified or woken for nothing, and still, until the
    command has ended, some thread can take a step that is no spurious wakeup;
    ClaimNextReady is called at most once more than it gives claims, and the
    steps of a run are bounded by the claims, the spurious wakeups and the
    number of workers. *)
Theorem migration_terminates indices count t s :
  (0 < count)%nat -> runs_to indices (start count) t s ->
  (producer s = Finished \/ exists l s', step indices s l s' /\ l <> Spurious_wakeup)
  /\ (claim_calls t <= length (claims_of t) + 1)%nat
  /\ (length t <= (3 * count + 9) * claim_calls t + 2 * spurious t + 3 * count + 6)%nat.
Proof.
  intros Hc Hr. split_and!.
  - eapply pool_progress; [done|by apply runs_invariant|by eapply runs_no_lost].
  - pose proof (inv_calls _ _ _ _ (runs_invariant _ _ _ _ Hr)). destruct (is_claiming (producer s)); lia.
  - pose proof (runs_weight _ _ _ _ Hr). lia.
Qed.

(** ** A run of one worker, asleep before the first claim *)

Module PoolDemo.
Definition claimed : ClaimedTask := mkClaimed "t1" (mkTaskRuntime "t1" TaskState.kRunning 1 (Some "a1") 1 None).
Definition item : QueuedTask := mkQueuedTask claimed 0.
Definition indices : gmap string nat := {["t1" := 0%nat]}.
Definition no_task : StatusOr ClaimedTask := Err (mkStatus StatusCode.kNotFound "no eligible ready task exists").
Definition trace : list Label :=
  [Internal_step; Internal_step; Claim_returns (Ok claimed); Push item; Internal_step; Take item; Internal_step;
   Execution_returns item (Ok "done"); Claim_returns no_task; Internal_step; Internal_step; Internal_step; Internal_step].
Definition final : Pool := mkPool [] true Status_Ok ["done"] [Returned] Finished 1 Status_Ok.
End PoolDemo.

Lemma run_append indices s0 t l s s' : step indices s l s' -> runs_to indices s0 t s -> runs_to indices s0 (t ++ [l]) s'.
Proof. intros Hs Hr. by eapply run_step. Qed.

(** The run, a constructor of [step] for each label. *)
Lemma demo_pool_runs : runs_to PoolDemo.indices (start 1) PoolDemo.trace PoolDemo.final.
Proof.
  pose proof (run_start PoolDemo.indices (start 1)) as Hr.
  eapply run_append in Hr; [|by apply (worker_sleep _ _ 0)].
  eapply run_append in Hr; [|by apply producer_check].
  eapply run_append in Hr; [|by apply (producer_claim _ _ (Ok PoolDemo.claimed))].
  eapply run_append in Hr; [|by apply (producer_push _ _ PoolDemo.item)].
  eapply run_append in Hr; [|by apply producer_notify].
  eapply run_append in Hr; [|by apply (worker_take _ _ 0 PoolDemo.item [])].
  eapply run_append in Hr; [|by apply producer_check].
  eapply run_append in Hr; [|by apply (worker_finish _ _ 0 PoolDemo.item (Ok "done"))].
  eapply run_append in Hr; [|by apply (producer_claim _ _ PoolDemo.no_task)].
  eapply run_append in Hr; [|by apply producer_leave].
  eapply run_append in Hr; [|by apply producer_notify_done].
  eapply run_append in Hr; [|by apply (worker_return _ _ 0)].
  eapply run_append in Hr; [|apply producer_join; [done|by repeat constructor]].
  exact Hr.
Qed.

Lemma claims_are_executed_once_witness :
  queue PoolDemo.final = [] /\ (executions PoolDemo.trace).*1 ≡ₚ pushed PoolDemo.trace
  /\ migration_result PoolDemo.final = Status_Ok.
Proof.
  destruct (claims_are_executed_once PoolDemo.indices 1 PoolDemo.trace PoolDemo.final ltac:(lia) demo_pool_runs)
    as (_&_&_&_&Hend). destruct (Hend eq_refl) as (Hq&Hperm&_&Hresult&_).
  split; [exact Hq|split; [exact Hperm|exact Hresult]].
Defined.

Lemma migration_terminates_witness :
  (13 <= (3 * 1 + 9) * claim_calls PoolDemo.trace + 2 * spurious PoolDemo.trace + 3 * 1 + 6)%nat.
Proof.
  exact (proj2 (proj2 (migration_terminates PoolDemo.indices 1 PoolDemo.trace PoolDemo.final ltac:(lia) demo_pool_runs))).
Defined.
