(* ===== verification/UploadStore.v ===== *)
(** * UploadStore: the sessions and files of the upload receiver

    Models src/filesystem/upload_session_store.cpp but for the recovery of
    interrupted uploads (Receiver.v): the two tables of receiver.db, what each
    SQL statement does to them, and every operation of [UploadSessionStore] in
    its own transaction.

    What an operation takes from outside is an argument: the draws of its
    [std::random_device]s, the outcome of [create_directories] on a path, and
    which of its [sqlite3_bind_*] calls succeed, since the code ignores their
    results and a parameter whose bind failed is NULL.  The table upload_file
    declares its foreign key, but nothing turns foreign keys on for this
    connection. *)

From stdpp Require Import pretty.
From S2P Require Import Prelude Status Bytes RelativePath Assets Sqlite.

(** ** Data (include/photobridge/lan/upload_session_store.h) *)

Module UploadFileState.
Inductive t := kPending | kReceiving | kReceived | kFailed.
#[global] Instance eq_dec : EqDecision t.
Proof. solve_decision. Defined.
End UploadFileState.

Module UploadSessionState.
Inductive t := kOpen | kComplete | kFailed.
#[global] Instance eq_dec : EqDecision t.
Proof. solve_decision. Defined.
End UploadSessionState.

Inductive BeginUploadResult := kStarted | kAlreadyReceived | kBusy.

Record UploadFileRequest := mkUploadFileRequest {
  request_original_filename : string;
  request_expected_size : Z;
  request_client_digest : option Digest;
}.

Record UploadFile := mkUploadFile {
  file_id : string;
  original_filename : string;
  safe_filename : string;
  file_expected_size : Z;
  received_size : Z;
  client_digest : option Digest;
  server_digest : option Digest;
  file_state : UploadFileState.t;
}.

Record UploadSession := mkUploadSession {
  session_id : string;
  created_at_ns : Z;
  expected_total_bytes : Z;
  received_total_bytes : Z;
  session_state : UploadSessionState.t;
  session_files : list UploadFile;
}.

Record UploadQuota := mkUploadQuota {
  max_session_bytes : Z;
  max_file_bytes : Z;
  max_reserved_bytes : Z;
}.
(** [UploadQuota{}] *)
Definition default_quota : UploadQuota :=
  mkUploadQuota (4 * 1024 * 1024 * 1024) (2 * 1024 * 1024 * 1024) (16 * 1024 * 1024 * 1024).

(** ** The tables

    A row has the values SQLite stores; an id is NULL where its bind failed
    and the column allows it.  upload_file is in rowid order: rows are only
    appended. *)

Record SessionRow := mkSessionRow {
  ses_id : option string;
  ses_created_at_ns : Z;
  ses_expected_total : Z;
  ses_received_total : Z;
  ses_state : Z;
}.

Record FileRow := mkFileRow {
  row_session_id : string;
  row_file_id : string;
  row_original_filename : string;
  row_safe_filename : string;
  row_expected_size : Z;
  row_received_size : Z;
  row_client_digest : option string;
  row_server_digest : option string;
  row_state : Z;
}.

Record UploadDb := mkUploadDb {
  upload_session : list SessionRow;
  upload_file : list FileRow;
}.
Definition empty_upload_db : UploadDb := mkUploadDb [] [].

(** [column = ?]: never true of NULL. *)
Definition matches (column parameter : option string) : bool :=
  match column, parameter with Some a, Some b => a == b | _, _ => false end.
Definition is_file (session file : option string) (row : FileRow) : bool :=
  matches (Some (row_session_id row)) session && matches (Some (row_file_id row)) file.

(** SUM of integers: an error once a partial sum leaves 64 bits. *)
Definition sum_step (sum : option Z) (z : Z) : option Z :=
  match sum with
  | None => None
  | Some sum => if (sum + z <? int64_min) || (int64_max <? sum + z) then None else Some (sum + z)
  end.
Definition sum_int64 (l : list Z) : option Z := foldl sum_step (Some 0) l.

Definition select_reserved (db : UploadDb) : option Z :=
  sum_int64 (ses_expected_total <$> filter (fun r => ses_state r <> 2) (upload_session db)).

Definition insert_session (row : SessionRow) (db : UploadDb) : option (UploadDb * Z) :=
  if existsb (fun r => matches (ses_id r) (ses_id row)) (upload_session db) then None
  else Some (mkUploadDb (upload_session db ++ [row]) (upload_file db), 1).

Definition insert_upload_file (session file original safe : option string) (expected_size : Z)
    (client_digest : option string) (db : UploadDb) : option (UploadDb * Z) :=
  match session, file, original, safe with
  | Some session, Some file, Some original, Some safe =>
      if existsb (fun r => bool_decide (row_session_id r = session)
                           && (bool_decide (row_file_id r = file) || bool_decide (row_safe_filename r = safe)))
           (upload_file db)
      then None
      else Some (mkUploadDb (upload_session db)
                   (upload_file db ++ [mkFileRow session file original safe expected_size 0 client_digest None 0]), 1)
  | _, _, _, _ => None
  end.

Definition select_session (session : option string) (db : UploadDb) : option SessionRow :=
  head (filter (fun r => Is_true (matches (ses_id r) session)) (upload_session db)).
Definition files_of (session : option string) (db : UploadDb) : list FileRow :=
  filter (fun r => Is_true (matches (Some (row_session_id r)) session)) (upload_file db).
Definition select_file_state (session file : option string) (db : UploadDb) : option Z :=
  row_state <$> head (filter (fun r => Is_true (is_file session file r)) (upload_file db)).

(** [UPDATE upload_file SET ... WHERE ...] and the number of rows it changed. *)
Definition update_files (which : FileRow -> bool) (set : FileRow -> FileRow) (db : UploadDb) : option (UploadDb * Z) :=
  Some (mkUploadDb (upload_session db) ((fun r => if which r then set r else r) <$> upload_file db),
        Z.of_nat (length (filter (fun r => Is_true (which r)) (upload_file db)))).
Definition update_sessions (which : SessionRow -> bool) (set : SessionRow -> SessionRow) (db : UploadDb)
    : option (UploadDb * Z) :=
  Some (mkUploadDb ((fun r => if which r then set r else r) <$> upload_session db) (upload_file db),
        Z.of_nat (length (filter (fun r => Is_true (which r)) (upload_session db)))).

Definition with_state (state : Z) (r : FileRow) : FileRow :=
  mkFileRow (row_session_id r) (row_file_id r) (row_original_filename r) (row_safe_filename r) (row_expected_size r)
    (row_received_size r) (row_client_digest r) (row_server_digest r) state.
Definition with_received (size : Z) (digest : option string) (r : FileRow) : FileRow :=
  mkFileRow (row_session_id r) (row_file_id r) (row_original_filename r) (row_safe_filename r) (row_expected_size r)
    size (row_client_digest r) digest 2.
Definition with_total (total : Z) (r : SessionRow) : SessionRow :=
  mkSessionRow (ses_id r) (ses_created_at_ns r) (ses_expected_total r) total (ses_state r).
Definition with_session_state (state : Z) (r : SessionRow) : SessionRow :=
  mkSessionRow (ses_id r) (ses_created_at_ns r) (ses_expected_total r) (ses_received_total r) state.

Definition update_begin (session file : option string) : UploadDb -> option (UploadDb * Z) :=
  update_files (fun r => is_file session file r && ((row_state r =? 0) || (row_state r =? 3))) (with_state 1).
Definition update_failed (session file : option string) : UploadDb -> option (UploadDb * Z) :=
  update_files (fun r => is_file session file r && (row_state r =? 1)) (with_state 3).
Definition update_commit (session file : option string) (size : Z) (digest : option string)
    : UploadDb -> option (UploadDb * Z) :=
  update_files (fun r => is_file session file r && (row_state r =? 1) && (row_expected_size r =? size))
    (with_received size digest).
(** The sum may overflow, which fails the statement. *)
Definition update_progress (summed session : option string) (db : UploadDb) : option (UploadDb * Z) :=
  match sum_int64 (row_received_size <$> files_of summed db) with
  | None => if existsb (fun r => matches (ses_id r) session) (upload_session db) then None
            else Some (db, 0)
  | Some total => update_sessions (fun r => matches (ses_id r) session) (with_total total) db
  end.
Definition update_complete (session : option string) : UploadDb -> option (UploadDb * Z) :=
  update_sessions (fun r => matches (ses_id r) session && (ses_state r =? 0)) (with_session_state 1).

(** [COUNT] of the files of a session and of those not received. *)
Definition select_completion (session : option string) (db : UploadDb) : Z * Z :=
  (Z.of_nat (length (files_of session db)),
   Z.of_nat (length (filter (fun r => row_state r <> 2) (files_of session db)))).

(** ** Names *)

Fixpoint str_any (f : ascii -> bool) (s : string) : bool :=
  match s with
  | EmptyString => false
  | String c s' => f c || str_any f s'
  end.

Definition unsafe_byte (c : ascii) : bool :=
  let byte := Z_of_byte c in
  (byte =? 0) || (byte =? 47) || (byte =? 92) || (byte <? 32) || (byte =? 127).

Definition SafeFilename (original : string) : StatusOr string :=
  if str_empty original || (original == ".") || (original == "..")
  then Err (Invalid "filename must be a non-empty single component")
  else if 255 <? str_size original then Err (Invalid "filename exceeds 255 bytes")
  else if str_any unsafe_byte original then Err (Invalid "filename contains an unsafe path component")
  else Ok original.

Definition WithCollisionSuffix (value : string) (suffix : N) : string :=
  if (suffix =? 1)%N then value
  else
    let suffix_text := "__" +:+ pretty suffix in
    match rfind dot value with
    | None | Some O => value +:+ suffix_text
    | Some extension => str_take extension value +:+ suffix_text +:+ str_drop extension value
    end.

Definition AddWouldOverflow (left right : Z) : bool := uint64_max - left <? right.

(** [while (!used_names.insert(candidate).second) candidate = ...]; each turn
    meets another used name, so [size used] turns are enough. *)
Fixpoint unused_name (fuel : nat) (used : gset string) (name candidate : string) (suffix : N) : option string :=
  if decide (candidate ∈ used) then
    match fuel with
    | O => None
    | S fuel => unused_name fuel used name (WithCollisionSuffix name (suffix + 1)) (suffix + 1)
    end
  else Some candidate.

(** The loop of [CreateSession] over the requests: their total size and the
    name each is stored under. *)
Fixpoint name_files (quota : UploadQuota) (files : list UploadFileRequest) (total : Z) (used : gset string)
    : StatusOr (Z * list string) :=
  match files with
  | [] => Ok (total, [])
  | file :: files =>
      let expected := request_expected_size file in
      if max_file_bytes quota <? expected then Err (Invalid "file exceeds receiver file quota")
      else if AddWouldOverflow total expected then Err (Invalid "session size overflows uint64")
      else
        let total := total + expected in
        if max_session_bytes quota <? total then Err (Invalid "session exceeds receiver quota")
        else
          let? name := SafeFilename (request_original_filename file) in
          match unused_name (size used) used name name 1 with
          | None => Err (Internal "unreachable")
          | Some candidate =>
              let? rest := name_files quota files total ({[candidate]} ∪ used) in
              Ok (rest.1, candidate :: rest.2)
          end
  end.

Fixpoint last_byte (s : string) : option ascii :=
  match s with
  | EmptyString => None
  | String c s' => match last_byte s' with Some d => Some d | None => Some c end
  end.

(** [root / name]: an absolute name replaces the path. *)
Definition path_append (path name : string) : string :=
  match name with
  | String "/" _ => name
  | _ =>
      match last_byte path with
      | None => name
      | Some c => if Ascii.eqb c "/" then path +:+ name else path +:+ "/" +:+ name
      end
  end.

Definition TempPath (workspace_root session_id file_id : string) : string :=
  path_append (path_append (path_append (path_append workspace_root "incoming") ".tmp") session_id)
    (file_id +:+ ".pbtmp").
Definition FinalPath (workspace_root session_id safe_filename : string) : string :=
  path_append (path_append (path_append workspace_root "incoming") session_id) safe_filename.

(** [NewId(prefix)] on the draws of its random device. *)
Definition NewId (prefix : string) (random : nat -> Z) : string :=
  foldl (fun id index => push_back id (byte_get "0123456789abcdef" (Z.to_nat (Z.land (random index) 15))))
    (push_back prefix "-") (seq 0 16).

(** ** The connection *)

(** [Exec(database, sql)]: the error is SQLite's message alone. *)
Definition Exec : TxnCommand -> M (Conn UploadDb) unit := transact (mkStatus StatusCode.kIoError).

(** A call of SQLite whose error the caller words. *)
Definition sqlite_call : M (Conn UploadDb) unit := api_call (mkStatus StatusCode.kIoError).

(** [rollback()]: its result is ignored. *)
Definition rollback : M (Conn UploadDb) unit := fun s => (Ok tt, (Exec ROLLBACK s).2).

(** [rollback(); return error;] *)
Definition roll_back_with {A} (error : Status) : M (Conn UploadDb) A := do* rollback; throw error.
Definition or_roll_back_with {A} (error : Status) (c : M (Conn UploadDb) A) : M (Conn UploadDb) A :=
  fun s => match c s with
           | (Ok a, s) => (Ok a, s)
           | (Err _, s) => roll_back_with error s
           end.

(** [rollback(); return SqliteError(database, operation);]: by then the
    connection's message is that of the ROLLBACK. *)
Definition or_roll_back {A} (operation : string) (c : M (Conn UploadDb) A) : M (Conn UploadDb) A :=
  fun s => match c s with
           | (Ok a, s) => (Ok a, s)
           | (Err _, s) =>
               let (r, s) := Exec ROLLBACK s in
               (Err (SqliteError operation (match r with Ok _ => "not an error" | Err e => message e end)), s)
           end.

(** [status = Exec(COMMIT); if (!status.ok()) rollback(); return status;] *)
Definition commit_or_roll_back : M (Conn UploadDb) unit :=
  fun s => match Exec COMMIT s with
           | (Ok _, s) => (Ok tt, s)
           | (Err e, s) => (do* rollback; throw e) s
           end.

(** An operation: [body] rolls back before each of its errors, [publishes]
    tells the results that are committed from those that are rolled back. *)
Definition upload_transaction {A} (publishes : A -> bool) (body : M (Conn UploadDb) A) : M (Conn UploadDb) A :=
  do* Exec BEGIN_IMMEDIATE;
  let* a := body in
  do* (if publishes a then commit_or_roll_back else rollback);
  ret a.

(** [sqlite3_step] of a SELECT that must give a row. *)
Definition one_row {A} (error : Status) (stmt : UploadDb -> option A) : M (Conn UploadDb) A :=
  let* row := run_query "" stmt in
  match row with Some a => ret a | None => throw error end.

(** [while (sqlite3_step(statement) == SQLITE_ROW)]: an error ends the rows
    like SQLITE_DONE does. *)
Fixpoint step_rows {R} (rows : list R) (s : Conn UploadDb) : StatusOr (list R) * Conn UploadDb :=
  match next_fault s with
  | (Some _, s) => (Ok [], s)
  | (None, s) =>
      match rows with
      | [] => (Ok [], s)
      | r :: rows => (let* rows := step_rows rows in ret (r :: rows)) s
      end
  end.
Definition query_rows {R} (stmt : UploadDb -> list R) : M (Conn UploadDb) (list R) :=
  fun s => step_rows (stmt (current_db s)) s.

(** A parameter: NULL where its bind failed. *)
Definition bound {A} (succeeds : bool) (value : A) : option A := if succeeds then Some value else None.

(** ** Reading *)

Definition ReadDigest (column : option string) : option Digest := column ≫= digest_of_blob.

Definition FileState (value : Z) : UploadFileState.t :=
  if value =? 0 then UploadFileState.kPending
  else if value =? 1 then UploadFileState.kReceiving
  else if value =? 2 then UploadFileState.kReceived
  else UploadFileState.kFailed.
Definition SessionState (value : Z) : UploadSessionState.t :=
  if value =? 1 then UploadSessionState.kComplete
  else if value =? 2 then UploadSessionState.kFailed
  else UploadSessionState.kOpen.

Definition file_of_row (row : FileRow) : UploadFile :=
  mkUploadFile (c_str (row_file_id row)) (c_str (row_original_filename row)) (c_str (row_safe_filename row))
    (to_uint64 (row_expected_size row)) (to_uint64 (row_received_size row))
    (ReadDigest (row_client_digest row)) (ReadDigest (row_server_digest row)) (FileState (to_int32 (row_state row))).

Section Operations.
Context (binds : nat -> bool).

Definition GetSession (id : string) : M (Conn UploadDb) UploadSession :=
  do* require (negb (str_empty id)) (Invalid "session id must not be empty");
  do* prepare "prepare session lookup";
  let not_found := mkStatus StatusCode.kNotFound "upload session not found" in
  let* found := outcome (one_row not_found (select_session (bound (binds 0%nat) id))) in
  match found with
  | Err _ => throw not_found
  | Ok row =>
      do* prepare "prepare file lookup";
      let* rows := query_rows (files_of (bound (binds 1%nat) id)) in
      ret (mkUploadSession id (ses_created_at_ns row) (to_uint64 (ses_expected_total row))
             (to_uint64 (ses_received_total row)) (SessionState (to_int32 (ses_state row))) (file_of_row <$> rows))
  end.

Definition GetFile (session file : string) : M (Conn UploadDb) UploadFile :=
  let* s := GetSession session in
  match list_find (fun f => file_id f = file) (session_files s) with
  | Some (_, f) => ret f
  | None => throw (mkStatus StatusCode.kNotFound "upload file not found")
  end.

(** ** Writing *)

Definition exactly_one (stmt : UploadDb -> option (UploadDb * Z)) : M (Conn UploadDb) unit :=
  do* run_dml "" stmt;
  let* changes := sqlite3_changes in
  require (changes =? 1) (Invalid "").

Definition BeginBody (session file : string) : M (Conn UploadDb) BeginUploadResult :=
  do* or_roll_back "prepare upload state lookup" sqlite_call;
  let not_found := mkStatus StatusCode.kNotFound "upload file not found" in
  let* state := or_roll_back_with not_found
    (one_row not_found (select_file_state (bound (binds 0%nat) session) (bound (binds 1%nat) file))) in
  let state := to_int32 state in
  if state =? 2 then ret kAlreadyReceived
  else if state =? 1 then ret kBusy
  else
    do* or_roll_back "prepare begin upload" sqlite_call;
    do* or_roll_back "begin upload"
      (exactly_one (update_begin (bound (binds 2%nat) session) (bound (binds 3%nat) file)));
    ret kStarted.

Definition BeginUpload (session file : string) : M (Conn UploadDb) BeginUploadResult :=
  upload_transaction (fun r => match r with kStarted => true | _ => false end) (BeginBody session file).

(** A single statement, outside any transaction of its own. *)
Definition MarkUploadFailed (session file : string) : M (Conn UploadDb) unit :=
  do* prepare "prepare failed upload update";
  run_dml "mark upload failed" (update_failed (bound (binds 0%nat) session) (bound (binds 1%nat) file)).

Definition CommitBody (session file : string) (received_size : Z) (server_digest : Digest) : M (Conn UploadDb) unit :=
  do* or_roll_back "prepare commit upload" sqlite_call;
  do* or_roll_back_with (Invalid "received upload size does not match the registered file")
    (exactly_one (update_commit (bound (binds 1%nat) session) (bound (binds 2%nat) file) (to_int64 received_size)
       (bound (binds 0%nat) (bytes server_digest))));
  do* or_roll_back "prepare session progress update" sqlite_call;
  or_roll_back "update session progress"
    (run_dml "" (update_progress (bound (binds 3%nat) session) (bound (binds 4%nat) session))).

Definition CommitUpload (session file : string) (received_size : Z) (server_digest : Digest) : M (Conn UploadDb) unit :=
  upload_transaction (fun _ => true) (CommitBody session file received_size server_digest).

Definition CompleteBody (session : string) : M (Conn UploadDb) unit :=
  do* or_roll_back "prepare session completion check" sqlite_call;
  let* counts := or_roll_back "check session completion" (run_query "" (select_completion (bound (binds 0%nat) session))) in
  if counts.1 =? 0 then roll_back_with (mkStatus StatusCode.kNotFound "upload session not found")
  else if negb (counts.2 =? 0) then roll_back_with (Invalid "upload session still has incomplete files")
  else
    do* or_roll_back "prepare session completion update" sqlite_call;
    do* or_roll_back "complete upload session" (run_dml "" (update_complete (bound (binds 1%nat) session)));
    let* changes := sqlite3_changes in
    if changes =? 0 then roll_back_with (mkStatus StatusCode.kAlreadyExists "upload session is complete")
    else ret tt.

Definition CompleteSession (session : string) : M (Conn UploadDb) unit :=
  upload_transaction (fun _ => true) (CompleteBody session).

(** ** [CreateSession]

    [random k] are the draws of the k-th device, one per id;
    [create_directories path] is the error of that call, if it fails. *)

Context (random : nat -> nat -> Z) (create_directories : string -> option string).
Context (workspace_root : string) (quota : UploadQuota).

(** Both calls write one [std::error_code]: the second overwrites the first. *)
Definition directory_error (session : string) : option string :=
  let incoming := path_append workspace_root "incoming" in
  let error := create_directories (path_append incoming session) in
  let error := create_directories (path_append (path_append incoming ".tmp") session) in
  error.

(** The files with the names chosen for them; [index] counts the files. *)
Fixpoint insert_files (session : string) (files : list (UploadFileRequest * string)) (index : nat)
    : M (Conn UploadDb) (list UploadFile) :=
  match files with
  | [] => ret []
  | (file, safe_name) :: files =>
      let id := NewId "file" (random (S index)) in
      let bind k := binds (1 + 5 * index + k)%nat in
      do* or_roll_back "insert upload file"
        (run_dml "" (insert_upload_file (bound (bind 0%nat) session) (bound (bind 1%nat) id)
           (bound (bind 2%nat) (request_original_filename file)) (bound (bind 3%nat) safe_name)
           (to_int64 (request_expected_size file))
           (digest ← request_client_digest file; bound (bind 4%nat) (bytes digest))));
      let* rest := insert_files session files (S index) in
      ret (mkUploadFile id (request_original_filename file) safe_name (request_expected_size file) 0
             (request_client_digest file) None UploadFileState.kPending :: rest)
  end.

Definition CreateBody (files : list UploadFileRequest) (total : Z) (safe_names : list string)
    : M (Conn UploadDb) UploadSession :=
  let id := NewId "session" (random 0%nat) in
  let* now := CurrentTimeNanoseconds in
  do* or_roll_back "prepare receiver quota lookup" sqlite_call;
  let exceeded := Invalid "receiver reserved-byte quota exceeded" in
  do* or_roll_back_with exceeded
    (let* reserved := one_row exceeded select_reserved in
     let reserved := to_uint64 reserved in
     require (negb (AddWouldOverflow reserved total || (max_reserved_bytes quota <? reserved + total))) exceeded);
  match directory_error id with
  | Some error => roll_back_with (mkStatus StatusCode.kIoError ("unable to create session staging directory: " +:+ error))
  | None =>
      do* or_roll_back "prepare session insert" sqlite_call;
      do* or_roll_back "insert session"
        (run_dml "" (insert_session (mkSessionRow (bound (binds 0%nat) id) now (to_int64 total) 0 0)));
      do* or_roll_back "prepare file insert" sqlite_call;
      let* stored := insert_files id (zip files safe_names) 0 in
      ret (mkUploadSession id now total 0 UploadSessionState.kOpen stored)
  end.

Definition CreateSession (files : list UploadFileRequest) : M (Conn UploadDb) UploadSession :=
  do* require (negb (length files =? 0)%nat) (Invalid "session must contain at least one file");
  let* named := lift (name_files quota files 0 ∅) in
  upload_transaction (fun _ => true) (CreateBody files named.1 named.2).

End Operations.
