(* ===== verification/UploadLogic.v ===== *)
(** * UploadLogic: names and transactions of the upload receiver

    The names the receiver stores files under are single safe components and
    the search for an unused one ends.  An operation in a transaction leaves
    the committed database as it was, or as its body left the working one:
    [effect] states it of every operation, whatever calls fail, and the [wp]
    lemmas give what the bodies do. *)

From stdpp Require Import pretty.
From S2P Require Import Prelude Status Bytes RelativePath Assets Sqlite Logic UploadStore.

(** ** Names *)

Lemma str_any_app f a b : str_any f (a +:+ b) = str_any f a || str_any f b.
Proof. induction a as [|c a IH]; [done|]. simpl. by rewrite IH, orb_assoc. Qed.

Lemma str_any_contains f c s : f c = true -> str_any f s = false -> str_contains c s = false.
Proof.
  intros Hc. induction s as [|d s IH]; [done|]. simpl. intros [Hd Hs]%orb_false_iff.
  rewrite IH, orb_false_r by done. destruct (Ascii.eqb_spec d c) as [->|]; [congruence|done].
Qed.

Lemma str_any_take_drop f n s : str_any f s = false -> str_any f (str_take n s) = false /\ str_any f (str_drop n s) = false.
Proof. rewrite <- (str_take_drop n s) at 1. rewrite str_any_app. by intros [? ?]%orb_false_iff. Qed.

(** Decimal digits. *)
Lemma str_any_pretty_go f n s :
  (forall d, (d < 10)%N -> f (pretty_N_char d) = false) -> str_any f s = false -> str_any f (pretty_N_go n s) = false.
Proof.
  intros Hf. revert s. induction (N.lt_wf_0 n) as [n _ IH]; intros s Hs.
  destruct (decide (0 < n)%N) as [Hn|Hn]; [|by assert (n = 0%N) as -> by lia].
  rewrite pretty_N_go_step by done. apply IH; [by apply N.div_lt|].
  simpl. rewrite Hf, Hs; [done|]. by apply N.mod_lt.
Qed.
Lemma str_any_pretty f (n : N) : (forall d, (d < 10)%N -> f (pretty_N_char d) = false) -> str_any f (pretty n) = false.
Proof.
  intros Hf. unfold pretty, pretty_N. case_decide; [|by apply str_any_pretty_go].
  pose proof (Hf 0%N eq_refl) as H0. simpl in *. by rewrite H0.
Qed.

Definition safe_name (s : string) : Prop :=
  s <> "" /\ s <> "." /\ s <> ".." /\ str_any unsafe_byte s = false.

Lemma SafeFilename_Ok original name : SafeFilename original = Ok name -> name = original /\ safe_name name.
Proof.
  unfold SafeFilename. destruct (str_empty original) eqn:He; [done|].
  destruct (bool_decide_reflect (original = ".")); [done|]. destruct (bool_decide_reflect (original = "..")); [done|].
  simpl. destruct (_ <? _); [done|]. destruct (str_any _ _) eqn:Ha; [done|]. intros [= <-].
  split; [done|]. split_and!; try done. by intros ->.
Qed.

(** A stored name has no NUL and no separator. *)
Lemma safe_name_plain s : safe_name s -> str_contains NUL s = false /\ str_contains "/" s = false.
Proof. intros (_&_&_&Ha). by split; apply (str_any_contains unsafe_byte). Qed.

Lemma collision_suffix_parts value suffix :
  (suffix <> 1)%N -> exists a b, value = a +:+ b /\ WithCollisionSuffix value suffix = a +:+ ("__" +:+ pretty suffix) +:+ b.
Proof.
  intros Hs. unfold WithCollisionSuffix. rewrite (proj2 (N.eqb_neq _ _) Hs).
  destruct (rfind dot value) as [[|n]|]; [|exists (str_take (S n) value), (str_drop (S n) value)|];
    [exists value, ""|by rewrite str_take_drop|exists value, ""]; by rewrite !str_app_nil.
Qed.

Lemma str_length_cat (a b c : string) :
  String.length (a +:+ b +:+ c) = (String.length a + String.length b + String.length c)%nat.
Proof. rewrite !str_length_app. lia. Qed.

Lemma collision_suffix_safe name suffix : safe_name name -> safe_name (WithCollisionSuffix name suffix).
Proof.
  intros Hsafe. destruct (decide (suffix = 1%N)) as [->|Hs]; [done|].
  destruct (collision_suffix_parts name suffix Hs) as (a&b&Hname&->). destruct Hsafe as (Hne&_&_&Ha).
  assert (3 <= String.length (a +:+ ("__" +:+ pretty suffix) +:+ b))%nat as Hlen.
  { rewrite Hname in Hne. rewrite str_length_cat, str_length_app. simpl.
    destruct a; simpl; [|lia]. destruct b; simpl; [done|lia]. }
  rewrite Hname, str_any_app in Ha. apply orb_false_iff in Ha as [Ha Hb].
  split_and!; [intros He; rewrite He in Hlen; simpl in Hlen; lia..|].
  rewrite str_any_app, Ha, str_any_app, str_any_app, Hb, str_any_pretty; [done|].
  intros d Hd. unfold pretty_N_char. by repeat case_match.
Qed.

Lemma collision_suffix_longer name i :
  (i <> 1)%N -> (String.length name < String.length (WithCollisionSuffix name i))%nat.
Proof.
  intros Hi. destruct (collision_suffix_parts name i Hi) as (a&b&->&->).
  rewrite str_length_cat, !str_length_app. simpl. lia.
Qed.

(** Different suffixes give different names. *)
Lemma collision_suffix_inj name i j : WithCollisionSuffix name i = WithCollisionSuffix name j -> i = j.
Proof.
  destruct (decide (i = 1%N)) as [->|Hi], (decide (j = 1%N)) as [->|Hj]; [done|..].
  - pose proof (collision_suffix_longer name j Hj) as Hl. intros Heq. rewrite <- Heq in Hl.
    change (WithCollisionSuffix name 1) with name in Hl. lia.
  - pose proof (collision_suffix_longer name i Hi) as Hl. intros Heq. rewrite Heq in Hl.
    change (WithCollisionSuffix name 1) with name in Hl. lia.
  - unfold WithCollisionSuffix. rewrite !(proj2 (N.eqb_neq _ _)) by done.
    assert (forall a b : string, a +:+ ("__" +:+ pretty i) +:+ b = a +:+ ("__" +:+ pretty j) +:+ b -> i = j) as Hmid.
    { intros a b Heq. pose proof (f_equal String.length Heq) as Hl. rewrite !str_length_cat, !str_length_app in Hl.
      apply str_app_inj_l in Heq. rewrite !str_app_assoc in Heq. apply str_app_inj_l in Heq.
      apply str_app_inj_length in Heq as [Hp _]; [by apply (inj pretty) in Hp|lia]. }
    destruct (rfind dot name) as [[|n]|]; [|apply Hmid|];
      rewrite <- (str_app_nil ("__" +:+ pretty i)), <- (str_app_nil ("__" +:+ pretty j)); apply Hmid.
Qed.

(** The names tried when all of [fuel + 1] are used. *)
Lemma unused_name_None fuel used name i :
  unused_name fuel used name (WithCollisionSuffix name i) i = None ->
  forall k, (k <= fuel)%nat -> WithCollisionSuffix name (i + N.of_nat k) ∈ used.
Proof.
  revert i. induction fuel as [|fuel IH]; intros i; simpl; case_decide as Hu; try done.
  - intros _ [|k] Hk; [by rewrite N.add_0_r|lia].
  - intros Hn [|k] Hk; [by rewrite N.add_0_r|].
    replace (i + N.of_nat (S k))%N with (i + 1 + N.of_nat k)%N by lia. apply IH; [done|lia].
Qed.

(** The search ends, with a name that is not used. *)
Lemma unused_name_total used name : exists candidate, unused_name (size used) used name name 1 = Some candidate.
Proof.
  destruct (unused_name (size used) used name name 1) as [c|] eqn:Hn; [by exists c|]. exfalso.
  pose proof (unused_name_None (size used) used name 1 Hn) as Hall.
  set (names := (fun k => WithCollisionSuffix name (1 + N.of_nat k)) <$> seq 0 (S (size used))).
  assert (list_to_set names ⊆ used) as Hsub.
  { intros s. rewrite elem_of_list_to_set. unfold names. intros (k&->&Hk)%list_elem_of_fmap.
    apply elem_of_seq in Hk. apply Hall. lia. }
  apply subseteq_size in Hsub. rewrite size_list_to_set in Hsub.
  - unfold names in Hsub. rewrite length_fmap, length_seq in Hsub. lia.
  - apply NoDup_fmap_2_strong; [|apply NoDup_seq]. intros x y _ _ Hxy%collision_suffix_inj. lia.
Qed.

Lemma unused_name_Some fuel used name i candidate :
  unused_name fuel used name (WithCollisionSuffix name i) i = Some candidate ->
  candidate ∉ used /\ exists j, candidate = WithCollisionSuffix name j.
Proof.
  revert i. induction fuel as [|fuel IH]; intros i; simpl; case_decide as Hu; try done.
  - intros [= <-]. eauto.
  - by intros H%IH.
  - intros [= <-]. eauto.
Qed.

(** ** Transactions *)

#[local] Arguments rollback : simpl never.
#[local] Arguments Exec : simpl never.
#[local] Arguments transact : simpl never.

Lemma transact_agree {DB} f g cmd (s : Conn DB) :
  (transact f cmd s).2 = (transact g cmd s).2 /\ is_ok (transact f cmd s).1 = is_ok (transact g cmd s).1.
Proof.
  unfold transact. destruct (next_fault s) as [[e|] s']; [done|]. by destruct cmd, (working s').
Qed.

Lemma exec_committed cmd s :
  cmd <> COMMIT \/ working s = None -> committed (Exec cmd s).2 = committed s.
Proof.
  intros Hcmd. unfold Exec. rewrite (proj1 (transact_agree _ ExecuteError cmd s)). by apply execute_committed.
Qed.

Lemma committed_rollback s : committed (rollback s).2 = committed s.
Proof. apply exec_committed. by left. Qed.

Lemma roll_back_with_outcome {A} e s :
  is_ok (roll_back_with (A := A) e s).1 = false /\ committed (roll_back_with (A := A) e s).2 = committed s.
Proof.
  unfold roll_back_with, bind, throw. pose proof (committed_rollback s) as Hr. unfold rollback in *. done.
Qed.

Lemma txn_safe_roll_back_with {A} e : txn_safe (roll_back_with (A := A) e).
Proof. intros s _. destruct (roll_back_with_outcome (A := A) e s) as [-> ->]. done. Qed.

Lemma txn_safe_or_roll_back_with {A} e (c : M (Conn UploadDb) A) : txn_safe c -> txn_safe (or_roll_back_with e c).
Proof.
  intros Hc s Hw. unfold or_roll_back_with. destruct (Hc s Hw) as [Hcom Hok]. destruct (c s) as [[a|e'] s']; [done|].
  destruct (roll_back_with_outcome (A := A) e s') as [-> ->]. done.
Qed.

Lemma txn_safe_or_roll_back {A} op (c : M (Conn UploadDb) A) : txn_safe c -> txn_safe (or_roll_back op c).
Proof.
  intros Hc s Hw. unfold or_roll_back. destruct (Hc s Hw) as [Hcom Hok]. destruct (c s) as [[a|e'] s']; [done|].
  simpl in *. assert (committed (Exec ROLLBACK s').2 = committed s') as Hr by (apply exec_committed; by left).
  destruct (Exec ROLLBACK s') as [r s'']. simpl in *. by rewrite Hr.
Qed.

Lemma wp_roll_back_with {A} e (Q : A -> UploadDb -> Z -> Prop) w n : wp (roll_back_with e) Q w n.
Proof. intros s a s' _ _ Hr. pose proof (roll_back_with_outcome (A := A) e s) as [Ho _]. by rewrite Hr in Ho. Qed.

Lemma wp_or_roll_back_with {A} e (c : M (Conn UploadDb) A) Q w n : wp c Q w n -> wp (or_roll_back_with e c) Q w n.
Proof.
  intros Hc s a s' Hw Hn. unfold or_roll_back_with. destruct (c s) as [[b|e'] s1] eqn:Hcs.
  - intros [= -> ->]. by apply (Hc s a s').
  - intros Hr. by destruct (wp_roll_back_with e Q w n s1 a s').
Qed.

Lemma wp_or_roll_back {A} op (c : M (Conn UploadDb) A) Q w n : wp c Q w n -> wp (or_roll_back op c) Q w n.
Proof.
  intros Hc s a s' Hw Hn. unfold or_roll_back. destruct (c s) as [[b|e'] s1] eqn:Hcs.
  - intros [= -> ->]. by apply (Hc s a s').
  - by destruct (Exec ROLLBACK s1) as [r s2].
Qed.

Lemma txn_safe_one_row {A} e (stmt : UploadDb -> option A) : txn_safe (one_row e stmt).
Proof. apply txn_safe_bind; [apply txn_safe_run_query|]. intros [a|]; [apply txn_safe_ret|apply txn_safe_throw]. Qed.
Lemma wp_one_row {A} e (stmt : UploadDb -> option A) Q w n :
  (forall a, stmt w = Some a -> Q a w n) -> wp (one_row e stmt) Q w n.
Proof.
  intros HQ. apply wp_bind, wp_query. destruct (stmt w) as [a|]; [by apply wp_ret, HQ|apply wp_throw].
Qed.

Lemma txn_safe_exactly_one stmt : txn_safe (exactly_one stmt).
Proof.
  apply txn_safe_bind; [apply txn_safe_run_dml|intros _]. apply txn_safe_bind; [apply txn_safe_changes|intros n].
  apply txn_safe_require.
Qed.
Lemma wp_exactly_one stmt (Q : unit -> UploadDb -> Z -> Prop) w n :
  (forall w', stmt w = Some (w', 1) -> Q tt w' 1) -> wp (exactly_one stmt) Q w n.
Proof.
  intros HQ. apply wp_bind, wp_dml. intros w' n' Hs. apply wp_bind, wp_changes, wp_require.
  intros ->%Z.eqb_eq. by apply HQ.
Qed.

(** What an operation leaves committed: [Q] where it succeeds with a result
    it publishes, the database it found otherwise. *)
Definition effect {A} (publishes : A -> bool) (c : M (Conn UploadDb) A) (Q : UploadDb -> A -> UploadDb -> Prop) : Prop :=
  forall s, match c s with
            | (Ok a, s') => if publishes a then Q (committed s) a (committed s') else committed s' = committed s
            | (Err _, s') => committed s' = committed s
            end.

Lemma effect_in_transaction {A} publishes (body : M (Conn UploadDb) A) Q :
  txn_safe body -> (forall w n, wp body (fun a w' _ => publishes a = true -> Q w a w') w n) ->
  effect publishes (upload_transaction publishes body) Q.
Proof.
  intros Hsafe Hbody s. unfold upload_transaction, bind.
  destruct (begin_outcome s) as [Hok Hcom]. destruct (transact_agree (mkStatus StatusCode.kIoError) ExecuteError BEGIN_IMMEDIATE s) as [Ha1 Ha2].
  unfold Exec at 1. unfold Execute in Hok, Hcom. rewrite <- Ha1, <- Ha2 in Hok. rewrite <- Ha1 in Hcom.
  destruct (transact (mkStatus StatusCode.kIoError) BEGIN_IMMEDIATE s) as [[[]|e] s1]; simpl in *; [|done].
  destruct (Hok eq_refl) as [Hw Hw1]. assert (working s1 <> None) as Hopen by (by rewrite Hw1).
  destruct (Hsafe s1 Hopen) as [Hc2 Hw2]. destruct (body s1) as [[a|e] s2] eqn:Hb; simpl in *; [|congruence].
  destruct (Hbody (current_db s1) (changes s1) s1 a s2 eq_refl eq_refl Hb) as (_&_&HQ).
  specialize (Hw2 eq_refl). unfold current_db in HQ. rewrite Hw1 in HQ.
  destruct (working s2) as [w|] eqn:Hws2; [|done]. destruct (publishes a) eqn:Hp; simpl.
  - unfold commit_or_roll_back, Exec at 1, transact.
    destruct (next_fault_cases s2) as [(s3&->&_&_&_&Hw3&Hc3&_)|(f&s3&->&_&Hc3)].
    + rewrite Hw3, Hws2. simpl. rewrite Hp. by apply HQ.
    + destruct (roll_back_with_outcome (A := unit) (mkStatus StatusCode.kIoError (errmsg f)) s3) as [_ Hr].
      unfold roll_back_with, bind, throw in Hr. unfold bind, throw. destruct (rollback s3) as [[[]|?] s4]; simpl in *; congruence.
  - rewrite Hp. pose proof (committed_rollback s2) as Hr. unfold rollback in Hr. simpl in Hr. congruence.
Qed.

Lemma effect_bind_pure {A B} publishes (c : M (Conn UploadDb) A) (k : A -> M (Conn UploadDb) B) Q :
  (forall s, (c s).2 = s) -> (forall s a, (c s).1 = Ok a -> effect publishes (k a) Q) -> effect publishes (bind c k) Q.
Proof.
  intros Hc Hk s. unfold bind. specialize (Hc s). specialize (Hk s).
  destruct (c s) as [[a|e] s1]; simpl in *; subst s1; [|done]. by apply Hk.
Qed.

(** A statement on its own. *)
Lemma effect_run_dml what stmt (Q : UploadDb -> unit -> UploadDb -> Prop) :
  (forall w w' n, stmt w = Some (w', n) -> Q w tt w') -> (forall w, Q w tt w) -> effect (fun _ => true) (run_dml what stmt) Q.
Proof.
  intros HQ Hid s. unfold run_dml, step_dml.
  destruct (next_fault_cases s) as [(s1&->&_&_&_&Hw&Hc&Hd)|(f&s1&->&_&Hc)]; [|done].
  rewrite Hd. destruct (stmt (current_db s)) as [[w' n]|] eqn:Hs; [|done].
  unfold write_db. rewrite Hw. unfold current_db in Hs. destruct (working s); simpl; [rewrite Hc; apply Hid|by eapply HQ].
Qed.

(** ** The operations *)

#[export] Hint Resolve txn_safe_roll_back_with txn_safe_or_roll_back_with txn_safe_or_roll_back
  txn_safe_one_row txn_safe_exactly_one : sqlite.

(** One step of a [wp] goal of a body of the receiver. *)
Ltac upload_step :=
  lazymatch goal with
  | |- wp (or_roll_back _ _) _ _ _ => apply wp_or_roll_back
  | |- wp (or_roll_back_with _ _) _ _ _ => apply wp_or_roll_back_with
  | |- wp (roll_back_with _) _ _ _ => apply wp_roll_back_with
  | |- wp (one_row _ _) _ _ _ => apply wp_one_row; intros ? ?
  | |- wp (exactly_one _) _ _ _ => apply wp_exactly_one; intros ? ?
  | |- wp sqlite_call _ _ _ => apply wp_api
  | |- wp (if ?b then _ else _) _ _ _ => destruct b eqn:?
  | _ => wp_step
  end.
Ltac upload_run := repeat upload_step.

Section Effects.
Context (binds : nat -> bool).

Lemma effect_BeginUpload session file :
  effect (fun r => match r with kStarted => true | _ => false end) (BeginUpload binds session file)
    (fun w _ w' => update_begin (bound (binds 2%nat) session) (bound (binds 3%nat) file) w = Some (w', 1)).
Proof.
  apply effect_in_transaction.
  - unfold BeginBody, sqlite_call. eauto 20 with sqlite.
  - intros w n. unfold BeginBody. upload_run; try done.
Qed.

Lemma effect_MarkUploadFailed session file :
  effect (fun _ => true) (MarkUploadFailed binds session file)
    (fun w _ w' => w' = w \/ exists n, update_failed (bound (binds 0%nat) session) (bound (binds 1%nat) file) w = Some (w', n)).
Proof.
  intros s. unfold MarkUploadFailed, bind, prepare, api_call.
  destruct (next_fault_cases s) as [(s1&->&_&_&_&_&Hc&_)|(f&s1&->&_&Hc)]; [|done]. rewrite <- Hc.
  apply (effect_run_dml _ _ (fun w _ w' => w' = w \/ exists n, _ w = Some (w', n))); [|by left].
  intros w w' n Hs. right. by exists n.
Qed.

Lemma effect_CommitUpload session file size digest :
  effect (fun _ => true) (CommitUpload binds session file size digest)
    (fun w _ w' => exists w1 n,
       update_commit (bound (binds 1%nat) session) (bound (binds 2%nat) file) (to_int64 size)
         (bound (binds 0%nat) (bytes digest)) w = Some (w1, 1)
       /\ update_progress (bound (binds 3%nat) session) (bound (binds 4%nat) session) w1 = Some (w', n)).
Proof.
  apply effect_in_transaction.
  - unfold CommitBody, sqlite_call. eauto 20 with sqlite.
  - intros w n. unfold CommitBody. upload_run. by eauto.
Qed.

Lemma effect_CompleteSession session :
  effect (fun _ => true) (CompleteSession binds session)
    (fun w _ w' => exists n,
       (select_completion (bound (binds 0%nat) session) w).1 <> 0
       /\ (select_completion (bound (binds 0%nat) session) w).2 = 0
       /\ update_complete (bound (binds 1%nat) session) w = Some (w', n) /\ n <> 0).
Proof.
  apply effect_in_transaction.
  - unfold CompleteBody, sqlite_call. eauto 20 with sqlite.
  - intros w n. unfold CompleteBody. upload_run. intros _. bool_hyps. by eauto.
Qed.

Context (random : nat -> nat -> Z) (create_directories : string -> option string).
Context (workspace_root : string) (quota : UploadQuota).

(** The rows and the result of the files of a session. *)
Fixpoint stored_rows (session : string) (files : list (UploadFileRequest * string)) (index : nat) : list FileRow :=
  match files with
  | [] => []
  | (file, name) :: files =>
      mkFileRow session (NewId "file" (random (S index))) (request_original_filename file) name
        (to_int64 (request_expected_size file)) 0
        (digest ← request_client_digest file; bound (binds (1 + 5 * index + 4)%nat) (bytes digest)) None 0
      :: stored_rows session files (S index)
  end.
Fixpoint stored_files (files : list (UploadFileRequest * string)) (index : nat) : list UploadFile :=
  match files with
  | [] => []
  | (file, name) :: files =>
      mkUploadFile (NewId "file" (random (S index))) (request_original_filename file) name (request_expected_size file) 0
        (request_client_digest file) None UploadFileState.kPending
      :: stored_files files (S index)
  end.

(** The UNIQUE constraints of upload_file. *)
Definition unique_files (l : list FileRow) : Prop :=
  NoDup ((fun r => (row_session_id r, row_file_id r)) <$> l)
  /\ NoDup ((fun r => (row_session_id r, row_safe_filename r)) <$> l).

Lemma existsb_false {A} (f : A -> bool) l x : existsb f l = false -> x ∈ l -> f x = false.
Proof.
  intros He Hx. apply not_true_iff_false. intros Hf. apply not_true_iff_false in He. apply He, existsb_exists.
  exists x. split; [by apply list_elem_of_In|done].
Qed.

Lemma insert_upload_file_Some session file original safe size digest w w' n :
  insert_upload_file session file original safe size digest w = Some (w', n) ->
  exists s f o nm, session = Some s /\ file = Some f /\ original = Some o /\ safe = Some nm
    /\ w' = mkUploadDb (upload_session w) (upload_file w ++ [mkFileRow s f o nm size 0 digest None 0])
    /\ (unique_files (upload_file w) -> unique_files (upload_file w')).
Proof.
  unfold insert_upload_file. destruct session as [s|], file as [f|], original as [o|], safe as [nm|]; try done.
  destruct (existsb _ _) eqn:He; [done|]. intros [= <- <-]. exists s, f, o, nm. split_and!; try done.
  assert (forall r, r ∈ upload_file w -> row_session_id r = s -> row_file_id r <> f /\ row_safe_filename r <> nm) as Hnew.
  { intros r Hr Hs. pose proof (existsb_false _ _ _ He Hr) as Hf. cbv beta in Hf. rewrite bool_decide_eq_true_2 in Hf by done.
    simpl in Hf. by bool_hyps. }
  intros [Hi Hn]. split; simpl; rewrite fmap_app; apply NoDup_app; (split_and!; [done| |apply NoDup_singleton]);
    intros k (r&->&Hr)%list_elem_of_fmap; simpl; intros [= Hs Hk]%list_elem_of_singleton;
    destruct (Hnew r Hr Hs); done.
Qed.

Lemma bound_Some {A} b (v v' : A) : bound b v = Some v' -> b = true /\ v' = v.
Proof. destruct b; [|done]. by intros [= ->]. Qed.

Lemma wp_insert_files session files index (Q : list UploadFile -> UploadDb -> Z -> Prop) w n :
  (forall w' n', upload_session w' = upload_session w ->
     upload_file w' = upload_file w ++ stored_rows session files index ->
     (unique_files (upload_file w) -> unique_files (upload_file w')) ->
     Q (stored_files files index) w' n') ->
  wp (insert_files binds random session files index) Q w n.
Proof.
  revert index Q w n. induction files as [|[file name] files IH]; intros index Q w n HQ; cbn [insert_files].
  - apply wp_ret, HQ; [done|by rewrite app_nil_r|done].
  - apply wp_bind, wp_or_roll_back, wp_dml. intros w1 n1 (s&f&o&nm&Hs&Hf&Ho&Hnm&->&Hu)%insert_upload_file_Some.
    apply bound_Some in Hs as [_ ->], Hf as [_ ->], Ho as [_ ->], Hnm as [_ ->].
    apply wp_bind, IH. intros w2 n2 Hses Hfiles Hu2. apply wp_ret, HQ; [done| |auto].
    rewrite Hfiles. cbn [upload_file stored_rows]. by rewrite <- app_assoc.
Qed.

(** What [CreateSession] commits: the session and its files, in one step. *)
Definition created (files : list UploadFileRequest) (w : UploadDb) (session : UploadSession) (w' : UploadDb) : Prop :=
  exists total names reserved now,
    let id := NewId "session" (random 0%nat) in
    let row := mkSessionRow (bound (binds 0%nat) id) now (to_int64 total) 0 0 in
    name_files quota files 0 ∅ = Ok (total, names)
    /\ select_reserved w = Some reserved /\ to_uint64 reserved + total <= max_reserved_bytes quota
    /\ files <> []
    /\ existsb (fun r => matches (ses_id r) (ses_id row)) (upload_session w) = false
    /\ upload_session w' = upload_session w ++ [row]
    /\ upload_file w' = upload_file w ++ stored_rows id (zip files names) 0
    /\ (unique_files (upload_file w) -> unique_files (upload_file w'))
    /\ session = mkUploadSession id now total 0 UploadSessionState.kOpen (stored_files (zip files names) 0).

Lemma txn_safe_insert_files session files index : txn_safe (insert_files binds random session files index).
Proof. revert index. induction files as [|[file name] files IH]; intros index; cbn [insert_files]; eauto with sqlite. Qed.

Lemma effect_CreateSession files :
  effect (fun _ => true) (CreateSession binds random create_directories workspace_root quota files) (created files).
Proof.
  unfold CreateSession. apply effect_bind_pure; [by unfold require; destruct (negb _)|]. intros s1 [] Hne.
  apply effect_bind_pure; [done|]. intros s2 [total names] Hnames. cbn [lift fst snd] in *.
  assert (files <> []) as Hnil by (by destruct files).
  apply effect_in_transaction.
  - unfold CreateBody, sqlite_call. pose proof txn_safe_insert_files. eauto 20 with sqlite.
  - intros w n. unfold CreateBody. upload_run. destruct (directory_error _ _ _); [apply wp_roll_back_with|].
    upload_run. apply wp_insert_files. intros w3 n3 Hses Hfiles Hu. upload_run. intros _.
    unfold insert_session in *. destruct (existsb _ _) eqn:He; [done|]. simplify_eq. bool_hyps.
    do 4 eexists. split_and!; try done.
Qed.

End Effects.
