(* ===== verification/UploadTheorems.v ===== *)
(** * UploadTheorems: what the upload receiver keeps in its database

    Sequences of operations of [UploadSessionStore], whatever calls of SQLite
    fail: a file follows its state machine and is final once received; the
    databases reached are well formed when binding parameters succeeds; a
    session reads back as it was created; and the names files get are safe and
    distinct. *)

From stdpp Require Import pretty.
From S2P Require Import Prelude Status Bytes Sqlite Logic UploadStore UploadLogic.

(** ** Calls and the databases they reach *)

Inductive UploadCall :=
  | CallCreate (binds : nat -> bool) (random : nat -> nat -> Z) (create_directories : string -> option string)
      (workspace_root : string) (files : list UploadFileRequest)
  | CallBegin (binds : nat -> bool) (session file : string)
  | CallFailed (binds : nat -> bool) (session file : string)
  | CallCommit (binds : nat -> bool) (session file : string) (size : Z) (digest : Digest)
  | CallComplete (binds : nat -> bool) (session : string).

Definition run_upload (quota : UploadQuota) (c : UploadCall) (s : Conn UploadDb) : Conn UploadDb :=
  match c with
  | CallCreate binds random dirs root files => (CreateSession binds random dirs root quota files s).2
  | CallBegin binds session file => (BeginUpload binds session file s).2
  | CallFailed binds session file => (MarkUploadFailed binds session file s).2
  | CallCommit binds session file size digest => (CommitUpload binds session file size digest s).2
  | CallComplete binds session => (CompleteSession binds session s).2
  end.

(** What a call commits on some connection, its failures included. *)
Definition upload_step (allowed : UploadCall -> Prop) (quota : UploadQuota) (db db' : UploadDb) : Prop :=
  exists c s, allowed c /\ committed s = db /\ committed (run_upload quota c s) = db'.
Definition receiver_reaches (allowed : UploadCall -> Prop) (quota : UploadQuota) : UploadDb -> UploadDb -> Prop :=
  rtc (upload_step allowed quota).

(** What a call can have committed, by the effects of the operations. *)
Lemma upload_step_cases allowed quota db db' :
  upload_step allowed quota db db' -> db' = db
  \/ (exists c, allowed c /\ match c with
      | CallCreate binds random dirs root files => exists session, created binds random quota files db session db'
      | CallBegin binds session file =>
          update_begin (bound (binds 2%nat) session) (bound (binds 3%nat) file) db = Some (db', 1)
      | CallFailed binds session file =>
          exists n, update_failed (bound (binds 0%nat) session) (bound (binds 1%nat) file) db = Some (db', n)
      | CallCommit binds session file size digest => exists w n,
          update_commit (bound (binds 1%nat) session) (bound (binds 2%nat) file) (to_int64 size)
            (bound (binds 0%nat) (bytes digest)) db = Some (w, 1)
          /\ update_progress (bound (binds 3%nat) session) (bound (binds 4%nat) session) w = Some (db', n)
      | CallComplete binds session => exists n,
          (select_completion (bound (binds 0%nat) session) db).1 <> 0
          /\ (select_completion (bound (binds 0%nat) session) db).2 = 0
          /\ update_complete (bound (binds 1%nat) session) db = Some (db', n) /\ n <> 0
      end).
Proof.
  intros (c&s&Hc&<-&<-). destruct c as [binds random dirs root files|b x f|b x f|b x f z d|b x]; cbn [run_upload].
  - pose proof (effect_CreateSession binds random dirs root quota files s) as H.
    destruct (CreateSession _ _ _ _ _ _ s) as [[a|e] s']; [right|by left]. eexists; split; [done|]. by exists a.
  - pose proof (effect_BeginUpload b x f s) as H.
    destruct (BeginUpload b x f s) as [[[]|e] s']; [right|by left..]. by eexists; split.
  - pose proof (effect_MarkUploadFailed b x f s) as H.
    destruct (MarkUploadFailed b x f s) as [[a|e] s']; [|by left]. destruct H as [|H]; [by left|right].
    by eexists; split.
  - pose proof (effect_CommitUpload b x f z d s) as H.
    destruct (CommitUpload b x f z d s) as [[a|e] s']; [right|by left]. by eexists; split.
  - pose proof (effect_CompleteSession b x s) as H.
    destruct (CompleteSession b x s) as [[a|e] s']; [right|by left]. by eexists; split.
Qed.

(** ** The state machine of a file *)

(** One step of a stored file: pending and failed files start, a started one
    fails or is received with its registered size. *)
Inductive file_step (r : FileRow) : FileRow -> Prop :=
  | file_stays : file_step r r
  | file_starts : row_state r = 0 \/ row_state r = 3 -> file_step r (with_state 1 r)
  | file_fails : row_state r = 1 -> file_step r (with_state 3 r)
  | file_received digest : row_state r = 1 -> file_step r (with_received (row_expected_size r) digest r).

(** The files of a database after a step: the old ones in place, the new ones
    pending. *)
Definition files_step (l l' : list FileRow) : Prop :=
  exists kept new, l' = kept ++ new /\ Forall2 file_step l kept /\ Forall (fun r => row_state r = 0) new.

Lemma files_step_map which set l :
  (forall r, which r = true -> file_step r (set r)) -> files_step l ((fun r => if which r then set r else r) <$> l).
Proof.
  intros Hset. exists ((fun r => if which r then set r else r) <$> l), []. rewrite app_nil_r. split; [done|]. split; [|constructor].
  apply Forall2_fmap_r. apply Forall_Forall2_diag, Forall_forall. intros r _. simpl.
  destruct (which r) eqn:Hr; [by apply Hset|constructor].
Qed.

Lemma files_step_refl l : files_step l l.
Proof. exists l, []. rewrite app_nil_r. split_and!; [done| |constructor]. apply Forall_Forall2_diag, Forall_forall. constructor. Qed.

Lemma stored_rows_pending binds random session files index :
  Forall (fun r => row_state r = 0) (stored_rows binds random session files index).
Proof. revert index. induction files as [|[f name] files IH]; intros index; constructor; [done|apply IH]. Qed.

Lemma update_progress_files a b w w' n : update_progress a b w = Some (w', n) -> upload_file w' = upload_file w.
Proof.
  unfold update_progress, update_sessions. destruct (sum_int64 _) as [z|]; [by intros [= <- <-]|].
  destruct (existsb _ _); [done|by intros [= <- <-]].
Qed.

Lemma upload_step_files allowed quota db db' :
  upload_step allowed quota db db' -> files_step (upload_file db) (upload_file db').
Proof.
  intros [->|(c&_&Hc)]%upload_step_cases; [apply files_step_refl|].
  destruct c as [binds random dirs root files|b x f|b x f|b x f z d|b x].
  - destruct Hc as (session&total&names&reserved&now&Hc). cbv zeta in Hc. destruct Hc as (_&_&_&_&_&_&->&_).
    eexists _, _. split; [done|]. split; [|apply stored_rows_pending]. apply Forall_Forall2_diag, Forall_forall. constructor.
  - injection Hc as <- _. apply files_step_map. intros r [_ Hr]%andb_true_iff. apply orb_true_iff in Hr.
    apply file_starts. by destruct Hr as [?%Z.eqb_eq|?%Z.eqb_eq]; [left|right].
  - destruct Hc as (n&[= <- _]). apply files_step_map. intros r Hr. bool_hyps. by apply file_fails.
  - destruct Hc as (w&n&[= <- _]&->%update_progress_files). apply files_step_map. intros r Hr. bool_hyps. subst.
    match goal with H : row_expected_size r = _ |- _ => rewrite <- H end. by apply file_received.
  - destruct Hc as (n&_&_&[= <- _]&_). apply files_step_refl.
Qed.

Lemma received_file_stays db db' r :
  files_step (upload_file db) (upload_file db') -> r ∈ upload_file db -> row_state r = 2 -> r ∈ upload_file db'.
Proof.
  intros (kept&new&->&Hsteps&_) Hr Hs. apply elem_of_app. left.
  apply list_elem_of_lookup in Hr as [i Hi]. destruct (Forall2_lookup_l _ _ _ _ _ Hsteps Hi) as (r'&Hi'&Hstep).
  apply list_elem_of_lookup. exists i. rewrite Hi'. f_equal. destruct Hstep; naive_solver lia.
Qed.

(** C13. A file the receiver has recorded as received stays in its database
    unchanged (size, digest, name and state), whatever operations follow,
    whichever calls of SQLite fail in them and whichever parameters fail to be
    bound. *)
Theorem received_files_are_final allowed quota db db' r :
  receiver_reaches allowed quota db db' -> r ∈ upload_file db -> row_state r = 2 -> r ∈ upload_file db'.
Proof.
  intros Hreach Hr Hs. induction Hreach as [|db db1 db' Hstep _ IH]; [done|].
  apply IH. by eapply received_file_stays; [eapply upload_step_files|..].
Qed.

(** ** Names and sizes of the files of a session *)

Definition total (l : list Z) : Z := foldr Z.add 0 l.

Lemma total_app a b : total (a ++ b) = total a + total b.
Proof. unfold total. induction a as [|z a IH]; [done|]. simpl. lia. Qed.

Lemma total_cons z l : total (z :: l) = z + total l.
Proof. done. Qed.

Lemma total_nonneg l : Forall (fun z => 0 <= z) l -> 0 <= total l.
Proof. induction 1; simpl; lia. Qed.

(** The sum SQLite computes, where it does not overflow. *)
Lemma sum_step_None l : foldl sum_step None l = None.
Proof. by induction l. Qed.
Lemma foldl_sum_step l a z : foldl sum_step (Some a) l = Some z -> z = a + total l.
Proof.
  revert a. induction l as [|x l IH]; intros a; simpl; [intros [= <-]; lia|].
  destruct (_ || _); [by rewrite sum_step_None|]. intros ->%IH. lia.
Qed.
Lemma sum_int64_Some l z : sum_int64 l = Some z -> z = total l.
Proof. intros ->%foldl_sum_step. lia. Qed.

Definition request_ok (f : UploadFileRequest) : Prop := 0 <= request_expected_size f <= uint64_max.

(** What [name_files] has checked of the requests when it succeeds. *)
Definition named (quota : UploadQuota) (start : Z) (used : gset string) (files : list UploadFileRequest)
    (sum : Z) (names : list string) : Prop :=
  sum = start + total (request_expected_size <$> files)
  /\ Forall (fun f => request_expected_size f <= max_file_bytes quota) files
  /\ (files <> [] -> sum <= max_session_bytes quota) /\ (start <= uint64_max -> sum <= uint64_max)
  /\ length names = length files /\ Forall safe_name names /\ NoDup names /\ Forall (fun n => n ∉ used) names
  /\ Forall2 (fun f n => exists j, n = WithCollisionSuffix (request_original_filename f) j) files names.

Lemma name_files_spec quota files start used :
  Forall request_ok files ->
  match name_files quota files start used with
  | Ok (sum, names) => named quota start used files sum names
  | Err e => code e = StatusCode.kInvalidArgument
  end.
Proof.
  intros Hreq. revert start used. induction Hreq as [|f files Hf _ IH]; intros start used; cbn [name_files].
  { unfold named. split_and!; simpl; [lia|constructor|done|lia|done|constructor..]. }
  destruct (Z.ltb_spec (max_file_bytes quota) (request_expected_size f)); [done|].
  unfold AddWouldOverflow. destruct (Z.ltb_spec (uint64_max - start) (request_expected_size f)); [done|].
  destruct (Z.ltb_spec (max_session_bytes quota) (start + request_expected_size f)); [done|].
  destruct (SafeFilename _) as [name|e] eqn:Hsafe; cbn [bind_or].
  2: { unfold SafeFilename in Hsafe. repeat case_match; by simplify_eq. }
  apply SafeFilename_Ok in Hsafe as [-> Hsafe]. destruct (unused_name_total used (request_original_filename f)) as [c Hc].
  rewrite Hc. apply (unused_name_Some _ _ _ 1) in Hc as [Hnew [j Hj]].
  specialize (IH (start + request_expected_size f) ({[c]} ∪ used)).
  destruct (name_files _ _ _ _) as [[sum names]|e]; cbn [bind_or fst snd]; [|done].
  destruct IH as (Hsum&Hmax&Hses&Hu&Hlen&Hnames&Hnd&Hout&Hfrom). rewrite Forall_forall in Hout.
  unfold named. split_and!.
  - rewrite fmap_cons, total_cons. lia.
  - by constructor.
  - intros _. destruct files; [change (total _) with 0 in Hsum; lia|by apply Hses].
  - intros _. apply Hu. lia.
  - simpl. by rewrite Hlen.
  - constructor; [subst c; by apply collision_suffix_safe|done].
  - constructor; [|done]. intros Hin%Hout. set_solver.
  - constructor; [done|]. apply Forall_forall. intros n Hn%Hout. set_solver.
  - constructor; [by exists j|done].
Qed.

(** Choosing the names of a session ends, with an error only for a request
    the code means to refuse: otherwise every file gets a name of its own, its
    original name or that name with a collision suffix, which is one safe path
    component, and the total is the sum of the sizes, within the quota and 64
    bits. *)
Lemma file_names_are_safe_and_distinct quota files :
  Forall request_ok files ->
  match name_files quota files 0 ∅ with
  | Ok (sum, names) =>
      sum = total (request_expected_size <$> files) /\ 0 <= sum <= uint64_max
      /\ (files <> [] -> sum <= max_session_bytes quota)
      /\ NoDup names /\ Forall safe_name names
      /\ Forall2 (fun f n => exists j, n = WithCollisionSuffix (request_original_filename f) j) files names
  | Err e => code e = StatusCode.kInvalidArgument
  end.
Proof.
  intros Hreq. pose proof (name_files_spec quota files 0 ∅ Hreq) as H.
  destruct (name_files _ _ _ _) as [[sum names]|e]; [|done]. destruct H as (->&_&Hses&Hu&_&Hsafe&Hnd&_&Hfrom).
  rewrite Z.add_0_l in *. split_and!; try done; [|by apply Hu].
  apply total_nonneg, Forall_fmap. eapply Forall_impl; [exact Hreq|]. intros f [? _]. done.
Qed.

Lemma file_names_are_safe_and_distinct_witness :
  name_files default_quota [mkUploadFileRequest "a.jpg" 1 None; mkUploadFileRequest "a.jpg" 2 None] 0 ∅
    = Ok (3, ["a.jpg"; "a__2.jpg"])
  /\ NoDup ["a.jpg"; "a__2.jpg"].
Proof.
  pose proof (file_names_are_safe_and_distinct default_quota
    [mkUploadFileRequest "a.jpg" 1 None; mkUploadFileRequest "a.jpg" 2 None]) as H.
  assert (name_files default_quota [mkUploadFileRequest "a.jpg" 1 None; mkUploadFileRequest "a.jpg" 2 None] 0 ∅
    = Ok (3, ["a.jpg"; "a__2.jpg"])) as Heq by (vm_compute; reflexivity).
  rewrite Heq in H. split; [done|]. apply H. repeat constructor; done.
Defined.

(** ** Well-formed receiver databases *)

Definition of_session (id : string) (l : list FileRow) : list FileRow := filter (fun r => row_session_id r = id) l.

Definition row_ok (r : FileRow) : Prop :=
  0 <= row_state r <= 3 /\ 0 <= row_expected_size r /\ safe_name (row_safe_filename r)
  /\ (row_client_digest r = None \/ exists d, row_client_digest r = Some (bytes d))
  /\ (if row_state r =? 2
      then row_received_size r = row_expected_size r /\ exists d, row_server_digest r = Some (bytes d)
      else row_received_size r = 0 /\ row_server_digest r = None).

(** A session has files, its totals are sums over them, and it is complete
    only when all of them are received. *)
Definition session_ok (l : list FileRow) (s : SessionRow) : Prop :=
  exists id, ses_id s = Some id
  /\ of_session id l <> []
  /\ ses_expected_total s = total (row_expected_size <$> of_session id l)
  /\ ses_received_total s = total (row_received_size <$> of_session id l)
  /\ (ses_state s = 0 \/ ses_state s = 1 /\ Forall (fun r => row_state r = 2) (of_session id l)).

Record receiver_ok (quota : UploadQuota) (db : UploadDb) : Prop := {
  ok_session_ids : NoDup (ses_id <$> upload_session db);
  ok_unique : unique_files (upload_file db);
  ok_rows : Forall row_ok (upload_file db);
  ok_owners : Forall (fun r => Some (row_session_id r) ∈ ses_id <$> upload_session db) (upload_file db);
  ok_sessions : Forall (session_ok (upload_file db)) (upload_session db);
  ok_reserved : total (ses_expected_total <$> upload_session db) <= max_reserved_bytes quota;
}.

Lemma matches_Some a b : matches (Some a) (Some b) = true <-> a = b.
Proof. apply bool_decide_eq_true. Qed.

Lemma files_of_session id db : files_of (Some id) db = of_session id (upload_file db).
Proof.
  unfold files_of, of_session. apply list_filter_iff. intros r. rewrite Is_true_true. apply matches_Some.
Qed.

Section Rows.
Context (g : FileRow -> FileRow).
(** An update of rows that keeps what identifies them, and received rows. *)
Definition keeps : Prop := forall r,
  row_session_id (g r) = row_session_id r /\ row_file_id (g r) = row_file_id r
  /\ row_safe_filename (g r) = row_safe_filename r /\ row_expected_size (g r) = row_expected_size r
  /\ (row_state r = 2 -> g r = r).
Context (Hg : keeps).

Lemma keeps_of_session id (l : list FileRow) : of_session id (g <$> l) = g <$> of_session id l.
Proof.
  unfold of_session. induction l as [|r l IH]; [done|]. rewrite fmap_cons, !filter_cons, (proj1 (Hg r)), IH.
  by destruct (decide _).
Qed.

Lemma keeps_fmap {A} (f : FileRow -> A) (l : list FileRow) : (forall r, f (g r) = f r) -> f <$> (g <$> l) = f <$> l.
Proof. intros Hf. rewrite <- list_fmap_compose. apply list_fmap_ext. intros _ r _. apply Hf. Qed.

Lemma keeps_unique l : unique_files l -> unique_files (g <$> l).
Proof.
  intros [Hi Hn]. split; rewrite keeps_fmap; try done; intros r; destruct (Hg r) as (->&Hf&Hs&_); by rewrite ?Hf, ?Hs.
Qed.

Lemma keeps_received l : Forall (fun r => row_state r = 2) l -> Forall (fun r => row_state r = 2) (g <$> l).
Proof.
  intros Hl. rewrite Forall_fmap. eapply Forall_impl; [exact Hl|]. intros r Hr. simpl. by rewrite (proj2 (proj2 (proj2 (proj2 (Hg r)))) Hr).
Qed.

(** The files of a session whose received sizes do not change. *)
Lemma keeps_session_ok l s :
  (forall id, ses_id s = Some id ->
     total (row_received_size <$> of_session id (g <$> l)) = total (row_received_size <$> of_session id l)) ->
  session_ok l s -> session_ok (g <$> l) s.
Proof.
  intros Hrec (id&Hid&Hne&Hexp&Hre&Hst). exists id. rewrite Hrec by done. rewrite keeps_of_session.
  split_and!; try done.
  - by destruct (of_session id l).
  - rewrite keeps_fmap; [done|]. intros r. apply Hg.
  - destruct Hst as [?|[? ?]]; [by left|right]. split; [done|by apply keeps_received].
Qed.

(** A database whose rows are updated by [g]. *)
Lemma keeps_receiver_ok quota db sessions :
  receiver_ok quota db ->
  ses_id <$> sessions = ses_id <$> upload_session db ->
  ses_expected_total <$> sessions = ses_expected_total <$> upload_session db ->
  (forall r, row_ok r -> row_ok (g r)) -> Forall (session_ok (g <$> upload_file db)) sessions ->
  receiver_ok quota (mkUploadDb sessions (g <$> upload_file db)).
Proof.
  intros [H1 H2 H3 H4 H5 H6] Hids Htot Hrow Hses. split; simpl; rewrite ?Hids, ?Htot; try done.
  - by apply keeps_unique.
  - rewrite Forall_fmap. eapply Forall_impl; [exact H3|]. intros r. apply Hrow.
  - rewrite Forall_fmap. eapply Forall_impl; [exact H4|]. intros r. simpl. by rewrite (proj1 (Hg r)).
Qed.

End Rows.

(** ** The operations keep them well formed *)

Section Preservation.
Context (quota : UploadQuota).

(** A file starts or fails. *)
Lemma ok_state_change which z db db' n :
  receiver_ok quota db -> (forall r, which r = true -> row_state r <> 2) -> 0 <= z <= 3 -> z <> 2 ->
  update_files which (with_state z) db = Some (db', n) -> receiver_ok quota db'.
Proof.
  intros Hok Hwhich Hz Hz2 [= <- _]. set (g := fun r => if which r then with_state z r else r).
  assert (keeps g) as Hg.
  { intros r. unfold g. destruct (which r) eqn:Hr; [|done]. split_and!; try done. by intros ?%Hwhich. }
  apply (keeps_receiver_ok g Hg); try done.
  - intros r Hr. unfold g. destruct (which r) eqn:Hw; [|done]. destruct Hr as (?&?&?&?&Hrest).
    unfold row_ok. simpl. rewrite (proj2 (Z.eqb_neq _ _) (Hwhich r Hw)) in Hrest.
    by rewrite (proj2 (Z.eqb_neq _ _) Hz2).
  - eapply Forall_impl; [apply Hok|]. intros s. apply (keeps_session_ok g Hg). intros id _.
    rewrite (keeps_of_session g Hg), keeps_fmap; [done|]. intros r. unfold g. by destruct (which r).
Qed.

(** A file is received and the total of its session becomes the sum. *)
Lemma ok_commit session file size digest db w db' n n' :
  receiver_ok quota db ->
  update_commit (Some session) (Some file) size (Some (bytes digest)) db = Some (w, n) ->
  update_progress (Some session) (Some session) w = Some (db', n') -> receiver_ok quota db'.
Proof.
  intros Hok [= <- _]. set (which := fun r => is_file (Some session) (Some file) r && (row_state r =? 1) && (row_expected_size r =? size)).
  set (g := fun r => if which r then with_received size (Some (bytes digest)) r else r).
  assert (forall r, which r = true -> row_session_id r = session /\ row_state r = 1 /\ row_expected_size r = size) as Hwhich.
  { intros r Hr. unfold which, is_file in Hr. bool_hyps. by rewrite <- matches_Some. }
  assert (keeps g) as Hg.
  { intros r. unfold g. destruct (which r) eqn:Hr; [|done]. split_and!; try done. destruct (Hwhich r Hr) as (_&->&_). done. }
  assert (forall r, row_ok r -> row_ok (g r)) as Hrow.
  { intros r Hr. unfold g. destruct (which r) eqn:Hw; [|done]. destruct (Hwhich r Hw) as (_&_&<-).
    destruct Hr as (?&?&?&?&_). unfold row_ok. simpl. split_and!; try done; [lia..|by exists digest]. }
  assert (forall s id, ses_id s = Some id -> id <> session -> session_ok (upload_file db) s ->
            session_ok (g <$> upload_file db) s) as Hother.
  { intros s id Hid Hne. apply (keeps_session_ok g Hg). intros id' Hid'. simplify_eq.
    rewrite (keeps_of_session g Hg). f_equal. rewrite <- list_fmap_compose. apply list_fmap_ext.
    intros _ r Hr%list_elem_of_lookup_2. apply list_elem_of_filter in Hr as [Hrs _]. unfold g. simpl.
    destruct (which r) eqn:Hw; [|done]. destruct (Hwhich r Hw) as [? _]. congruence. }
  unfold update_progress. rewrite files_of_session. cbn [upload_file upload_session].
  destruct (sum_int64 _) as [z|] eqn:Hsum.
  - intros [= <- _]. apply sum_int64_Some in Hsum. fold which in Hsum. fold g in Hsum.
    rewrite (keeps_of_session g Hg) in Hsum. apply (keeps_receiver_ok g Hg); try done.
    + rewrite <- list_fmap_compose. apply list_fmap_ext. intros _ s _. simpl. by destruct (matches _ _).
    + rewrite <- list_fmap_compose. apply list_fmap_ext. intros _ s _. simpl. by destruct (matches _ _).
    + rewrite Forall_fmap. eapply Forall_impl; [apply Hok|]. intros s Hs. simpl.
      destruct Hs as (id&Hid&Hne&Hexp&Hre&Hst). rewrite Hid. destruct (matches (Some id) (Some session)) eqn:Hm.
      * apply matches_Some in Hm as ->. exists session. cbn [with_total ses_id ses_expected_total ses_received_total ses_state].
        rewrite Hsum, (keeps_of_session g Hg). split_and!; try done; [by intros ?%fmap_nil_inv| |].
        -- rewrite keeps_fmap; [done|]. intros r. apply Hg.
        -- destruct Hst as [?|[? ?]]; [by left|right]. split; [done|by apply (keeps_received g Hg)].
      * apply (Hother s id Hid); [|by exists id]. intros ->. by rewrite (proj2 (matches_Some _ _) eq_refl) in Hm.
  - destruct (existsb _ _) eqn:He; [done|]. intros [= <- _]. apply (keeps_receiver_ok g Hg); try done.
    apply Forall_forall. intros s Hs. pose proof (existsb_false _ _ _ He Hs) as Hm. simpl in Hm.
    destruct (proj1 (Forall_forall _ _) (ok_sessions _ _ Hok) s Hs) as (id&Hid&Hrest). rewrite Hid in Hm.
    apply (Hother s id Hid); [|by exists id]. intros ->. by rewrite (proj2 (matches_Some _ _) eq_refl) in Hm.
Qed.

(** A session is completed. *)
Lemma ok_complete session db db' n :
  receiver_ok quota db -> (select_completion (Some session) db).2 = 0 ->
  update_complete (Some session) db = Some (db', n) -> receiver_ok quota db'.
Proof.
  intros [H1 H2 H3 H4 H5 H6] Hall [= <- _]. unfold select_completion in Hall. rewrite files_of_session in Hall. simpl in Hall.
  assert (forall l : list SessionRow, forall A (f : SessionRow -> A), (forall s, f (with_session_state 1 s) = f s) ->
    f <$> ((fun s => if matches (ses_id s) (Some session) && (ses_state s =? 0) then with_session_state 1 s else s) <$> l)
    = f <$> l) as Hmap.
  { intros l A f Hf. rewrite <- list_fmap_compose. apply list_fmap_ext. intros _ s _. simpl. by destruct (_ && _). }
  split; simpl; rewrite ?Hmap by done; try done.
  rewrite Forall_fmap. eapply Forall_impl; [exact H5|]. intros s Hs. simpl.
  destruct (_ && _) eqn:Hw; [|done]. destruct Hs as (id&Hid&Hne&Hexp&Hre&Hst). apply andb_true_iff in Hw as [Hw _].
  rewrite Hid in Hw. apply matches_Some in Hw as ->. exists session. simpl. split_and!; try done. right. split; [done|].
  apply Forall_forall. intros r Hr. destruct (decide (row_state r = 2)) as [|Hn]; [done|]. exfalso.
  assert (r ∈ filter (fun r => row_state r <> 2) (of_session session (upload_file db))) as Hin by (by apply list_elem_of_filter).
  destruct (filter _ _); [by apply elem_of_nil in Hin|simpl in Hall; lia].
Qed.

End Preservation.

(** ** Creating a session *)

Lemma stored_rows_sessions binds random session files index :
  Forall (fun r => row_session_id r = session) (stored_rows binds random session files index).
Proof. revert index. induction files as [|[f name] files IH]; intros index; constructor; [done|apply IH]. Qed.

Lemma of_session_all id l : Forall (fun r => row_session_id r = id) l -> of_session id l = l.
Proof.
  unfold of_session. induction 1 as [|r l Hr _ IH]; [done|]. by rewrite filter_cons_True, IH.
Qed.
Lemma of_session_none id l : Forall (fun r => row_session_id r <> id) l -> of_session id l = [].
Proof.
  unfold of_session. induction 1 as [|r l Hr _ IH]; [done|]. by rewrite filter_cons_False, IH.
Qed.
Lemma of_session_app id a b : of_session id (a ++ b) = of_session id a ++ of_session id b.
Proof. apply filter_app. Qed.

Section Create.
Context (binds : nat -> bool) (random : nat -> nat -> Z) (session : string).
Context (Hbinds : forall k, binds k = true).

Lemma stored_rows_ok files names index :
  Forall (fun f => 0 <= request_expected_size f <= int64_max) files -> Forall safe_name names ->
  Forall row_ok (stored_rows binds random session (zip files names) index).
Proof.
  intros Hf. revert names index. induction Hf as [|f files Hf _ IH]; intros names index Hn; [constructor|].
  destruct Hn as [|n names Hn Hns]; [constructor|]. cbn [zip zip_with stored_rows]. constructor; [|by apply IH].
  unfold row_ok. simpl. rewrite to_int64_signed by (unfold int64_min, int64_max in *; lia). split_and!; try done; [lia|].
  rewrite Hbinds. destruct (request_client_digest f) as [d|]; simpl; [right; by exists d|by left].
Qed.

Lemma stored_rows_totals files names index :
  Forall (fun f => 0 <= request_expected_size f <= int64_max) files -> length names = length files ->
  total (row_expected_size <$> stored_rows binds random session (zip files names) index)
    = total (request_expected_size <$> files)
  /\ total (row_received_size <$> stored_rows binds random session (zip files names) index) = 0.
Proof.
  intros Hf. revert names index. induction Hf as [|f files Hf _ IH]; intros [|n names] index Hlen; try done.
  cbn [zip zip_with stored_rows]. rewrite !fmap_cons, !total_cons. simpl in Hlen.
  destruct (IH names (S index)) as [-> ->]; [lia|]. cbn [row_expected_size row_received_size].
  rewrite to_int64_signed by (unfold int64_min, int64_max in *; lia). done.
Qed.

End Create.

Lemma total_le l z : Forall (fun z => 0 <= z) l -> z ∈ l -> z <= total l.
Proof.
  intros Hl. induction Hl as [|x l Hx Hl IH]; [by intros ?%elem_of_nil|].
  rewrite total_cons. pose proof (total_nonneg l Hl). intros [->|?%IH]%elem_of_cons; lia.
Qed.

Lemma of_session_Forall P id l : Forall P l -> Forall P (of_session id l).
Proof. rewrite !Forall_forall. intros Hl r [_ Hr]%list_elem_of_filter. by apply Hl. Qed.

(** What is reserved is what the sessions registered. *)
Lemma reserved_is_total quota db z :
  receiver_ok quota db -> select_reserved db = Some z -> z = total (ses_expected_total <$> upload_session db) /\ 0 <= z.
Proof.
  intros Hok Hz%sum_int64_Some. assert (Forall (fun s => ses_state s <> 2) (upload_session db)) as Hst.
  { eapply Forall_impl; [apply Hok|]. intros s (id&_&_&_&_&[->|[-> _]]); done. }
  assert (filter (fun s => ses_state s <> 2) (upload_session db) = upload_session db) as Hall.
  { clear Hz. induction Hst as [|s l Hs _ IH]; [done|]. by rewrite filter_cons_True, IH. }
  rewrite Hall in Hz. split; [done|]. subst z. apply total_nonneg. rewrite Forall_fmap.
  eapply Forall_impl; [apply Hok|]. intros s (id&_&_&Hexp&_). simpl. rewrite Hexp. apply total_nonneg.
  rewrite Forall_fmap. apply of_session_Forall. eapply Forall_impl; [apply Hok|]. by intros r (_&?&_).
Qed.

Lemma session_ok_new l new id s :
  ses_id s <> Some id -> Forall (fun r => row_session_id r = id) new -> session_ok l s -> session_ok (l ++ new) s.
Proof.
  intros Hne Hnew (i&Hi&Hs). exists i. split; [done|]. rewrite of_session_app, (of_session_none i new), app_nil_r; [done|].
  eapply Forall_impl; [exact Hnew|]. intros r -> ->. done.
Qed.

Lemma fresh_session l id :
  existsb (fun r => matches (ses_id r) (Some id)) l = false -> Forall (fun s => ses_id s <> Some id) l.
Proof.
  intros He. apply Forall_forall. intros s Hs Heq. pose proof (existsb_false _ _ _ He Hs) as Hm. simpl in Hm.
  rewrite Heq in Hm. by rewrite (proj2 (matches_Some _ _) eq_refl) in Hm.
Qed.

(** A session that does not exist has no files. *)
Lemma fresh_session_files quota db id :
  receiver_ok quota db -> Forall (fun s => ses_id s <> Some id) (upload_session db) -> of_session id (upload_file db) = [].
Proof.
  intros Hok Hids. apply of_session_none. apply Forall_forall. intros r Hr Hrs.
  pose proof (proj1 (Forall_forall _ _) (ok_owners _ _ Hok) r Hr) as Ho. cbv beta in Ho. rewrite Hrs in Ho.
  apply list_elem_of_fmap in Ho as (s&Hs&Hin). by apply (proj1 (Forall_forall _ _) Hids s Hin).
Qed.

(** The sizes of a session within the quota are stored as they are. *)
Lemma created_sizes quota files sum names z :
  max_reserved_bytes quota <= int64_max -> Forall request_ok files -> name_files quota files 0 ∅ = Ok (sum, names) ->
  0 <= z <= max_reserved_bytes quota -> to_uint64 z + sum <= max_reserved_bytes quota ->
  z + sum <= max_reserved_bytes quota /\ to_int64 sum = sum /\ sum = total (request_expected_size <$> files)
  /\ Forall (fun f => 0 <= request_expected_size f <= int64_max) files.
Proof.
  intros Hquota Hreq Hnames Hz Hle. pose proof (name_files_spec quota files 0 ∅ Hreq) as Hnamed.
  rewrite Hnames in Hnamed. destruct Hnamed as [Hsum _]. rewrite Z.add_0_l in Hsum.
  assert (Forall (fun z => 0 <= z) (request_expected_size <$> files)) as Hpos.
  { rewrite Forall_fmap. eapply Forall_impl; [exact Hreq|]. by intros f [? _]. }
  pose proof (total_nonneg _ Hpos). unfold to_uint64 in Hle. rewrite Z.mod_small in Hle by (unfold int64_max in *; lia).
  split_and!; [done|apply to_int64_signed; unfold int64_min, int64_max in *; lia|done|].
  apply Forall_forall. intros f Hf. assert (request_expected_size f ∈ request_expected_size <$> files) as Hin
    by (by apply list_elem_of_fmap_2). pose proof (proj1 (Forall_forall _ _) Hpos _ Hin).
  pose proof (total_le _ _ Hpos Hin). cbv beta in *. lia.
Qed.

Lemma ok_created quota binds random files db session db' :
  max_reserved_bytes quota <= int64_max -> (forall k, binds k = true) -> Forall request_ok files ->
  receiver_ok quota db -> created binds random quota files db session db' -> receiver_ok quota db'.
Proof.
  intros Hquota Hbinds Hreq Hok (sum&names&z&now&Hc). cbv zeta in Hc. rewrite Hbinds in Hc. simpl in Hc.
  set (id := NewId "session" (random 0%nat)) in *.
  destruct Hc as (Hnames&Hz&Hle&Hne&Hfresh&Hses&Hfiles&Hu&_).
  pose proof (name_files_spec quota files 0 ∅ Hreq) as Hnamed. rewrite Hnames in Hnamed.
  destruct Hnamed as (_&_&_&_&Hlen&Hsafe&_). destruct (reserved_is_total quota db z Hok Hz) as [Hztot Hz0].
  pose proof (ok_reserved _ _ Hok) as Hres. rewrite <- Hztot in Hres.
  destruct (created_sizes quota files sum names z Hquota Hreq Hnames (conj Hz0 Hres) Hle) as (Hle'&Hsum64&Hsum&Hsizes).
  apply fresh_session in Hfresh as Hids.
  set (new := stored_rows binds random id (zip files names) 0) in *.
  pose proof (stored_rows_sessions binds random id (zip files names) 0) as Hnew. fold new in Hnew.
  destruct (stored_rows_totals binds random id files names 0 Hsizes Hlen) as [Hexp Hrec]. fold new in Hexp, Hrec.
  assert (of_session id (upload_file db ++ new) = new) as Hof.
  { by rewrite of_session_app, (fresh_session_files quota db id Hok Hids), of_session_all. }
  split; rewrite ?Hses, ?Hfiles.
  - rewrite fmap_app. apply NoDup_app. split_and!; [apply Hok| |apply NoDup_singleton].
    intros k (s&->&Hs)%list_elem_of_fmap Hk%list_elem_of_singleton. rewrite Forall_forall in Hids. by destruct (Hids s Hs).
  - rewrite <- Hfiles. apply Hu, Hok.
  - apply Forall_app. split; [apply Hok|by apply stored_rows_ok].
  - rewrite fmap_app. apply Forall_app. split.
    + eapply Forall_impl; [apply (ok_owners _ _ Hok)|]. intros r Hr. apply elem_of_app. by left.
    + eapply Forall_impl; [exact Hnew|]. intros r ->. apply elem_of_app. right. by apply list_elem_of_singleton.
  - apply Forall_app. split.
    + apply Forall_forall. intros s Hs. rewrite Forall_forall in Hids. apply (session_ok_new _ _ id); [auto|done|].
      by apply (proj1 (Forall_forall _ _) (ok_sessions _ _ Hok)).
    + apply Forall_singleton. exists id. rewrite Hof. simpl. rewrite Hexp, Hrec, Hsum64. split_and!; try done; [|by left].
      unfold new. destruct files, names; done.
  - rewrite fmap_app, total_app. simpl. rewrite Hsum64. lia.
Qed.

(** A call whose parameters are bound, with sizes the request type holds. *)
Definition bound_call (c : UploadCall) : Prop :=
  match c with
  | CallCreate binds _ _ _ files => (forall k, binds k = true) /\ Forall request_ok files
  | CallBegin binds _ _ | CallFailed binds _ _ | CallCommit binds _ _ _ _ | CallComplete binds _ => forall k, binds k = true
  end.

Lemma upload_step_ok quota db db' :
  max_reserved_bytes quota <= int64_max -> receiver_ok quota db -> upload_step bound_call quota db db' -> receiver_ok quota db'.
Proof.
  intros Hquota Hok [->|(c&Hbound&Hc)]%upload_step_cases; [done|].
  destruct c as [binds random dirs root files|b x f|b x f|b x f z d|b x]; simpl in Hbound; rewrite ?Hbound in Hc; cbn [bound] in Hc.
  - destruct Hc as [session Hc]. destruct Hbound. by eapply ok_created.
  - eapply (ok_state_change quota _ 1); [done| |lia|done|exact Hc]. intros r Hr. cbv beta in Hr. bool_hyps.
    match goal with H : _ || _ = true |- _ => apply orb_true_iff in H as [H|H] end; bool_hyps; lia.
  - destruct Hc as [n Hc]. eapply (ok_state_change quota _ 3); [done| |lia|done|exact Hc]. intros r Hr. cbv beta in Hr. bool_hyps. lia.
  - destruct Hc as (w&n&Hw&Hp). by eapply ok_commit.
  - destruct Hc as (n&_&Hall&Hc&_). by eapply ok_complete.
Qed.

Lemma empty_receiver_ok quota : 0 <= max_reserved_bytes quota -> receiver_ok quota empty_upload_db.
Proof. intros Hpos. split; simpl; try constructor; try constructor. exact Hpos. Qed.

(** C12. Every database the receiver reaches from an empty one, whichever calls
    of SQLite fail, is well formed as long as parameters can be bound: ids and
    stored names are unique, names are single safe components, a file counts
    as received with exactly its registered size and a digest, the totals of a
    session are the sums over its files, a session is complete only when all
    its files are received, and what is reserved stays within the quota. *)
Theorem receiver_databases_are_well_formed quota db :
  0 <= max_reserved_bytes quota <= int64_max ->
  receiver_reaches bound_call quota empty_upload_db db -> receiver_ok quota db.
Proof.
  intros [Hpos Hquota] Hreach. pose proof (empty_receiver_ok quota Hpos) as Hok.
  induction Hreach as [|db db1 db' Hstep _ IH]; [done|]. by apply IH, (upload_step_ok quota db).
Qed.

(** ** Reading back *)

Lemma to_uint64_int64 z : 0 <= z <= uint64_max -> to_uint64 (to_int64 z) = z.
Proof.
  intros Hz. unfold to_uint64, to_int64. rewrite <- Zminus_mod_idemp_l, Z.mod_mod, Zminus_mod_idemp_l by lia.
  replace (z + 2 ^ 63 - 2 ^ 63) with z by lia. apply Z.mod_small. unfold uint64_max in *. lia.
Qed.

(** Ids are hexadecimal digits after their prefix. *)
Lemma NewId_plain prefix random : str_contains NUL prefix = false -> c_str (NewId prefix random) = NewId prefix random.
Proof.
  intros Hp. apply c_str_plain. unfold NewId.
  assert (forall l id, str_contains NUL id = false -> str_contains NUL
    (foldl (fun id index => push_back id (byte_get "0123456789abcdef" (Z.to_nat (Z.land (random index) 15)))) id l) = false) as H.
  { intros l. induction l as [|i l IH]; intros id Hid; [done|]. simpl. apply IH. unfold push_back.
    assert (str_contains NUL (id +:+ String (byte_get "0123456789abcdef" (Z.to_nat (Z.land (random i) 15))) "") =
      str_contains NUL id || str_contains NUL (String (byte_get "0123456789abcdef" (Z.to_nat (Z.land (random i) 15))) "")) as ->.
    { clear. induction id as [|c id IH]; [done|]. cbn [String.append str_contains]. by rewrite IH, orb_assoc. }
    rewrite Hid. change 15 with (Z.ones 4). rewrite Z.land_ones by lia.
    pose proof (Z.mod_pos_bound (random i) (2 ^ 4) ltac:(lia)) as Hb. set (k := random i mod 2 ^ 4) in *. clearbody k.
    assert (Z.to_nat k < 16)%nat as Hk by lia. generalize dependent (Z.to_nat k). clear. intros k Hk.
    do 16 (destruct k as [|k]; [done|]). lia. }
  apply H. unfold push_back. clear H. induction prefix as [|c p IH]; [done|]. simpl in *.
  apply orb_false_iff in Hp as [-> Hp]. by rewrite IH.
Qed.

Lemma file_of_stored_rows binds random session files names index :
  (forall k, binds k = true) -> Forall request_ok files -> Forall safe_name names ->
  Forall (fun f => str_contains NUL (request_original_filename f) = false) files ->
  file_of_row <$> stored_rows binds random session (zip files names) index = stored_files random (zip files names) index.
Proof.
  intros Hb Hreq. revert names index. induction Hreq as [|f files Hf _ IH]; intros names index Hn Horig; [done|].
  destruct Hn as [|n names Hn Hns]; [done|]. inversion_clear Horig as [|?? Ho Hos].
  cbn [zip zip_with stored_rows stored_files]. rewrite fmap_cons, IH by done. f_equal. unfold file_of_row.
  cbn [row_file_id row_original_filename row_safe_filename row_expected_size row_received_size row_client_digest
    row_server_digest row_state]. rewrite NewId_plain, !c_str_plain by first [done|apply safe_name_plain, Hn].
  rewrite to_uint64_int64 by done. f_equal. rewrite Hb. destruct (request_client_digest f) as [d|]; [|done].
  simpl. by apply digest_of_blob_Some.
Qed.

Lemma name_files_originals quota files start used sum names :
  name_files quota files start used = Ok (sum, names) ->
  Forall (fun f => str_contains NUL (request_original_filename f) = false) files.
Proof.
  revert start used sum names. induction files as [|f files IH]; intros start used sum names; cbn [name_files]; [constructor|].
  do 3 (case_match; [done|]). destruct (SafeFilename _) as [name|] eqn:Hs; cbn [bind_or]; [|done].
  apply SafeFilename_Ok in Hs as [-> Hs]. case_match; [|done]. destruct (name_files _ _ _ _) as [[? ?]|] eqn:Hn; [|done].
  intros _. constructor; [by apply safe_name_plain|by eapply IH].
Qed.

Lemma step_rows_quiet {R} (rows : list R) (s : Conn UploadDb) : faults s = [] -> step_rows rows s = (Ok rows, s).
Proof.
  intros Hf. induction rows as [|r rows IH]; cbn [step_rows]; rewrite next_fault_quiet by done; [done|].
  unfold bind. by rewrite IH.
Qed.

Lemma filter_fresh_session id l r :
  Forall (fun s => ses_id s <> Some id) l -> ses_id r = Some id ->
  select_session (Some id) (mkUploadDb (l ++ [r]) []) = Some r.
Proof.
  intros Hl Hr. unfold select_session. cbn [upload_session]. rewrite filter_app.
  induction Hl as [|s l Hs _ IH]; simpl.
  - rewrite filter_cons_True; [done|]. rewrite Hr. by rewrite Is_true_true, matches_Some.
  - rewrite filter_cons_False; [done|]. destruct (ses_id s) as [a|]; [|by intros []].
    rewrite Is_true_true, matches_Some. congruence.
Qed.

Lemma run_GetSession id row rows t :
  faults t = [] -> str_empty id = false -> select_session (Some id) (current_db t) = Some row ->
  files_of (Some id) (current_db t) = rows ->
  GetSession (fun _ => true) id t =
    (Ok (mkUploadSession id (ses_created_at_ns row) (to_uint64 (ses_expected_total row))
           (to_uint64 (ses_received_total row)) (SessionState (to_int32 (ses_state row))) (file_of_row <$> rows)), t).
Proof.
  intros Hf Hid Hrow <-. unfold GetSession. rewrite Hid. cbn [negb require bound].
  unfold bind, ret at 1, prepare, api_call, outcome, one_row, bind, run_query, step_query.
  rewrite !next_fault_quiet by done. rewrite Hrow. unfold ret at 1. cbn [StatusOr_rect].
  rewrite !next_fault_quiet by done. unfold query_rows. by rewrite step_rows_quiet.
Qed.

(** A session reads back as [CreateSession] returned it: on a well-formed
    database, [GetSession] with its id gives the same totals, state and files,
    in the order they were requested, with the names, sizes and client digests
    they were registered with. *)
Lemma created_sessions_read_back binds random dirs root quota files s session s' t :
  (forall k, binds k = true) -> Forall request_ok files -> receiver_ok quota (committed s) ->
  CreateSession binds random dirs root quota files s = (Ok session, s') ->
  committed t = committed s' -> working t = None -> faults t = [] ->
  GetSession (fun _ => true) (session_id session) t = (Ok session, t).
Proof.
  intros Hb Hreq Hok Hrun Ht Hw Hf. pose proof (effect_CreateSession binds random dirs root quota files s) as H.
  rewrite Hrun in H. destruct H as (sum&names&z&now&Hc). cbv zeta in Hc. rewrite Hb in Hc. cbn [bound] in Hc.
  destruct Hc as (Hnames&_&_&_&Hfresh%fresh_session&Hses&Hfiles&_&->).
  pose proof (name_files_spec quota files 0 ∅ Hreq) as Hnamed. rewrite Hnames in Hnamed.
  destruct Hnamed as (Hsum&_&_&Hu&_&Hsafe&_). apply name_files_originals in Hnames.
  assert (0 <= sum <= uint64_max) as Hrange.
  { split; [|by apply Hu]. rewrite Hsum, Z.add_0_l. apply total_nonneg, Forall_fmap.
    eapply Forall_impl; [exact Hreq|]. by intros f [? _]. }
  set (id := NewId "session" (random 0%nat)) in *. cbn [session_id].
  assert (current_db t = committed s') as Hcur by (unfold current_db; by rewrite Hw).
  erewrite run_GetSession; [|done|done| |]; cycle 1.
  - rewrite Hcur. unfold select_session. rewrite Hses. by apply (filter_fresh_session id).
  - rewrite Hcur, files_of_session, Hfiles, of_session_app, (fresh_session_files quota _ id Hok Hfresh).
    by rewrite of_session_all by apply stored_rows_sessions.
  - cbn [ses_created_at_ns ses_expected_total ses_received_total ses_state app].
    rewrite to_uint64_int64, file_of_stored_rows by done. done.
Qed.

(** ** A session of two files *)

Local Notation demo_binds := (fun _ : nat => true).
Local Notation demo_random := (fun device index : nat => Z.of_nat (device + index)).
Local Notation demo_files := [mkUploadFileRequest "a.jpg" 3 (Some (Digest_of (fun _ => NUL))); mkUploadFileRequest "a.jpg" 4 None].
Local Notation demo_conn db := (mkConn db None 0 [] [7]).
Local Notation demo_create := (CallCreate demo_binds demo_random (fun _ => None) "/receiver" demo_files).
Local Notation demo_id := (NewId "session" (demo_random 0%nat)).
Local Notation demo_file := (NewId "file" (demo_random 1%nat)).
Local Notation after c db := (committed (run_upload default_quota c (demo_conn db))).
Local Notation demo_created := (after demo_create empty_upload_db).
Local Notation demo_received :=
  (after (CallCommit demo_binds demo_id demo_file 3 (Digest_of (fun _ => NUL)))
     (after (CallBegin demo_binds demo_id demo_file) demo_created)).
Local Notation demo_failed := (after (CallFailed demo_binds demo_id demo_file) demo_received).

Lemma received_files_are_final_witness :
  exists r, r ∈ upload_file demo_received /\ row_state r = 2 /\ r ∈ upload_file demo_failed.
Proof.
  exists (mkFileRow demo_id demo_file "a.jpg" "a.jpg" 3 3 (Some (bytes (Digest_of (fun _ => NUL))))
    (Some (bytes (Digest_of (fun _ => NUL)))) 2).
  assert (upload_file demo_received !! 0%nat = Some (mkFileRow demo_id demo_file "a.jpg" "a.jpg" 3 3
    (Some (bytes (Digest_of (fun _ => NUL)))) (Some (bytes (Digest_of (fun _ => NUL)))) 2)) as Hin by (vm_compute; reflexivity).
  apply list_elem_of_lookup_2 in Hin. split; [exact Hin|]. split; [reflexivity|].
  eapply (received_files_are_final (fun _ => True) default_quota demo_received); [|exact Hin|reflexivity].
  apply rtc_once. exists (CallFailed demo_binds demo_id demo_file), (demo_conn demo_received). split_and!; reflexivity.
Defined.

Lemma receiver_databases_are_well_formed_witness :
  length (upload_file demo_created) = 2%nat /\ receiver_ok default_quota demo_created.
Proof.
  split; [vm_compute; reflexivity|]. apply (receiver_databases_are_well_formed default_quota); [vm_compute; split; discriminate|].
  apply rtc_once. exists demo_create, (demo_conn empty_upload_db). split; [|split; reflexivity].
  split; [reflexivity|]. repeat apply Forall_cons_2; [vm_compute; split; discriminate..|apply Forall_nil_2].
Defined.

Local Notation demo_run := (CreateSession demo_binds demo_random (fun _ => None) "/receiver" default_quota demo_files (demo_conn empty_upload_db)).
Lemma demo_run_ok : is_ok demo_run.1 = true /\ working demo_run.2 = None /\ faults demo_run.2 = [].
Proof. vm_compute. split_and!; reflexivity. Qed.

Lemma created_sessions_read_back_witness :
  exists session, demo_run.1 = Ok session /\ GetSession (fun _ => true) (session_id session) demo_run.2 = (Ok session, demo_run.2).
Proof.
  destruct demo_run_ok as (Hok&Hw&Hf). destruct demo_run as [[session|e] s'] eqn:Hrun; [|discriminate Hok].
  exists session. split; [reflexivity|].
  apply (created_sessions_read_back demo_binds demo_random (fun _ => None) "/receiver" default_quota demo_files
    (demo_conn empty_upload_db) session s' s'); [reflexivity| | |exact Hrun|reflexivity|exact Hw|exact Hf].
  - repeat apply Forall_cons_2; [vm_compute; split; discriminate..|apply Forall_nil_2].
  - apply empty_receiver_ok. vm_compute. discriminate.
Defined.
