(* ===== verification/Serve.v ===== *)
(** * Serve: the address and the token of the upload receiver

    Models src/filesystem/serve_bootstrap.cpp, [ConstantTimeTokenEquals] of
    src/filesystem/upload_page.cpp and the authorization of
    src/filesystem/http_server.cpp.  The bytes of the random device, the
    list of the interfaces and the QR code library are parameters. *)

From stdpp Require Import pretty.
From S2P Require Import Prelude Status Bytes Order Base64.

(** ** [EncodeBase64Url] *)

Definition kBase64UrlAlphabet : string :=
  "ABCDEFGHIJKLMNOPQRSTUVWXYZabcdefghijklmnopqrstuvwxyz0123456789-_".
Definition to_uint32 (z : Z) : Z := z mod 2 ^ 32.

(** The encoded text, the 32-bit buffer and the number of its bits in use. *)
Definition Encoder : Type := string * Z * Z.

(** [while (bits >= 6)]: the bits of a byte and at most five more, so two turns. *)
Fixpoint emit (fuel : nat) (e : Encoder) : Encoder :=
  let '(encoded, buffer, bits) := e in
  if 6 <=? bits then
    let bits := bits - 6 in
    let encoded := push_back encoded (byte_get kBase64UrlAlphabet (Z.to_nat (Z.land (Z.shiftr buffer bits) 63))) in
    match fuel with O => (encoded, buffer, bits) | S fuel => emit fuel (encoded, buffer, bits) end
  else e.

Definition encode_byte (e : Encoder) (byte : ascii) : Encoder :=
  let '(encoded, buffer, bits) := e in
  emit 1 (encoded, to_uint32 (Z.lor (Z.shiftl buffer 8) (Z_of_byte byte)), bits + 8).

Fixpoint encode_bytes (bytes : string) (e : Encoder) : Encoder :=
  match bytes with
  | EmptyString => e
  | String byte bytes => encode_bytes bytes (encode_byte e byte)
  end.

(** [if (bits > 0)]: the bits left over. *)
Definition finish_encoding (e : Encoder) : string :=
  let '(encoded, buffer, bits) := e in
  if 0 <? bits
  then push_back encoded (byte_get kBase64UrlAlphabet (Z.to_nat (Z.land (Z.shiftl buffer (6 - bits)) 63)))
  else encoded.

Definition EncodeBase64Url (bytes : string) : string := finish_encoding (encode_bytes bytes ("", 0, 0)).

(** ** [ServeBootstrap] *)

Record ServeOptions := mkServeOptions { options_bind_address : string; options_port : Z }.
Record ServeBootstrap := mkServeBootstrap {
  bind_address : string;
  port : Z;
  token : string;
  url : string;
  qr_code : string;
}.

Definition UrlHost (address : string) : string :=
  if str_contains ":" address then "[" +:+ address +:+ "]" else address.

(** One [ifaddrs]: its flags and its address, of a family, with what
    [inet_ntop] makes of it. *)
Record SockAddr := mkSockAddr { sa_family : Z; presentation : option string }.
Record Interface := mkInterface { ifa_flags : Z; ifa_addr : option SockAddr }.
Definition IFF_UP : Z := 1.
Definition IFF_LOOPBACK : Z := 8.
Definition AF_INET : Z := 2.
Definition AF_INET6 : Z := 10.

(** One turn of the loop over the interfaces. *)
Definition candidate_address (current : Interface) : option string :=
  match ifa_addr current with
  | None => None
  | Some address =>
      if (Z.land (ifa_flags current) IFF_UP =? 0) || negb (Z.land (ifa_flags current) IFF_LOOPBACK =? 0) then None
      else if sa_family address =? AF_INET then presentation address
      else if sa_family address =? AF_INET6 then presentation address
      else None
  end.

(** The first candidate in order, or the loopback; [None] where [getifaddrs]
    fails. *)
Definition SelectLanAddress (interfaces : option (list Interface)) : string :=
  match interfaces with
  | None => "127.0.0.1"
  | Some interfaces =>
      match std_sort str_less (omap candidate_address interfaces) with [] => "127.0.0.1" | first :: _ => first end
  end.

(** The 32 draws of the device, or what it throws. *)
Definition GenerateToken (device : string + (nat -> Z)) : StatusOr string :=
  match device with
  | inl what => Err (Internal ("unable to generate serve token: " +:+ what))
  | inr draws => Ok (EncodeBase64Url (array_of 32 (fun index => byte_of_Z (Z.land (draws index) 255))))
  end.

Definition ServeBootstrap_Create (interfaces : option (list Interface)) (device : string + (nat -> Z))
    (RenderQrCode : string -> string) (options : ServeOptions) : StatusOr ServeBootstrap :=
  if options_port options =? 0 then Err (Invalid "serve port must be between 1 and 65535")
  else
    let address := if str_empty (options_bind_address options) then SelectLanAddress interfaces
                   else options_bind_address options in
    let? token := GenerateToken device in
    let url := "http://" +:+ UrlHost address +:+ ":" +:+ pretty (options_port options) +:+ "/?t=" +:+ token in
    Ok (mkServeBootstrap address (options_port options) token url (RenderQrCode url)).

(** ** Authorization *)

(** The byte of a string at an index, 0 past its end. *)
Definition padded (s : string) (index : nat) : Z := Z_of_byte (byte_get s index).

Definition to_uint8 (z : Z) : Z := z mod 2 ^ 8.

(** The size difference is narrowed to an [unsigned char]. *)
Definition ConstantTimeTokenEquals (provided expected : string) : bool :=
  let length := Nat.max (String.length provided) (String.length expected) in
  let difference := to_uint8 (Z.lxor (str_size provided) (str_size expected)) in
  let difference := foldl (fun difference index =>
    to_uint8 (Z.lor difference (Z.lxor (padded provided index) (padded expected index)))) difference (seq 0 length) in
  difference =? 0.

Definition bearer_prefix : string := "Bearer ".

(** [api_authorized] on the value of the Authorization header. *)
Definition api_authorized (token authorization : string) : bool :=
  (str_size bearer_prefix <? str_size authorization)
  && (str_take (String.length bearer_prefix) authorization == bearer_prefix)
  && ConstantTimeTokenEquals (str_drop (String.length bearer_prefix) authorization) token.

(** ** The token is the URL form of Base64 *)

(** The two characters of the alphabet that differ, and no padding. *)
Definition url_char (c : ascii) : ascii :=
  if Ascii.eqb c "+" then "-"%char else if Ascii.eqb c "/" then "_"%char else c.
Fixpoint url_form (s : string) : string :=
  match s with
  | EmptyString => ""
  | String c s => if Ascii.eqb c "=" then url_form s else String (url_char c) (url_form s)
  end.

Definition url_sextet (i : Z) : ascii := byte_get kBase64UrlAlphabet (Z.to_nat i).

Lemma land_63 z : Z.land z 63 = z mod 64.
Proof. change 63 with (Z.ones 6). by rewrite Z.land_ones by lia. Qed.

Lemma url_form_sextet w k rest :
  0 <= k -> url_form (String (sextet w k) rest) = String (url_sextet ((w / 2 ^ k) mod 64)) (url_form rest).
Proof.
  intros Hk. unfold sextet. rewrite land_63, Z.shiftr_div_pow2 by done.
  pose proof (Z.mod_pos_bound (w / 2 ^ k) 64 ltac:(lia)) as Hr. set (i := (w / 2 ^ k) mod 64) in *. clearbody i.
  unfold url_sextet. assert (exists n, Z.to_nat i = n /\ (n < 64)%nat) as (n&->&Hn) by (eexists; split; [done|lia]).
  cbn [url_form]. do 64 (destruct n as [|n]; [done|]). lia.
Qed.

(** The buffer after a byte; its bits above the last 19 are never read. *)
Lemma buffer_byte buffer byte :
  0 <= byte < 256 -> to_uint32 (Z.lor (Z.shiftl buffer 8) byte) = (buffer * 256 + byte) mod 2 ^ 32.
Proof. intros Hb. unfold to_uint32. by rewrite lor_shiftl by lia. Qed.

Lemma emit_char encoded buffer bits fuel :
  6 <= bits < 12 ->
  emit fuel (encoded, buffer, bits) =
    (push_back encoded (url_sextet ((buffer / 2 ^ (bits - 6)) mod 64)), buffer, bits - 6).
Proof.
  intros Hb. destruct fuel; cbn [emit]; rewrite (proj2 (Z.leb_le 6 bits)) by lia;
    rewrite land_63, Z.shiftr_div_pow2 by lia; fold (url_sextet ((buffer / 2 ^ (bits - 6)) mod 64)); [done|].
  destruct fuel; cbn [emit]; by rewrite (proj2 (Z.leb_gt 6 (bits - 6))) by lia.
Qed.

Lemma encode_byte_one encoded buffer bits c :
  0 <= bits < 4 ->
  encode_byte (encoded, buffer, bits) c =
    (push_back encoded (url_sextet ((((buffer * 256 + Z_of_byte c) mod 2 ^ 32) / 2 ^ (bits + 2)) mod 64)),
     (buffer * 256 + Z_of_byte c) mod 2 ^ 32, bits + 2).
Proof.
  intros Hb. unfold encode_byte. rewrite buffer_byte by apply Z_of_byte_range.
  rewrite emit_char by lia. by replace (bits + 8 - 6) with (bits + 2) by lia.
Qed.

Lemma encode_byte_two encoded buffer c :
  let buffer' := (buffer * 256 + Z_of_byte c) mod 2 ^ 32 in
  encode_byte (encoded, buffer, 4) c =
    (push_back (push_back encoded (url_sextet ((buffer' / 2 ^ 6) mod 64))) (url_sextet ((buffer' / 2 ^ 0) mod 64)), buffer', 0).
Proof.
  intros buffer'. unfold encode_byte. rewrite buffer_byte by apply Z_of_byte_range. fold buffer'. change (4 + 8) with 12.
  cbn [emit]. rewrite (proj2 (Z.leb_le 6 12)) by lia. change (12 - 6) with 6. cbn [emit].
  rewrite (proj2 (Z.leb_le 6 6)) by lia. change (6 - 6) with 0. rewrite !land_63, !Z.shiftr_div_pow2 by lia. done.
Qed.

(** Six bits of the buffer, whatever was shifted out above them. *)
Lemma six_bits x k : 0 <= k <= 26 -> ((x mod 2 ^ 32) / 2 ^ k) mod 64 = (x / 2 ^ k) mod 64.
Proof.
  intros Hk. replace (2 ^ 32) with (2 ^ k * (64 * 2 ^ (26 - k))).
  - rewrite Z.rem_mul_r by (try apply Z.pow_nonzero; lia). rewrite Z.mul_comm, Z.div_add by (apply Z.pow_nonzero; lia).
    rewrite (Z.div_small (x mod 2 ^ k)) by (apply Z.mod_pos_bound; lia). rewrite Z.add_0_l.
    rewrite Z.rem_mul_r by lia. rewrite Z.mul_comm, Z.mod_add by lia. by rewrite Z.mod_mod by lia.
  - change 64 with (2 ^ 6). rewrite <- !Z.pow_add_r by lia. f_equal. lia.
Qed.

Lemma group_chars buffer a b c :
  0 <= a < 256 -> 0 <= b < 256 -> 0 <= c < 256 ->
  let w := combine3 a b c in
  ((buffer * 256 + a) / 2 ^ 2) mod 64 = (w / 2 ^ 18) mod 64
  /\ ((((buffer * 256 + a) mod 2 ^ 32) * 256 + b) / 2 ^ 4) mod 64 = (w / 2 ^ 12) mod 64
  /\ ((((((buffer * 256 + a) mod 2 ^ 32) * 256 + b) mod 2 ^ 32) * 256 + c) / 2 ^ 6) mod 64 = (w / 2 ^ 6) mod 64
  /\ ((((((buffer * 256 + a) mod 2 ^ 32) * 256 + b) mod 2 ^ 32) * 256 + c) / 2 ^ 0) mod 64 = (w / 2 ^ 0) mod 64.
Proof.
  intros Ha Hb Hc w. unfold w. rewrite combine3_sum by done.
  change (2 ^ 2) with 4. change (2 ^ 4) with 16. change (2 ^ 6) with 64. change (2 ^ 12) with 4096.
  change (2 ^ 18) with 262144. change (2 ^ 0) with 1. change (2 ^ 32) with 4294967296.
  split_and!; Z.to_euclidean_division_equations; lia.
Qed.

Lemma finish_char encoded buffer bits :
  0 < bits < 6 -> finish_encoding (encoded, buffer, bits) = push_back encoded (url_sextet ((buffer * 2 ^ (6 - bits)) mod 64)).
Proof.
  intros Hb. unfold finish_encoding. rewrite (proj2 (Z.ltb_lt 0 bits)) by lia. by rewrite land_63, Z.shiftl_mul_pow2 by lia.
Qed.

Lemma last_bits x n : 0 <= n <= 6 -> (((x mod 2 ^ 32) * 2 ^ n) mod 64) = (x * 2 ^ n) mod 64.
Proof.
  intros Hn. rewrite <- Z.mul_mod_idemp_l, <- (Z.mul_mod_idemp_l x) by lia. f_equal. f_equal.
  change (2 ^ 32) with (64 * 67108864). rewrite Z.rem_mul_r, Z.mul_comm, Z.mod_add, Z.mod_mod by lia. done.
Qed.

Lemma encode_bytes_url (s encoded : string) buffer :
  finish_encoding (encode_bytes s (encoded, buffer, 0)) = encoded +:+ url_form (Base64Encode s).
Proof.
  revert s encoded buffer. fix IH 1. intros [|a [|b [|c s]]] encoded buffer.
  - cbn [encode_bytes finish_encoding Base64Encode url_form]. by rewrite str_app_nil.
  - pose proof (Z_of_byte_range a) as Ha. cbn [encode_bytes]. rewrite encode_byte_one by lia. rewrite finish_char by lia.
    change (0 + 2) with 2. rewrite six_bits, last_bits by lia. cbn [Base64Encode]. rewrite !url_form_sextet by lia.
    destruct (group_chars buffer (Z_of_byte a) 0 0) as (->&H2&_); [done|lia..|]. unfold push_back. rewrite str_app_assoc.
    f_equal. cbn [String.append url_form]. do 2 f_equal. rewrite <- H2. f_equal.
    change (2 ^ (6 - 2)) with 16. change (2 ^ 4) with 16. change (2 ^ 32) with 4294967296.
    Z.to_euclidean_division_equations; lia.
  - pose proof (Z_of_byte_range a) as Ha. pose proof (Z_of_byte_range b) as Hb. cbn [encode_bytes].
    rewrite encode_byte_one by lia. change (0 + 2) with 2. rewrite encode_byte_one by lia. change (2 + 2) with 4.
    rewrite finish_char by lia. rewrite !six_bits, last_bits by lia. cbn [Base64Encode]. rewrite !url_form_sextet by lia.
    destruct (group_chars buffer (Z_of_byte a) (Z_of_byte b) 0) as (->&->&H3&_); [done|done|lia|].
    unfold push_back. rewrite !str_app_assoc. f_equal. cbn [String.append url_form]. do 3 f_equal. rewrite <- H3. f_equal.
    change (2 ^ (6 - 4)) with 4. change (2 ^ 6) with 64. change (2 ^ 32) with 4294967296.
    Z.to_euclidean_division_equations; lia.
  - pose proof (Z_of_byte_range a) as Ha. pose proof (Z_of_byte_range b) as Hb. pose proof (Z_of_byte_range c) as Hc.
    cbn [encode_bytes]. rewrite encode_byte_one by lia. change (0 + 2) with 2. rewrite encode_byte_one by lia.
    change (2 + 2) with 4. rewrite encode_byte_two. rewrite IH. cbv zeta. rewrite !six_bits by lia.
    cbn [Base64Encode]. rewrite !url_form_sextet by lia.
    destruct (group_chars buffer (Z_of_byte a) (Z_of_byte b) (Z_of_byte c)) as (->&->&->&->); [done..|].
    unfold push_back. by rewrite !str_app_assoc.
Qed.

(** The token encoder is Base64 with the URL alphabet and no padding: for
    every input, in spite of its 32-bit buffer being shifted past its width, it
    gives the text of the plan files' encoder with its two special characters
    replaced and its padding dropped. *)
Lemma tokens_are_url_safe_base64 bytes : EncodeBase64Url bytes = url_form (Base64Encode bytes).
Proof. apply encode_bytes_url. Qed.

(** ** Comparing tokens *)

Lemma to_uint8_land z : to_uint8 z = Z.land z (Z.ones 8).
Proof. unfold to_uint8. by rewrite Z.land_ones by lia. Qed.

Lemma to_uint8_idem z : to_uint8 (to_uint8 z) = to_uint8 z.
Proof. unfold to_uint8. by rewrite Z.mod_mod by lia. Qed.

Lemma to_uint8_zero a x : 0 <= x < 256 -> (to_uint8 (Z.lor a x) = 0 <-> to_uint8 a = 0 /\ x = 0).
Proof.
  intros Hx. rewrite !to_uint8_land, Z.land_lor_distr_l. rewrite <- to_uint8_land, <- (to_uint8_land x).
  unfold to_uint8 at 2. rewrite (Z.mod_small x) by lia. by rewrite Z.lor_eq_0_iff.
Qed.

Lemma padded_xor p e i : 0 <= Z.lxor (padded p i) (padded e i) < 256.
Proof.
  pose proof (Z_of_byte_range (byte_get p i)) as Hp. pose proof (Z_of_byte_range (byte_get e i)) as He.
  unfold padded. split; [apply Z.lxor_nonneg; lia|].
  assert (Z.lxor (Z_of_byte (byte_get p i)) (Z_of_byte (byte_get e i)) =
          to_uint8 (Z.lxor (Z_of_byte (byte_get p i)) (Z_of_byte (byte_get e i)))) as ->.
  { rewrite to_uint8_land. apply Z.bits_inj'. intros n Hn. rewrite Z.land_spec, Z.lxor_spec, Z.testbit_ones_nonneg by lia.
    destruct (Z.ltb_spec n 8); [by rewrite andb_true_r|]. rewrite andb_false_r.
    assert (forall z, 0 <= z < 256 -> Z.testbit z n = false) as Hhigh; [|by rewrite !Hhigh].
    intros z Hz. destruct (decide (z = 0)) as [->|]; [apply Z.bits_0|]. apply Z.bits_above_log2; [lia|].
    apply Z.lt_le_trans with 8; [|done]. apply Z.log2_lt_pow2; [lia|]. simpl. lia. }
  unfold to_uint8. apply Z.mod_pos_bound. lia.
Qed.

Lemma difference_zero p e l d :
  to_uint8 (foldl (fun d i => to_uint8 (Z.lor d (Z.lxor (padded p i) (padded e i)))) d l) = 0
  <-> to_uint8 d = 0 /\ Forall (fun i => byte_get p i = byte_get e i) l.
Proof.
  revert d. induction l as [|i l IH]; intros d; simpl; [split; [intros H; split; [exact H|constructor]|intros [H _]; exact H]|].
  rewrite IH, to_uint8_idem, to_uint8_zero, Forall_cons by apply padded_xor. rewrite Z.lxor_eq_0_iff. unfold padded.
  split; [intros [[? Hi] ?]; split; [done|split; [by apply Z_of_byte_inj|done]]|intros [? [-> ?]]; done].
Qed.

Lemma byte_get_end s i : (String.length s <= i)%nat -> byte_get s i = NUL.
Proof.
  unfold byte_get. revert i. induction s as [|c s IH]; intros i Hi; [done|]. destruct i as [|i]; simpl in *; [lia|].
  apply IH. lia.
Qed.

Lemma token_equals p e :
  ConstantTimeTokenEquals p e = true <->
  to_uint8 (Z.lxor (str_size p) (str_size e)) = 0 /\ forall i, byte_get p i = byte_get e i.
Proof.
  unfold ConstantTimeTokenEquals. rewrite Z.eqb_eq. set (d := to_uint8 (Z.lxor (str_size p) (str_size e))).
  set (n := Nat.max (String.length p) (String.length e)).
  assert (forall z l, to_uint8 z = z -> to_uint8 (foldl (fun d i => to_uint8 (Z.lor d (Z.lxor (padded p i) (padded e i)))) z l)
    = foldl (fun d i => to_uint8 (Z.lor d (Z.lxor (padded p i) (padded e i)))) z l) as Hnarrow.
  { intros z l. revert z. induction l as [|i l IH]; intros z Hz; [done|]. simpl. by apply IH, to_uint8_idem. }
  assert (to_uint8 d = d) as Hd by apply to_uint8_idem.
  rewrite <- Hnarrow, difference_zero, Hd by done. rewrite Forall_forall. split; intros [H0 Hall]; (split; [done|]); intros i.
  - destruct (decide (i < n)%nat) as [Hi|Hi]; [apply Hall, elem_of_seq; lia|]. rewrite !byte_get_end; [done|lia..].
  - intros _. apply Hall.
Qed.

Lemma byte_get_eq p e :
  str_contains NUL p = false -> str_contains NUL e = false -> (forall i, byte_get p i = byte_get e i) -> p = e.
Proof.
  revert e. induction p as [|c p IH]; intros [|d e]; simpl; try done.
  - intros _ [Hd _]%orb_false_iff Hall. specialize (Hall 0%nat). cbn in Hall. subst. by rewrite Ascii.eqb_refl in Hd.
  - intros [Hc _]%orb_false_iff _ Hall. specialize (Hall 0%nat). cbn in Hall. subst. by rewrite Ascii.eqb_refl in Hc.
  - intros [_ Hp]%orb_false_iff [_ He]%orb_false_iff Hall. pose proof (Hall 0%nat) as H0. cbn in H0. subst d.
    f_equal. apply IH; [done..|]. intros i. apply (Hall (S i)).
Qed.

Lemma byte_get_nuls i : byte_get (array_of 256 (fun _ => NUL)) i = NUL.
Proof.
  destruct (decide (i < 256)%nat) as [Hi|Hi]; [|apply byte_get_end; change (String.length (array_of 256 _)) with 256%nat; lia].
  assert (forallb (fun i => Ascii.eqb (byte_get (array_of 256 (fun _ => NUL)) i) NUL) (seq 0 256) = true) as Hall
    by (vm_compute; reflexivity).
  rewrite forallb_forall in Hall. specialize (Hall i). rewrite in_seq in Hall. apply Ascii.eqb_eq, Hall. lia.
Qed.

Lemma byte_get_padded e i : byte_get (e +:+ array_of 256 (fun _ => NUL)) i = byte_get e i.
Proof.
  revert i. induction e as [|c e IH]; intros i.
  - change ("" +:+ array_of 256 (fun _ => NUL)) with (array_of 256 (fun _ => NUL)). rewrite byte_get_nuls. by destruct i.
  - destruct i as [|i]; [done|]. apply (IH i).
Qed.

(** Comparing tokens is exact for texts without NUL bytes; but since the
    difference of the sizes is narrowed to eight bits, a token followed by 256
    NUL bytes is taken for the token. *)
Lemma token_comparison_ignores_padding :
  (forall p e, str_contains NUL p = false -> str_contains NUL e = false ->
     ConstantTimeTokenEquals p e = true <-> p = e)
  /\ (forall e, ConstantTimeTokenEquals (e +:+ array_of 256 (fun _ => NUL)) e = true).
Proof.
  split.
  - intros p e Hp He. rewrite token_equals. split; [intros [_ Hall]; by apply byte_get_eq|intros ->].
    by rewrite Z.lxor_nilpotent.
  - intros e. apply token_equals. split.
    + unfold str_size. rewrite str_length_app, Nat2Z.inj_add. change (Z.of_nat (String.length (array_of 256 _))) with (2 ^ 8).
      rewrite to_uint8_land. apply Z.bits_inj'. intros n Hn. rewrite Z.land_spec, Z.lxor_spec, Z.bits_0, Z.testbit_ones_nonneg by lia.
      destruct (Z.ltb_spec n 8); [|by rewrite andb_false_r].
      rewrite <- (Z.mod_pow2_bits_low (_ + 2 ^ 8) 8 n), <- Z.add_mod_idemp_r, Z.mod_same, Z.add_0_r by lia.
      by rewrite Z.mod_pow2_bits_low, xorb_nilpotent by lia.
    + apply byte_get_padded.
Qed.
