(* ===== verification/Receiver.v ===== *)
(** * Receiver: the handlers of the upload server and its start

    Models src/filesystem/http_server.cpp and the opening of the store with
    [RecoverInterruptedUploads] (src/filesystem/upload_session_store.cpp).
    The HTTP library is a parameter: a handler is a function of what it reads
    of the request (the path parameters, the body, the Authorization header),
    and a request body is the chunks the library's reader passes to its
    callback, with whether it reaches the end of the body.

    The handlers run over two interfaces: [ReceiverOs], the system and stream
    calls they make, and [ReceiverStore], the operations of the session store,
    which the last section implements with UploadStore.v.  [Host] keeps the
    list of the calls made on both.  Each handler runs alone; the worker
    threads of the library share one connection, which is not modelled. *)

From stdpp Require Import pretty.
From S2P Require Import Prelude Status Bytes Json RelativePath Assets Sqlite FileOps LinuxFileOps UploadStore Serve.

Definition AT_FDCWD : Z := -100.
Definition O_WRONLY : Z := 1.

(** What a stream opened on a file delivers: its successive reads of at most a
    mebibyte, and whether it stops at the end of the file. *)
Record FileStream := mkFileStream { stream_reads : list string; stream_eof : bool }.

Class ReceiverOs (F : Type) := {
  os_create_directories : string -> F -> option string * F;
  os_remove : string -> F -> F;
  os_open : string -> Z -> Z -> F -> SysResult N * F;
  os_write : Fd -> string -> F -> SysResult nat * F;
  os_fsync : Fd -> F -> SysResult unit * F;
  os_close : Fd -> F -> SysResult unit * F;
  os_renameat2 : Z -> string -> Z -> string -> Z -> F -> SysResult unit * F;
  os_unlink : string -> F -> SysResult unit * F;
  os_is_regular_file : string -> F -> bool * F;       (* false where it fails *)
  os_file_size : string -> F -> option Z * F;
  os_ifstream : string -> F -> option FileStream * F;
  os_pending : F -> nat;                              (* signals still to come *)
}.

Record Candidate := mkCandidate {
  candidate_session_id : string;
  candidate_file_id : string;
  candidate_safe_filename : string;
  candidate_expected_size : Z;
}.

Class ReceiverStore (D : Type) := {
  store_CreateSession : list UploadFileRequest -> M D UploadSession;
  store_GetSession : string -> M D UploadSession;
  store_GetFile : string -> string -> M D UploadFile;
  store_BeginUpload : string -> string -> M D BeginUploadResult;
  store_MarkUploadFailed : string -> string -> M D unit;
  store_CommitUpload : string -> string -> Z -> Digest -> M D unit;
  store_CompleteSession : string -> M D unit;
  store_Open : M D unit;                                (* receiver.db and its schema *)
  store_Candidates : M D (list Candidate);
}.

(** ** The calls made *)

Inductive HostEvent :=
  | HRemove (path : string)
  | HOpen (path : string) (flags mode : Z) (r : SysResult N)
  | HWrite (fd : Fd) (data : string) (r : SysResult nat)
  | HFsync (fd : Fd) (r : SysResult unit)
  | HClose (fd : Fd) (r : SysResult unit)
  | HRename (from to : string) (flags : Z) (r : SysResult unit)
  | HUnlink (path : string)
  | HIsRegular (path : string) (r : bool)
  | HFileSize (path : string) (r : option Z)
  | HStream (path : string) (r : option FileStream)
  | HCreateSession (files : list UploadFileRequest) (r : StatusOr UploadSession)
  | HGetSession (session : string) (r : StatusOr UploadSession)
  | HGetFile (session file : string) (r : StatusOr UploadFile)
  | HBegin (session file : string) (r : StatusOr BeginUploadResult)
  | HMarkFailed (session file : string) (r : StatusOr unit)
  | HCommit (session file : string) (size : Z) (digest : Digest) (r : StatusOr unit)
  | HComplete (session : string) (r : StatusOr unit)
  | HCreateDirectories (path : string) (r : option string)
  | HOpenStore (r : StatusOr unit)
  | HCandidates (r : StatusOr (list Candidate)).

Record Host (F D : Type) := mkHost { host_os : F; host_store : D; host_events : list HostEvent }.
Arguments mkHost {F D}.
Arguments host_os {F D}.
Arguments host_store {F D}.
Arguments host_events {F D}.

Section Calls.
Context {F D : Type} `{ReceiverOs F}.

Definition on_os {A} (event : A -> HostEvent) (c : F -> A * F) (h : Host F D) : A * Host F D :=
  let (r, f) := c (host_os h) in (r, mkHost f (host_store h) (host_events h ++ [event r])).
Definition on_db {A} (event : StatusOr A -> HostEvent) (c : M D A) : M (Host F D) (StatusOr A) :=
  fun h => let (r, d) := c (host_store h) in (Ok r, mkHost (host_os h) d (host_events h ++ [event r])).
(** A call as a step of a handler, which inspects what it returns. *)
Definition call {A} (c : Host F D -> A * Host F D) : M (Host F D) A := fun h => let (r, h) := c h in (Ok r, h).

Definition succeeded {A} (r : SysResult A) : bool := match r with SysOk _ => true | SysErr _ => false end.

Definition remove (path : string) : M (Host F D) unit :=
  call (on_os (fun _ => HRemove path) (fun f => (tt, os_remove path f))).
Definition open (path : string) (flags mode : Z) : M (Host F D) (SysResult N) :=
  call (on_os (HOpen path flags mode) (os_open path flags mode)).
Definition fsync (fd : Fd) : M (Host F D) bool :=
  let* r := call (on_os (HFsync fd) (os_fsync fd)) in ret (succeeded r).
Definition close (fd : Fd) : M (Host F D) bool :=
  let* r := call (on_os (HClose fd) (os_close fd)) in ret (succeeded r).
Definition unlink (path : string) : M (Host F D) unit :=
  do* call (on_os (fun _ => HUnlink path) (os_unlink path)); ret tt.

(** The next [write] that no signal interrupts. *)
Definition write (fd : Fd) (data : string) : M (Host F D) (SysResult nat) :=
  call (fun h => retried (os_pending (host_os h)) (on_os (HWrite fd data) (os_write fd data)) h).

(** [WriteAll(fd, data, size)]: a turn takes at least one byte. *)
Fixpoint write_all (turns : nat) (fd : Fd) (data : string) : M (Host F D) bool :=
  if str_empty data then ret true
  else
    match turns with
    | O => ret false
    | S turns =>
        let* written := write fd data in
        match written with
        | SysErr _ | SysOk O => ret false
        | SysOk n => write_all turns fd (str_drop n data)
        end
    end.
Definition WriteAll_upload (fd : Fd) (data : string) : M (Host F D) bool := write_all (String.length data) fd data.

(** [PublishNoReplace(temporary, final)], with [errno] where it fails. *)
Definition PublishNoReplace (temporary final : string) : M (Host F D) (SysResult unit) :=
  call (on_os (HRename temporary final RENAME_NOREPLACE)
          (os_renameat2 AT_FDCWD (c_str temporary) AT_FDCWD (c_str final) RENAME_NOREPLACE)).

End Calls.

Definition quotation_mark : ascii := ascii_of_N 34.

(** ** Receiving a body *)

Record RequestBody := mkRequestBody { chunks : list string; complete : bool }.

(** The state the callback of [ReceiveBody] captures; the hasher is the bytes
    it has been given. *)
Record Receiving := mkReceiving { hasher : string; received : Z; size_overflow : bool }.

Section Handlers.
Context (Blake3 : string -> Digest).
Context (dump : Json -> Exn string) (parse : string -> Exn Json).
Context (workspace_root token : string).
Context {F D : Type} `{ReceiverOs F} `{ReceiverStore D}.
Notation Handler := (M (Host F D)).

(** The callback on one chunk: whether the reader goes on. *)
Definition on_chunk (fd : Fd) (expected_size : Z) (data : string) (r : Receiving) : Handler (bool * Receiving)%type :=
  if to_uint64 (expected_size - received r) <? str_size data
  then ret (false, mkReceiving (hasher r) (received r) true)
  else
    let* written := WriteAll_upload fd data in
    if negb written then ret (false, r)
    else ret (true, mkReceiving (hasher r +:+ data) (to_uint64 (received r + str_size data)) (size_overflow r)).

(** [reader(callback)]: false once the callback refuses a chunk. *)
Fixpoint read_chunks (fd : Fd) (expected_size : Z) (chunks : list string) (complete : bool) (r : Receiving)
    : Handler (bool * Receiving)%type :=
  match chunks with
  | [] => ret (complete, r)
  | data :: chunks =>
      let* next := on_chunk fd expected_size data r in
      if next.1 then read_chunks fd expected_size chunks complete next.2 else ret (false, next.2)
  end.

(** [ReceiveBody(reader, temporary, expected_size, size_overflow)] *)
Definition ReceiveBody (body : RequestBody) (temporary : string) (expected_size : Z) : Handler (StatusOr Digest * bool)%type :=
  do* remove temporary;
  let* fd := open (c_str temporary) (flags [O_WRONLY; O_CREAT; O_EXCL; O_CLOEXEC]) 384 in
  match fd with
  | SysErr _ => ret (Err (mkStatus StatusCode.kIoError "unable to create upload temporary file"), false)
  | SysOk fd =>
      let fd := Z.of_N fd in
      let* read := read_chunks fd expected_size (chunks body) (complete body) (mkReceiving "" 0 false) in
      let r := read.2 in
      let* sync_ok := (if read.1 && (received r =? expected_size) then fsync fd else ret false) in
      let digest := Blake3 (hasher r) in
      let* closed := close fd in
      if negb sync_ok || negb closed then
        do* unlink (c_str temporary);
        ret (Err (if size_overflow r then Invalid "upload body exceeds registered file size"
                  else mkStatus StatusCode.kIoError
                         (if received r =? expected_size then "unable to synchronize upload temporary file"
                          else "upload body size does not match registered file")), size_overflow r)
      else ret (Ok digest, size_overflow r)
  end.

(** ** Responses *)

Record Response := mkResponse { status : Z; no_store : bool; body_text : string; content_type : string }.
Definition text_plain : string := "text/plain; charset=utf-8".
Definition application_json : string := "application/json; charset=utf-8".
Definition line (text : string) : string := text +:+ String LF "".

Definition SetText (code : Z) (text : string) : Response := mkResponse code true (line text) text_plain.
Definition plain (code : Z) (text : string) : Response := mkResponse code false (line text) text_plain.
Definition unauthorized : Response := SetText 401 "unauthorized".

(** A JSON string of plain characters. *)
Definition quoted (text : string) : string := String quotation_mark (text +:+ String quotation_mark "").

(** [path.parent_path()] of a path whose last name follows one separator. *)
Definition parent_path (path : string) : string :=
  match rfind slash path with
  | None => ""
  | Some O => "/"
  | Some index => str_take index path
  end.

(** [server.Put("/api/v1/sessions/([^/]+)/files/([^/]+)", ...)] past the
    authorization. *)
Definition publish_upload (session file_id : string) (file : UploadFile) (digest : Digest) (temporary : string) : Handler Response :=
  let final := FinalPath workspace_root session (safe_filename file) in
  let* published := PublishNoReplace temporary final in
  match published with
  | SysErr publish_error =>
      do* on_db (HMarkFailed session file_id) (store_MarkUploadFailed session file_id);
      ret (if Z.pos publish_error =? EEXIST then SetText 409 "upload target already exists"
           else SetText 500 "unable to publish upload")
  | SysOk _ =>
      let* directory := open (c_str (parent_path final)) (flags [O_RDONLY; O_DIRECTORY; O_CLOEXEC]) 0 in
      let* synced := match directory with
        | SysErr _ => ret false
        | SysOk fd => let* synced := fsync (Z.of_N fd) in do* close (Z.of_N fd); ret synced
        end in
      if negb synced then ret (SetText 500 "upload commit is not durable")
      else
        let* committed := on_db (HCommit session file_id (file_expected_size file) digest)
          (store_CommitUpload session file_id (file_expected_size file) digest) in
        if negb (is_ok committed) then ret (SetText 500 "upload commit is not durable")
        else ret (mkResponse 201 false
               (line ("{" +:+ quoted "state" +:+ ":" +:+ quoted "RECEIVED" +:+ "," +:+ quoted "server_hash" +:+ ":"
                      +:+ quoted (ToHex digest) +:+ "}")) application_json)
  end.

Definition receive (session file_id : string) (file : UploadFile) (body : RequestBody) : Handler Response :=
  let temporary := TempPath workspace_root session file_id in
  let* result := ReceiveBody body temporary (file_expected_size file) in
  match result.1 with
  | Err e =>
      do* on_db (HMarkFailed session file_id) (store_MarkUploadFailed session file_id);
      ret (SetText (if result.2 then 413 else 400) (message e))
  | Ok digest =>
      if match client_digest file with Some d => negb (bool_decide (d = digest)) | None => false end then
        do* on_db (HMarkFailed session file_id) (store_MarkUploadFailed session file_id);
        do* unlink (c_str temporary);
        ret (SetText 422 "client hash does not match upload")
      else publish_upload session file_id file digest temporary
  end.

Definition put_upload (authorization session file_id : string) (body : RequestBody) : Handler Response :=
  if negb (api_authorized token authorization) then ret unauthorized
  else
    let* file := on_db (HGetFile session file_id) (store_GetFile session file_id) in
    match file with
    | Err e => ret (SetText 404 (message e))
    | Ok file =>
        let* begun := on_db (HBegin session file_id) (store_BeginUpload session file_id) in
        match begun with
        | Err e => ret (SetText 500 (message e))
        | Ok kAlreadyReceived =>
            ret (mkResponse 200 false (line ("{" +:+ quoted "state" +:+ ":" +:+ quoted "RECEIVED" +:+ "}")) application_json)
        | Ok kBusy => ret (SetText 409 "upload is already receiving")
        | Ok kStarted => receive session file_id file body
        end
    end.

(** ** The other handlers *)

(** One element of the files array, or the response that refuses it. *)
Definition request_of_json (value : Json) : Response + UploadFileRequest :=
  match is_object value, json_find value "original_filename", number_unsigned (default JNull (json_find value "file_size")) with
  | true, Some (JString name), Some size =>
      match json_find value "client_hash" with
      | None => inr (mkUploadFileRequest name size None)
      | Some (JString hex) =>
          match FromHex hex with
          | Ok digest => inr (mkUploadFileRequest name size (Some digest))
          | Err e => inl (plain 400 (message e))
          end
      | Some _ => inl (plain 400 "client_hash must be a hex string")
      end
  | _, _, _ => inl (plain 400 "each file requires original_filename and file_size")
  end.
Fixpoint requests_of_json (values : list Json) : Response + list UploadFileRequest :=
  match values with
  | [] => inr []
  | value :: values =>
      match request_of_json value with
      | inl response => inl response
      | inr file => match requests_of_json values with inl response => inl response | inr files => inr (file :: files) end
      end
  end.

Definition FileStateName (state : UploadFileState.t) : string :=
  match state with
  | UploadFileState.kPending => "PENDING"
  | UploadFileState.kReceiving => "RECEIVING"
  | UploadFileState.kReceived => "RECEIVED"
  | UploadFileState.kFailed => "FAILED"
  end.
Definition SessionStateName (state : UploadSessionState.t) : string :=
  match state with
  | UploadSessionState.kOpen => "OPEN"
  | UploadSessionState.kComplete => "COMPLETE"
  | UploadSessionState.kFailed => "FAILED"
  end.
Definition file_json (file : UploadFile) : Json :=
  Json_object [("file_id", JString (file_id file)); ("original_filename", JString (original_filename file));
    ("safe_filename", JString (safe_filename file)); ("expected_size", JNumber (pretty (file_expected_size file)));
    ("received_size", JNumber (pretty (received_size file))); ("state", JString (FileStateName (file_state file)))].
Definition session_json (session : UploadSession) : Exn string :=
  dump (Json_object [("session_id", JString (session_id session)); ("created_at_ns", JNumber (pretty (created_at_ns session)));
    ("expected_total_bytes", JNumber (pretty (expected_total_bytes session)));
    ("received_total_bytes", JNumber (pretty (received_total_bytes session)));
    ("state", JString (SessionStateName (session_state session))); ("files", JArray (file_json <$> session_files session))]).

(** [catch (const nlohmann::json::exception& error)] *)
Definition invalid_json (what : string) : Response := plain 400 ("invalid JSON: " +:+ what).

Definition post_sessions (authorization body : string) : Handler Response :=
  if negb (api_authorized token authorization) then ret unauthorized
  else
    match parse body with
    | inl what => ret (invalid_json what)
    | inr json =>
        match json_find json "files" with
        | Some (JArray values) =>
            match requests_of_json values with
            | inl response => ret response
            | inr files =>
                let* session := on_db (HCreateSession files) (store_CreateSession files) in
                match session with
                | Err e => ret (plain (if bool_decide (code e = StatusCode.kInvalidArgument) then 400 else 500) (message e))
                | Ok session =>
                    match session_json session with
                    | inl what => ret (invalid_json what)
                    | inr text => ret (mkResponse 201 true text application_json)
                    end
                end
            end
        | _ => ret (plain 400 "request must contain a files array")
        end
    end.

Definition post_complete (authorization session : string) : Handler Response :=
  if negb (api_authorized token authorization) then ret unauthorized
  else
    let* completed := on_db (HComplete session) (store_CompleteSession session) in
    match completed with
    | Err e => ret (plain (if bool_decide (code e = StatusCode.kNotFound) then 404
                           else if bool_decide (code e = StatusCode.kInvalidArgument) then 400 else 500) (message e))
    | Ok _ => ret (mkResponse 200 false (line ("{" +:+ quoted "state" +:+ ":" +:+ quoted "COMPLETE" +:+ "}")) application_json)
    end.

(** An exception of the printer leaves the handler. *)
Definition get_session (authorization session : string) : Handler (Exn Response) :=
  if negb (api_authorized token authorization) then ret (inr unauthorized)
  else
    let* found := on_db (HGetSession session) (store_GetSession session) in
    match found with
    | Err e => ret (inr (plain (if bool_decide (code e = StatusCode.kNotFound) then 404 else 500) (message e)))
    | Ok session => ret (let! text := session_json session in inr (mkResponse 200 true text application_json))
    end.

(** [server.Get("/", ...)]: the t parameter, if the request has one. *)
Definition get_page (page_body page_type : string) (t : option string) : Handler Response :=
  match t with
  | Some t => if ConstantTimeTokenEquals t token then ret (mkResponse 200 true page_body page_type) else ret unauthorized
  | None => ret unauthorized
  end.

(** ** Opening the store *)

Definition HashRegularFile (path : string) : Handler (StatusOr Digest) :=
  let* stream := call (on_os (HStream path) (os_ifstream path)) in
  match stream with
  | None => ret (Err (mkStatus StatusCode.kIoError "unable to open recovered upload"))
  | Some stream =>
      if stream_eof stream then ret (Ok (Blake3 (str_concat (stream_reads stream))))
      else ret (Err (mkStatus StatusCode.kIoError "unable to read recovered upload"))
  end.

(** Whether a published file of the expected size was found and committed. *)
Definition recover_published (c : Candidate) : Handler bool :=
  let final := FinalPath workspace_root (candidate_session_id c) (candidate_safe_filename c) in
  let* exists_ := call (on_os (HIsRegular final) (os_is_regular_file final)) in
  let* size := (if exists_ then call (on_os (HFileSize final) (os_file_size final)) else ret None) in
  if negb (bool_decide (size = Some (candidate_expected_size c))) then ret false
  else
    let* digest := HashRegularFile final in
    match digest with
    | Err _ => ret false
    | Ok digest =>
        let session := candidate_session_id c in
        let* committed := on_db (HCommit session (candidate_file_id c) (candidate_expected_size c) digest)
          (store_CommitUpload session (candidate_file_id c) (candidate_expected_size c) digest) in
        if is_ok committed then do* remove (TempPath workspace_root session (candidate_file_id c)); ret true
        else ret false
    end.

Fixpoint recover_candidates (candidates : list Candidate) : Handler unit :=
  match candidates with
  | [] => ret tt
  | c :: candidates =>
      let* recovered := recover_published c in
      if recovered then recover_candidates candidates
      else
        let* failed := on_db (HMarkFailed (candidate_session_id c) (candidate_file_id c))
          (store_MarkUploadFailed (candidate_session_id c) (candidate_file_id c)) in
        do* lift failed;
        recover_candidates candidates
  end.

Definition RecoverInterruptedUploads : Handler unit :=
  let* candidates := on_db HCandidates store_Candidates in
  let* candidates := lift candidates in
  recover_candidates candidates.

(** [UploadSessionStore::Open(workspace_root)] *)
Definition UploadSessionStore_Open : Handler unit :=
  do* require (negb (str_empty workspace_root)) (Invalid "receiver workspace root must not be empty");
  let staging := path_append (path_append workspace_root "incoming") ".tmp" in
  let* error := call (on_os (HCreateDirectories staging) (os_create_directories staging)) in
  match error with
  | Some error => throw (mkStatus StatusCode.kIoError ("unable to create receiver staging directory: " +:+ error))
  | None =>
      let* opened := on_db HOpenStore store_Open in
      do* lift opened;
      RecoverInterruptedUploads
  end.

End Handlers.

(** ** The session store behind the handlers *)

(** What one operation takes from outside. *)
Record Outside := mkOutside {
  outside_binds : nat -> bool;
  outside_random : nat -> nat -> Z;
  outside_create_directories : string -> option string;
}.
Record StoreState := mkStoreState { store_conn : Conn UploadDb; operations : nat }.

Section Store.
Context (outside : nat -> Outside) (workspace_root : string) (quota : UploadQuota).

Definition operation {A} (c : Outside -> M (Conn UploadDb) A) : M StoreState A :=
  fun s => let (r, k) := c (outside (operations s)) (store_conn s) in (r, mkStoreState k (S (operations s))).

(** [sqlite3_open_v2], and the schema: its tables exist or are created empty. *)
Definition open_database : M (Conn UploadDb) unit :=
  do* sqlite_call;
  sqlite_call.

Definition select_candidates (db : UploadDb) : list Candidate :=
  (fun r => mkCandidate (c_str (row_session_id r)) (c_str (row_file_id r)) (c_str (row_safe_filename r))
              (to_uint64 (row_expected_size r)))
  <$> filter (fun r => row_state r = 1) (upload_file db).
Definition ReadCandidates : M (Conn UploadDb) (list Candidate) :=
  do* prepare "prepare interrupted upload recovery";
  query_rows select_candidates.

Definition session_store : ReceiverStore StoreState := {|
  store_CreateSession files := operation (fun o =>
    CreateSession (outside_binds o) (outside_random o) (outside_create_directories o) workspace_root quota files);
  store_GetSession id := operation (fun o => GetSession (outside_binds o) id);
  store_GetFile session file := operation (fun o => GetFile (outside_binds o) session file);
  store_BeginUpload session file := operation (fun o => BeginUpload (outside_binds o) session file);
  store_MarkUploadFailed session file := operation (fun o => MarkUploadFailed (outside_binds o) session file);
  store_CommitUpload session file size digest := operation (fun o => CommitUpload (outside_binds o) session file size digest);
  store_CompleteSession session := operation (fun o => CompleteSession (outside_binds o) session);
  store_Open := operation (fun _ => open_database);
  store_Candidates := operation (fun _ => ReadCandidates);
|}.

End Store.
