(* ===== verification/ReceiverTheorems.v ===== *)
(** * ReceiverTheorems: what the answers of the upload server mean

    The lists of calls the handlers make, for every operating system and every
    failure.  An upload answered 201 was received whole into a new temporary
    file, synchronised, published without replacing anything, its directory
    synchronised, and only then committed. *)

From S2P Require Import Prelude Status Bytes Json Sqlite FileOps LinuxFileOps Logic UploadStore UploadLogic UploadTheorems Serve Receiver.

(** ** What a handler adds to the calls *)

Section Does.
Context {F D : Type}.

Definition does {A} (c : M (Host F D) A) (P : StatusOr A -> list HostEvent -> Host F D -> Prop) : Prop :=
  forall h, runs c h (fun r h' => exists l, host_events h' = host_events h ++ l /\ P r l h').

Lemma does_mono {A} (c : M (Host F D) A) (P Q : StatusOr A -> list HostEvent -> Host F D -> Prop) :
  does c P -> (forall r l h, P r l h -> Q r l h) -> does c Q.
Proof. intros Hc HPQ h. eapply runs_mono; [apply Hc|]. intros r h' (l&Hl&HP). eauto. Qed.

Lemma does_ret {A} (a : A) (P : StatusOr A -> list HostEvent -> Host F D -> Prop) :
  (forall h, P (Ok a) [] h) -> does (ret a) P.
Proof. intros HP h. exists []. by rewrite app_nil_r. Qed.

Lemma does_lift {A} (x : StatusOr A) (P : StatusOr A -> list HostEvent -> Host F D -> Prop) :
  (forall h, P x [] h) -> does (lift x) P.
Proof. intros HP h. exists []. by rewrite app_nil_r. Qed.

Lemma does_bind {A B} (c : M (Host F D) A) (k : A -> M (Host F D) B) P Q :
  does c P ->
  (forall a l1 h1, P (Ok a) l1 h1 -> does (k a) (fun r l2 h => Q r (l1 ++ l2) h)) ->
  (forall e l h, P (Err e) l h -> Q (Err e) l h) -> does (bind c k) Q.
Proof.
  intros Hc Hk He h. apply runs_bind. eapply runs_mono; [apply Hc|]. intros [a|e] h1 (l1&Hl1&H1).
  - eapply runs_mono; [by eapply Hk|]. intros r h2 (l2&Hl2&H2). exists (l1 ++ l2). by rewrite Hl2, Hl1, app_assoc.
  - exists l1. auto.
Qed.

(** A step that never throws, then the rest. *)
Lemma does_step {A B} (c : M (Host F D) A) (k : A -> M (Host F D) B) (P : A -> list HostEvent -> Prop) Q :
  does c (fun r l _ => exists a, r = Ok a /\ P a l) ->
  (forall a l1, P a l1 -> does (k a) (fun r l2 h => Q r (l1 ++ l2) h)) -> does (bind c k) Q.
Proof.
  intros Hc Hk. eapply does_bind; [exact Hc| |]; simpl.
  - intros a l1 _ (a'&[= <-]&HP). by apply Hk.
  - by intros e l h (a&[=]&_).
Qed.

Lemma does_os {A} (ev : A -> HostEvent) (c : F -> A * F) :
  does (call (on_os ev c)) (fun r l _ => exists a, r = Ok a /\ l = [ev a]).
Proof. intros h. unfold runs, call, on_os. destruct (c (host_os h)) as [a f]. exists [ev a]. eauto. Qed.

Lemma does_db {A} (ev : StatusOr A -> HostEvent) (c : M D A) :
  does (on_db ev c) (fun r l h => exists x d, r = Ok x /\ l = [ev x] /\ c d = (x, host_store h)).
Proof.
  intros h. unfold runs, on_db. destruct (c (host_store h)) as [x d] eqn:Hc. exists [ev x]. split; [done|]. eauto.
Qed.

(** The call of the store is followed by [k], which sees only its result. *)
Lemma does_db_step {A B} (ev : StatusOr A -> HostEvent) (c : M D A) (k : StatusOr A -> M (Host F D) B) Q :
  (forall x, does (k x) (fun r l h => Q r (ev x :: l) h)) -> does (bind (on_db ev c) k) Q.
Proof.
  intros Hk. eapply (does_step _ _ (fun x l => l = [ev x])).
  - eapply does_mono; [apply does_db|]. intros r l h (x&d&->&->&_). eauto.
  - intros x l ->. apply Hk.
Qed.

(** The call is the last one: [k] only words the answer. *)
Lemma does_db_last {A B} (ev : StatusOr A -> HostEvent) (c : M D A) (k : StatusOr A -> M (Host F D) B) Q :
  (forall x d h, c d = (x, host_store h) -> exists r, k x h = (r, h) /\ Q r [ev x] h) -> does (bind (on_db ev c) k) Q.
Proof.
  intros Hk h. unfold runs, bind, on_db. destruct (c (host_store h)) as [x d] eqn:Hc.
  destruct (Hk x (host_store h) (mkHost (host_os h) d (host_events h ++ [ev x])) Hc) as (r&->&HQ).
  exists [ev x]. by split.
Qed.
End Does.

Section Calls.
Context {F D : Type} `{ReceiverOs F}.

Lemma does_fsync fd : does (D := D) (fsync fd) (fun r l _ => exists b, r = Ok b /\ exists x, b = succeeded x /\ l = [HFsync fd x]).
Proof.
  unfold fsync. eapply does_step; [apply does_os|]. intros x l ->. apply does_ret. intros h. rewrite app_nil_r. eauto.
Qed.
Lemma does_close fd : does (D := D) (close fd) (fun r l _ => exists b, r = Ok b /\ exists x, b = succeeded x /\ l = [HClose fd x]).
Proof.
  unfold close. eapply does_step; [apply does_os|]. intros x l ->. apply does_ret. intros h. rewrite app_nil_r. eauto.
Qed.

(** ** Writing *)

Definition is_write (fd : Fd) (e : HostEvent) : Prop := exists data r, e = HWrite fd data r.
(** The bytes taken by a list of writes. *)
Definition written (l : list HostEvent) : string :=
  str_concat (omap (fun e => match e with HWrite _ data (SysOk n) => Some (str_take n data) | _ => None end) l).

Lemma written_app a b : written (a ++ b) = written a +:+ written b.
Proof. unfold written. by rewrite omap_app, str_concat_app. Qed.

Lemma does_retried fd data n :
  does (D := D) (call (fun h => retried n (on_os (HWrite fd data) (os_write fd data)) h))
    (fun r l _ => exists x, r = Ok x /\ Forall (is_write fd) l
       /\ written l = match x with SysOk k => str_take k data | SysErr _ => "" end).
Proof.
  intros h. revert h. induction n as [|n IH]; intros h; unfold runs, call; cbn [retried]; unfold on_os at 1;
    destruct (os_write fd data (host_os h)) as [[k|e] f].
  1,2: eexists [_]; split; [done|]; eexists; split; [done|]; split; [by apply Forall_singleton; do 2 eexists|];
    cbn; by rewrite ?str_app_nil.
  - eexists [_]; split; [done|]; eexists; split; [done|]; split; [by apply Forall_singleton; do 2 eexists|].
    cbn. by rewrite str_app_nil.
  - destruct (Z.pos e =? EINTR).
    + specialize (IH (mkHost f (host_store h) (host_events h ++ [HWrite fd data (SysErr e)]))). unfold runs, call in IH.
      destruct (retried _ _ _) as [x h']. destruct IH as (l&Hl&y&[= <-]&Hw&Ht). exists (HWrite fd data (SysErr e) :: l).
      rewrite Hl. split; [simpl; by rewrite <- app_assoc|]. exists x. split; [done|]. split; [|done].
      constructor; [by do 2 eexists|done].
    + eexists [_]; split; [done|]; eexists; split; [done|]; split; [by apply Forall_singleton; do 2 eexists|done].
Qed.

Lemma does_write fd data :
  does (D := D) (write fd data) (fun r l _ => exists x, r = Ok x /\ Forall (is_write fd) l
       /\ written l = match x with SysOk k => str_take k data | SysErr _ => "" end).
Proof. intros h. apply (does_retried fd data (os_pending (host_os h)) h). Qed.

Lemma does_write_all turns fd data :
  does (D := D) (write_all turns fd data)
    (fun r l _ => exists b, r = Ok b /\ Forall (is_write fd) l /\ (b = true -> written l = data)).
Proof.
  revert data. induction turns as [|n IH]; intros data; cbn [write_all]; destruct (str_empty data) eqn:He.
  - apply does_ret. intros h. exists true. apply str_empty_true in He as ->. split_and!; try done; constructor.
  - apply does_ret. intros h. exists false. split_and!; try done; constructor.
  - apply does_ret. intros h. exists true. apply str_empty_true in He as ->. split_and!; try done; constructor.
  - eapply does_step; [apply does_write|]. intros x l1 [Hw Ht]. destruct x as [[|k]|e].
    + apply does_ret. intros h. exists false. by rewrite app_nil_r.
    + eapply does_mono; [apply IH|]. intros r l h (b&->&Hl&Hb). exists b. split; [done|]. split; [by apply Forall_app|].
      intros Hbt. by rewrite written_app, Ht, (Hb Hbt), str_take_drop.
    + apply does_ret. intros h. exists false. by rewrite app_nil_r.
Qed.

Lemma does_WriteAll_upload fd data :
  does (D := D) (WriteAll_upload fd data) (fun r l _ => exists b, r = Ok b /\ Forall (is_write fd) l /\ (b = true -> written l = data)).
Proof. apply does_write_all. Qed.

(** ** Reading the body *)

Lemma does_read_chunks fd expected cs whole r :
  0 <= received r <= expected -> expected <= uint64_max ->
  does (D := D) (read_chunks fd expected cs whole r)
    (fun res l _ => exists p, res = Ok p /\ Forall (is_write fd) l
       /\ (p.1 = true -> whole = true /\ written l = str_concat cs /\ hasher p.2 = hasher r +:+ str_concat cs
             /\ received p.2 = received r + str_size (str_concat cs))).
Proof.
  intros Hr Hexp. revert r Hr. induction cs as [|data cs IH]; intros r Hr; cbn [read_chunks].
  - apply does_ret. intros h. exists (whole, r). split_and!; [done|constructor|]. simpl. intros ->.
    rewrite str_app_nil. unfold str_size. simpl. by rewrite Z.add_0_r.
  - unfold on_chunk. destruct (Z.ltb_spec (to_uint64 (expected - received r)) (str_size data)) as [|Hle].
    + eapply (does_step _ _ (fun p l => p.1 = false /\ l = [])).
      * apply does_ret. intros h. by eexists.
      * intros p l [Hp ->]. rewrite Hp. apply does_ret. intros h. eexists. split; [done|]. split; [constructor|done].
    + unfold to_uint64 in Hle. rewrite Z.mod_small in Hle by (unfold uint64_max in *; lia).
      eapply (does_step _ _ (fun p l => Forall (is_write fd) l /\ (p.1 = true -> written l = data
                /\ p.2 = mkReceiving (hasher r +:+ data) (received r + str_size data) (size_overflow r)))).
      * eapply does_step; [apply does_WriteAll_upload|]. intros b l [Hl Hb]. destruct b; simpl; apply does_ret; intros h;
          rewrite app_nil_r; (eexists; split; [done|]); (split; [done|]); [|done]. intros _. split; [by apply Hb|].
        unfold to_uint64. rewrite Z.mod_small; [done|]. unfold str_size, uint64_max in *. lia.
      * intros p l [Hl Hp]. destruct p as [[|] r1]; simpl in Hp |- *.
        -- destruct (Hp eq_refl) as [Hw ->]. eapply does_mono; [apply IH; simpl; unfold str_size in *; lia|].
           intros res l2 h (p&->&Hl2&Hrest). exists p. split; [done|]. split; [by apply Forall_app|]. intros H1.
           destruct (Hrest H1) as (Hwhole&Hw2&Hh&Hrec). cbn [hasher received] in *. split_and!; [done| | |].
           ++ by rewrite written_app, Hw, Hw2.
           ++ by rewrite Hh, str_app_assoc.
           ++ rewrite Hrec. unfold str_size. rewrite str_length_app. lia.
        -- apply does_ret. intros h. rewrite app_nil_r. eexists. split; [done|]. by split.
Qed.

End Calls.

(** ** The body and the file *)

Definition exclusive : Z := flags [O_WRONLY; O_CREAT; O_EXCL; O_CLOEXEC].
Definition directory : Z := flags [O_RDONLY; O_DIRECTORY; O_CLOEXEC].

Section Put.
Context (Blake3 : string -> Digest) (workspace_root token : string).
Context {F D : Type} `{ReceiverOs F}.

(** The calls of a body received whole into a new file: created exclusively,
    written with exactly the body, synchronised and closed. *)
Definition body_received (body : RequestBody) (temporary : string) (size : Z) (digest : Digest) (l : list HostEvent) : Prop :=
  exists fd writes,
    l = HRemove temporary :: HOpen (c_str temporary) exclusive 384 (SysOk fd)
        :: writes ++ [HFsync (Z.of_N fd) (SysOk tt); HClose (Z.of_N fd) (SysOk tt)]
    /\ Forall (is_write (Z.of_N fd)) writes /\ written writes = str_concat (chunks body)
    /\ complete body = true /\ str_size (str_concat (chunks body)) = size
    /\ digest = Blake3 (str_concat (chunks body)).

Lemma succeeded_unit (x : SysResult unit) : succeeded x = true -> x = SysOk tt.
Proof. by destruct x as [[]|]. Qed.

Lemma does_ReceiveBody body temporary size :
  0 <= size <= uint64_max ->
  does (D := D) (ReceiveBody Blake3 body temporary size)
    (fun r l _ => exists p, r = Ok p /\ match p.1 with Ok d => body_received body temporary size d l | Err _ => True end).
Proof.
  intros Hsize. unfold ReceiveBody. eapply does_step; [apply does_os|]. intros [] l ->.
  eapply does_step; [apply does_os|]. intros [fd|e] l ->; [|by apply does_ret; intros h; eexists].
  eapply does_step; [apply does_read_chunks; simpl; lia|]. intros [whole r] l1 [Hw1 Hr]. cbn [fst snd hasher received] in *.
  eapply (does_step _ _ (fun b l => b = true -> whole = true /\ received r = size /\ l = [HFsync (Z.of_N fd) (SysOk tt)])).
  { destruct (whole && (received r =? size)) eqn:Hall.
    - eapply does_mono; [apply does_fsync|]. intros x l _ (b&->&s&->&->). exists (succeeded s). split; [done|].
      intros ->%succeeded_unit. by bool_hyps.
    - apply does_ret. intros h. by exists false. }
  intros synced l2 Hsync. eapply does_step; [apply does_close|]. intros closed l3 (x&->&->).
  destruct (negb synced || negb (succeeded x)) eqn:Hfail.
  - eapply (does_step _ _ (fun _ _ => True)); [|intros [] l4 _; apply does_ret; intros h; by eexists].
    unfold unlink. eapply does_step; [apply does_os|]. intros a l ->. apply does_ret. intros h. by exists tt.
  - apply does_ret. intros h. eexists. split; [done|]. simpl. bool_hyps. subst.
    destruct (Hsync eq_refl) as (->&Hrec&->). destruct (Hr eq_refl) as (Hc&Hw&Hh&Hlen).
    match goal with Hx : succeeded x = true |- _ => apply succeeded_unit in Hx as -> end.
    exists fd, l1. rewrite Hh. split_and!; try done. by rewrite <- Hrec, Hlen.
Qed.

Context `{ReceiverStore D}.

(** The calls behind an answer 201. *)
Definition accepted (session file_id : string) (body : RequestBody) (file : UploadFile) (digest : Digest) (l : list HostEvent) : Prop :=
  let temporary := TempPath workspace_root session file_id in
  let final := FinalPath workspace_root session (safe_filename file) in
  exists received dfd closed,
    l = HGetFile session file_id (Ok file) :: HBegin session file_id (Ok kStarted) :: received
        ++ [HRename temporary final RENAME_NOREPLACE (SysOk tt);
            HOpen (c_str (parent_path final)) directory 0 (SysOk dfd);
            HFsync (Z.of_N dfd) (SysOk tt); HClose (Z.of_N dfd) closed;
            HCommit session file_id (file_expected_size file) digest (Ok tt)]
    /\ body_received body temporary (file_expected_size file) digest received
    /\ (client_digest file = None \/ client_digest file = Some digest).

(** The commit is the last thing the handler does. *)
Definition last_commit (session file_id : string) (size : Z) (digest : Digest) (h : Host F D) : Prop :=
  exists d, store_CommitUpload session file_id size digest d = (Ok tt, host_store h).

Lemma does_publish_upload session file_id file digest temporary :
  does (publish_upload workspace_root session file_id file digest temporary)
    (fun r l h => match r with
     | Ok response => status response = 201 -> exists dfd closed,
         l = [HRename temporary (FinalPath workspace_root session (safe_filename file)) RENAME_NOREPLACE (SysOk tt);
              HOpen (c_str (parent_path (FinalPath workspace_root session (safe_filename file)))) directory 0 (SysOk dfd);
              HFsync (Z.of_N dfd) (SysOk tt); HClose (Z.of_N dfd) closed;
              HCommit session file_id (file_expected_size file) digest (Ok tt)]
         /\ last_commit session file_id (file_expected_size file) digest h
     | Err _ => False end).
Proof.
  unfold publish_upload. eapply does_step; [apply does_os|]. intros [[]|e] l ->.
  2: { apply does_db_step. intros x. apply does_ret. intros h. by destruct (Z.pos e =? EEXIST). }
  eapply does_step; [apply does_os|]. intros dir l ->.
  eapply (does_step _ _ (fun b l => b = true -> exists dfd closed, dir = SysOk dfd
            /\ l = [HFsync (Z.of_N dfd) (SysOk tt); HClose (Z.of_N dfd) closed])).
  { destruct dir as [dfd|e]; [|apply does_ret; intros h; by exists false].
    eapply does_step; [apply does_fsync|]. intros b l (x&->&->). eapply does_step; [apply does_close|].
    intros c l (y&->&->). apply does_ret. intros h. eexists. split; [done|]. intros ->%succeeded_unit. by exists dfd, y. }
  intros synced l Hsync. destruct synced; simpl; [|by apply does_ret].
  destruct (Hsync eq_refl) as (dfd&closed&->&->).
  apply does_db_last. intros [[]|e] d h Hd; simpl; (eexists; split; [done|]); [|done].
  intros _. exists dfd, closed. split; [done|]. by exists d.
Qed.

(** What an answer 201 says. *)
Definition answers_accepted (session file_id : string) (body : RequestBody) (r : StatusOr Response) (l : list HostEvent)
    (h : Host F D) : Prop :=
  match r with
  | Ok response => status response = 201 -> exists file digest,
      accepted session file_id body file digest l /\ last_commit session file_id (file_expected_size file) digest h
  | Err _ => False
  end.

Lemma does_receive session file_id file body :
  0 <= file_expected_size file <= uint64_max ->
  does (receive Blake3 workspace_root session file_id file body)
    (fun r l h => answers_accepted session file_id body r
       (HGetFile session file_id (Ok file) :: HBegin session file_id (Ok kStarted) :: l) h).
Proof.
  intros Hsize. unfold receive. eapply does_step; [by apply does_ReceiveBody|]. intros [d o] l1 Hd. cbn [fst snd] in *.
  destruct d as [digest|e].
  2: { apply does_db_step. intros x. apply does_ret. intros h. simpl. by destruct o. }
  destruct (match client_digest file with Some d => _ | None => false end) eqn:Hclient.
  - apply does_db_step. intros x. eapply (does_step _ _ (fun _ _ => True)); [|intros [] l _; by apply does_ret].
    unfold unlink. eapply does_step; [apply does_os|]. intros a l ->. apply does_ret. intros h. by exists tt.
  - eapply does_mono; [apply does_publish_upload|]. intros [response|e] l h Hr; [|done]. intros Hstatus.
    destruct (Hr Hstatus) as (dfd&closed&->&Hcommit). exists file, digest. split; [|done].
    exists l1, dfd, closed. split; [done|]. split; [done|]. destruct (client_digest file) as [cd|]; [right|by left].
    by bool_hyps; subst.
Qed.

(** Registered sizes are 64-bit numbers. *)
Context (typed : forall session file_id d,
  match (store_GetFile session file_id d).1 with Ok file => 0 <= file_expected_size file <= uint64_max | Err _ => True end).

Lemma does_put_upload authorization session file_id body :
  does (put_upload Blake3 workspace_root token authorization session file_id body) (answers_accepted session file_id body).
Proof.
  unfold put_upload. destruct (api_authorized token authorization); simpl; [|by apply does_ret].
  eapply does_bind; [apply does_db| |by intros e l1 h1 (x&d&?&_)]. intros file l1 h1 (x&d&[= <-]&->&Hd).
  specialize (typed session file_id d). rewrite Hd in typed. destruct file as [file|e]; [|by apply does_ret].
  apply does_db_step. intros [[]|e]; [|by apply does_ret..]. by apply does_receive.
Qed.

End Put.

(** ** The store keeps what was accepted *)

Section Store.
Context (Blake3 : string -> Digest) (workspace_root token : string) (outside : nat -> Outside) (quota : UploadQuota).
Context {F : Type} `{ReceiverOs F}.

#[local] Instance the_store : ReceiverStore StoreState := session_store outside workspace_root quota.

Lemma GetFile_typed session file_id (d : StoreState) :
  match (store_GetFile session file_id d).1 with Ok file => 0 <= file_expected_size file <= uint64_max | Err _ => True end.
Proof.
  cbn [store_GetFile the_store session_store]. unfold operation, GetFile, bind.
  destruct (GetSession _ session (store_conn d)) as [[s|e] k] eqn:Hs; [|done].
  assert (Forall (fun f => 0 <= file_expected_size f <= uint64_max) (session_files s)) as Hall.
  { revert Hs. unfold GetSession, bind. destruct (require _ _ _) as [[[]|] k1]; [|done].
    destruct (prepare _ k1) as [[[]|] k2]; [|done]. destruct (outcome _ k2) as [[[row|]|] k3]; [|done..].
    destruct (prepare _ k3) as [[[]|] k4]; [|done]. destruct (query_rows _ k4) as [[rows|] k5]; [|done].
    intros [= <- _]. cbn [session_files]. apply Forall_fmap, Forall_forall. intros r _. simpl.
    unfold to_uint64, uint64_max. pose proof (Z.mod_pos_bound (row_expected_size r) (2 ^ 64) ltac:(lia)). lia. }
  destruct (list_find _ (session_files s)) as [[i f]|] eqn:Hf; [|done].
  apply list_find_Some in Hf as (Hi&_&_). by apply (Forall_lookup_1 _ _ _ _ Hall Hi).
Qed.

Lemma update_files_one which set db db' :
  update_files which set db = Some (db', 1) ->
  exists r, r ∈ upload_file db /\ which r = true /\ set r ∈ upload_file db'.
Proof.
  intros [= <- Hcount]. destruct (filter (fun r => Is_true (which r)) (upload_file db)) as [|r l] eqn:Hf; [done|].
  assert (r ∈ r :: l) as Hin by (apply elem_of_cons; by left). rewrite <- Hf in Hin.
  apply list_elem_of_filter in Hin as [Hw%Is_true_true Hin]. exists r. split_and!; try done.
  apply list_elem_of_fmap. exists r. by rewrite Hw.
Qed.

(** A commit that succeeds leaves the received row. *)
Lemma commit_stores session file_id size digest (d d' : StoreState) :
  store_CommitUpload session file_id size digest d = (Ok tt, d') ->
  exists r, r ∈ upload_file (committed (store_conn d')) /\ row_session_id r = session /\ row_file_id r = file_id
    /\ row_state r = 2 /\ row_expected_size r = to_int64 size /\ row_received_size r = to_int64 size
    /\ row_server_digest r = bound (outside_binds (outside (operations d)) 0%nat) (bytes digest).
Proof.
  cbn [store_CommitUpload the_store session_store]. unfold operation. set (binds := outside_binds _).
  pose proof (effect_CommitUpload binds session file_id size digest (store_conn d)) as He.
  destruct (CommitUpload binds session file_id size digest (store_conn d)) as [r k]. intros [= -> <-].
  destruct He as (w&n&Hw&Hp). simpl. rewrite (update_progress_files _ _ _ _ _ Hp).
  apply update_files_one in Hw as (r&_&Hwhich&Hin). eexists. split; [exact Hin|].
  unfold is_file in Hwhich. bool_hyps.
  repeat match goal with Hm : matches (Some _) (bound _ _) = true |- _ =>
    destruct (bound _ _) eqn:Hb in Hm; [|done]; apply bound_Some in Hb as [_ ->]; apply matches_Some in Hm end.
  by split_and!.
Qed.

(** C11. An upload answered 201 is durable: for every operating system, every
    interleaving of short writes and signals and every failure of SQLite, its
    body was received whole, with exactly the registered size, into a temporary
    file created exclusively; the file was synchronised and closed, then
    renamed to its final name without replacing anything, then the directory
    was synchronised, and only then the upload was committed, with the BLAKE3
    digest of the body, which is the client's if it announced one; and the
    committed database holds the file as received with that size.  It holds
    that digest too as long as parameters can be bound; where binding the
    digest fails, which the code does not look at, the column is NULL. *)
Theorem accepted_uploads_are_durable authorization session file_id body (h : Host F StoreState) :
  let (r, h') := put_upload Blake3 workspace_root token authorization session file_id body h in
  exists l, host_events h' = host_events h ++ l /\
  match r with
  | Ok response => status response = 201 -> exists file digest row,
      accepted Blake3 workspace_root session file_id body file digest l
      /\ row ∈ upload_file (committed (store_conn (host_store h')))
      /\ row_session_id row = session /\ row_file_id row = file_id /\ row_state row = 2
      /\ row_received_size row = to_int64 (file_expected_size file)
      /\ (row_server_digest row = Some (bytes digest) \/ row_server_digest row = None)
      /\ ((forall n, outside_binds (outside n) 0%nat = true) -> row_server_digest row = Some (bytes digest))
  | Err _ => False
  end.
Proof.
  pose proof (does_put_upload Blake3 workspace_root token GetFile_typed authorization session file_id body h) as Hd.
  unfold runs in Hd. destruct (put_upload _ _ _ _ _ _ _ h) as [r h']. destruct Hd as (l&Hl&Hr). exists l. split; [done|].
  destruct r as [response|]; [|done]. intros Hs. destruct (Hr Hs) as (file&digest&Hacc&d&Hd).
  destruct (commit_stores _ _ _ _ _ _ Hd) as (row&Hin&Hses&Hfile&Hst&_&Hrec&Hdig). exists file, digest, row.
  rewrite Hdig. split_and!; try done; [|by intros ->].
  unfold bound. destruct (outside_binds _ _); [by left|by right].
Qed.

End Store.

(** ** Recovering interrupted uploads *)

Section Recovery.
Context (Blake3 : string -> Digest) (workspace_root : string).
Context {F D : Type} `{ReceiverOs F} `{ReceiverStore D}.

Definition no_commit (e : HostEvent) : Prop :=
  match e with HCommit _ _ _ _ (Ok _) => False | _ => True end.

(** What is done with one interrupted upload: its published file has the
    registered size and its bytes give the digest committed, or it is marked
    failed and nothing of it is committed. *)
Inductive settled (c : Candidate) : list HostEvent -> Prop :=
  | settled_recovered stream :
      stream_eof stream = true ->
      let final := FinalPath workspace_root (candidate_session_id c) (candidate_safe_filename c) in
      settled c [HIsRegular final true; HFileSize final (Some (candidate_expected_size c)); HStream final (Some stream);
                 HCommit (candidate_session_id c) (candidate_file_id c) (candidate_expected_size c)
                   (Blake3 (str_concat (stream_reads stream))) (Ok tt);
                 HRemove (TempPath workspace_root (candidate_session_id c) (candidate_file_id c))]
  | settled_failed l :
      Forall no_commit l -> settled c (l ++ [HMarkFailed (candidate_session_id c) (candidate_file_id c) (Ok tt)]).

Lemma does_HashRegularFile path :
  does (D := D) (HashRegularFile Blake3 path) (fun r l _ => exists x, r = Ok x /\ exists stream, l = [HStream path stream]
    /\ forall d, x = Ok d -> exists st, stream = Some st /\ stream_eof st = true /\ d = Blake3 (str_concat (stream_reads st))).
Proof.
  unfold HashRegularFile. eapply does_step; [apply does_os|]. intros stream l ->.
  destruct stream as [st|]; [destruct (stream_eof st) eqn:He|]; apply does_ret; intros h; eexists; (split; [done|]);
    eexists; (split; [done|]); intros d [= <-]. by exists st.
Qed.

Lemma does_recover_published c :
  does (recover_published Blake3 workspace_root c)
    (fun r l _ => exists b, r = Ok b /\ if b then settled c l else Forall no_commit l).
Proof.
  unfold recover_published. eapply does_step; [apply does_os|]. intros ex l ->.
  eapply (does_step _ _ (fun size l => Forall no_commit l /\ (size <> None -> ex = true
     /\ l = [HFileSize (FinalPath workspace_root (candidate_session_id c) (candidate_safe_filename c)) size]))).
  { destruct ex; [|apply does_ret; intros h; exists None; split; [done|split; [constructor|done]]].
    eapply does_mono; [apply does_os|]. intros r l h (size&->&->). exists size. split; [done|].
    split; [by apply Forall_singleton|done]. }
  intros size l [Hno Hsize]. destruct (bool_decide_reflect (size = Some (candidate_expected_size c))) as [->|Hne]; simpl.
  2: { apply does_ret. intros h. exists false. split; [done|]. constructor; [done|]. by rewrite app_nil_r. }
  destruct Hsize as [-> ->]; [done|]. eapply does_step; [apply does_HashRegularFile|]. intros x l2 (stream&->&Hd).
  destruct x as [digest|e].
  2: { apply does_ret. intros h. exists false. split; [done|]. by repeat constructor. }
  destruct (Hd digest eq_refl) as (st&->&He&->). apply does_db_step. intros [[]|e]; cbn [is_ok].
  - eapply does_step; [apply does_os|]. intros [] l2 ->. apply does_ret. intros h. exists true. split; [done|].
    by apply settled_recovered.
  - apply does_ret. intros h. exists false. split; [done|]. by repeat constructor.
Qed.

Lemma does_recover_candidates cs :
  does (recover_candidates Blake3 workspace_root cs)
    (fun r l _ => r = Ok tt -> exists parts, l = concat parts /\ Forall2 settled cs parts).
Proof.
  induction cs as [|c cs IH]; cbn [recover_candidates]; [apply does_ret; intros h _; by exists []|].
  eapply does_step; [apply does_recover_published|]. intros b l1 Hb. destruct b.
  - eapply does_mono; [apply IH|]. intros r l h Hr Hok. destruct (Hr Hok) as (parts&->&Hall).
    exists (l1 :: parts). split; [done|]. by constructor.
  - apply does_db_step. intros [[]|e]; cbn [lift].
    + eapply does_bind; [apply (does_lift (Ok tt) (fun r l _ => r = Ok tt /\ l = [])); done| |by intros ? ? ? [? _]].
      intros [] l h [_ ->]. eapply does_mono; [apply IH|]. intros r l2 h2 Hr Hok. destruct (Hr Hok) as (parts&->&Hall).
      exists ((l1 ++ [HMarkFailed (candidate_session_id c) (candidate_file_id c) (Ok tt)]) :: parts).
      split; [simpl; by rewrite <- app_assoc|]. constructor; [by apply settled_failed|done].
    + eapply does_bind; [apply (does_lift (Err e) (fun r l _ => r = Err e)); done| |]; by intros ? ? ? [=].
Qed.

(** When the recovery of interrupted uploads succeeds, every upload it
    found receiving is settled: it is committed only if its published file is
    a regular file of the registered size, read to its end, and with the
    BLAKE3 digest of the bytes read; otherwise it is marked failed and nothing
    of it is committed. *)
Lemma interrupted_uploads_are_settled (h : Host F D) :
  let (r, h') := RecoverInterruptedUploads Blake3 workspace_root h in
  exists l, host_events h' = host_events h ++ l /\
  (r = Ok tt -> exists cs parts, l = HCandidates (Ok cs) :: concat parts /\ Forall2 settled cs parts).
Proof.
  assert (does (RecoverInterruptedUploads Blake3 workspace_root) (fun r l _ => r = Ok tt ->
    exists cs parts, l = HCandidates (Ok cs) :: concat parts /\ Forall2 settled cs parts)) as Hd; [|apply (Hd h)].
  unfold RecoverInterruptedUploads. apply does_db_step. intros [cs|e]; cbn [lift].
  - eapply does_bind; [apply (does_lift (Ok cs) (fun r l _ => r = Ok cs /\ l = [])); done| |by intros ? ? ? [? _]].
    intros a l h1 [[= ->] ->]. eapply does_mono; [apply does_recover_candidates|]. intros r l h2 Hr Hok.
    destruct (Hr Hok) as (parts&->&Hall). by exists cs, parts.
  - eapply does_bind; [apply (does_lift (Err e) (fun r l _ => r = Err e)); done| |]; by intros ? ? ? [=].
Qed.

End Recovery.

(** ** An upload in two chunks *)

#[local] Instance demo_os : ReceiverOs unit := {|
  os_create_directories _ f := (None, f);
  os_remove _ f := f;
  os_open _ _ _ f := (SysOk 3%N, f);
  os_write _ data f := (SysOk (Nat.min 2 (String.length data)), f);
  os_fsync _ f := (SysOk tt, f);
  os_close _ f := (SysOk tt, f);
  os_renameat2 _ _ _ _ _ f := (SysOk tt, f);
  os_unlink _ f := (SysOk tt, f);
  os_is_regular_file _ f := (false, f);
  os_file_size _ f := (None, f);
  os_ifstream _ f := (None, f);
  os_pending _ := 0%nat;
|}.
Local Notation demo_blake3 := (fun _ : string => Digest_of (fun _ => NUL)).
Local Notation demo_outside :=
  (fun _ : nat => mkOutside (fun _ => true) (fun device index => Z.of_nat (device + index)) (fun _ => None)).
Local Notation demo_store := (the_store "/receiver" demo_outside default_quota).
Local Notation demo_session := (NewId "session" (fun index => Z.of_nat (0 + index))).
Local Notation demo_file := (NewId "file" (fun index => Z.of_nat (1 + index))).
Local Notation demo_start := (mkHost tt
  ((store_CreateSession (ReceiverStore := demo_store) [mkUploadFileRequest "a.jpg" 5 (Some (Digest_of (fun _ => NUL)))]
     (mkStoreState (mkConn empty_upload_db None 0 [] [7]) 0)).2) []).
Local Notation demo_put := (put_upload (H0 := demo_store) demo_blake3 "/receiver" "secret" "Bearer secret" demo_session demo_file
  (mkRequestBody ["abc"; "de"] true) demo_start).

Lemma demo_put_accepted :
  match demo_put.1 with Ok response => status response =? 201 | Err _ => false end = true.
Proof. vm_compute. reflexivity. Qed.

Lemma accepted_uploads_are_durable_witness :
  exists response row, demo_put.1 = Ok response /\ status response = 201
    /\ row ∈ upload_file (committed (store_conn (host_store demo_put.2))) /\ row_state row = 2.
Proof.
  pose proof demo_put_accepted as Hs.
  pose proof (accepted_uploads_are_durable demo_blake3 "/receiver" "secret" demo_outside default_quota
    "Bearer secret" demo_session demo_file (mkRequestBody ["abc"; "de"] true) demo_start) as H.
  destruct demo_put as [[response|e] h']; [|discriminate Hs]. apply Z.eqb_eq in Hs. destruct H as (l&_&H).
  destruct (H Hs) as (file&digest&row&_&Hin&_&_&Hst&_). exists response, row. split_and!; [reflexivity|exact Hs|exact Hin|exact Hst].
Defined.
