(* ===== verification/ManifestBuilder.v ===== *)
(** * ManifestBuilder: the manifest of a source and its digest

    Models src/app/manifest_builder.cpp over the tables source_manifest and
    physical_asset: a builder inserts the manifest of a source, then its
    assets in batches of one transaction each, and freezes it under the digest
    of its content; [Reopen] reads a frozen manifest back and checks that
    digest.  A builder and its connection are one state, so that its
    operations are sequences of steps; the clock and the sequence number of
    the process name a manifest. *)

From stdpp Require Import pretty.
From S2P Require Import Prelude Status Bytes Order RelativePath Task Assets Sqlite Tables Materialize.

(** ** Data (include/photobridge/app/manifest_builder.h) *)

Record SourceDescriptor := mkSourceDescriptor { source_id : string; source_type : string; source_root : string }.

Module ManifestBuilderState.
Inductive t := kIdle | kBuilding | kFrozen.
#[global] Instance eq_dec : EqDecision t.
Proof. solve_decision. Defined.
End ManifestBuilderState.

Record FrozenManifest := mkFrozenManifest {
  frozen_manifest_id : string;
  frozen_asset_count : Z;
  frozen_manifest_digest : Digest;
}.

Definition kManifestBuilding : Z := 0.
Definition kManifestFrozen : Z := 1.
Definition kManifestDigestDomain : string := "PB_MANIFEST_V1".

Definition int_of_kind (kind : AssetKind) : Z :=
  match kind with kMedia => 0 | kSidecarJson => 1 | kSidecarXmp => 2 | kAlbumMetadata => 3 | kUnknown => 4 end.

(** ** The tables *)

Record AssetRow := mkAssetRow {
  as_relative_path : string;
  as_display_path : string;
  as_device : Z;
  as_inode : Z;
  as_size : Z;
  as_mtime_ns : Z;
  as_ctime_ns : Z;
  as_kind : Z;
}.

Record ManifestDb := mkManifestDb {
  manifests : gmap string ManifestRow;
  physical_asset : gmap (string * string) AssetRow;   (* manifest_id, asset_id *)
}.
Definition empty_manifest_db : ManifestDb := mkManifestDb ∅ ∅.

Definition insert_manifest_row (id : string) (row : ManifestRow) (db : ManifestDb) : option (ManifestDb * Z) :=
  if decide (is_Some (manifests db !! id)) then None
  else Some (mkManifestDb (<[id := row]> (manifests db)) (physical_asset db), 1).

(** The assets of a manifest. *)
Definition assets_of (id : string) (db : ManifestDb) : list (string * AssetRow) :=
  omap (fun '((manifest, asset), row) => if bool_decide (manifest = id) then Some (asset, row) else None)
    (map_to_list (physical_asset db)).

(** PRIMARY KEY, UNIQUE (manifest_id, relative_path) and FOREIGN KEY. *)
Definition insert_asset_row (id asset : string) (row : AssetRow) (db : ManifestDb) : option (ManifestDb * Z) :=
  if decide (is_Some (physical_asset db !! (id, asset))) then None
  else if existsb (fun r => as_relative_path r.2 == as_relative_path row) (assets_of id db) then None
  else if decide (is_Some (manifests db !! id))
  then Some (mkManifestDb (manifests db) (<[(id, asset) := row]> (physical_asset db)), 1)
  else None.

(** ORDER BY relative_path ASC, asset_id ASC *)
Definition asset_row_less (a b : string * AssetRow) : bool :=
  if as_relative_path a.2 != as_relative_path b.2 then str_less (as_relative_path a.2) (as_relative_path b.2)
  else str_less a.1 b.1.
Definition select_assets (id : string) (db : ManifestDb) : list AssetRow :=
  snd <$> std_sort asset_row_less (assets_of id db).

Definition select_manifest (id : string) (db : ManifestDb) : option ManifestRow := manifests db !! id.
(** The state, the digest and COUNT of the joined assets. *)
Definition select_frozen (id : string) (db : ManifestDb) : option (Z * option string * Z) :=
  row ← manifests db !! id; Some (man_state row, man_digest row, Z.of_nat (length (assets_of id db))).

Definition update_freeze (id : string) (digest : string) (db : ManifestDb) : option (ManifestDb * Z) :=
  match manifests db !! id with
  | Some row =>
      if man_state row =? kManifestBuilding
      then Some (mkManifestDb
                   (<[id := mkManifestRow (man_source_id row) (man_source_type row) (man_source_root row) kManifestFrozen
                              (Some digest) (man_created_at_ns row)]> (manifests db)) (physical_asset db), 1)
      else Some (db, 0)
  | None => Some (db, 0)
  end.

(** ** Calls of SQLite *)

Definition sql A : Type := M (Conn ManifestDb) A.

(** [SqliteError(database, operation)]: a constraint is [kAlreadyExists]. *)
Definition manifest_dml (operation : string) (stmt : ManifestDb -> option (ManifestDb * Z)) : sql unit :=
  run_insert (mkStatus StatusCode.kAlreadyExists (operation +:+ ": constraint failed")) operation stmt.

Definition bind_value (field_name : string) : sql unit :=
  api_call (fun msg => mkStatus StatusCode.kIoError ("bind SQLite " +:+ field_name +:+ ": " +:+ msg)).
Definition BindTextField (value field_name : string) : sql unit :=
  do* require (negb (int_max <? str_size value)) (Invalid ("SQLite text field is too large: " +:+ field_name));
  bind_value field_name.
Definition BindBlobField (value field_name : string) : sql unit :=
  do* require (negb (int_max <? str_size value)) (Invalid ("SQLite blob field is too large: " +:+ field_name));
  bind_value field_name.
Definition BindUint64 (value : Z) (field_name : string) : sql unit :=
  do* require (negb (int64_max <? value)) (Invalid ("SQLite integer field overflows: " +:+ field_name));
  bind_value field_name.
Definition BindInt64 (field_name : string) : sql unit := bind_value field_name.
(** A bind whose failure has a message of its own. *)
Definition bind_state (message : string) : sql unit := api_call (fun _ => mkStatus StatusCode.kIoError message).

(** ** The digest *)

Section Digest.
Context (Blake3 : string -> Digest).

(** What the [CanonicalHasher] is given for one asset; a negative column is
    refused, and stops the columns after it. *)
Definition AppendNonnegative (value : Z) (field_name : string) (payload : string) : StatusOr string :=
  if value <? 0 then Err (Internal ("SQLite canonical field is negative: " +:+ field_name))
  else Ok (AppendUint64 (to_uint64 value) payload).
Definition append_asset_columns (payload : string) (row : AssetRow) : StatusOr string :=
  let payload := AppendLengthPrefixed (as_relative_path row) payload in
  let? payload := AppendNonnegative (as_device row) "device" payload in
  let? payload := AppendNonnegative (as_inode row) "inode" payload in
  let? payload := AppendNonnegative (as_size row) "size" payload in
  Ok (AppendUint64 (to_uint64 (as_kind row))
        (AppendUint64 (to_uint64 (as_ctime_ns row)) (AppendUint64 (to_uint64 (as_mtime_ns row)) payload))).

(** One [sqlite3_step] per asset and one for SQLITE_DONE. *)
Fixpoint append_assets (rows : list AssetRow) (payload : string) : sql string :=
  do* api_call (SqliteError "read manifest digest asset");
  match rows with
  | [] => ret payload
  | row :: rows => let* payload := lift (append_asset_columns payload row) in append_assets rows payload
  end.

Definition ComputeManifestDigest (manifest_id : string) : sql Digest :=
  let payload := AppendLengthPrefixed kManifestDigestDomain "" in
  do* prepare "prepare manifest digest source query";
  do* BindTextField manifest_id "manifest_id";
  let* row := run_query "read manifest digest source" (select_manifest manifest_id) in
  match row with
  | None => throw (SqliteError "read manifest digest source" "no more rows available")
  | Some row =>
      let payload := AppendLengthPrefixed (man_source_root row)
        (AppendLengthPrefixed (man_source_type row) (AppendLengthPrefixed (man_source_id row) payload)) in
      do* api_call (SqliteError "read manifest digest source");
      do* prepare "prepare manifest digest asset query";
      do* BindTextField manifest_id "manifest_id";
      fun s => (let* payload := append_assets (select_assets manifest_id (current_db s)) payload in
                ret (Blake3 payload)) s
  end.

(** ** Reading a frozen manifest *)

Definition ReadFrozenBody (manifest_id : string) : sql FrozenManifest :=
  do* prepare "prepare frozen manifest query";
  do* BindTextField manifest_id "manifest_id";
  let* row := run_query "read frozen manifest" (select_frozen manifest_id) in
  match row with
  | None => throw (mkStatus StatusCode.kNotFound "manifest was not found")
  | Some (state, digest, count) =>
      do* require (state =? kManifestFrozen) (Invalid "manifest is not frozen");
      match digest ≫= digest_of_blob with
      | None => throw (Internal "frozen manifest digest is missing or malformed")
      | Some persisted =>
          do* require (negb (count <? 0)) (Internal "frozen manifest asset count is negative");
          do* api_call (SqliteError "read frozen manifest");
          let* computed := ComputeManifestDigest manifest_id in
          do* require (bool_decide (computed = persisted)) (Internal "frozen manifest digest does not match its assets");
          ret (mkFrozenManifest manifest_id count persisted)
      end
  end.
(** [BEGIN;] opens a transaction like [BEGIN IMMEDIATE;] on the one connection. *)
Definition ReadFrozenManifest (manifest_id : string) : sql FrozenManifest := Transaction (ReadFrozenBody manifest_id).

(** ** [class SqliteManifestBuilder] *)

Record Builder := mkBuilder {
  connection : Conn ManifestDb;
  sequence : Z;                      (* the static counter of [NewManifestId] *)
  batch_size : nat;
  builder_state : ManifestBuilderState.t;
  manifest_id : string;
  asset_count : Z;
  manifest_digest : Digest;
  pending_assets : list PhysicalAsset;
}.

Definition set_connection (c : Conn ManifestDb) (b : Builder) : Builder :=
  mkBuilder c (sequence b) (batch_size b) (builder_state b) (manifest_id b) (asset_count b) (manifest_digest b)
    (pending_assets b).
Definition on_connection {A} (c : sql A) : M Builder A :=
  fun b => let (r, s) := c (connection b) in (r, set_connection s b).
Definition get : M Builder Builder := fun b => (Ok b, b).
Definition put (b : Builder) : M Builder unit := fun _ => (Ok tt, b).

(** The constructor. *)
Definition SqliteManifestBuilder (connection : Conn ManifestDb) (sequence : Z) (batch_size : nat) (no_digest : Digest) : Builder :=
  mkBuilder connection sequence (if (batch_size =? 0)%nat then 1%nat else batch_size) ManifestBuilderState.kIdle "" 0
    no_digest [].

Definition NewManifestId (now sequence : Z) : string := "manifest-" +:+ pretty now +:+ "-" +:+ pretty sequence.

Definition BeginManifestBody (id : string) (source : SourceDescriptor) : sql unit :=
  do* prepare "prepare source manifest insert";
  do* BindTextField id "manifest_id";
  do* BindTextField (source_id source) "source_id";
  do* BindTextField (source_type source) "source_type";
  do* BindBlobField (source_root source) "source_root";
  do* bind_state "bind SQLite manifest state failed";
  let* now := CurrentTimeNanoseconds in
  do* BindInt64 "created_at_ns";
  manifest_dml "insert source manifest"
    (insert_manifest_row id
       (mkManifestRow (source_id source) (source_type source) (source_root source) kManifestBuilding None now)).

Definition Begin (source : SourceDescriptor) : M Builder unit :=
  let* b := get in
  do* require (bool_decide (builder_state b = ManifestBuilderState.kIdle))
    (Invalid "manifest builder has already been started");
  do* require (negb (str_empty (source_id source) || str_empty (source_type source) || str_empty (source_root source)))
    (Invalid "manifest source fields must not be empty");
  let* now := on_connection CurrentTimeNanoseconds in
  let id := NewManifestId now (sequence b) in
  let* b := get in
  do* put (mkBuilder (connection b) (to_uint64 (sequence b + 1)) (batch_size b) (builder_state b) (manifest_id b)
             (asset_count b) (manifest_digest b) (pending_assets b));
  do* on_connection (Transaction (BeginManifestBody id source));
  let* b := get in
  put (mkBuilder (connection b) (sequence b) (batch_size b) ManifestBuilderState.kBuilding id 0
         (Digest_of (fun _ => NUL)) []).

(** The row of an asset and its insertion. *)
Definition row_of_asset (asset : PhysicalAsset) : AssetRow :=
  let i := identity asset in
  mkAssetRow (raw_bytes (relative_path asset)) (DisplayString (relative_path asset)) (FileIdentity.device i)
    (FileIdentity.inode i) (FileIdentity.size i) (FileIdentity.mtime_ns i) (FileIdentity.ctime_ns i)
    (int_of_kind (asset_kind asset)).
Definition insert_asset (id : string) (asset : PhysicalAsset) : sql unit :=
  let row := row_of_asset asset in
  let asset_id := PhysicalAssetIdFor asset in
  do* BindTextField id "manifest_id";
  do* BindTextField asset_id "asset_id";
  do* BindBlobField (as_relative_path row) "relative_path";
  do* BindTextField (as_display_path row) "display_path";
  do* BindUint64 (as_device row) "device";
  do* BindUint64 (as_inode row) "inode";
  do* BindUint64 (as_size row) "size";
  do* BindInt64 "mtime_ns";
  do* BindInt64 "ctime_ns";
  do* bind_state "bind SQLite asset kind failed";
  manifest_dml "insert physical asset" (insert_asset_row id asset_id row).
Fixpoint insert_assets (id : string) (assets : list PhysicalAsset) : sql unit :=
  match assets with
  | [] => ret tt
  | asset :: assets => do* insert_asset id asset; insert_assets id assets
  end.

Definition FlushBody (id : string) (assets : list PhysicalAsset) : sql unit :=
  do* prepare "prepare physical asset insert";
  insert_assets id assets.

Definition FlushPending : M Builder unit :=
  let* b := get in
  match pending_assets b with
  | [] => ret tt
  | pending =>
      do* on_connection (Transaction (FlushBody (manifest_id b) pending));
      let* b := get in
      put (mkBuilder (connection b) (sequence b) (batch_size b) (builder_state b) (manifest_id b)
             (to_uint64 (asset_count b + Z.of_nat (length pending))) (manifest_digest b)
             (drop (length pending) (pending_assets b)))
  end.

Definition Add (asset : PhysicalAsset) : M Builder unit :=
  let* b := get in
  do* require (bool_decide (builder_state b = ManifestBuilderState.kBuilding)) (Invalid "manifest builder is not building");
  do* require (negb (str_empty (raw_bytes (relative_path asset)))) (Invalid "physical asset relative path must not be empty");
  do* put (mkBuilder (connection b) (sequence b) (batch_size b) (builder_state b) (manifest_id b) (asset_count b)
             (manifest_digest b) (pending_assets b ++ [asset]));
  let* b := get in
  if (length (pending_assets b) <? batch_size b)%nat then ret tt else FlushPending.

Definition FreezeBody (id : string) : sql Digest :=
  let* digest := ComputeManifestDigest id in
  do* prepare "prepare manifest freeze";
  do* bind_state "bind SQLite manifest state failed";
  do* BindBlobField (bytes digest) "manifest_digest";
  do* BindTextField id "manifest_id";
  do* bind_state "bind SQLite manifest building state failed";
  do* manifest_dml "freeze source manifest" (update_freeze id (bytes digest));
  let* changes := sqlite3_changes in
  do* prepare "read manifest freeze result";
  do* api_call (fun _ => Internal "manifest freeze updated an unexpected number of rows");
  do* require (to_int32 changes =? 1) (Internal "manifest freeze updated an unexpected number of rows");
  ret digest.

Definition Freeze : M Builder FrozenManifest :=
  let* b := get in
  do* require (bool_decide (builder_state b = ManifestBuilderState.kBuilding)) (Invalid "manifest builder is not building");
  do* FlushPending;
  let* b := get in
  let* digest := on_connection (Transaction (FreezeBody (manifest_id b))) in
  let* b := get in
  do* put (mkBuilder (connection b) (sequence b) (batch_size b) ManifestBuilderState.kFrozen (manifest_id b)
             (asset_count b) digest (pending_assets b));
  ret (mkFrozenManifest (manifest_id b) (asset_count b) digest).

(** [frozen_manifest()], [Reopen(connection, manifest_id)] *)
Definition frozen_manifest (b : Builder) : StatusOr FrozenManifest :=
  if bool_decide (builder_state b <> ManifestBuilderState.kFrozen)
  then Err (Invalid "manifest builder does not contain a frozen manifest")
  else Ok (mkFrozenManifest (manifest_id b) (asset_count b) (manifest_digest b)).

Definition Reopen (manifest_id : string) : sql FrozenManifest :=
  do* require (negb (str_empty manifest_id)) (Invalid "manifest id must not be empty");
  ReadFrozenManifest manifest_id.

End Digest.
