(* ===== verification/ManifestTheorems.v ===== *)
(** * ManifestTheorems: what a frozen manifest holds

    A manifest built without an error holds its source and exactly the assets
    added, whatever the batch size and whichever calls of SQLite failed on the
    way; it reopens with the digest and the count it was frozen with; and,
    BLAKE3 having no collisions, two manifests with one digest have the same
    content. *)

From S2P Require Import Prelude Status Bytes Order RelativePath Task Assets Sqlite Logic Tables RepositoryRefine Materialize ManifestBuilder.

(** ** The digest *)

Definition asset_bytes (r : AssetRow) : string :=
  length_prefixed (as_relative_path r) +:+ le64 (to_uint64 (as_device r)) +:+ le64 (to_uint64 (as_inode r))
  +:+ le64 (to_uint64 (as_size r)) +:+ le64 (to_uint64 (as_mtime_ns r)) +:+ le64 (to_uint64 (as_ctime_ns r))
  +:+ le64 (to_uint64 (as_kind r)).
Definition assets_bytes (rows : list AssetRow) : string := foldr (fun r s => asset_bytes r +:+ s) "" rows.
Definition manifest_bytes (source : string * string * string) (rows : list AssetRow) : string :=
  length_prefixed kManifestDigestDomain +:+ length_prefixed source.1.1 +:+ length_prefixed source.1.2
  +:+ length_prefixed source.2 +:+ assets_bytes rows.

Definition source_of (r : ManifestRow) : string * string * string := (man_source_id r, man_source_type r, man_source_root r).

(** The columns the hasher accepts. *)
Definition nonnegative_columns (r : AssetRow) : Prop := 0 <= as_device r /\ 0 <= as_inode r /\ 0 <= as_size r.

Lemma append_asset_columns_Ok payload r p :
  append_asset_columns payload r = Ok p <-> p = payload +:+ asset_bytes r /\ nonnegative_columns r.
Proof.
  unfold append_asset_columns, AppendNonnegative, asset_bytes, nonnegative_columns.
  destruct (Z.ltb_spec (as_device r) 0), (Z.ltb_spec (as_inode r) 0), (Z.ltb_spec (as_size r) 0); cbn [bind_or];
    rewrite ?AppendUint64_app, ?AppendLengthPrefixed_app, ?str_app_assoc;
    (split; [intros Heq; simplify_eq|intros [-> ?]]); try (exfalso; lia); done.
Qed.

Section Digest.
Context (Blake3 : string -> Digest).

Lemma wp_append_assets rows payload Q w n :
  (Forall nonnegative_columns rows -> Q (payload +:+ assets_bytes rows) w n) -> wp (append_assets rows payload) Q w n.
Proof.
  revert payload. induction rows as [|r rows IH]; intros payload HQ; cbn [append_assets].
  - apply wp_bind, wp_api, wp_ret. rewrite str_app_nil in HQ. by apply HQ.
  - apply wp_bind, wp_api, wp_bind, wp_lift. intros p [-> Hr]%append_asset_columns_Ok. apply IH. intros Hrows.
    cbn [assets_bytes foldr] in HQ. rewrite str_app_assoc. apply HQ. by constructor.
Qed.

Lemma twp_append_assets rows payload Q w n :
  Forall nonnegative_columns rows -> Q (payload +:+ assets_bytes rows) w n -> twp (append_assets rows payload) Q w n.
Proof.
  revert payload. induction rows as [|r rows IH]; intros payload Hrows HQ; cbn [append_assets].
  - apply twp_bind, twp_api, twp_ret. by rewrite str_app_nil in HQ.
  - apply Forall_cons in Hrows as [Hr Hrows]. apply twp_bind, twp_api, twp_bind, twp_lift.
    eexists. split; [by apply append_asset_columns_Ok|]. apply IH; [done|].
    cbn [assets_bytes foldr] in HQ. by rewrite str_app_assoc.
Qed.

(** The digest of a manifest as a function of the tables. *)
Definition content_digest (id : string) (source : string * string * string) (db : ManifestDb) : Digest :=
  Blake3 (manifest_bytes source (select_assets id db)).
Definition hashable (id : string) (db : ManifestDb) : Prop :=
  str_size id <= int_max /\ Forall nonnegative_columns (select_assets id db).

Lemma wp_ComputeManifestDigest id Q w n :
  (forall row, manifests w !! id = Some row -> hashable id w -> Q (content_digest id (source_of row) w) w n) ->
  wp (ComputeManifestDigest Blake3 id) Q w n.
Proof.
  intros HQ. unfold ComputeManifestDigest, BindTextField, bind_value. wp_run. unfold select_manifest.
  destruct (manifests w !! id) as [row|] eqn:Hrow; wp_run. intros s a s' Hw Hn Hrun. rewrite Hw in Hrun.
  refine (_ s a s' Hw Hn Hrun). apply wp_bind, wp_append_assets. intros Hrows. apply wp_ret.
  rewrite !AppendLengthPrefixed_app, !str_app_assoc. apply HQ; [done|]. bool_hyps. by split.
Qed.

Lemma twp_ComputeManifestDigest id row Q w n :
  manifests w !! id = Some row -> hashable id w -> Q (content_digest id (source_of row) w) w n ->
  twp (ComputeManifestDigest Blake3 id) Q w n.
Proof.
  intros Hrow [Hid Hrows] HQ. unfold ComputeManifestDigest, BindTextField, bind_value.
  assert (negb (int_max <? str_size id) = true) as Hsize by (apply negb_true_iff, Z.ltb_ge; lia).
  repeat first [twp_step | apply twp_api | apply twp_require; [done|]]. unfold select_manifest. rewrite Hrow.
  repeat first [twp_step | apply twp_api | apply twp_require; [done|]]. intros s Hf Hw Hn. rewrite Hw.
  refine (_ s Hf Hw Hn). apply twp_bind, twp_append_assets; [done|]. apply twp_ret.
  by rewrite !AppendLengthPrefixed_app, !str_app_assoc.
Qed.

Lemma txn_safe_append_assets rows payload : txn_safe (append_assets rows payload).
Proof. revert payload. induction rows as [|r rows IH]; intros payload; cbn [append_assets]; solve_shape; apply IH. Qed.

Lemma txn_safe_ComputeManifestDigest id : txn_safe (ComputeManifestDigest Blake3 id).
Proof.
  unfold ComputeManifestDigest, BindTextField, bind_value, prepare. solve_shape.
  intros s. apply txn_safe_append_assets.
Qed.

(** ** Content from the digest *)

(** Rows as the columns hold them. *)
Definition row_sized (r : AssetRow) : Prop :=
  str_sized (as_relative_path r) /\ is_int64 (as_device r) /\ is_int64 (as_inode r) /\ is_int64 (as_size r)
  /\ is_int64 (as_mtime_ns r) /\ is_int64 (as_ctime_ns r) /\ is_int64 (as_kind r).
Definition source_sized (s : string * string * string) : Prop := str_sized s.1.1 /\ str_sized s.1.2 /\ str_sized s.2.
Definition hashed_columns (r : AssetRow) : string * list Z :=
  (as_relative_path r, [as_device r; as_inode r; as_size r; as_mtime_ns r; as_ctime_ns r; as_kind r]).

Lemma le64_int64_app a b x y :
  is_int64 a -> is_int64 b -> le64 (to_uint64 a) +:+ x = le64 (to_uint64 b) +:+ y -> a = b /\ x = y.
Proof.
  intros Ha Hb [Hl Hr]%str_app_inj_length; [|done]. split; [|done].
  apply le64_inj in Hl; [|unfold to_uint64; apply Z.mod_pos_bound; lia..].
  unfold to_uint64, is_int64, int64_min, int64_max in *. Z.to_euclidean_division_equations; lia.
Qed.

Lemma asset_bytes_inj a b x y :
  row_sized a -> row_sized b -> asset_bytes a +:+ x = asset_bytes b +:+ y -> hashed_columns a = hashed_columns b /\ x = y.
Proof.
  intros (Ha&Ha1&Ha2&Ha3&Ha4&Ha5&Ha6) (Hb&Hb1&Hb2&Hb3&Hb4&Hb5&Hb6). unfold asset_bytes, hashed_columns.
  rewrite !str_app_assoc. intros [-> H]%length_prefixed_inj; [|done..].
  do 6 (apply le64_int64_app in H as [-> H]; [|done..]). done.
Qed.

Lemma assets_bytes_inj a b :
  Forall row_sized a -> Forall row_sized b -> assets_bytes a = assets_bytes b -> hashed_columns <$> a = hashed_columns <$> b.
Proof.
  intros Ha. revert b. induction Ha as [|r a Hr _ IH]; intros b Hb; destruct Hb as [|r' b Hr' Hb]; cbn [assets_bytes foldr].
  - done.
  - intros H. apply (f_equal String.length) in H. unfold asset_bytes in H. rewrite !str_length_app, !le64_length in H. simpl in H. lia.
  - intros H. apply (f_equal String.length) in H. unfold asset_bytes in H. rewrite !str_length_app, !le64_length in H. simpl in H. lia.
  - intros [Hc H]%asset_bytes_inj; [|done..]. rewrite !fmap_cons, Hc. f_equal. by apply IH.
Qed.

Lemma manifest_bytes_inj s1 s2 r1 r2 :
  source_sized s1 -> source_sized s2 -> Forall row_sized r1 -> Forall row_sized r2 ->
  manifest_bytes s1 r1 = manifest_bytes s2 r2 -> s1 = s2 /\ hashed_columns <$> r1 = hashed_columns <$> r2.
Proof.
  destruct s1 as [[a1 b1] c1], s2 as [[a2 b2] c2]. intros (?&?&?) (?&?&?) Hr1 Hr2. unfold manifest_bytes.
  cbn [fst snd] in *. intros [_ E1]%length_prefixed_inj; [|done..].
  apply length_prefixed_inj in E1 as [-> E2]; [|done..]. apply length_prefixed_inj in E2 as [-> E3]; [|done..].
  apply length_prefixed_inj in E3 as [-> E4]; [|done..]. split; [done|]. by apply assets_bytes_inj.
Qed.

End Digest.

(** ** The tables *)

Definition references (db : ManifestDb) : Prop :=
  forall id k row, physical_asset db !! (id, k) = Some row -> is_Some (manifests db !! id).

Lemma assets_of_fresh id db : references db -> manifests db !! id = None -> assets_of id db = [].
Proof.
  intros Href Hnone. unfold assets_of. destruct (omap _ _) as [|[k row] l] eqn:Hl; [done|]. exfalso.
  assert ((k, row) ∈ omap (fun '((manifest, asset), row) =>
    if bool_decide (manifest = id) then Some (asset, row) else None) (map_to_list (physical_asset db))) as Hin
    by (rewrite Hl; set_solver).
  apply list_elem_of_omap in Hin as ([[m a] r]&Hin&Heq). case_bool_decide; [|done]. subst m.
  apply elem_of_map_to_list in Hin. destruct (Href _ _ _ Hin). congruence.
Qed.

Lemma assets_of_insert id m k row db mans :
  physical_asset db !! (m, k) = None ->
  assets_of id (mkManifestDb mans (<[(m, k) := row]> (physical_asset db)))
    ≡ₚ (if bool_decide (m = id) then [(k, row)] else []) ++ assets_of id db.
Proof.
  intros Hnone. unfold assets_of. cbn [physical_asset]. rewrite map_to_list_insert by done.
  cbn [omap list_omap]. by case_bool_decide.
Qed.

(** What the manifests other than [id] keep. *)
Definition others (id : string) (db db' : ManifestDb) : Prop :=
  forall id', id' <> id -> manifests db' !! id' = manifests db !! id' /\ assets_of id' db' ≡ₚ assets_of id' db.

Lemma others_trans id a b c : others id a b -> others id b c -> others id a c.
Proof. intros H1 H2 id' Hne. destruct (H1 id' Hne) as [<- Ha], (H2 id' Hne) as [<- Hb]. by rewrite Hb. Qed.

Definition row_entry (a : PhysicalAsset) : string * AssetRow := (PhysicalAssetIdFor a, row_of_asset a).

(** What flushing [assets] does to the database. *)
Definition flushes (id : string) (assets : list PhysicalAsset) (db db' : ManifestDb) : Prop :=
  manifests db' = manifests db /\ assets_of id db' ≡ₚ (row_entry <$> assets) ++ assets_of id db /\ others id db db'.

Lemma insert_asset_flushes id a db db' n :
  insert_asset_row id (PhysicalAssetIdFor a) (row_of_asset a) db = Some (db', n) -> flushes id [a] db db'.
Proof.
  unfold insert_asset_row. destruct (decide _) as [|Hnone]; [done|]. destruct (existsb _ _); [done|].
  destruct (decide _); [|done]. intros [= <- _]. apply eq_None_not_Some in Hnone. split; [done|].
  split; [by rewrite assets_of_insert, bool_decide_true by done|].
  intros id' Hne. split; [done|]. by rewrite assets_of_insert, bool_decide_false by done.
Qed.

Lemma flushes_trans id l1 l2 a b c : flushes id l1 a b -> flushes id l2 b c -> flushes id (l1 ++ l2) a c.
Proof.
  intros (Hm1&Ha1&Ho1) (Hm2&Ha2&Ho2). split; [congruence|]. split; [|by eapply others_trans].
  rewrite Ha2, Ha1, fmap_app, app_assoc. by rewrite (Permutation_app_comm (row_entry <$> l2)).
Qed.

Lemma wp_insert_assets id assets Q w n :
  (forall w' n', flushes id assets w w' -> Q tt w' n') -> wp (insert_assets id assets) Q w n.
Proof.
  revert Q w n. induction assets as [|a assets IH]; intros Q w n HQ; cbn [insert_assets].
  - apply wp_ret, HQ. split; [done|]. by split.
  - unfold insert_asset, BindTextField, BindBlobField, BindUint64, BindInt64, bind_value, bind_state, manifest_dml.
    wp_run. apply IH. intros w'' n'' Hfl. apply HQ. change (a :: assets) with ([a] ++ assets).
    eapply flushes_trans; [|done]. by eapply insert_asset_flushes.
Qed.

Lemma txn_safe_insert_assets id assets : txn_safe (insert_assets id assets).
Proof.
  induction assets as [|a assets IH]; cbn [insert_assets]; [solve_shape|].
  apply txn_safe_bind; [|intros ?; apply IH].
  unfold insert_asset, BindTextField, BindBlobField, BindUint64, BindInt64, bind_value, bind_state, manifest_dml.
  solve_shape.
Qed.

(** ** The builder *)

Lemma bind_Ok_inv {St A B} (c : M St A) (k : A -> M St B) s b s' :
  bind c k s = (Ok b, s') -> exists a s1, c s = (Ok a, s1) /\ k a s1 = (Ok b, s').
Proof. unfold bind. destruct (c s) as [[a|e] s1]; [|done]. eauto. Qed.

Lemma require_Ok_inv {St} c e (s : St) a s' : require c e s = (Ok a, s') -> c = true /\ s' = s.
Proof. destruct c; [|done]. by intros [= _ <-]. Qed.

Section Building.
Context (Blake3 : string -> Digest).

Definition database (b : Builder) : ManifestDb := committed (connection b).
Definition source_fields (s : SourceDescriptor) : string * string * string := (source_id s, source_type s, source_root s).

(** The assets [Add] takes. *)
Definition accepted (assets : list PhysicalAsset) : list PhysicalAsset :=
  filter (fun a => raw_bytes (relative_path a) <> "") assets.
(** The same calls in order, whatever they return. *)
Definition add_all (assets : list PhysicalAsset) (b : Builder) : Builder := foldl (fun b a => (Add a b).2) b assets.

(** A builder between [Begin] and [Freeze]: of the [added] assets, those not
    pending are in the table. *)
Record building (db0 : ManifestDb) (id : string) (source : SourceDescriptor) (added : list PhysicalAsset) (b : Builder)
  : Prop := {
  building_state : builder_state b = ManifestBuilderState.kBuilding;
  building_id : manifest_id b = id;
  building_row : exists row, manifests (database b) !! id = Some row /\ man_state row = kManifestBuilding
                   /\ source_of row = source_fields source;
  building_others : others id db0 (database b);
  building_assets : exists flushed, added = flushed ++ pending_assets b
    /\ assets_of id (database b) ≡ₚ row_entry <$> flushed /\ asset_count b = to_uint64 (Z.of_nat (length flushed));
}.

Lemma on_connection_Ok {A} (c : sql A) b a b' :
  on_connection c b = (Ok a, b') -> exists s', c (connection b) = (Ok a, s') /\ b' = set_connection s' b.
Proof. unfold on_connection. destruct (c (connection b)) as [r s']. intros [= -> <-]. by exists s'. Qed.

Lemma wp_BeginManifestBody id source Q w n :
  (forall row w' n', manifests w !! id = None -> w' = mkManifestDb (<[id := row]> (manifests w)) (physical_asset w) ->
     man_state row = kManifestBuilding -> source_of row = source_fields source -> Q tt w' n') ->
  wp (BeginManifestBody id source) Q w n.
Proof.
  intros HQ. unfold BeginManifestBody, BindTextField, BindBlobField, BindInt64, bind_value, bind_state, manifest_dml.
  wp_run. unfold insert_manifest_row in *. destruct (decide _) as [|Hnone]; [done|]. simplify_eq.
  eapply HQ; [by apply eq_None_not_Some|done..].
Qed.

Lemma txn_safe_BeginManifestBody id source : txn_safe (BeginManifestBody id source).
Proof.
  unfold BeginManifestBody, BindTextField, BindBlobField, BindInt64, bind_value, bind_state, manifest_dml, prepare.
  solve_shape.
Qed.

Lemma Begin_building b source b1 :
  references (database b) -> Begin source b = (Ok tt, b1) -> building (database b) (manifest_id b1) source [] b1.
Proof.
  intros Href. unfold Begin, get, put. intros (? & ? & [= <- <-] & Hrun)%bind_Ok_inv.
  apply bind_Ok_inv in Hrun as (? & ? & [_ ->]%require_Ok_inv & Hrun).
  apply bind_Ok_inv in Hrun as (? & ? & [_ ->]%require_Ok_inv & Hrun).
  apply bind_Ok_inv in Hrun as (now & ? & (c & [= _ <-] & ->)%on_connection_Ok & Hrun).
  apply bind_Ok_inv in Hrun as (? & ? & [= <- <-] & Hrun). apply bind_Ok_inv in Hrun as (? & ? & [= _ <-] & Hrun).
  apply bind_Ok_inv in Hrun as ([] & ? & (c' & Htx & ->)%on_connection_Ok & Hrun). cbn [connection] in Htx.
  apply bind_Ok_inv in Hrun as (? & ? & [= <- <-] & [= <-]). cbn [manifest_id].
  set (id := NewManifestId _ _) in *.
  lazymatch type of Htx with Transaction _ ?s0 = _ => set (c := s0) in * end.
  pose proof (transaction_outcome (BeginManifestBody id source) (fun _ w' => manifests (database b) !! id = None /\ exists row,
    w' = mkManifestDb (<[id := row]> (manifests (database b))) (physical_asset (database b))
    /\ man_state row = kManifestBuilding /\ source_of row = source_fields source) c (txn_safe_BeginManifestBody id source)) as Hout.
  rewrite Htx in Hout. destruct Hout as (Hnone & row & Hdb & Hstate & Hsource).
  { intros k. apply wp_BeginManifestBody. eauto 10. }
  split; [done|done| | |]; unfold database; cbn [connection set_connection pending_assets asset_count]; rewrite Hdb.
  - exists row. cbn [manifests]. by rewrite lookup_insert_eq.
  - intros id' Hne. cbn [manifests]. by rewrite lookup_insert_ne.
  - exists []. split; [done|]. split; [|done]. unfold assets_of. cbn [physical_asset].
    fold (assets_of id (database b)). by rewrite assets_of_fresh.
Qed.

Lemma FlushPending_eq b :
  FlushPending b = match pending_assets b with
  | [] => (Ok tt, b)
  | pending =>
      match Transaction (FlushBody (manifest_id b) pending) (connection b) with
      | (Ok _, s) => (Ok tt, mkBuilder s (sequence b) (batch_size b) (builder_state b) (manifest_id b)
                               (to_uint64 (asset_count b + Z.of_nat (length pending))) (manifest_digest b)
                               [])
      | (Err e, s) => (Err e, set_connection s b)
      end
  end.
Proof.
  unfold FlushPending, bind, get, on_connection, put, ret. destruct b as [conn seq size st id count digest [|p l]]; [done|].
  cbn. destruct (Transaction _ _) as [[[]|e] s]; [|done]. cbn. by rewrite drop_all.
Qed.

Lemma txn_safe_FlushBody id assets : txn_safe (FlushBody id assets).
Proof. apply txn_safe_bind; [apply txn_safe_api_call|]. intros ?. apply txn_safe_insert_assets. Qed.

Lemma FlushPending_building db0 id source added b :
  building db0 id source added b -> building db0 id source added (FlushPending b).2
  /\ (is_ok (FlushPending b).1 = true -> pending_assets (FlushPending b).2 = []).
Proof.
  intros [Hst Hid Hrow Hoth (flushed & Hadded & Hassets & Hcount)]. rewrite FlushPending_eq.
  destruct (pending_assets b) as [|a rest] eqn:Hp.
  { cbn. split; [|intros _; assumption]. split; try done. exists flushed. by rewrite Hp. }
  cbn zeta. pose proof (transaction_outcome (FlushBody (manifest_id b) (a :: rest))
    (fun _ => flushes id (a :: rest) (database b)) (connection b)) as Hout.
  specialize (Hout (txn_safe_FlushBody _ _)).
  ospecialize (Hout _); [intros n; unfold FlushBody; wp_run; rewrite Hid; by apply wp_insert_assets|].
  destruct (Transaction (FlushBody (manifest_id b) (a :: rest)) (connection b)) as [[[]|e] s']; cbn [fst snd].
  - destruct Hout as (Hm & Ha & Ho). split; [|done].
    split; unfold database in *; cbn [connection builder_state manifest_id pending_assets asset_count]; rewrite ?Hm; try done.
    + by eapply others_trans.
    + exists added. split; [by rewrite app_nil_r|]. rewrite Ha, Hassets, Hadded, fmap_app.
      split; [by rewrite Permutation_app_comm|]. rewrite Hcount, length_app.
      unfold to_uint64. rewrite Zplus_mod_idemp_l. f_equal. lia.
  - split; [|done].
    split; unfold database in *; cbn [connection builder_state manifest_id pending_assets asset_count set_connection];
      rewrite ?Hout; try done. exists flushed. by rewrite Hp.
Qed.

Lemma accepted_one asset :
  accepted [asset] = if str_empty (raw_bytes (relative_path asset)) then [] else [asset].
Proof.
  unfold accepted. rewrite filter_cons, filter_nil. destruct (raw_bytes (relative_path asset)) eqn:Hp.
  - by rewrite decide_False by (by intros ?).
  - by rewrite decide_True.
Qed.

Lemma Add_building db0 id source added b asset :
  building db0 id source added b -> building db0 id source (added ++ accepted [asset]) (Add asset b).2.
Proof.
  intros Hb. rewrite accepted_one. unfold Add, get, put, require, bind. rewrite bool_decide_true by apply Hb. cbn.
  destruct (str_empty _); cbn; [by rewrite app_nil_r|]. set (b' := mkBuilder _ _ _ _ _ _ _ _).
  assert (building db0 id source (added ++ [asset]) b') as Hb'.
  { destruct Hb as [Hst Hid Hrow Hoth (flushed & Hadded & Hassets & Hcount)].
    split; [done..|]. exists flushed. split; [|done]. rewrite Hadded. cbn. by rewrite app_assoc. }
  case_match; [done|]. by apply FlushPending_building.
Qed.

Lemma add_all_building db0 id source added b assets :
  building db0 id source added b -> building db0 id source (added ++ accepted assets) (add_all assets b).
Proof.
  revert added b. induction assets as [|a assets IH]; intros added b Hb.
  - by rewrite app_nil_r.
  - cbn [add_all foldl]. change (a :: assets) with ([a] ++ assets). unfold accepted.
    rewrite filter_app, app_assoc. by apply IH, Add_building.
Qed.

(** The row [Freeze] leaves. *)
Definition frozen_row (row : ManifestRow) (digest : Digest) : ManifestRow :=
  mkManifestRow (man_source_id row) (man_source_type row) (man_source_root row) kManifestFrozen (Some (bytes digest))
    (man_created_at_ns row).

Lemma wp_FreezeBody id row Q w n :
  manifests w !! id = Some row -> man_state row = kManifestBuilding ->
  (hashable id w -> forall n', let digest := content_digest Blake3 id (source_of row) w in
     Q digest (mkManifestDb (<[id := frozen_row row digest]> (manifests w)) (physical_asset w)) n') ->
  wp (FreezeBody Blake3 id) Q w n.
Proof.
  intros Hrow Hstate HQ. unfold FreezeBody. apply wp_bind, wp_ComputeManifestDigest. intros row' Hrow' Hhash.
  assert (row' = row) as -> by congruence.
  unfold bind_state, BindBlobField, BindTextField, bind_value, manifest_dml. wp_run.
  unfold update_freeze in *. rewrite Hrow, Hstate in *. cbn in *. simplify_eq. by apply HQ.
Qed.

Lemma txn_safe_FreezeBody id : txn_safe (FreezeBody Blake3 id).
Proof.
  unfold FreezeBody, bind_state, BindBlobField, BindTextField, bind_value, manifest_dml, prepare.
  apply txn_safe_bind; [apply txn_safe_ComputeManifestDigest|]. intros ?. solve_shape.
Qed.

(** What [Freeze] leaves of the [added] assets. *)
Record frozen (db0 : ManifestDb) (source : SourceDescriptor) (added : list PhysicalAsset) (m : FrozenManifest)
    (db : ManifestDb) : Prop := {
  frozen_source : exists row, manifests db !! frozen_manifest_id m = Some row /\ source_of row = source_fields source
    /\ man_state row = kManifestFrozen /\ man_digest row = Some (bytes (frozen_manifest_digest m));
  frozen_content : frozen_manifest_digest m = content_digest Blake3 (frozen_manifest_id m) (source_fields source) db;
  frozen_hashable : hashable (frozen_manifest_id m) db;
  frozen_assets : assets_of (frozen_manifest_id m) db ≡ₚ row_entry <$> added;
  frozen_count : frozen_asset_count m = to_uint64 (Z.of_nat (length added));
  frozen_others : others (frozen_manifest_id m) db0 db;
}.

Lemma Freeze_frozen db0 id source added b m b' :
  building db0 id source added b -> Freeze Blake3 b = (Ok m, b') ->
  frozen db0 source added m (database b') /\ frozen_manifest_id m = id.
Proof.
  intros Hb. unfold Freeze, get, put. intros (? & ? & [= <- <-] & Hrun)%bind_Ok_inv.
  apply bind_Ok_inv in Hrun as (? & ? & [_ ->]%require_Ok_inv & Hrun).
  apply bind_Ok_inv in Hrun as ([] & b1 & Hflush & Hrun). apply FlushPending_building in Hb as [Hb Hempty].
  rewrite Hflush in Hb, Hempty. cbn [fst snd] in *. specialize (Hempty eq_refl).
  destruct Hb as [Hst Hid (row & Hrow & Hstate & Hsource) Hoth (flushed & -> & Hassets & Hcount)].
  rewrite Hempty in *. rewrite app_nil_r in *.
  apply bind_Ok_inv in Hrun as (? & ? & [= <- <-] & Hrun).
  apply bind_Ok_inv in Hrun as (digest & ? & (c & Htx & ->)%on_connection_Ok & Hrun).
  apply bind_Ok_inv in Hrun as (? & ? & [= <- <-] & Hrun). apply bind_Ok_inv in Hrun as (? & ? & [= _ <-] & [= <- <-]).
  rewrite Hid in *.
  pose proof (transaction_outcome (FreezeBody Blake3 id) (fun digest db => hashable id (database b1)
    /\ digest = content_digest Blake3 id (source_of row) (database b1)
    /\ db = mkManifestDb (<[id := frozen_row row digest]> (manifests (database b1))) (physical_asset (database b1)))
    (connection b1) (txn_safe_FreezeBody id)) as Hout.
  rewrite Htx in Hout. destruct Hout as (Hhash & Hdigest & Hdb).
  { intros n. by eapply wp_FreezeBody. }
  split; [|done]. split; unfold database in *; cbn; rewrite ?Hdb; try done.
  - exists (frozen_row row digest). cbn. by rewrite lookup_insert_eq.
  - by rewrite <- Hsource.
  - intros id' Hne. cbn. rewrite lookup_insert_ne by done. apply Hoth. done.
Qed.

(** [Reopen] finds what [Freeze] left. *)
Lemma Reopen_frozen db0 source added m db :
  frozen db0 source added m db -> frozen_manifest_id m <> "" -> Z.of_nat (length added) <= uint64_max ->
  completes (Reopen Blake3 (frozen_manifest_id m)) (fun m' db' => m' = m /\ db' = db) db.
Proof.
  intros [(row & Hrow & Hsource & Hstate & Hdig) Hcontent Hhash Hassets Hcount _] Hid Hlen.
  unfold Reopen. apply completes_bind, completes_require; [by apply negb_true_iff, str_empty_false|].
  apply completes_transaction. intros n. unfold ReadFrozenBody, BindTextField, bind_value.
  assert (negb (int_max <? str_size (frozen_manifest_id m)) = true) as Hsize
    by (apply negb_true_iff, Z.ltb_ge, Hhash).
  repeat first [twp_step | apply twp_api | apply twp_require; [done|]]. unfold select_frozen. rewrite Hrow. cbn.
  rewrite Hdig. cbn. rewrite (proj2 (digest_of_blob_Some _ _) eq_refl), Hstate.
  apply twp_bind, twp_require; [done|]. apply twp_bind, twp_require; [apply negb_true_iff, Z.ltb_ge; lia|].
  apply twp_bind, twp_api, twp_bind. eapply twp_ComputeManifestDigest; [done..|].
  rewrite Hsource, <- Hcontent. apply twp_bind, twp_require; [by apply bool_decide_eq_true|]. apply twp_ret.
  split; [|done]. destruct m as [id count digest]. cbn in *. f_equal. rewrite Hcount, Hassets, length_fmap.
  unfold to_uint64. rewrite Z.mod_small; [done|]. unfold uint64_max in Hlen. lia.
Qed.

Lemma select_assets_rows id db added :
  assets_of id db ≡ₚ row_entry <$> added ->
  hashed_columns <$> select_assets id db ≡ₚ (fun a => hashed_columns (row_of_asset a)) <$> added.
Proof.
  intros Ha. unfold select_assets. rewrite std_sort_perm, Ha, <- !list_fmap_compose. done.
Qed.

Lemma select_assets_sized id db l :
  assets_of id db ≡ₚ row_entry <$> accepted l -> Forall (fun a => row_sized (row_of_asset a)) l ->
  Forall row_sized (select_assets id db).
Proof.
  intros Ha Hl. unfold select_assets. rewrite std_sort_perm, Ha, <- list_fmap_compose. apply Forall_fmap.
  rewrite Forall_forall in *. intros a [_ ?]%list_elem_of_filter. by apply Hl.
Qed.

End Building.

(** ** Properties *)

(** A manifest built without an error, whatever its [Add]s returned. *)
Definition builds (Blake3 : string -> Digest) (b : Builder) (source : SourceDescriptor) (assets : list PhysicalAsset)
    (m : FrozenManifest) (b' : Builder) : Prop :=
  references (database b)
  /\ exists b1, Begin source b = (Ok tt, b1) /\ Freeze Blake3 (add_all assets b1) = (Ok m, b').

Lemma builds_frozen Blake3 b source assets m b' :
  builds Blake3 b source assets m b' -> frozen Blake3 (database b) source (accepted assets) m (database b').
Proof.
  intros (Href & b1 & Hbegin & Hfreeze). apply Begin_building in Hbegin; [|done].
  eapply add_all_building in Hbegin. by eapply Freeze_frozen in Hfreeze as [? _].
Qed.

(** C33. A manifest that was frozen holds exactly the assets its builder was
    given: whatever the batch size, whichever calls of SQLite failed and
    whichever [Add]s reported it, once [Freeze] succeeds the rows of the
    manifest are those of the assets with a path, each once; its row holds
    the source, the frozen state and the BLAKE3 of this content; the count
    returned is theirs; and no other manifest has changed. *)
Theorem built_manifests_hold_their_assets Blake3 b source assets m b' :
  builds Blake3 b source assets m b' -> frozen Blake3 (database b) source (accepted assets) m (database b').
Proof. apply builds_frozen. Qed.

Lemma builds_id Blake3 b source assets m b' : builds Blake3 b source assets m b' -> frozen_manifest_id m <> "".
Proof.
  intros (Href & b1 & Hbegin & Hfreeze). assert (manifest_id b1 <> "") as Hid.
  { revert Hbegin. unfold Begin, get, put. intros (? & ? & [= <- <-] & Hrun)%bind_Ok_inv.
    do 6 apply bind_Ok_inv in Hrun as (? & ? & _ & Hrun). apply bind_Ok_inv in Hrun as (? & ? & _ & [= <-]). done. }
  apply Begin_building in Hbegin; [|done]. eapply add_all_building in Hbegin.
  by eapply Freeze_frozen in Hfreeze as [_ ->].
Qed.

(** C34. A frozen manifest reopens: on a connection that does not fail,
    [Reopen] returns the very manifest [Freeze] returned, with its digest
    found equal to that of its rows, and changes nothing. *)
Theorem built_manifests_reopen Blake3 b source assets m b' :
  builds Blake3 b source assets m b' -> Z.of_nat (length assets) <= uint64_max ->
  completes (Reopen Blake3 (frozen_manifest_id m)) (fun m' db => m' = m /\ db = database b') (database b').
Proof.
  intros Hb Hlen. eapply Reopen_frozen; [by apply builds_frozen|by eapply builds_id|].
  unfold accepted. pose proof (length_filter (fun a => raw_bytes (relative_path a) <> "") assets). lia.
Qed.

(** Sorted by distinct paths, rows are determined by their set. *)
Lemma assets_of_keys id db : NoDup (fst <$> assets_of id db).
Proof.
  unfold assets_of. pose proof (NoDup_fst_map_to_list (physical_asset db)) as Hnd.
  induction (map_to_list (physical_asset db)) as [|[[manifest asset] row] l IH]; [constructor|].
  apply NoDup_cons in Hnd as [Hin Hnd]. cbn [omap list_omap]. case_bool_decide as Hid; [|by apply IH]. subst manifest.
  cbn [fmap list_fmap fst]. constructor; [|by apply IH]. intros ([asset' row'] & -> & Hrow)%list_elem_of_fmap. apply Hin.
  apply list_elem_of_omap in Hrow as ([[manifest a] r] & Hl & Heq). case_bool_decide; [|done]. simplify_eq.
  by apply (list_elem_of_fmap_2 fst) in Hl.
Qed.

Lemma select_assets_paths id db added :
  assets_of id db ≡ₚ row_entry <$> added -> NoDup (fst <$> (hashed_columns <$> select_assets id db)).
Proof.
  intros Ha. pose proof (assets_of_keys id db) as Hnd. unfold select_assets. rewrite std_sort_perm. rewrite Ha in *.
  rewrite <- !list_fmap_compose in *.
  apply (NoDup_fmap_1 (fun path => "path-" +:+ hex_of_bytes path)). by rewrite <- list_fmap_compose.
Qed.

Lemma select_assets_sorted id db :
  StronglySorted (in_order (fun a b => str_less a.1 b.1)) (hashed_columns <$> select_assets id db).
Proof.
  unfold select_assets. rewrite <- list_fmap_compose. apply StronglySorted_fmap with (R1 := in_order asset_row_less).
  - intros a b. unfold in_order, asset_row_less. cbn [compose hashed_columns fst].
    destruct (bool_decide_reflect (as_relative_path b.2 = as_relative_path a.2)) as [->|]; [|done]. intros _.
    destruct (str_less _ _) eqn:Hless; [|done]. by rewrite (less_asym _ _ Hless) in Hless.
  - apply std_sort_sorted. apply (lex_swo (fun a => as_relative_path a.2) str_less (fun a b => str_less a.1 b.1)); [apply _|].
    apply (key_swo fst str_less). apply _.
Qed.

Lemma assets_bytes_columns l1 l2 :
  hashed_columns <$> l1 = hashed_columns <$> l2 -> assets_bytes l1 = assets_bytes l2.
Proof.
  revert l2. induction l1 as [|a l1 IH]; intros [|b l2]; try done. rewrite !fmap_cons. intros [= Hp H1 H2 H3 H4 H5 H6 Hl].
  cbn [assets_bytes foldr]. unfold asset_bytes. rewrite Hp, H1, H2, H3, H4, H5, H6. f_equal. by apply IH.
Qed.

(** C35. The digest of a manifest stands for its content: it is the BLAKE3 of
    one text, and the texts of two manifests frozen without an error are equal
    exactly when both have the same source and the same assets with the same
    identities, in whatever order and batches these were added.  So two
    manifests of different content can only have one digest if BLAKE3 has a
    collision at their two texts, and two of the same content have one. *)
Theorem manifest_digests_determine_content Blake3 b1 s1 l1 m1 b1' b2 s2 l2 m2 b2' :
  builds Blake3 b1 s1 l1 m1 b1' -> builds Blake3 b2 s2 l2 m2 b2' ->
  source_sized (source_fields s1) -> source_sized (source_fields s2) ->
  Forall (fun a => row_sized (row_of_asset a)) (l1 ++ l2) ->
  let text1 := manifest_bytes (source_fields s1) (select_assets (frozen_manifest_id m1) (database b1')) in
  let text2 := manifest_bytes (source_fields s2) (select_assets (frozen_manifest_id m2) (database b2')) in
  frozen_manifest_digest m1 = Blake3 text1 /\ frozen_manifest_digest m2 = Blake3 text2
  /\ (text1 = text2 <-> s1 = s2 /\ (fun a => hashed_columns (row_of_asset a)) <$> accepted l1
                                     ≡ₚ (fun a => hashed_columns (row_of_asset a)) <$> accepted l2).
Proof.
  intros [_ H1 _ Ha1 _ _]%builds_frozen [_ H2 _ Ha2 _ _]%builds_frozen Hs1 Hs2 [Hl1 Hl2]%Forall_app text1 text2.
  split; [exact H1|]. split; [exact H2|].
  rewrite <- (select_assets_rows _ _ _ Ha1), <- (select_assets_rows _ _ _ Ha2). split.
  - intros Hxy. apply manifest_bytes_inj in Hxy as [Hs ->]; [..|by eapply select_assets_sized|by eapply select_assets_sized]; [|done..].
    split; [|done]. destruct s1, s2. unfold source_fields in Hs. cbn in Hs. by simplify_eq.
  - intros [-> Hperm]. unfold text1, text2, manifest_bytes. do 4 f_equal. apply assets_bytes_columns.
    apply (sorted_unique (fun a b => str_less a.1 b.1)); [|apply select_assets_sorted..|done].
    intros x y Hx Hy Hxy Hyx. pose proof (select_assets_paths _ _ _ Ha1) as Hnd.
    assert (x.1 = y.1) as Hpath by by apply (less_total (less := str_less)).
    apply list_elem_of_lookup in Hx as [i Hi], Hy as [j Hj].
    assert (i = j) as ->; [|congruence].
    apply (NoDup_lookup _ _ _ x.1 Hnd); rewrite list_lookup_fmap; [by rewrite Hi|by rewrite Hj, Hpath].
Qed.

(** ** A manifest of three assets in batches of two, the first of which fails *)

Module ManifestDemo.
Definition asset (s : string) (size : Z) : PhysicalAsset :=
  mkPhysicalAsset (mkRelativePath s [s]) (FileIdentity.mk 1 2 size (-4) 5 None) kMedia ".jpg".
Definition Blake3 (s : string) : Digest := Digest_of (fun i => byte_get s i).
(** After the ten calls of [Begin] and four more, one fails. *)
Definition faults : list (option Fault) := replicate 14 None ++ [Some (mkFault "disk I/O error" true)].
Definition start (batch_size : nat) : Builder :=
  SqliteManifestBuilder (mkConn empty_manifest_db None 0 faults [1; 2]) 0 batch_size (Digest_of (fun _ => NUL)).
Definition source : SourceDescriptor := mkSourceDescriptor "s" "folder" "/photos".
Definition assets : list PhysicalAsset := [asset "a.jpg" 1; asset "" 2; asset "b.jpg" 3; asset "c.jpg" 4].
Definition begun (batch_size : nat) : Builder := (Begin source (start batch_size)).2.
Definition run (batch_size : nat) := Freeze Blake3 (add_all assets (begun batch_size)).
Definition manifest (batch_size : nat) : FrozenManifest :=
  match (run batch_size).1 with Ok m => m | Err _ => mkFrozenManifest "" 0 (Digest_of (fun _ => NUL)) end.
End ManifestDemo.

Lemma demo_manifest_adds :
  snd (foldl (fun '(b, l) a => let (r, b) := Add a b in (b, l ++ [is_ok r])) (ManifestDemo.begun 2, []) ManifestDemo.assets)
  = [true; false; false; true].
Proof. by vm_compute. Qed.

Lemma demo_manifest_runs n :
  n = 2%nat \/ n = 3%nat ->
  is_ok (Begin ManifestDemo.source (ManifestDemo.start n)).1 = true /\ is_ok (ManifestDemo.run n).1 = true.
Proof. by intros [->| ->]; vm_compute. Qed.

Lemma demo_builds n :
  n = 2%nat \/ n = 3%nat ->
  builds ManifestDemo.Blake3 (ManifestDemo.start n) ManifestDemo.source ManifestDemo.assets (ManifestDemo.manifest n)
    (ManifestDemo.run n).2.
Proof.
  intros [Hbegin Hrun]%demo_manifest_runs. split; [by intros id k row|].
  exists (ManifestDemo.begun n). unfold ManifestDemo.manifest, ManifestDemo.begun, ManifestDemo.run in *. split.
  - by destruct (Begin _ _) as [[[]|e] b1].
  - by destruct (Freeze _ _) as [[m|e] b1].
Qed.

Lemma built_manifests_hold_their_assets_witness :
  frozen_asset_count (ManifestDemo.manifest 2) = 3
  /\ assets_of (frozen_manifest_id (ManifestDemo.manifest 2)) (database (ManifestDemo.run 2).2)
     ≡ₚ row_entry <$> [ManifestDemo.asset "a.jpg" 1; ManifestDemo.asset "b.jpg" 3; ManifestDemo.asset "c.jpg" 4].
Proof.
  destruct (built_manifests_hold_their_assets _ _ _ _ _ _ (demo_builds 2 (or_introl eq_refl))) as [_ _ _ Ha Hc _].
  split; [rewrite Hc; by vm_compute|exact Ha].
Defined.

Lemma built_manifests_reopen_witness :
  completes (Reopen ManifestDemo.Blake3 (frozen_manifest_id (ManifestDemo.manifest 2)))
    (fun m db => m = ManifestDemo.manifest 2 /\ db = database (ManifestDemo.run 2).2) (database (ManifestDemo.run 2).2).
Proof.
  apply (built_manifests_reopen _ _ _ _ _ _ (demo_builds 2 (or_introl eq_refl))). by vm_compute.
Defined.

Lemma manifest_digests_determine_content_witness :
  frozen_manifest_digest (ManifestDemo.manifest 2) = frozen_manifest_digest (ManifestDemo.manifest 3)
  /\ manifest_bytes (source_fields ManifestDemo.source)
       (select_assets (frozen_manifest_id (ManifestDemo.manifest 2)) (database (ManifestDemo.run 2).2))
     = manifest_bytes (source_fields ManifestDemo.source)
       (select_assets (frozen_manifest_id (ManifestDemo.manifest 3)) (database (ManifestDemo.run 3).2)).
Proof.
  destruct (manifest_digests_determine_content _ _ _ _ _ _ _ _ _ _ _ (demo_builds 2 (or_introl eq_refl))
    (demo_builds 3 (or_intror eq_refl))) as (Hd2 & Hd3 & Htext); [by vm_compute|by vm_compute| |].
  - repeat (constructor; [by vm_compute|]). constructor.
  - rewrite Hd2, Hd3. split; [f_equal|]; apply Htext; by split.
Defined.
