(* ===== verification/Walker.v ===== *)
(** * Walker: the directory walk and the scan of a local folder

    Models src/filesystem/linux_directory_walker.cpp and
    src/filesystem/local_folder_source.cpp over the system calls of
    LinuxFileOps.v and those on directory streams.  The state pairs the kernel
    with that of the sink the entries go to.  [depth] is how deep the stack of
    the process lets the walk recurse: below that, the process ends. *)

From S2P Require Import Prelude Status Bytes Order RelativePath Task Assets Sqlite FileOps LinuxFileOps.

Definition DIR : Type := N.
Definition AT_SYMLINK_NOFOLLOW : Z := 256.

(** Calls on directories.  A stream gives a finite number of entries, at most
    [entries_left] of them; [sys_readdir] is [None] at the end. *)
Class DirectoryKernel (K : Type) := {
  sys_dupfd_cloexec : Fd -> K -> SysResult N * K;
  sys_fdopendir : Fd -> K -> SysResult DIR * K;
  sys_readdir : DIR -> K -> SysResult (option string) * K;
  sys_closedir : DIR -> K -> K;
  sys_fstatat : Fd -> string -> Z -> K -> SysResult (Z * Stat) * K;
  entries_left : DIR -> K -> nat;
}.

(** ** Metadata of an entry *)

(** [TimespecToNanoseconds] and [ToUint64] of the walker's file. *)
Definition walker_TimespecToNanoseconds (timestamp : Timespec) (field_name : string) : StatusOr Z :=
  let seconds := tv_sec timestamp in
  let nanoseconds := tv_nsec timestamp in
  if (nanoseconds <? 0) || (kNanosecondsPerSecond <=? nanoseconds)
  then Err (Internal ("invalid file timestamp: " +:+ field_name))
  else if (Z.quot int64_max kNanosecondsPerSecond <? seconds)
          || (seconds <? Z.quot int64_min kNanosecondsPerSecond)
          || ((seconds =? Z.quot int64_max kNanosecondsPerSecond) && (Z.rem int64_max kNanosecondsPerSecond <? nanoseconds))
  then Err (Internal ("file timestamp overflows nanoseconds: " +:+ field_name))
  else Ok (to_int64 (to_int64 (seconds * kNanosecondsPerSecond) + nanoseconds)).
Definition walker_ToUint64 (value : Z) (field_name : string) : StatusOr Z :=
  if value <? 0 then Err (Internal ("negative file identity field: " +:+ field_name))
  else if uint64_max <? value then Err (Internal ("file identity field overflows uint64: " +:+ field_name))
  else Ok (to_uint64 value).

Definition FileIdentityFromStat (info : Stat) : StatusOr FileIdentity.t :=
  let? mtime_ns := walker_TimespecToNanoseconds (st_mtim info) "mtime" in
  let? ctime_ns := walker_TimespecToNanoseconds (st_ctim info) "ctime" in
  let? device := walker_ToUint64 (st_dev info) "device" in
  let? inode := walker_ToUint64 (st_ino info) "inode" in
  let? size := walker_ToUint64 (st_size info) "size" in
  Ok (FileIdentity.mk device inode size mtime_ns ctime_ns None).

(** S_ISREG, S_ISDIR and S_ISLNK compare the file type bits, S_IFMT. *)
Definition S_IFMT : Z := 61440.
Definition KindFromMode (mode : Z) : DirectoryEntryKind :=
  if Z.land mode S_IFMT =? 32768 then kRegularFile
  else if Z.land mode S_IFMT =? 16384 then kDirectory
  else if Z.land mode S_IFMT =? 40960 then kSymlink
  else kOther.

(** One component and its separator. *)
Definition join_component (result component : string) : string :=
  (if str_empty result then result else push_back result slash) +:+ component.
Definition JoinPath (parent_components : list string) (name : string) : string :=
  join_component (foldl join_component "" parent_components) name.

(** ** Loops and scopes *)

Fixpoint for_each {W A} (f : A -> M W unit) (l : list A) : M W unit :=
  match l with
  | [] => ret tt
  | a :: l => do* f a; for_each f l
  end.

(** [c] in the scope of an object whose destructor is [destroy]. *)
Definition scoped {W A} (destroy : W -> W) (c : M W A) : M W A := fun w => let (r, w) := c w in (r, destroy w).

Section Walker.
Context {K T : Type} `{Kernel K} `{DirectoryKernel K}.

Definition on_kernel {A} (c : M K A) : M (K * T) A := fun w => let (r, k) := c w.1 in (r, (k, w.2)).
Definition on_sink {A} (c : M T A) : M (K * T) A := fun w => let (r, s) := c w.2 in (r, (w.1, s)).
Definition in_kernel (f : K -> K) (w : K * T) : K * T := (f w.1, w.2).

(** [sink.Add(entry)] of the [DirectoryEntrySink]. *)
Context (Add : DirectoryEntry -> M T unit).

(** The loop over [readdir]. *)
Fixpoint read_names (remaining : nat) (directory : DIR) (names : list string) : M K (list string) :=
  let* entry := or_errno "read directory entry" (sys_readdir directory) in
  match entry with
  | None => ret names
  | Some name =>
      match remaining with
      | O => throw (Internal "unreachable")
      | S remaining =>
          if (name == ".") || (name == "..") then read_names remaining directory names
          else read_names remaining directory (names ++ [name])
      end
  end.

(** [fdopendir(owned_fd)]; the descriptor is the stream's, or closed. *)
Definition open_stream (owned_fd : Fd) : M K DIR := fun k =>
  match or_errno "open directory stream" (sys_fdopendir owned_fd) k with
  | (Ok directory, k) => (Ok directory, k)
  | (Err e, k) => (Err e, sys_close owned_fd k)
  end.

Definition child_flags : Z := flags [O_RDONLY; O_DIRECTORY; O_CLOEXEC; O_NOFOLLOW].

(** One name of the sorted names of a directory. *)
Definition visit (walk_child : Fd -> list string -> M (K * T) unit) (directory_fd : Fd) (parent_components : list string)
    (name : string) : M (K * T) unit :=
  let* info := on_kernel (or_errno "stat directory entry"
                            (sys_fstatat directory_fd (c_str name) AT_SYMLINK_NOFOLLOW)) in
  let* identity := lift (FileIdentityFromStat info.2) in
  let* relative_path := lift (Parse (JoinPath parent_components name)) in
  let kind := KindFromMode info.1 in
  do* on_sink (Add (mkDirectoryEntry relative_path kind identity));
  if kind != kDirectory then ret tt
  else
    let* child_fd := on_kernel (or_errno "open child directory" (openat directory_fd (c_str name) child_flags 0)) in
    scoped (in_kernel (sys_close child_fd)) (walk_child child_fd (parent_components ++ [name])).

Fixpoint WalkDirectory (depth : nat) (directory_fd : Fd) (parent_components : list string) : M (K * T) unit :=
  match depth with
  | O => throw (Internal "stack overflow")
  | S depth =>
      let* duplicate_fd := on_kernel (or_errno "duplicate directory fd" (fun k => descriptor (sys_dupfd_cloexec directory_fd k))) in
      let* directory := on_kernel (open_stream duplicate_fd) in
      scoped (in_kernel (sys_closedir directory))
        (let* names := fun w => on_kernel (read_names (entries_left directory w.1) directory []) w in
         for_each (visit (WalkDirectory depth) directory_fd parent_components) (std_sort str_less names))
  end.

(** [LinuxDirectoryWalker::Walk] *)
Definition Walk (depth : nat) (root_fd : Fd) : M (K * T) unit := WalkDirectory depth root_fd [].

End Walker.

(** ** [class LocalFolderSource] *)

Fixpoint str_prefix (p s : string) : bool :=
  match p, s with
  | EmptyString, _ => true
  | String c p, String d s => Ascii.eqb c d && str_prefix p s
  | _, _ => false
  end.
(** [path.find(marker) != npos] *)
Fixpoint str_find (marker path : string) : bool :=
  str_prefix marker path || match path with EmptyString => false | String _ path => str_find marker path end.

Definition IsReceiverStagingPath (path : string) : bool :=
  let temporary_suffix := ".pbtmp" in
  if ((String.length temporary_suffix <=? String.length path)%nat
      && (substr_from (String.length path - String.length temporary_suffix) path == temporary_suffix))
  then true
  else str_find "/.tmp/" path || str_prefix ".tmp/" path.

Section Source.
Context {K T : Type} `{Kernel K} `{DirectoryKernel K}.
(** [sink.Add(asset)] of the [PhysicalAssetSink]. *)
Context (Add : PhysicalAsset -> M T unit).

(** [PhysicalAssetForwardingSink::Add] *)
Definition forward (entry : DirectoryEntry) : M T unit :=
  if IsReceiverStagingPath (raw_bytes (entry_path entry)) then ret tt
  else match ClassifyPhysicalAsset entry with
       | None => ret tt
       | Some asset => Add asset
       end.

Definition Scan (depth : nat) (root : string) : M (K * T) unit :=
  do* require (negb (str_empty root)) (Invalid "local folder source root must not be empty");
  let* root_fd := on_kernel (Linux_OpenRoot root kExisting) in
  scoped (in_kernel (sys_close root_fd)) (Walk forward depth root_fd).

Definition TypeName : string := "local-folder".

End Source.
