(* ===== verification/WalkerTheorems.v ===== *)
(** * WalkerTheorems: what a walk of an unchanging tree delivers

    [Node] is a tree of directories, [DirectoryView] what is seen of a process
    that walks it, and [UnchangingTree] what Linux promises of the calls of the
    walk while nobody writes to the tree: each may fail, a stream opened on a
    descriptor at the beginning of its directory gives the names in any order,
    with [.] and [..], and duplicates share the offset of their original.  The
    walk hands the sink every entry of the tree once, a directory before what
    it holds and in the order of the names, stops at the first error of the
    sink or of a call, and leaves no descriptor or stream open. *)

From S2P Require Import Prelude Status Bytes Order RelativePath Task Assets Sqlite FileOps LinuxFileOps Walker.

Inductive Node :=
  | File (kind : DirectoryEntryKind) (info : Stat)
  | Directory (info : Stat) (children : list (string * Node)).

Definition node_kind (n : Node) : DirectoryEntryKind := match n with File k _ => k | Directory _ _ => kDirectory end.
Definition node_info (n : Node) : Stat := match n with File _ i | Directory i _ => i end.
Definition node_identity (n : Node) : FileIdentity.t :=
  match FileIdentityFromStat (node_info n) with Ok i => i | Err _ => FileIdentity.mk 0 0 0 0 0 None end.

Fixpoint height (n : Node) : nat :=
  match n with File _ _ => 0 | Directory _ cs => S (foldr (fun c => Nat.max (height c.2)) 0%nat cs) end.

(** Names are components and different, a leaf is no directory, and the
    metadata are in range. *)
Fixpoint tree_ok (n : Node) : Prop :=
  is_ok (FileIdentityFromStat (node_info n)) = true /\
  match n with
  | File k _ => k <> kDirectory
  | Directory _ cs => NoDup (map fst cs) /\ foldr (fun c P => normal_component c.1 /\ tree_ok c.2 /\ P) True cs
  end.

Definition path_of (cs : list string) : RelativePath := mkRelativePath (join_path cs) cs.
Definition entry_of (path : list string) (n : Node) : DirectoryEntry :=
  mkDirectoryEntry (path_of path) (node_kind n) (node_identity n).

Definition by_name {A} (a b : string * A) : bool := str_less a.1 b.1.

(** The entries below a node at [parents], in the order of the walk. *)
Fixpoint entries_below (parents : list string) (n : Node) : list DirectoryEntry :=
  match n with
  | File _ _ => []
  | Directory _ cs =>
      concat (map snd (std_sort by_name
        (map (fun c => (c.1, entry_of (parents ++ [c.1]) c.2 :: entries_below (parents ++ [c.1]) c.2)) cs)))
  end.

(** What is seen of a process: its open directories, which of its descriptors
    are at the beginning of their directory (the offset belongs to the open
    file description, so duplicates share it), its streams, each with the
    descriptor it owns and the names it still gives, what a path names, and
    how many calls have failed. *)
Class DirectoryView (K : Type) := {
  view : K -> gmap Fd Node;
  at_start : K -> Fd -> Prop;
  streams : K -> gmap DIR (Fd * list string);
  resolves : string -> option Node;
  faults : K -> nat;
}.

Section Promises.
Context {K : Type} `{DirectoryView K}.

(** The same directories and streams are open. *)
Definition same_open (k k' : K) : Prop := view k' = view k /\ streams k' = streams k.
(** The descriptor [d] is new: no directory is open on it and no stream owns it. *)
Definition unused (k : K) (d : Fd) : Prop :=
  view k !! d = None /\ forall stream fd l, streams k !! stream = Some (fd, l) -> fd <> d.
(** [d] was opened on [n]. *)
Definition opened (k : K) (d : Fd) (n : Node) (k' : K) : Prop :=
  unused k d /\ view k' = <[d := n]> (view k) /\ streams k' = streams k.

(** A call may fail at any time, for a reason of its own (EACCES, EMFILE,
    ENOMEM, EIO, ...), which changes nothing; where it succeeds, [promise]
    holds of what it returned and left. *)
Definition attempt {A} (k : K) (result : SysResult A * K) (promise : A -> K -> Prop) : Prop :=
  match result with
  | (SysOk a, k') => faults k' = faults k /\ promise a k'
  | (SysErr _, k') => faults k' = S (faults k) /\ same_open k k'
  end.

End Promises.

(** The calls of the walk on a tree nobody writes to. *)
Class UnchangingTree (K : Type) `{Kernel K} `{DirectoryKernel K} `{DirectoryView K} := {
  open_opens k path i cs : resolves (K := K) path = Some (Directory i cs) ->
    attempt k (sys_open (c_str path) (flags [O_RDONLY; O_DIRECTORY; O_CLOEXEC]) 0 k)
      (fun d k' => opened k (Z.of_N d) (Directory i cs) k' /\ at_start k' (Z.of_N d));
  dupfd_opens k fd n : view k !! fd = Some n ->
    attempt k (sys_dupfd_cloexec fd k)
      (fun d k' => opened k (Z.of_N d) n k' /\ (at_start k fd -> at_start k' (Z.of_N d)));
  fdopendir_lists k fd i cs : view k !! fd = Some (Directory i cs) -> at_start k fd ->
    attempt k (sys_fdopendir fd k)
      (fun d k' => streams k !! d = None /\ view k' = view k
         /\ exists l, l ≡ₚ "." :: ".." :: map fst cs /\ streams k' = <[d := (fd, l)]> (streams k));
  entries_left_enough k d fd l : streams k !! d = Some (fd, l) -> (length l <= entries_left d k)%nat;
  readdir_pops k d fd l : streams k !! d = Some (fd, l) ->
    exists l', view (sys_readdir d k).2 = view k /\ streams (sys_readdir d k).2 = <[d := (fd, l')]> (streams k)
      /\ match (sys_readdir d k).1 with
         | SysOk name => name = hd_error l /\ l' = tl l /\ faults (sys_readdir d k).2 = faults k
         | SysErr _ => faults (sys_readdir d k).2 = S (faults k)
         end;
  closedir_closes k d fd l : streams k !! d = Some (fd, l) ->
    view (sys_closedir d k) = delete fd (view k) /\ streams (sys_closedir d k) = delete d (streams k)
    /\ faults (sys_closedir d k) = faults k;
  fstatat_finds k fd i cs name n : view k !! fd = Some (Directory i cs) -> tree_ok (Directory i cs) -> (name, n) ∈ cs ->
    attempt k (sys_fstatat fd name AT_SYMLINK_NOFOLLOW k)
      (fun found k' => KindFromMode found.1 = node_kind n /\ found.2 = node_info n /\ same_open k k');
  openat_opens k fd i cs name i' cs' : view k !! fd = Some (Directory i cs) ->
    tree_ok (Directory i cs) -> (name, Directory i' cs') ∈ cs ->
    attempt k (sys_openat fd name child_flags 0 k)
      (fun d k' => opened k (Z.of_N d) (Directory i' cs') k' /\ at_start k' (Z.of_N d));
  close_closes k fd n : view k !! fd = Some n -> (forall stream fd' l, streams k !! stream = Some (fd', l) -> fd' <> fd) ->
    view (sys_close fd k) = delete fd (view k) /\ streams (sys_close fd k) = streams k
    /\ faults (sys_close fd k) = faults k;
}.

(** ** Paths and names *)

Lemma join_path_snoc ps c :
  Forall normal_component ps -> normal_component c -> join_component (join_path ps) c = join_path (ps ++ [c]).
Proof.
  unfold join_component, push_back. induction ps as [|p ps IH]; intros Hps Hc; [done|].
  apply Forall_cons in Hps as [Hp Hps]. specialize (IH Hps Hc). destruct ps as [|q ps].
  - cbn [join_path app]. rewrite (proj2 (str_empty_false p)) by apply Hp. by rewrite str_app_assoc.
  - change (join_path (p :: q :: ps)) with (p +:+ String slash (join_path (q :: ps))).
    change (join_path ((p :: q :: ps) ++ [c])) with (p +:+ String slash (join_path ((q :: ps) ++ [c]))).
    rewrite <- IH. destruct p; [by destruct Hp|]. cbn [str_empty String.append]. f_equal.
    assert (str_empty (join_path (q :: ps)) = false) as ->.
    { apply Forall_cons in Hps as [(Hq&_) _]. by destruct ps, q. }
    rewrite !str_app_assoc. done.
Qed.

Lemma JoinPath_eq ps c :
  Forall normal_component ps -> normal_component c -> JoinPath ps c = join_path (ps ++ [c]).
Proof.
  intros Hps Hc. unfold JoinPath. rewrite <- join_path_snoc by done. f_equal.
  induction ps as [|p ps IH] using rev_ind; [done|]. apply Forall_app in Hps as [Hps Hp].
  rewrite foldl_app. cbn [foldl]. rewrite IH by done. apply Forall_cons in Hp as [Hp _]. by apply join_path_snoc.
Qed.

Lemma children_ok i cs : tree_ok (Directory i cs) ->
  NoDup (map fst cs) /\ forall name n, (name, n) ∈ cs -> normal_component name /\ tree_ok n.
Proof.
  cbn [tree_ok]. intros (_ & Hnd & H). split; [done|]. clear Hnd. induction cs as [|c cs IH]; [set_solver|].
  destruct H as (Hc & Ht & H). intros name n [<-|Hin]%elem_of_cons; [done|]. by apply IH.
Qed.

Lemma node_identity_Ok n : tree_ok n -> FileIdentityFromStat (node_info n) = Ok (node_identity n).
Proof. unfold node_identity. by destruct n; intros [Hok _]; destruct (FileIdentityFromStat _). Qed.

Lemma child_height i cs name n : (name, n) ∈ cs -> (height n < height (Directory i cs))%nat.
Proof.
  cbn [height]. induction cs as [|c cs IH]; [set_solver|]. intros [<-|Hin]%elem_of_cons; cbn [foldr]; [cbn; lia|].
  specialize (IH Hin). lia.
Qed.

(** ** Sorting the names sorts what they name *)

Lemma sort_insert_fst {A} (x : string * A) l :
  map fst (sort_insert by_name x l) = sort_insert str_less x.1 (map fst l).
Proof. induction l as [|y l IH]; [done|]. cbn. unfold by_name at 1. destruct (str_less y.1 x.1); cbn; by rewrite ?IH. Qed.

Lemma std_sort_fst {A} (l : list (string * A)) : map fst (std_sort by_name l) = std_sort str_less (map fst l).
Proof. induction l as [|x l IH]; [done|]. cbn. by rewrite sort_insert_fst, IH. Qed.

Lemma sorted_names l1 l2 : l1 ≡ₚ l2 -> std_sort str_less l1 = std_sort str_less l2.
Proof. apply std_sort_canonical; [apply _|]. intros a b _ _. apply str_less_total. Qed.

Lemma for_each_app {W A} (f : A -> M W unit) a b w :
  for_each f (a ++ b) w = bind (for_each f a) (fun _ => for_each f b) w.
Proof.
  revert w. induction a as [|x a IH]; intros w; [done|]. cbn [for_each app]. unfold bind at 1 2 3.
  destruct (f x w) as [[[]|e] w']; [|done]. rewrite IH. unfold bind. by destruct (for_each f a w') as [[[]|e] w''].
Qed.

Section Walked.
Context {K T : Type} `{UnchangingTree K}.
Context (Add : DirectoryEntry -> M T unit).

Definition not_dots (name : string) : Prop := name <> "." /\ name <> "..".

(** A failure of the kernel, as the walk reports it. *)
Definition kernel_failure (k k' : K) (e : Status) : Prop :=
  faults k' = S (faults k) /\ exists error_number operation, e = StatusFromErrno (K := K) (Z.pos error_number) operation.

Lemma or_errno_attempt {A} operation (c : K -> SysResult A * K) k promise :
  attempt k (c k) promise ->
  (exists a k', or_errno operation c k = (Ok a, k') /\ faults k' = faults k /\ promise a k')
  \/ (exists e k', or_errno operation c k = (Err e, k') /\ kernel_failure k k' e /\ same_open k k').
Proof.
  unfold attempt, or_errno, StatusOr_of_status. destruct (c k) as [[a|n] k']; intros [Hf Hp]; [left; by exists a, k'|right].
  rewrite errno_not_ok. eexists _, _. split_and!; [done|by split; [|eexists _, _]|done].
Qed.

Lemma attempt_descriptor (c : K -> SysResult N * K) k (promise : Fd -> K -> Prop) :
  attempt k (c k) (fun d => promise (Z.of_N d)) -> attempt k (descriptor (c k)) promise.
Proof. unfold attempt, descriptor. by destruct (c k) as [[d|e] k']. Qed.

Lemma read_names_all n d fd l acc k :
  streams k !! d = Some (fd, l) -> (length l <= n)%nat ->
  exists r k' l', read_names n d acc k = (r, k') /\ view k' = view k /\ streams k' = <[d := (fd, l')]> (streams k)
    /\ match r with
       | Ok names => names = acc ++ filter not_dots l /\ faults k' = faults k
       | Err e => kernel_failure k k' e
       end.
Proof.
  revert n acc k. induction l as [|name l IH]; intros n acc k Hd Hn;
    destruct (readdir_pops k d fd _ Hd) as (l1 & Hv & Hs & Hread);
    destruct (sys_readdir d k) as [[entry|e] k1] eqn:Hcall; cbn [fst snd] in *.
  2,4: exists (Err (StatusFromErrno (K := K) (Z.pos e) "read directory entry")), k1, l1;
    split_and!; [|done..|by split; [|eexists _, _]];
    destruct n; cbn [read_names]; unfold bind at 1, or_errno, StatusOr_of_status; by rewrite Hcall, errno_not_ok.
  - destruct Hread as (-> & -> & Hf). exists (Ok acc), k1, []. rewrite app_nil_r.
    split_and!; try done. by destruct n; cbn [read_names]; unfold bind at 1, or_errno; rewrite Hcall.
  - destruct Hread as (-> & -> & Hf). destruct n as [|n]; [cbn in Hn; lia|]. cbn [read_names].
    unfold bind at 1, or_errno. rewrite Hcall. cbn [hd_error tl] in *.
    assert (streams k1 !! d = Some (fd, l)) as Hd1 by (rewrite Hs; apply lookup_insert_eq).
    destruct (IH n (if (name == ".") || (name == "..") then acc else acc ++ [name]) k1 Hd1)
      as (r & k' & l' & Hrun & Hv' & Hs' & Hr); [cbn in Hn; lia|].
    exists r, k', l'. rewrite Hv', Hv, Hs', Hs, insert_insert_eq. split_and!; [|done..|].
    + by destruct ((name == ".") || (name == "..")).
    + unfold kernel_failure in *. destruct r as [names|e]; [|by rewrite <- Hf]. destruct Hr as [-> Hf'].
      split; [|by rewrite Hf']. rewrite filter_cons. unfold not_dots.
      destruct (bool_decide_reflect (name = ".")), (bool_decide_reflect (name = "..")); cbn [orb];
        first [rewrite decide_False by tauto; done | rewrite decide_True by done; by rewrite <- app_assoc].
Qed.

Lemma filter_all (l : list string) : (forall name, name ∈ l -> not_dots name) -> filter not_dots l = l.
Proof.
  induction l as [|x l IH]; intros Hl; [done|]. rewrite filter_cons, decide_True by (apply Hl; set_solver).
  f_equal. apply IH. intros y Hy. apply Hl. set_solver.
Qed.

(** An outcome of a walk over [l] started at [k] and [s]: what was open is
    open, and the walk did what a loop of the sink over [l] does where no call
    failed; otherwise it ended on the call that did, an initial part of [l]
    delivered. *)
Definition delivered (l : list DirectoryEntry) (k : K) (s : T) (out : StatusOr unit * (K * T)) : Prop :=
  same_open k out.2.1 /\
  ((faults out.2.1 = faults k /\ (out.1, out.2.2) = for_each Add l s)
   \/ exists e handed, out.1 = Err e /\ kernel_failure k out.2.1 e /\ handed `prefix_of` l
        /\ for_each Add handed s = (Ok tt, out.2.2)).

Lemma delivered_nothing l k k' s e : kernel_failure k k' e -> same_open k k' -> delivered l k s (Err e, (k', s)).
Proof. intros He Hsame. split; [done|right]. exists e, []. split_and!; [done..|apply prefix_nil|done]. Qed.

(** Calls before and after that do not fail and open or close nothing in all. *)
Lemma delivered_within l k1 k2 k k' s r s' :
  delivered l k1 s (r, (k2, s')) -> faults k1 = faults k -> faults k' = faults k2 -> same_open k k' ->
  delivered l k s (r, (k', s')).
Proof.
  unfold delivered, kernel_failure. cbn [fst snd]. intros [_ Hout] Hf1 Hf2 Hsame. split; [done|].
  rewrite Hf2, <- Hf1. exact Hout.
Qed.

Lemma delivered_cons entry l k s s1 out :
  Add entry s = (Ok tt, s1) -> delivered l k s1 out -> delivered (entry :: l) k s out.
Proof.
  intros Hadd [Hsame Hout]. assert (forall l, for_each Add (entry :: l) s = for_each Add l s1) as Heq.
  { intros l'. cbn [for_each]. unfold bind. by rewrite Hadd. }
  split; [done|]. destruct Hout as [[Hf Hr]|(e & handed & He & Hk & Hp & Hh)]; [left; by rewrite Heq|right].
  exists e, (entry :: handed). rewrite Heq. split_and!; try done. by apply prefix_cons.
Qed.

Lemma delivered_app c1 c2 l1 l2 k s :
  delivered l1 k s (c1 (k, s)) ->
  (forall k' s, same_open k k' -> delivered l2 k' s (c2 (k', s))) ->
  delivered (l1 ++ l2) k s ((do* c1; c2) (k, s)).
Proof.
  unfold bind at 1. destruct (c1 (k, s)) as [r [k1 s1]]. intros [Hsame Hout] Hc2. cbn [fst snd] in *.
  destruct Hout as [[Hf Hr]|(e & handed & -> & Hk & Hp & Hh)].
  2: { split; [done|right]. exists e, handed. split_and!; try done. by apply prefix_app_r. }
  assert (for_each Add (l1 ++ l2) s = match r with Ok _ => for_each Add l2 s1 | Err e => (Err e, s1) end) as Heq.
  { rewrite for_each_app. unfold bind. rewrite <- Hr. by destruct r as [[]|e]. }
  destruct r as [[]|e]; [|split; [done|left; by rewrite Heq]].
  destruct (Hc2 k1 s1 Hsame) as [Hsame2 Hout]. destruct (c2 (k1, s1)) as [r [k2 s2]]. cbn [fst snd] in *.
  split; [destruct Hsame, Hsame2; split; cbn; congruence|]. cbn [fst snd]. rewrite Heq. unfold kernel_failure in *. rewrite <- Hf.
  destruct Hout as [?|(e & handed & He & Hk & Hp & Hh)]; [by left|right]. exists e, (l1 ++ handed).
  split; [done|]. split; [done|]. split; [by apply prefix_app|]. rewrite for_each_app. unfold bind. by rewrite <- Hr.
Qed.

(** The loop over the sorted names. *)
Lemma loop_delivers (visit_name : string -> M (K * T) unit) (l : list (string * list DirectoryEntry)) k s :
  (forall x k' s, x ∈ l -> same_open k k' -> delivered x.2 k' s (visit_name x.1 (k', s))) ->
  delivered (concat (map snd l)) k s (for_each visit_name (map fst l) (k, s)).
Proof.
  revert k s. induction l as [|x l IH]; intros k s Hl; [by split; [|left]|]. cbn [map concat for_each].
  apply delivered_app; [apply Hl; [set_solver|done]|]. intros k' s' Hsame. apply IH.
  intros y k2 s2 Hy [Hv Hs]. apply Hl; [set_solver|]. destruct Hsame. split; congruence.
Qed.

(** A walk inside a directory just opened, which it closes. *)
Lemma closed_again d n k k1 l s r k2 s' :
  opened k d n k1 -> faults k1 = faults k -> delivered l k1 s (r, (k2, s')) ->
  delivered l k s (r, (sys_close d k2, s')).
Proof.
  intros ((Hnew & Hown) & Hv1 & Hs1) Hf Hout. pose proof Hout as [[Hv2 Hs2] _]. cbn [fst snd] in Hv2, Hs2.
  destruct (close_closes k2 d n) as (Hv & Hs & Hf'); [by rewrite Hv2, Hv1, lookup_insert_eq|by rewrite Hs2, Hs1|].
  eapply delivered_within; [exact Hout|done|done|]. split; [by rewrite Hv, Hv2, Hv1, delete_insert_id|by rewrite Hs, Hs2].
Qed.

Lemma visit_delivers (walk_child : Fd -> list string -> M (K * T) unit) fd ps i cs name n k s :
  tree_ok (Directory i cs) -> Forall normal_component ps -> view k !! fd = Some (Directory i cs) -> (name, n) ∈ cs ->
  (forall d i' cs' k s, n = Directory i' cs' -> view k !! d = Some n -> at_start k d ->
     delivered (entries_below (ps ++ [name]) n) k s (walk_child d (ps ++ [name]) (k, s))) ->
  delivered (entry_of (ps ++ [name]) n :: entries_below (ps ++ [name]) n) k s (visit Add walk_child fd ps name (k, s)).
Proof.
  intros Htree Hps Hfd Hin Hchild. destruct (children_ok _ _ Htree) as [_ Hok]. destruct (Hok _ _ Hin) as [Hname Hn].
  unfold visit, bind at 1, on_kernel at 1. cbn [fst snd]. rewrite c_str_plain by apply Hname.
  destruct (or_errno_attempt "stat directory entry" _ _ _ (fstatat_finds k fd i cs name n Hfd Htree Hin))
    as [([mode info] & k1 & -> & Hf1 & Hkind & Hinfo & Hsame1)|(e & k1 & -> & He & Hsame)];
    [|by apply delivered_nothing].
  cbn [fst snd] in Hkind, Hinfo |- *. unfold bind at 1, lift.
  rewrite Hinfo, node_identity_Ok by done. unfold bind at 1.
  rewrite JoinPath_eq, Parse_join; [|by destruct ps|apply Forall_app; split; [done|by apply Forall_singleton]|done..].
  unfold bind at 1, on_sink. cbn [fst snd]. rewrite Hkind. fold (path_of (ps ++ [name])). fold (entry_of (ps ++ [name]) n).
  destruct (Add (entry_of (ps ++ [name]) n) s) as [[[]|e] s1] eqn:Hadd; cbn [fst snd].
  2: { split; [done|left]. cbn [fst snd for_each]. unfold bind. by rewrite Hadd. }
  apply delivered_cons with s1; [done|]. destruct n as [kind id|id cs']; cbn [node_kind].
  { rewrite bool_decide_eq_false_2 by apply Hn. cbn. by split; [|left]. }
  rewrite bool_decide_eq_true_2 by done. cbn [negb].
  assert (view k1 !! fd = Some (Directory i cs)) as Hfd1 by (by rewrite (proj1 Hsame1)).
  unfold bind at 1, on_kernel. cbn [fst snd].
  destruct (or_errno_attempt "open child directory" (openat fd name child_flags 0) k1 _
    (attempt_descriptor _ _ (fun d k' => opened k1 d _ k' /\ at_start k' d) (openat_opens k1 fd i cs name id cs' Hfd1 Htree Hin)))
    as [(d & k2 & -> & Hf2 & Hopened & Hstart)|(e & k2 & -> & He & Hsame)]; cbn [fst snd].
  2: { eapply delivered_within; [by apply delivered_nothing|done|done|]. destruct Hsame, Hsame1; split; congruence. }
  unfold scoped. destruct (walk_child d (ps ++ [name]) (k2, s1)) as [r [k3 s3]] eqn:Hrun. unfold in_kernel. cbn [fst snd].
  assert (delivered (entries_below (ps ++ [name]) (Directory id cs')) k1 s1 (r, (sys_close d k3, s3))) as Hout.
  { eapply closed_again; [exact Hopened|done|]. rewrite <- Hrun. apply (Hchild d id cs'); [done| |done].
    destruct Hopened as (_ & -> & _). apply lookup_insert_eq. }
  eapply delivered_within; [exact Hout|done|done|]. destruct Hout as [[??] _], Hsame1. cbn [fst snd] in *. split; congruence.
Qed.

(** The stream of a walk closed, with the duplicate it owns. *)
Lemma stream_closed dup n d l k k1 k2 :
  opened k dup n k1 -> streams k1 !! d = None -> view k2 = view k1 -> streams k2 = <[d := (dup, l)]> (streams k1) ->
  same_open k (sys_closedir d k2) /\ faults (sys_closedir d k2) = faults k2.
Proof.
  intros ((Hnew & _) & Hv1 & Hs1) Hd Hv2 Hs2.
  destruct (closedir_closes k2 d dup l) as (Hv & Hs & Hf); [by rewrite Hs2, lookup_insert_eq|].
  split; [|done]. split; [by rewrite Hv, Hv2, Hv1, delete_insert_id|].
  by rewrite Hs, Hs2, delete_insert_eq, delete_id, Hs1.
Qed.

(** The names sorted are those of the entries below, in their order. *)
Lemma sorted_children ps i cs names :
  tree_ok (Directory i cs) -> names ≡ₚ "." :: ".." :: map fst cs ->
  std_sort str_less (filter not_dots names) = map fst (std_sort by_name (map (fun c =>
    (c.1, entry_of (ps ++ [c.1]) c.2 :: entries_below (ps ++ [c.1]) c.2)) cs)).
Proof.
  intros Hok Hnames. rewrite std_sort_fst, map_map. apply sorted_names. rewrite Hnames.
  rewrite !filter_cons_False by (unfold not_dots; tauto). cbn [fst]. apply children_ok in Hok as [_ Hok].
  rewrite filter_all; [done|]. intros name (c & Heq & Hin)%list_elem_of_fmap. subst. destruct c as [name n].
  by destruct (Hok _ _ Hin) as [(_&?&?&_) _].
Qed.

(** The loop over the names a stream gave. *)
Lemma names_delivered (walk_child : Fd -> list string -> M (K * T) unit) fd ps i cs names k s :
  tree_ok (Directory i cs) -> Forall normal_component ps -> view k !! fd = Some (Directory i cs) ->
  names ≡ₚ "." :: ".." :: map fst cs ->
  (forall name n d i' cs' k s, (name, n) ∈ cs -> n = Directory i' cs' -> view k !! d = Some n -> at_start k d ->
     delivered (entries_below (ps ++ [name]) n) k s (walk_child d (ps ++ [name]) (k, s))) ->
  delivered (entries_below ps (Directory i cs)) k s
    (for_each (visit Add walk_child fd ps) (std_sort str_less (filter not_dots names)) (k, s)).
Proof.
  intros Hok Hps Hfd Hnames Hchild. rewrite (sorted_children ps i cs names Hok Hnames). cbn [entries_below].
  apply loop_delivers. intros x k' s' Hx [Hv _].
  rewrite elem_of_std_sort in Hx. apply list_elem_of_fmap in Hx as ([name n] & -> & Hn). cbn [fst snd].
  apply (visit_delivers _ _ _ i cs); [done|done|by rewrite Hv|done|]. intros d i' cs' k0 s0 Heq Hd Hstart.
  by apply (Hchild name n d i' cs').
Qed.

Lemma walk_delivers depth : forall fd ps i cs k s,
  tree_ok (Directory i cs) -> Forall normal_component ps -> (height (Directory i cs) <= depth)%nat ->
  view k !! fd = Some (Directory i cs) -> at_start k fd ->
  delivered (entries_below ps (Directory i cs)) k s (WalkDirectory Add depth fd ps (k, s)).
Proof.
  induction depth as [|depth IH]; intros fd ps i cs k s Hok Hps Hdepth Hfd Hstart; [cbn in Hdepth; lia|].
  cbn [WalkDirectory]. unfold bind at 1, on_kernel at 1. cbn [fst snd].
  destruct (or_errno_attempt "duplicate directory fd" (fun k => descriptor (sys_dupfd_cloexec fd k)) k _
    (attempt_descriptor _ _ (fun d k' => opened k d _ k' /\ (at_start k fd -> at_start k' d)) (dupfd_opens k fd _ Hfd)))
    as [(dup & k1 & -> & Hf1 & ((Hnew & Hown) & Hv1 & Hs1) & Hstart1)|(e & k1 & -> & He & Hsame)]; cbn [fst snd];
    [|by apply delivered_nothing].
  assert (view k1 !! dup = Some (Directory i cs)) as Hdup by (rewrite Hv1; apply lookup_insert_eq).
  unfold bind at 1, on_kernel at 1, open_stream. cbn [fst snd].
  destruct (or_errno_attempt "open directory stream" _ _ _ (fdopendir_lists k1 dup i cs Hdup (Hstart1 Hstart)))
    as [(d & k2 & -> & Hf2 & Hd & Hv2 & names & Hnames & Hs2)|(e & k2 & -> & [Hf He] & Hv2 & Hs2)]; cbn [fst snd].
  2: { destruct (close_closes k2 dup (Directory i cs)) as (Hv & Hs & Hf'); [by rewrite Hv2|by rewrite Hs2, Hs1|].
    apply delivered_nothing; [split; [by rewrite Hf', Hf, Hf1|done]|].
    split; [by rewrite Hv, Hv2, Hv1, delete_insert_id|by rewrite Hs, Hs2]. }
  unfold scoped, bind at 1, on_kernel at 1. cbn [fst snd].
  assert (streams k2 !! d = Some (dup, names)) as Hd2 by (rewrite Hs2; apply lookup_insert_eq).
  destruct (read_names_all _ d dup names [] k2 Hd2 (entries_left_enough _ _ _ _ Hd2)) as (r & k3 & l' & -> & Hv3 & Hs3 & Hr).
  rewrite Hv2 in Hv3. rewrite Hs2, insert_insert_eq in Hs3. cbn [fst snd].
  destruct r as [all|e]; cbn [fst snd]; unfold in_kernel; cbn [fst snd].
  2: { destruct (stream_closed dup _ d l' k k1 k3 (conj (conj Hnew Hown) (conj Hv1 Hs1)) Hd Hv3 Hs3) as [Hsame Hf3].
    apply delivered_nothing; [|done]. destruct Hr as [Hr He]. split; [by rewrite Hf3, Hr, Hf2, Hf1|done]. }
  destruct Hr as [-> Hf3]. cbn [app].
  assert (delivered (entries_below ps (Directory i cs)) k3 s
    (for_each (visit Add (WalkDirectory Add depth) fd ps) (std_sort str_less (filter not_dots names)) (k3, s))) as Hloop.
  { apply names_delivered; [done..| |done|].
    - rewrite Hv3, Hv1, lookup_insert_ne; [done|]. intros <-. congruence.
    - intros name n d' i' cs' k0 s0 Hn -> Hd' Hstart'. destruct (children_ok _ _ Hok) as [_ Hch].
      destruct (Hch _ _ Hn) as [Hname Hnode]. pose proof (child_height i cs _ _ Hn).
      apply IH; [done| |lia|done..]. by apply Forall_app; split; [|apply Forall_singleton]. }
  destruct (for_each (visit _ _ _ _) _ (k3, s)) as [r [k4 s4]]. pose proof Hloop as [[Hv4 Hs4] _]. cbn [fst snd] in *.
  destruct (stream_closed dup _ d l' k k1 k4 (conj (conj Hnew Hown) (conj Hv1 Hs1)) Hd) as [Hsame Hf4]; [congruence..|].
  eapply delivered_within; [exact Hloop|congruence|done|done].
Qed.

(** The root of a scan opened. *)
Lemma root_opened root i cs k :
  resolves (K := K) root = Some (Directory i cs) ->
  (exists d k', Linux_OpenRoot root kExisting k = (Ok d, k') /\ faults k' = faults k
     /\ opened k d (Directory i cs) k' /\ at_start k' d)
  \/ (exists e k', Linux_OpenRoot root kExisting k = (Err e, k') /\ kernel_failure k k' e /\ same_open k k').
Proof.
  intros Hroot. unfold Linux_OpenRoot, bind, ret.
  exact (or_errno_attempt "open directory root" (open (c_str root) (flags [O_RDONLY; O_DIRECTORY; O_CLOEXEC]) 0) k _
    (attempt_descriptor _ _ (fun d k' => opened k d _ k' /\ at_start k' d) (open_opens k root i cs Hroot))).
Qed.

(** A walk of the root, closed after it. *)
Lemma root_walked depth d i cs k k1 s :
  tree_ok (Directory i cs) -> (height (Directory i cs) <= depth)%nat ->
  opened k d (Directory i cs) k1 -> at_start k1 d -> faults k1 = faults k ->
  delivered (entries_below [] (Directory i cs)) k s (scoped (in_kernel (sys_close d)) (Walk Add depth d) (k1, s)).
Proof.
  intros Htree Hdepth Hopened Hstart Hf. unfold scoped, Walk.
  destruct (WalkDirectory Add depth d [] (k1, s)) as [r [k2 s2]] eqn:Hrun. unfold in_kernel. cbn [fst snd].
  eapply closed_again; [exact Hopened|done|]. rewrite <- Hrun. apply walk_delivers; [done..| |done].
  destruct Hopened as (_ & -> & _). apply lookup_insert_eq.
Qed.

(** Every entry has a path. *)
Lemma entries_have_paths n ps node : (height node <= n)%nat -> tree_ok node -> Forall normal_component ps ->
  Forall (fun e => raw_bytes (entry_path e) <> "") (entries_below ps node).
Proof.
  revert ps node. induction n as [|n IH]; intros ps [k i|i cs] Hn Hok Hps; try (cbn in Hn; lia); try constructor.
  cbn [entries_below]. apply Forall_concat, Forall_map, Forall_forall. intros x. rewrite elem_of_std_sort.
  intros ([name node] & -> & Hin)%list_elem_of_fmap. cbn [fst snd].
  destruct (children_ok _ _ Hok) as [_ Hch]. destruct (Hch _ _ Hin) as [Hname Hnode].
  pose proof (child_height i cs _ _ Hin). constructor; [|apply IH; [lia|done|]].
  - cbn. rewrite <- join_path_snoc by done. unfold join_component. destruct Hname as [Hne _].
    intros Hemp. apply Hne. by destruct (if str_empty (join_path ps) then _ else _).
  - apply Forall_app. by split; [|apply Forall_singleton].
Qed.

End Walked.

(** ** A folder scanned into a manifest *)

(** The assets a scan adds. *)
Definition scanned (entries : list DirectoryEntry) : list PhysicalAsset :=
  omap (fun e => if IsReceiverStagingPath (raw_bytes (entry_path e)) then None else ClassifyPhysicalAsset e) entries.

(** ** Properties *)


(** ** A file system of one tree *)

Module TreeDemo.
Definition info (inode size : Z) : Stat := mkStat 1 inode size (mkTimespec 2 3) (mkTimespec 4 5).
Definition children : list (string * Node) :=
  [("b.jpg", File kRegularFile (info 2 30)); (".tmp", Directory (info 3 0) [("x.jpg", File kRegularFile (info 4 1))]);
   ("a", Directory (info 5 0) [("c.mov", File kRegularFile (info 6 40)); ("link", File kSymlink (info 7 0))])].
Definition tree : Node := Directory (info 1 0) children.

(** A descriptor has the number of its open file description; [moved] are those
    no longer at the beginning.  [failing] says which of the next calls fail. *)
Record Disk := mkDisk {
  open_dirs : gmap Fd (N * Node);
  moved : gset N;
  open_streams : gmap DIR (Fd * list string);
  failing : list bool;
  failed : nat;
  printed : list string;
}.

Definition with_dirs (d : gmap Fd (N * Node)) (k : Disk) : Disk :=
  mkDisk d (moved k) (open_streams k) (failing k) (failed k) (printed k).
Definition with_streams (m : gset N) (s : gmap DIR (Fd * list string)) (k : Disk) : Disk :=
  mkDisk (open_dirs k) m s (failing k) (failed k) (printed k).
Definition refuse {A} (error_number : positive) (k : Disk) : SysResult A * Disk :=
  (SysErr error_number, mkDisk (open_dirs k) (moved k) (open_streams k) (failing k) (S (failed k)) (printed k)).
Definition next_call (k : Disk) : Disk :=
  mkDisk (open_dirs k) (moved k) (open_streams k) (tl (failing k)) (failed k) (printed k).
Definition call {A} (c : Disk -> SysResult A * Disk) (k : Disk) : SysResult A * Disk :=
  if default false (hd_error (failing k)) then refuse 5 (next_call k) else c (next_call k).

Definition fresh_fd (k : Disk) : N :=
  fresh (list_to_set (Z.to_N <$> ((map_to_list (open_dirs k)).*1 ++ (map_to_list (open_streams k)).*2.*1)) : gset N).
Definition open_node (description : N) (n : Node) (k : Disk) : SysResult N * Disk :=
  (SysOk (fresh_fd k), with_dirs (<[Z.of_N (fresh_fd k) := (description, n)]> (open_dirs k)) k).
Definition open_new (n : Node) (k : Disk) : SysResult N * Disk := open_node (fresh (moved k)) n k.
Fixpoint find_child (name : string) (cs : list (string * Node)) : option Node :=
  match cs with [] => None | (m, n) :: cs => if decide (m = name) then Some n else find_child name cs end.
Definition lookup_child (fd : Fd) (name : string) (k : Disk) : option Node :=
  match open_dirs k !! fd with Some (_, Directory _ cs) => find_child name cs | _ => None end.
Definition mode_of (kind : DirectoryEntryKind) : Z :=
  match kind with kRegularFile => 33188 | kDirectory => 16877 | kSymlink => 41471 | kOther => 8624 end.
Definition resolves (path : string) : option Node := if decide (path = "/photos") then Some tree else None.

#[global] Instance disk_Kernel : Kernel Disk := {|
  sys_mkdir _ _ := refuse 1;
  sys_open path _ _ := call (fun k => match resolves path with Some n => open_new n k | None => refuse 2 k end);
  sys_dup _ := refuse 1;
  sys_openat fd name _ _ := call (fun k => match lookup_child fd name k with Some n => open_new n k | None => refuse 2 k end);
  sys_close fd k := with_dirs (delete fd (open_dirs k)) k;
  sys_fstat _ := refuse 1;
  sys_read _ _ := refuse 1;
  sys_write _ _ := refuse 1;
  sys_fdatasync _ := refuse 1;
  sys_fsync _ := refuse 1;
  sys_renameat2 _ _ _ _ _ := refuse 1;
  sys_unlinkat _ _ := refuse 1;
  sys_flock _ := refuse 1;
  strerror _ := "";
  pending _ := 0%nat;
|}.

(** The names come last first, and from the beginning of the directory only. *)
#[global] Instance disk_DirectoryKernel : DirectoryKernel Disk := {|
  sys_dupfd_cloexec fd := call (fun k => match open_dirs k !! fd with Some (o, n) => open_node o n k | None => refuse 9 k end);
  sys_fdopendir fd := call (fun k =>
    match open_dirs k !! fd with
    | Some (o, Directory _ cs) =>
        let d := fresh (dom (open_streams k)) in
        let l := if decide (o ∈ moved k) then [] else reverse ("." :: ".." :: map fst cs) in
        (SysOk d, with_streams ({[o]} ∪ moved k) (<[d := (fd, l)]> (open_streams k)) k)
    | _ => refuse 20 k
    end);
  sys_readdir d := call (fun k =>
    match open_streams k !! d with
    | Some (fd, l) => (SysOk (hd_error l), with_streams (moved k) (<[d := (fd, tl l)]> (open_streams k)) k)
    | None => refuse 9 k
    end);
  sys_closedir d k :=
    match open_streams k !! d with
    | Some (fd, l) => with_streams (moved k) (delete d (open_streams k)) (with_dirs (delete fd (open_dirs k)) k)
    | None => k
    end;
  sys_fstatat fd name _ := call (fun k =>
    match lookup_child fd name k with Some n => (SysOk (mode_of (node_kind n), node_info n), k) | None => refuse 2 k end);
  entries_left d k := match open_streams k !! d with Some (_, l) => length l | None => 0%nat end;
|}.

#[global] Instance disk_View : DirectoryView Disk := {|
  view k := snd <$> open_dirs k;
  at_start k fd := exists o n, open_dirs k !! fd = Some (o, n) /\ o ∉ moved k;
  streams := open_streams;
  WalkerTheorems.resolves path := resolves (c_str path);
  faults := failed;
|}.

Lemma fresh_fd_unused k : unused k (Z.of_N (fresh_fd k)).
Proof.
  pose proof (is_fresh (list_to_set (Z.to_N <$> ((map_to_list (open_dirs k)).*1 ++ (map_to_list (open_streams k)).*2.*1)) : gset N))
    as Hfresh. fold (fresh_fd k) in Hfresh. rewrite elem_of_list_to_set in Hfresh.
  assert (forall fd, fd ∈ (map_to_list (open_dirs k)).*1 ++ (map_to_list (open_streams k)).*2.*1 -> fd <> Z.of_N (fresh_fd k)) as Hne.
  { intros fd Hin ->. apply Hfresh. rewrite <- (N2Z.id (fresh_fd k)) at 1. by apply list_elem_of_fmap_2. }
  split.
  - cbn. rewrite lookup_fmap. destruct (open_dirs k !! _) as [n|] eqn:Hd; [|done]. exfalso.
    apply (Hne (Z.of_N (fresh_fd k))); [|done]. apply elem_of_app. left. apply list_elem_of_fmap.
    exists (Z.of_N (fresh_fd k), n). split; [done|by apply elem_of_map_to_list].
  - intros stream fd l Hs. apply Hne, elem_of_app. right. apply list_elem_of_fmap. exists (fd, l). split; [done|].
    apply list_elem_of_fmap. exists (stream, (fd, l)). split; [done|by apply elem_of_map_to_list].
Qed.

Lemma call_attempt {A} (c : Disk -> SysResult A * Disk) k promise :
  attempt (next_call k) (c (next_call k)) promise -> attempt k (call c k) promise.
Proof. unfold call. by destruct (default false _). Qed.

Lemma open_node_opened k o n :
  attempt k (open_node o n k) (fun d k' => opened k (Z.of_N d) n k' /\ (o ∉ moved k -> at_start k' (Z.of_N d))).
Proof.
  split; [done|]. split; [split; [apply fresh_fd_unused|split; [cbn; by rewrite fmap_insert|done]]|].
  intros Ho. exists o, n. split; [apply lookup_insert_eq|done].
Qed.

Lemma open_new_opened k n :
  attempt k (open_new n k) (fun d k' => opened k (Z.of_N d) n k' /\ at_start k' (Z.of_N d)).
Proof. destruct (open_node_opened k (fresh (moved k)) n) as (Hf & Ho & Hs). split; [done|]. split; [done|]. apply Hs, is_fresh. Qed.

Lemma find_child_Some name n cs : NoDup (map fst cs) -> (name, n) ∈ cs -> find_child name cs = Some n.
Proof.
  induction cs as [|[m x] cs IH]; cbn [map fst find_child]; [set_solver|].
  intros [Hm Hnd]%NoDup_cons Hin. apply elem_of_cons in Hin as [[= -> ->]|Hin]; [by rewrite decide_True|].
  rewrite decide_False; [by apply IH|]. intros ->. apply Hm. by apply (list_elem_of_fmap_2 fst) in Hin.
Qed.

Lemma view_Some k fd n : view k !! fd = Some n -> exists o, open_dirs k !! fd = Some (o, n).
Proof. cbn. rewrite lookup_fmap. destruct (open_dirs k !! fd) as [[o m]|]; [|done]. intros [= <-]. by exists o. Qed.

Lemma lookup_child_Some fd name n i cs k :
  view k !! fd = Some (Directory i cs) -> tree_ok (Directory i cs) -> (name, n) ∈ cs -> lookup_child fd name k = Some n.
Proof. unfold lookup_child. intros [o ->]%view_Some [Hnd _]%children_ok Hin. by apply find_child_Some. Qed.

#[global] Instance disk_tree : UnchangingTree Disk.
Proof.
  split.
  - intros k path i cs Hp. apply call_attempt. cbn in Hp. rewrite Hp. exact (open_new_opened (next_call k) _).
  - intros k fd n [o Ho]%view_Some. apply call_attempt. change (open_dirs (next_call k)) with (open_dirs k). rewrite Ho.
    destruct (open_node_opened (next_call k) o n) as (Hf & Hopen & Hs). split; [done|]. split; [done|].
    intros (o' & n' & Hfd & Hm). rewrite Ho in Hfd. injection Hfd as <- <-. by apply Hs.
  - intros k fd i cs Hfd (o & n & Ho & Hm). cbn in Hfd. rewrite lookup_fmap, Ho in Hfd. injection Hfd as ->.
    apply call_attempt. change (open_dirs (next_call k)) with (open_dirs k). rewrite Ho.
    rewrite decide_False by done. split; [done|]. split; [apply not_elem_of_dom, is_fresh|]. split; [done|].
    exists (reverse ("." :: ".." :: map fst cs)). split; [apply reverse_Permutation|done].
  - intros k d fd l Hd. cbn in *. by rewrite Hd.
  - intros k d fd l Hd. cbn in *. unfold call. destruct (default false _).
    + exists l. split_and!; [done|by cbn; rewrite insert_id|done].
    + change (open_streams (next_call k)) with (open_streams k). rewrite Hd. by exists (tl l).
  - intros k d fd l Hd. cbn in *. rewrite Hd. cbn. by rewrite fmap_delete.
  - intros k fd i cs name n Hfd Htree Hin. apply call_attempt.
    change (lookup_child fd name (next_call k)) with (lookup_child fd name k).
    rewrite (lookup_child_Some _ _ _ _ _ _ Hfd Htree Hin). split; [done|]. cbn. by destruct (node_kind n).
  - intros k fd i cs name i' cs' Hfd Htree Hin. apply call_attempt.
    change (lookup_child fd name (next_call k)) with (lookup_child fd name k).
    rewrite (lookup_child_Some _ _ _ _ _ _ Hfd Htree Hin). exact (open_new_opened (next_call k) _).
  - intros k fd n _ _. cbn. by rewrite fmap_delete.
Qed.

Definition collect (e : DirectoryEntry) : M (list (string * DirectoryEntryKind)) unit :=
  fun l => (Ok tt, l ++ [(raw_bytes (entry_path e), entry_kind e)]).
(** The root open on descriptor 3, and the same with the fourth call to fail. *)
Definition disk : Disk := mkDisk {[ 3 := (0%N, tree) ]} ∅ ∅ [] 0 [].
Definition failing_disk : Disk := mkDisk {[ 3 := (0%N, tree) ]} ∅ ∅ [false; false; false; true] 0 [].
End TreeDemo.

Lemma demo_tree_ok : tree_ok TreeDemo.tree.
Proof. cbn. split_and!; try done; apply (bool_decide_unpack _); by vm_compute. Qed.

Lemma demo_root k : TreeDemo.open_dirs k = {[ 3 := (0%N, TreeDemo.tree) ]} -> TreeDemo.moved k = ∅ ->
  view k !! 3 = Some (Directory (TreeDemo.info 1 0) TreeDemo.children) /\ at_start k 3.
Proof.
  intros Hd Hm. cbn. rewrite Hd, Hm. split; [done|]. exists 0%N, TreeDemo.tree. split; [done|set_solver].
Qed.


(** Where reading the root fails, the walk says so. *)
Example demo_read_failure :
  (Walk TreeDemo.collect 3 3 (TreeDemo.failing_disk, [])).1
  = Err (StatusFromErrno (K := TreeDemo.Disk) 5 "read directory entry").
Proof. by vm_compute. Qed.
