(* ===== verification/ScanService.v ===== *)
(** * ScanService: a folder becomes a frozen manifest

    Models src/pipeline/scan_service.cpp: the connection, a builder of its
    manifest, the scan of the folder into the builder and the freeze, over any
    kernel; the opening of the database and its schema (Schema.v) is a
    parameter. *)

From stdpp Require Import pretty.
From S2P Require Import Prelude Status Bytes Json RelativePath Task Assets Sqlite FileOps LinuxFileOps ManifestBuilder ManifestTheorems Walker WalkerTheorems.

Section ScanService.
Context {K : Type} `{Kernel K} `{DirectoryKernel K} `{Console K}.
Context (Blake3 : string -> Digest).
(** [SqliteConnection::Open] and [EnsureSchema]. *)
Context (OpenDatabase : M K (Conn ManifestDb)).

(** The builder is constructed on the connection; the counter of manifest ids
    belongs to the process. *)
Definition construct_builder (connection : Conn ManifestDb) : M Builder unit :=
  fun b => (Ok tt, SqliteManifestBuilder connection (sequence b) 256 (Digest_of (fun _ => NUL))).

Definition ScanService_Execute (depth : nat) (input_path : string) : M (K * Builder) unit :=
  let* connection := on_kernel OpenDatabase in
  do* on_sink (construct_builder connection);
  do* on_sink (Begin (mkSourceDescriptor input_path TypeName input_path));
  do* Scan Add depth input_path;
  let* frozen := on_sink (Freeze Blake3) in
  on_kernel (Print ("scan completed: " +:+ frozen_manifest_id frozen +:+ " assets=" +:+ pretty (frozen_asset_count frozen)
                    +:+ " digest=" +:+ ToHex (frozen_manifest_digest frozen) +:+ String LF "")).

End ScanService.

(** ** Properties *)

Lemma forward_all l b b' :
  for_each (forward Add) l b = (Ok tt, b') -> b' = add_all (scanned l) b.
Proof.
  revert b. induction l as [|e l IH]; intros b; [by intros [= <-]|]. cbn [for_each].
  intros ([] & b1 & Hfwd & Hrun)%bind_Ok_inv. apply IH in Hrun as ->. unfold scanned. cbn [omap list_omap].
  revert Hfwd. unfold forward. destruct (IsReceiverStagingPath _); [by intros [= <-]|].
  destruct (ClassifyPhysicalAsset e) as [a|]; [|by intros [= <-]]. intros Hadd. unfold add_all. cbn [foldl].
  by rewrite Hadd.
Qed.

Lemma accepted_scanned l : Forall (fun e => raw_bytes (entry_path e) <> "") l -> accepted (scanned l) = scanned l.
Proof.
  unfold accepted, scanned. induction 1 as [|e l He _ IH]; [done|]. cbn [omap list_omap].
  destruct (IsReceiverStagingPath _); [done|]. unfold ClassifyPhysicalAsset.
  destruct (bool_decide (entry_kind e <> kRegularFile)); [done|]. rewrite filter_cons, decide_True by done. by f_equal.
Qed.

Section Scanned.
Context {K : Type} `{UnchangingTree K} {T : Type}.

Lemma Scan_delivers (Add : PhysicalAsset -> M T unit) depth root i cs k s :
  root <> "" -> resolves (K := K) root = Some (Directory i cs) -> tree_ok (Directory i cs) ->
  (height (Directory i cs) <= depth)%nat ->
  delivered (forward Add) (entries_below [] (Directory i cs)) k s (Scan Add depth root (k, s)).
Proof.
  intros Hne Hroot Htree Hdepth. unfold Scan, bind at 1, require. rewrite (proj2 (str_empty_false _) Hne). cbn [negb].
  unfold bind, on_kernel, ret. cbn [fst snd].
  destruct (root_opened root i cs k Hroot) as [(d & k1 & -> & Hf1 & Hopened & Hstart)|(e & k1 & -> & He & Hsame)];
    [|by apply delivered_nothing]. cbn [fst snd]. by apply root_walked.
Qed.

End Scanned.

(** C32. A scan that succeeds has recorded the folder: on a file system nobody
    writes to meanwhile, whichever calls of the kernel or of SQLite failed, the
    manifest a successful scan leaves frozen in the database holds exactly the
    regular files below the folder that are not staging files of the receiver,
    each once under its path, with its identity and kind, for any tree not
    deeper than the stack.  A directory that could not be opened, listed or
    read to its end is thus never taken for the whole of it. *)
Theorem scans_record_the_folder {K : Type} `{UnchangingTree K} `{Console K} Blake3 (OpenDatabase : M K (Conn ManifestDb))
    depth root i cs k k1 connection b k' b' :
  resolves (K := K) root = Some (Directory i cs) -> tree_ok (Directory i cs) -> (height (Directory i cs) <= depth)%nat ->
  OpenDatabase k = (Ok connection, k1) -> references (committed connection) ->
  ScanService_Execute Blake3 OpenDatabase depth root (k, b) = (Ok tt, (k', b')) ->
  exists m, frozen Blake3 (committed connection) (mkSourceDescriptor root "local-folder" root)
              (scanned (entries_below [] (Directory i cs))) m (database b').
Proof.
  intros Hroot Htree Hdepth Hopen Href. unfold ScanService_Execute.
  intros (conn & w1 & Hw1 & Hrun)%bind_Ok_inv. revert Hw1. unfold on_kernel at 1. cbn [fst snd]. rewrite Hopen. intros [= <- <-].
  apply bind_Ok_inv in Hrun as ([] & w2 & [= <-] & Hrun).
  apply bind_Ok_inv in Hrun as ([] & w3 & Hbegin & Hrun). apply bind_Ok_inv in Hrun as ([] & w4 & Hscan & Hrun).
  apply bind_Ok_inv in Hrun as (m & w5 & Hfreeze & Hrun). exists m.
  unfold on_sink in Hbegin. cbn [fst snd] in Hbegin. destruct (Begin _ _) as [[[]|e] b3] eqn:Hb; [|done].
  injection Hbegin as <-. apply Begin_building in Hb; [|done].
  assert (root <> "") as Hne.
  { intros ->. revert Hscan. unfold Scan, bind at 1. by cbn. }
  pose proof (Scan_delivers Add depth root i cs k1 b3 Hne Hroot Htree Hdepth) as [_ Hall]. rewrite Hscan in Hall.
  destruct w4 as [k4 b4]. cbn [fst snd] in Hall. destruct Hall as [[_ Hall]|(e & handed & He & _)]; [|discriminate He].
  symmetry in Hall. apply forward_all in Hall as ->.
  apply (add_all_building _ _ _ _ _ (scanned (entries_below [] (Directory i cs)))) in Hb.
  rewrite accepted_scanned in Hb by (by eapply entries_have_paths; [reflexivity|..]).
  unfold on_sink in Hfreeze. cbn [fst snd] in Hfreeze. destruct (Freeze _ _) as [[m'|e] b5] eqn:Hf; [|done].
  injection Hfreeze as -> <-. eapply Freeze_frozen in Hf as [Hf _]; [|exact Hb].
  unfold on_kernel in Hrun. cbn [fst snd] in Hrun. destruct (Print _ _) as [r k6]. injection Hrun as _ _ <-. exact Hf.
Qed.

(** ** The demonstration tree scanned *)

Module ScanDemo.
#[global] Instance disk_Console : Console TreeDemo.Disk := {|
  Print text k := (Ok tt, TreeDemo.mkDisk (TreeDemo.open_dirs k) (TreeDemo.moved k) (TreeDemo.open_streams k)
    (TreeDemo.failing k) (TreeDemo.failed k) (TreeDemo.printed k ++ [text]));
|}.
Definition connection : Conn ManifestDb := mkConn empty_manifest_db None 0 [] [10; 20].
Definition OpenDatabase : M TreeDemo.Disk (Conn ManifestDb) := ret connection.
Definition run := ScanService_Execute ManifestDemo.Blake3 OpenDatabase 3 "/photos" (TreeDemo.disk, ManifestDemo.start 2).
Definition manifest : string := "manifest-10-0".
End ScanDemo.

Lemma demo_scan : is_ok ScanDemo.run.1 = true.
Proof. by vm_compute. Qed.

Lemma scans_record_the_folder_witness :
  exists m, frozen ManifestDemo.Blake3 empty_manifest_db (mkSourceDescriptor "/photos" "local-folder" "/photos")
    (scanned (entries_below [] TreeDemo.tree)) m (database ScanDemo.run.2.2)
  /\ map (fun a => raw_bytes (relative_path a)) (scanned (entries_below [] TreeDemo.tree)) = ["a/c.mov"; "b.jpg"].
Proof.
  assert (height TreeDemo.tree <= 3)%nat as Hheight by (vm_compute; lia).
  assert (references (committed ScanDemo.connection)) as Href by by intros id k row.
  pose proof (fun k' b' => scans_record_the_folder ManifestDemo.Blake3 ScanDemo.OpenDatabase 3 "/photos" (TreeDemo.info 1 0)
    TreeDemo.children TreeDemo.disk TreeDemo.disk ScanDemo.connection (ManifestDemo.start 2) k' b' eq_refl demo_tree_ok
    Hheight eq_refl Href) as Hscan.
  fold ScanDemo.run in Hscan. destruct ScanDemo.run as [[[]|e] [k' b']] eqn:Hrun;
    [|pose proof demo_scan as Hbad; rewrite Hrun in Hbad; discriminate Hbad].
  destruct (Hscan k' b' eq_refl) as [m Hm]. exists m. split; [exact Hm|by vm_compute].
Defined.
