(* ===== verification/Takeout.v ===== *)
(** * Takeout: what a Google Takeout folder says about its photos

    Models src/source/takeout_parser.cpp: the sidecar of every asset is read
    within a bound and its fields become metadata candidates; the names pair
    media with their sidecars, RAW files with JPEGs and stills with motions;
    what is ambiguous, missing or malformed becomes an error of the result.

    The hash maps are finite maps, and [iterate] is the order the library
    gives their elements in.  A number of the JSON text that no double holds
    makes the parser of the library throw another exception than the one
    caught here: [Uncaught]. *)

From stdpp Require Import pretty.
From S2P Require Import Prelude Status Bytes Order Json RelativePath Task Assets Association Metadata Sqlite FileOps LinuxFileOps Walker.

Record TakeoutParserError := mkTakeoutParserError {
  error_path : RelativePath;
  error_code : string;
  error_message : string;
}.

Record TakeoutParseResult := mkTakeoutParseResult {
  takeout_assets : list PhysicalAsset;
  takeout_candidates : list MetadataCandidate;
  takeout_relations : list SourceRelationCandidate;
  takeout_errors : list TakeoutParserError;
}.

Definition kMaximumJsonBytes : Z := 8 * 1024 * 1024.

(** [AddError(result, path, code, message)] *)
Definition AddError (path : RelativePath) (code message : string) (result : TakeoutParseResult) : TakeoutParseResult :=
  mkTakeoutParseResult (takeout_assets result) (takeout_candidates result) (takeout_relations result)
    (takeout_errors result ++ [mkTakeoutParserError path code message]).

(** ** Names *)

Definition IsJsonAsset (kind : AssetKind) : bool := (kind == kSidecarJson) || (kind == kAlbumMetadata).
Definition IsSidecar (kind : AssetKind) : bool := (kind == kSidecarJson) || (kind == kSidecarXmp).

(** [name.substr(0, n)] is [str_take n name]. *)
Definition BasenameWithoutExtension (asset : PhysicalAsset) : string :=
  let name := default "" (last (components (relative_path asset))) in
  let stem := match rfind dot name with
              | None | Some O => name
              | Some d => str_take d name
              end in
  LowerAscii stem.

Definition kExtensions : list string :=
  ["arw"; "avi"; "bmp"; "cr2"; "dng"; "gif"; "heic"; "heif";
   "jpeg"; "jpg"; "m4v"; "mkv"; "mov"; "mp4"; "nef"; "png";
   "raw"; "tif"; "tiff"; "webm"; "webp"].
Definition IsKnownMediaExtension (extension : string) : bool := existsb (fun candidate => extension == candidate) kExtensions.

Definition CanonicalSidecarStem (asset : PhysicalAsset) : string :=
  let stem := BasenameWithoutExtension asset in
  match rfind dot stem with
  | None | Some O => stem
  | Some d =>
      if (S d =? String.length stem)%nat then stem
      else if IsKnownMediaExtension (substr_from (S d) stem) then str_take d stem else stem
  end.

Definition UsesMediaExtensionSidecarName (asset : PhysicalAsset) : bool :=
  let stem := BasenameWithoutExtension asset in
  match rfind dot stem with
  | None | Some O => false
  | Some d => (S d <? String.length stem)%nat && IsKnownMediaExtension (substr_from (S d) stem)
  end.

Definition BasenameKey (asset : PhysicalAsset) : string :=
  let key := foldl join_component "" (removelast (components (relative_path asset))) in
  join_component key (if IsSidecar (asset_kind asset) then CanonicalSidecarStem asset else BasenameWithoutExtension asset).

(** ** Relations *)

(** What a pass of [AddRelationErrorsAndCandidates] appends to the result. *)
Record Found := mkFound { found_relations : list SourceRelationCandidate; found_errors : list TakeoutParserError }.
Definition nothing : Found := mkFound [] [].
Definition also (a b : Found) : Found := mkFound (found_relations a ++ found_relations b) (found_errors a ++ found_errors b).

Notation AssetList := (list PhysicalAsset).

Definition is_raw (asset : PhysicalAsset) : bool :=
  let e := extension asset in (e == "arw") || (e == "cr2") || (e == "dng") || (e == "nef") || (e == "raw").
Definition is_jpeg (asset : PhysicalAsset) : bool := let e := extension asset in (e == "jpg") || (e == "jpeg").
Definition is_motion (asset : PhysicalAsset) : bool := extension asset == "mov".
Definition is_still (asset : PhysicalAsset) : bool :=
  let e := extension asset in (e == "jpg") || (e == "jpeg") || (e == "heic") || (e == "heif").

(** [if (first) { a = asset; ++a_count; } else if (second) { b = asset; ++b_count; }] *)
Record Counts := mkCounts { first_asset : option PhysicalAsset; first_count : nat; second_asset : option PhysicalAsset; second_count : nat }.
Definition count_asset (first second : PhysicalAsset -> bool) (c : Counts) (asset : PhysicalAsset) : Counts :=
  if first asset then mkCounts (Some asset) (S (first_count c)) (second_asset c) (second_count c)
  else if second asset then mkCounts (first_asset c) (first_count c) (Some asset) (S (second_count c))
  else c.
Definition count_assets (first second : PhysicalAsset -> bool) (media : AssetList) : Counts :=
  foldl (count_asset first second) (mkCounts None 0 None 0) media.

Definition ambiguous (code message : string) (media : AssetList) : Found :=
  mkFound [] ((fun asset => mkTakeoutParserError (relative_path asset) code message) <$> media).

(** The two parts of the first loop; the flag says that the key goes into
    [media_relation_keys]. *)
Definition relate_raw_jpeg (media : AssetList) : Found * bool :=
  let c := count_assets is_raw is_jpeg media in
  match first_asset c, second_asset c with
  | Some raw, Some jpeg =>
      if ((first_count c =? 1) && (second_count c =? 1))%nat
      then (mkFound [mkSourceRelationCandidate (PhysicalAssetIdFor raw) (PhysicalAssetIdFor jpeg) kRawJpegPair
                       "takeout.raw-jpeg.v1"
                       (DisplayString (relative_path jpeg) +:+ " pairs " +:+ DisplayString (relative_path raw))] [], true)
      else (ambiguous "ambiguous_raw_jpeg_relation" "same basename has multiple RAW or JPEG media files" media, true)
  | _, _ => (nothing, false)
  end.
Definition relate_live_photo (media : AssetList) : Found * bool :=
  let c := count_assets is_motion is_still media in
  match first_asset c, second_asset c with
  | Some motion, Some still =>
      if ((first_count c =? 1) && (second_count c =? 1))%nat
      then (mkFound [mkSourceRelationCandidate (PhysicalAssetIdFor still) (PhysicalAssetIdFor motion)
                       kLivePhotoMotionForMedia "takeout.live-photo.v1"
                       (DisplayString (relative_path motion) +:+ " motion-pairs " +:+ DisplayString (relative_path still))] [], true)
      else (ambiguous "ambiguous_live_photo_relation" "same basename has multiple still or motion media files" media, true)
  | _, _ => (nothing, false)
  end.

(** [media_by_key[key].push_back(&asset)] for the assets of one class. *)
Definition push_asset (m : gmap string AssetList) (key : string) (assets : AssetList) : gmap string AssetList :=
  <[key := default [] (m !! key) ++ assets]> m.
Definition group_by_key (select : AssetKind -> bool) (assets : list PhysicalAsset) : gmap string AssetList :=
  foldl (fun m asset => if select (asset_kind asset) then push_asset m (BasenameKey asset) [asset] else m) ∅ assets.
Definition IsMedia (kind : AssetKind) : bool := kind == kMedia.

Definition kMinimumUnambiguousStemBytes : nat := 3.
(** The lengths [first_stem_byte + 3 <= length < key.size()]. *)
Definition prefix_lengths (key : string) : list nat :=
  let first_stem_byte := match rfind slash key with None => 0%nat | Some directory_end => S directory_end end in
  let first := (first_stem_byte + kMinimumUnambiguousStemBytes)%nat in
  if (String.length key <=? first)%nat then [] else seq first (String.length key - first).
Definition add_prefixes (m : gmap string AssetList) (group : string * AssetList) : gmap string AssetList :=
  foldl (fun m length => push_asset m (str_take length group.1) group.2) m (prefix_lengths group.1).

(** One sidecar of the second loop, with the key it adds to
    [media_keys_with_weak_sidecar]. *)
Definition relate_sidecar (media_by_key media_by_prefix : gmap string AssetList) (key : string) (sidecars : AssetList)
    (sidecar : PhysicalAsset) : Found * option string :=
  let error code message := mkFound [] [mkTakeoutParserError (relative_path sidecar) code message] in
  match media_by_key !! key with
  | None =>
      match media_by_prefix !! key with
      | Some [media] =>
          (error "truncated_basename_match"
             "sidecar basename is a strict prefix of a media basename; relation is not inferred", Some (BasenameKey media))
      | Some _ =>
          (error "ambiguous_truncated_basename"
             "sidecar basename is a strict prefix of multiple media basenames; relation is ambiguous", None)
      | None => (error "orphan_sidecar" "sidecar has no media with the same directory and basename", None)
      end
  | Some media =>
      match media, sidecars with
      | [media_asset], [_] =>
          (mkFound [mkSourceRelationCandidate (PhysicalAssetIdFor media_asset) (PhysicalAssetIdFor sidecar)
                      (if asset_kind sidecar == kSidecarXmp then kXmpSidecarForMedia else kJsonSidecarForMedia)
                      (if UsesMediaExtensionSidecarName sidecar then "takeout.sidecar-media-extension.v1" else "takeout.basename.v1")
                      (DisplayString (relative_path sidecar) +:+ " matches " +:+ DisplayString (relative_path media_asset))] [], None)
      | _, _ => (error "ambiguous_sidecar_relation" "same basename matches multiple media or sidecar files", None)
      end
  end.

Definition missing_sidecar (media : AssetList) : Found :=
  ambiguous "missing_sidecar" "media has no JSON or XMP sidecar with the same directory and basename" media.

Section Relations.
(** The order in which a hash map gives its elements. *)
Context (iterate : gmap string AssetList -> list (string * AssetList)).

(** The first loop: [result] and [media_relation_keys]. *)
Definition media_step (state : Found * gset string) (group : string * AssetList) : Found * gset string :=
  let (found, keys) := state in
  let (raw, raw_key) := relate_raw_jpeg group.2 in
  let (live, live_key) := relate_live_photo group.2 in
  (also (also found raw) live, if raw_key || live_key then {[group.1]} ∪ keys else keys).

(** The second: [result] and [media_keys_with_weak_sidecar]. *)
Definition sidecar_step (media_by_key media_by_prefix : gmap string AssetList) (group : string * AssetList)
    (state : Found * gset string) (sidecar : PhysicalAsset) : Found * gset string :=
  let (found, weak) := relate_sidecar media_by_key media_by_prefix group.1 group.2 sidecar in
  (also state.1 found, match weak with Some key => {[key]} ∪ state.2 | None => state.2 end).

Definition AddRelationErrorsAndCandidates (result : TakeoutParseResult) : TakeoutParseResult :=
  let media_by_key := group_by_key IsMedia (takeout_assets result) in
  let sidecars_by_key := group_by_key IsSidecar (takeout_assets result) in
  let (found, media_relation_keys) := foldl media_step (nothing, ∅) (iterate media_by_key) in
  let media_by_prefix := foldl add_prefixes ∅ (iterate media_by_key) in
  let (found, media_keys_with_weak_sidecar) :=
    foldl (fun state group => foldl (sidecar_step media_by_key media_by_prefix group) state group.2)
      (found, ∅) (iterate sidecars_by_key) in
  let found := foldl (fun found group =>
      if bool_decide (is_Some (sidecars_by_key !! group.1)) || bool_decide (group.1 ∈ media_relation_keys)
         || bool_decide (group.1 ∈ media_keys_with_weak_sidecar)
      then found else also found (missing_sidecar group.2)) found (iterate media_by_key) in
  mkTakeoutParseResult (takeout_assets result) (takeout_candidates result)
    (takeout_relations result ++ found_relations found) (takeout_errors result ++ found_errors found).

End Relations.

(** ** Metadata *)

Definition AddCandidate (asset : PhysicalAsset) (field : MetadataField) (value : MetadataValue) (rule evidence : string)
    (result : TakeoutParseResult) : TakeoutParseResult :=
  let time_status := match field, value with
                     | kTakenTime, VTime time => ValidateTimeCandidate time
                     | _, _ => Status_Ok
                     end in
  if negb (IsMetadataRuleCompatible GoogleTakeoutMetadataRuleset field kGoogleTakeoutJson rule)
  then AddError (relative_path asset) "metadata_rule" "metadata candidate rule is not compatible with its field/source" result
  else if negb (IsMetadataValueCompatible field value)
  then AddError (relative_path asset) "metadata_field_type" "metadata candidate value is incompatible with its field" result
  else if negb (ok time_status)
  then AddError (relative_path asset) "metadata_field_value" (message time_status) result
  else mkTakeoutParseResult (takeout_assets result)
         (takeout_candidates result
            ++ [mkMetadataCandidate (PhysicalAssetIdFor asset) field value kGoogleTakeoutJson rule evidence])
         (takeout_relations result) (takeout_errors result).

Definition AddFieldTypeError (asset : PhysicalAsset) (field expected : string) : TakeoutParseResult -> TakeoutParseResult :=
  AddError (relative_path asset) "metadata_field_type" ("JSON field " +:+ field +:+ " must be " +:+ expected).

(** [std::from_chars] of a [std::int64_t] that must use the whole text. *)
Definition from_chars_int64 (s : string) : option Z :=
  let (sign, digits) := match s with String c rest => if Ascii.eqb c "-" then (-1, rest) else (1, s) | EmptyString => (1, s) end in
  if str_empty digits then None
  else
    v ← literal_digits digits 0;
    if (sign * v <? int64_min) || (int64_max <? sign * v) then None else Some (sign * v).

Definition UnixSecondsToNanoseconds (raw_value : string) : StatusOr Z :=
  match from_chars_int64 raw_value with
  | None => Err (Invalid "photoTakenTime.timestamp must be a signed integer Unix timestamp")
  | Some seconds =>
      if (Z.quot int64_max kNanosecondsPerSecond <? seconds) || (seconds <? Z.quot int64_min kNanosecondsPerSecond)
      then Err (Invalid "photoTakenTime.timestamp overflows Unix nanoseconds")
      else Ok (to_int64 (seconds * kNanosecondsPerSecond))
  end.

(** [timestamp->get<std::int64_t>()] converts an unsigned value modulo 2^64. *)
Definition raw_timestamp_of (timestamp : Json) : option string :=
  match timestamp with
  | JString s => Some s
  | _ => v ← number_integer timestamp; Some (pretty (to_int64 v))
  end.

Definition extract_taken_time (asset : PhysicalAsset) (document : Json) (result : TakeoutParseResult) : TakeoutParseResult :=
  match json_find document "photoTakenTime" with
  | None => result
  | Some taken_time =>
      if negb (is_object taken_time) then AddFieldTypeError asset "photoTakenTime" "an object" result
      else match json_find taken_time "timestamp" with
      | None => result
      | Some timestamp =>
          match raw_timestamp_of timestamp with
          | None => AddFieldTypeError asset "photoTakenTime.timestamp" "an integer or integer string" result
          | Some raw_timestamp =>
              match UnixSecondsToNanoseconds raw_timestamp with
              | Err e => AddError (relative_path asset) "metadata_field_value" (message e) result
              | Ok unix_ns =>
                  AddCandidate asset kTakenTime
                    (VTime (mkTimeCandidate (AbsoluteTime unix_ns) None kSecond kGoogleTakeoutJson raw_timestamp))
                    "takeout.json.photoTakenTime.timestamp.v1"
                    (DisplayString (relative_path asset) +:+ "#/photoTakenTime/timestamp") result
              end
          end
      end
  end.

Definition extract_title (asset : PhysicalAsset) (document : Json) (result : TakeoutParseResult) : TakeoutParseResult :=
  match json_find document "title" with
  | None => result
  | Some (JString title) =>
      AddCandidate asset kTitle (VString title) "takeout.json.title.v1" (DisplayString (relative_path asset) +:+ "#/title") result
  | Some _ => AddFieldTypeError asset "title" "a string" result
  end.
Definition extract_description (asset : PhysicalAsset) (document : Json) (result : TakeoutParseResult) : TakeoutParseResult :=
  match json_find document "description" with
  | None => result
  | Some (JString description) =>
      AddCandidate asset kDescription (VString description) "takeout.json.description.v1"
        (DisplayString (relative_path asset) +:+ "#/description") result
  | Some _ => AddFieldTypeError asset "description" "a string" result
  end.
Definition extract_favorite (asset : PhysicalAsset) (document : Json) (result : TakeoutParseResult) : TakeoutParseResult :=
  match json_find document "favorited" with
  | None => result
  | Some (JBool favorite) =>
      AddCandidate asset kFavorite (VBool favorite) "takeout.json.favorited.v1"
        (DisplayString (relative_path asset) +:+ "#/favorited") result
  | Some _ => AddFieldTypeError asset "favorited" "a boolean" result
  end.

Definition ExtractMetadataCandidates (asset : PhysicalAsset) (document : Json) (result : TakeoutParseResult) : TakeoutParseResult :=
  if negb (is_object document)
  then AddError (relative_path asset) "metadata_shape" "JSON sidecar root must be an object" result
  else extract_taken_time asset document (extract_favorite asset document (extract_description asset document
         (extract_title asset document result))).

(** ** Order of the result *)

Definition int_of_field (field : MetadataField) : Z :=
  match field with kTitle => 0 | kDescription => 1 | kFavorite => 2 | kTakenTime => 3 end.

Definition takeout_asset_less (left right : PhysicalAsset) : bool :=
  str_less (raw_bytes (relative_path left)) (raw_bytes (relative_path right)).
Definition relation_less (left right : SourceRelationCandidate) : bool :=
  if media_asset_id left != media_asset_id right then str_less (media_asset_id left) (media_asset_id right)
  else if sidecar_asset_id left != sidecar_asset_id right then str_less (sidecar_asset_id left) (sidecar_asset_id right)
  else str_less (candidate_evidence left) (candidate_evidence right).
Definition takeout_candidate_less (left right : MetadataCandidate) : bool :=
  if asset_id left != asset_id right then str_less (asset_id left) (asset_id right)
  else if field left != field right then int_of_field (field left) <? int_of_field (field right)
  else if extraction_rule left != extraction_rule right then str_less (extraction_rule left) (extraction_rule right)
  else str_less (Metadata.evidence left) (Metadata.evidence right).
Definition error_less (left right : TakeoutParserError) : bool :=
  if raw_bytes (error_path left) != raw_bytes (error_path right)
  then str_less (raw_bytes (error_path left)) (raw_bytes (error_path right))
  else if error_code left != error_code right then str_less (error_code left) (error_code right)
  else str_less (error_message left) (error_message right).

Definition SortResult (result : TakeoutParseResult) : TakeoutParseResult :=
  mkTakeoutParseResult (std_sort takeout_asset_less (takeout_assets result))
    (std_sort takeout_candidate_less (takeout_candidates result)) (std_sort relation_less (takeout_relations result))
    (std_sort error_less (takeout_errors result)).

(** ** Reading *)

(** What the parser of the library gives or throws. *)
Inductive JsonOutcome := Parsed (document : Json) | ParseError (what : string) | Uncaught (what : string).

Section Parse.
Context {K : Type} `{Kernel K} `{DirectoryKernel K}.
Context (parse : string -> JsonOutcome) (iterate : gmap string AssetList -> list (string * AssetList)).

(** The loop of [ReadBounded]; a read that is not empty makes progress, so
    the size of the buffer bounds the number of reads. *)
Fixpoint read_until (fuel : nat) (fd : Fd) (buffer : Z) (bytes : string) : M K string :=
  match fuel with
  | O => ret bytes
  | S fuel =>
      if str_size bytes <? buffer
      then
        let* read := Linux_Read fd (buffer - str_size bytes) in
        if str_empty read then ret bytes else read_until fuel fd buffer (bytes +:+ read)
      else ret bytes
  end.

Definition ReadBounded (fd : Fd) (expected_size : Z) : M K string :=
  do* require (negb (kMaximumJsonBytes <? expected_size)) (Invalid "JSON sidecar exceeds the 8 MiB parser limit");
  let capacity := expected_size in
  let* bytes := read_until (Z.to_nat (capacity + 1)) fd (capacity + 1) "" in
  do* require (negb (str_size bytes =? capacity + 1)) (Invalid "JSON sidecar exceeds the 8 MiB parser limit");
  do* require (str_size bytes =? capacity) (mkStatus StatusCode.kIoError "JSON sidecar changed while it was being read");
  ret bytes.

(** [TakeoutEntrySink::Add] *)
Definition collect_entry (entry : DirectoryEntry) : M (list DirectoryEntry) unit := fun l => (Ok tt, l ++ [entry]).

Definition parse_takeout_asset (root_fd : Fd) (asset : PhysicalAsset) (result : TakeoutParseResult) : M K TakeoutParseResult :=
  let path := relative_path asset in
  if asset_kind asset == kUnknown
  then ret (AddError path "unknown_file_kind" "regular file has no supported Takeout media or sidecar type" result)
  else if negb (IsJsonAsset (asset_kind asset)) then ret result
  else
    let* file_fd := outcome (Linux_OpenSource root_fd path) in
    match file_fd with
    | Err e => ret (AddError path "unreadable_json" (message e) result)
    | Ok fd =>
        let* json_bytes := outcome (scoped (sys_close fd) (ReadBounded fd (FileIdentity.size (identity asset)))) in
        match json_bytes with
        | Err e =>
            ret (AddError path
                   (if bool_decide (code e = StatusCode.kInvalidArgument) then "json_size_limit" else "unreadable_json")
                   (message e) result)
        | Ok bytes =>
            match parse bytes with
            | Parsed document => ret (ExtractMetadataCandidates asset document result)
            | ParseError what => ret (AddError path "invalid_json" what result)
            | Uncaught what => throwing (inl what)
            end
        end
    end.

Fixpoint parse_entries (root_fd : Fd) (entries : list DirectoryEntry) (result : TakeoutParseResult) : M K TakeoutParseResult :=
  match entries with
  | [] => ret result
  | entry :: entries =>
      match ClassifyPhysicalAsset entry with
      | None => parse_entries root_fd entries result
      | Some asset =>
          let result := mkTakeoutParseResult (takeout_assets result ++ [asset]) (takeout_candidates result)
                          (takeout_relations result) (takeout_errors result) in
          let* result := parse_takeout_asset root_fd asset result in
          parse_entries root_fd entries result
      end
  end.

(** [TakeoutParser::Parse(root)] *)
Definition TakeoutParser_Parse (depth : nat) (root : string) : M K TakeoutParseResult :=
  let* root_fd := Linux_OpenRoot root kExisting in
  scoped (sys_close root_fd)
    (fun k => match Walk collect_entry depth root_fd (k, []) with
              | (Err e, (k, _)) => (Err e, k)
              | (Ok _, (k, entries)) =>
                  (let* result := parse_entries root_fd entries (mkTakeoutParseResult [] [] [] []) in
                   ret (SortResult (AddRelationErrorsAndCandidates iterate result))) k
              end).

End Parse.
