(* ===== verification/TakeoutTheorems.v ===== *)
(** * TakeoutTheorems: the result of a Takeout folder

    The maps of [AddRelationErrorsAndCandidates] are hash maps, whose order is
    not specified; the result does not depend on it.  A sidecar is paired with
    a photo exactly when both are the only ones of their name, and is reported
    otherwise. *)

From S2P Require Import Prelude Status Bytes Order Json RelativePath Task Assets Association Metadata MetadataTheorems Photo Sqlite FileOps LinuxFileOps Walker WalkerTheorems Takeout.

(** ** Groups *)

Definition push_all (m : gmap string AssetList) (pushes : list (string * AssetList)) : gmap string AssetList :=
  foldl (fun m x => push_asset m x.1 x.2) m pushes.

(** What a key holds after a list of pushes. *)
Definition pushed_at (key : string) (before : option AssetList) (pushes : list (string * AssetList)) : option AssetList :=
  match filter (fun x => x.1 = key) pushes with
  | [] => before
  | xs => Some (default [] before ++ concat (snd <$> xs))
  end.

Lemma push_all_lookup pushes m key : push_all m pushes !! key = pushed_at key (m !! key) pushes.
Proof.
  revert m. induction pushes as [|[k l] pushes IH]; intros m; [done|].
  cbn [push_all foldl]. fold (push_all (push_asset m k l) pushes). rewrite IH. unfold pushed_at. rewrite filter_cons.
  unfold push_asset. cbn [fst snd]. destruct (decide (k = key)) as [->|Hne].
  - rewrite lookup_insert_eq. destruct (filter _ pushes) as [|y ys]; cbn; [by rewrite app_nil_r|]. by rewrite <- app_assoc.
  - by rewrite lookup_insert_ne.
Qed.

Lemma group_by_key_pushes select assets :
  group_by_key select assets
  = push_all ∅ ((fun a => (BasenameKey a, [a])) <$> filter (fun a => select (asset_kind a) = true) assets).
Proof.
  unfold group_by_key, push_all. generalize (∅ : gmap string AssetList).
  induction assets as [|a assets IH]; intros m; [done|]. cbn [foldl]. rewrite filter_cons.
  destruct (select (asset_kind a)) eqn:Hs; [rewrite decide_True by done|rewrite decide_False by done]; apply IH.
Qed.

(** The assets of one class and one key, in order. *)
Definition named (select : AssetKind -> bool) (key : string) (assets : list PhysicalAsset) : AssetList :=
  filter (fun a => select (asset_kind a) = true /\ BasenameKey a = key) assets.

Lemma group_by_key_lookup select assets key :
  group_by_key select assets !! key = match named select key assets with [] => None | l => Some l end.
Proof.
  rewrite group_by_key_pushes, push_all_lookup, lookup_empty. unfold pushed_at, named.
  assert (filter (fun x => x.1 = key) ((fun a => (BasenameKey a, [a])) <$> filter (fun a => select (asset_kind a) = true) assets)
    = (fun a => (BasenameKey a, [a])) <$> filter (fun a => select (asset_kind a) = true /\ BasenameKey a = key) assets) as ->.
  { induction assets as [|a assets IH]; [done|]. rewrite !filter_cons.
    destruct (decide (select (asset_kind a) = true)) as [Hs|Hs]; cbn [fmap list_fmap].
    - rewrite filter_cons. cbn [fst]. destruct (decide (BasenameKey a = key)).
      + rewrite decide_True by done. cbn. by f_equal.
      + rewrite decide_False by tauto. done.
    - rewrite decide_False by tauto. done. }
  destruct (filter _ assets) as [|a l]; [done|]. cbn. do 2 f_equal. clear.
  induction l as [|b l IH]; [done|]. cbn. by rewrite IH.
Qed.

Lemma elem_of_named select key assets a :
  a ∈ named select key assets <-> a ∈ assets /\ select (asset_kind a) = true /\ BasenameKey a = key.
Proof. unfold named. rewrite list_elem_of_filter. tauto. Qed.

(** The pushes of the prefixes. *)
Definition prefix_pushes (groups : list (string * AssetList)) : list (string * AssetList) :=
  concat ((fun g => (fun n => (str_take n g.1, g.2)) <$> prefix_lengths g.1) <$> groups).

Lemma add_prefixes_pushes groups m : foldl add_prefixes m groups = push_all m (prefix_pushes groups).
Proof.
  revert m. induction groups as [|g groups IH]; intros m; [done|]. cbn [foldl]. rewrite IH.
  unfold push_all, prefix_pushes. cbn [fmap list_fmap concat]. rewrite foldl_app. f_equal.
  unfold add_prefixes. generalize (prefix_lengths g.1) as l. intros l. revert m. clear.
  induction l as [|n l IH]; intros m; [done|]. cbn. apply IH.
Qed.

(** Two maps that hold the same assets under every key, in any order. *)
Definition same_groups (a b : gmap string AssetList) : Prop := forall key, option_Forall2 (≡ₚ) (a !! key) (b !! key).

Lemma prefixes_permuted g1 g2 : g1 ≡ₚ g2 -> same_groups (foldl add_prefixes ∅ g1) (foldl add_prefixes ∅ g2).
Proof.
  intros Hp key. rewrite !add_prefixes_pushes, !push_all_lookup, !lookup_empty. unfold pushed_at.
  assert (filter (fun x => x.1 = key) (prefix_pushes g1) ≡ₚ filter (fun x => x.1 = key) (prefix_pushes g2)) as Hf.
  { unfold prefix_pushes. by rewrite Hp. }
  destruct (filter _ (prefix_pushes g1)) as [|x xs], (filter _ (prefix_pushes g2)) as [|y ys].
  - constructor.
  - by apply Permutation_nil_cons in Hf.
  - symmetry in Hf. by apply Permutation_nil_cons in Hf.
  - constructor. cbn [default app]. by rewrite Hf.
Qed.

(** ** What the passes append *)

Definition found_sum (l : list Found) : Found := foldr also nothing l.

Lemma also_assoc a b c : also (also a b) c = also a (also b c).
Proof. unfold also. cbn. by rewrite <- !app_assoc. Qed.
Lemma also_nothing a : also a nothing = a.
Proof. destruct a. unfold also. cbn. by rewrite !app_nil_r. Qed.

Lemma nothing_also a : also nothing a = a.
Proof. by destruct a. Qed.

Lemma found_sum_app a b : found_sum (a ++ b) = also (found_sum a) (found_sum b).
Proof.
  induction a as [|x a IH]; cbn [found_sum foldr app]; [symmetry; apply nothing_also|].
  change (foldr also nothing (a ++ b)) with (found_sum (a ++ b)). by rewrite IH, also_assoc.
Qed.

Definition same_found (a b : Found) : Prop :=
  found_relations a ≡ₚ found_relations b /\ found_errors a ≡ₚ found_errors b.

Lemma found_sum_permuted l1 l2 : l1 ≡ₚ l2 -> same_found (found_sum l1) (found_sum l2).
Proof.
  unfold same_found. induction 1 as [|x l1 l2 _ [IH1 IH2]|x y l|l1 l2 l3 _ [? ?] _ [? ?]]; cbn.
  - done.
  - by rewrite IH1, IH2.
  - by rewrite !app_assoc, (Permutation_app_comm (found_relations x)), (Permutation_app_comm (found_errors x)).
  - split; by etransitivity.
Qed.

Lemma also_same a a' b b' : same_found a a' -> same_found b b' -> same_found (also a b) (also a' b').
Proof. intros [H1 H2] [H3 H4]. split; cbn; [by rewrite H1, H3|by rewrite H2, H4]. Qed.

Definition media_found (g : string * AssetList) : Found := also (relate_raw_jpeg g.2).1 (relate_live_photo g.2).1.
Definition related (g : string * AssetList) : Prop := (relate_raw_jpeg g.2).2 || (relate_live_photo g.2).2 = true.

Lemma media_loop l f keys :
  foldl media_step (f, keys) l
  = (also f (found_sum (media_found <$> l)), list_to_set (fst <$> filter related l) ∪ keys).
Proof.
  revert f keys. induction l as [|[key media] l IH]; intros f keys.
  - cbn. rewrite also_nothing. f_equal. set_solver.
  - cbn [foldl media_step]. unfold related. rewrite filter_cons. cbn [fst snd].
    destruct (relate_raw_jpeg media) as [raw raw_key] eqn:Hr, (relate_live_photo media) as [live live_key] eqn:Hl. cbn [fst snd].
    rewrite IH. cbn [fmap list_fmap found_sum foldr]. unfold media_found at 2. cbn [fst snd]. rewrite Hr, Hl. cbn [fst].
    f_equal; [by rewrite !also_assoc|]. destruct (raw_key || live_key).
    + rewrite decide_True by done. cbn [fmap list_fmap list_to_set fst]. set_solver.
    + by rewrite decide_False.
Qed.

(** The sidecars with their groups. *)
Definition sidecar_pairs (groups : list (string * AssetList)) : list ((string * AssetList) * PhysicalAsset) :=
  concat (map (fun g => map (pair g) g.2) groups).

Section Passes.
Context (media_by_key media_by_prefix : gmap string AssetList).

Definition relate (x : (string * AssetList) * PhysicalAsset) : Found * option string :=
  relate_sidecar media_by_key media_by_prefix x.1.1 x.1.2 x.2.
Definition weak_keys (pairs : list ((string * AssetList) * PhysicalAsset)) : gset string :=
  list_to_set (omap (fun x => (relate x).2) pairs).

Lemma sidecar_group g l f weak :
  foldl (sidecar_step media_by_key media_by_prefix g) (f, weak) l
  = (also f (found_sum (fst ∘ relate <$> (map (pair g) l))), weak_keys (map (pair g) l) ∪ weak).
Proof.
  revert f weak. induction l as [|s l IH]; intros f weak.
  - cbn. rewrite also_nothing. f_equal. unfold weak_keys. set_solver.
  - cbn [foldl sidecar_step]. unfold sidecar_step at 2.
destruct (relate_sidecar media_by_key media_by_prefix g.1 g.2 s) as [found key] eqn:Hr.
    assert (relate (g, s) = (found, key)) as Hrel by done.
    cbn [fst snd]. rewrite IH. cbn [map fmap list_fmap found_sum foldr].
    change ((fst ∘ relate) (g, s)) with (relate (g, s)).1. unfold weak_keys. cbn [omap list_omap].
    rewrite Hrel. cbn [fst snd]. f_equal; [by rewrite also_assoc|].
    destruct key; cbn [list_to_set]; set_solver.
Qed.

Lemma sidecar_loop l f weak :
  foldl (fun state group => foldl (sidecar_step media_by_key media_by_prefix group) state group.2) (f, weak) l
  = (also f (found_sum (fst ∘ relate <$> sidecar_pairs l)), weak_keys (sidecar_pairs l) ∪ weak).
Proof.
  revert f weak. induction l as [|g l IH]; intros f weak.
  - cbn. rewrite also_nothing. f_equal. unfold weak_keys. set_solver.
  - cbn [foldl]. rewrite sidecar_group, IH. unfold sidecar_pairs. cbn [map concat].
    rewrite fmap_app. f_equal.
    + by rewrite also_assoc, found_sum_app.
    + unfold weak_keys. rewrite omap_app, list_to_set_app_L. set_solver.
Qed.

End Passes.

Lemma missing_loop (reported : string -> bool) l f :
  foldl (fun found g => if reported g.1 then found else also found (missing_sidecar g.2)) f l
  = also f (found_sum (missing_sidecar ∘ snd <$> filter (fun g => reported g.1 = false) l)).
Proof.
  revert f. induction l as [|g l IH]; intros f; [by rewrite also_nothing|]. cbn [foldl]. rewrite IH, filter_cons.
  destruct (reported g.1); [by rewrite decide_False|]. rewrite decide_True by done. cbn. by rewrite also_assoc.
Qed.

(** ** The result as sums *)

Section Order.
Context (assets : list PhysicalAsset).
Let media : gmap string AssetList := group_by_key IsMedia assets.
Let sidecars : gmap string AssetList := group_by_key IsSidecar assets.

(** The media left without a sidecar, given the two sets of keys. *)
Definition reported (related_keys weak : gset string) (key : string) : bool :=
  bool_decide (is_Some (sidecars !! key)) || bool_decide (key ∈ related_keys) || bool_decide (key ∈ weak).

Definition all_found (groups sidecar_groups : list (string * AssetList)) : Found :=
  let prefixes := foldl add_prefixes ∅ groups in
  let pairs := sidecar_pairs sidecar_groups in
  let keys := list_to_set (fst <$> filter related groups) in
  also (also (found_sum (media_found <$> groups)) (found_sum (fst ∘ relate media prefixes <$> pairs)))
    (found_sum (missing_sidecar ∘ snd
       <$> filter (fun g => reported keys (weak_keys media prefixes pairs) g.1 = false) groups)).

Lemma relate_same_groups p1 p2 x : same_groups p1 p2 -> relate media p1 x = relate media p2 x.
Proof.
  intros Hp. unfold relate, relate_sidecar. destruct (media !! x.1.1); [done|].
  destruct (Hp x.1.1) as [l1 l2 Hl|]; [|done].
  destruct l1 as [|a [|b l1]].
  - by apply Permutation_nil in Hl as ->.
  - by apply Permutation_length_1_inv in Hl as ->.
  - destruct l2 as [|c [|d l2]]; [by apply Permutation_length in Hl..|done].
Qed.

Lemma weak_keys_same p1 p2 l :
  (forall x, relate media p1 x = relate media p2 x) -> weak_keys media p1 l = weak_keys media p2 l.
Proof. intros Hrel. unfold weak_keys. f_equal. induction l as [|x l IH]; [done|]. cbn. by rewrite Hrel, IH. Qed.

Lemma all_found_permuted g1 g2 s1 s2 : g1 ≡ₚ g2 -> s1 ≡ₚ s2 -> same_found (all_found g1 s1) (all_found g2 s2).
Proof.
  intros Hg Hs. unfold all_found.
  assert (sidecar_pairs s1 ≡ₚ sidecar_pairs s2) as Hpairs by (unfold sidecar_pairs; by rewrite Hs).
  set (p1 := foldl add_prefixes ∅ g1). set (p2 := foldl add_prefixes ∅ g2).
  assert (same_groups p1 p2) as Hp by by apply prefixes_permuted.
  assert (forall x, relate media p1 x = relate media p2 x) as Hrel by (intros x; by apply relate_same_groups).
  assert (weak_keys media p1 (sidecar_pairs s1) = weak_keys media p2 (sidecar_pairs s2)) as ->.
  { rewrite (weak_keys_same p1 p2) by done. unfold weak_keys. apply list_to_set_perm_L. by rewrite Hpairs. }
  assert (list_to_set (C := gset string) (fst <$> filter related g1) = list_to_set (fst <$> filter related g2)) as ->
    by (apply list_to_set_perm_L; by rewrite Hg).
  apply also_same; [apply also_same|].
  - apply found_sum_permuted. by rewrite Hg.
  - rewrite (list_fmap_ext _ (fst ∘ relate media p2)) by (intros i x _; unfold compose; by rewrite Hrel).
    apply found_sum_permuted. by rewrite Hpairs.
  - apply found_sum_permuted. by rewrite Hg.
Qed.

Lemma AddRelationErrorsAndCandidates_eq iterate result :
  takeout_assets result = assets ->
  AddRelationErrorsAndCandidates iterate result
  = mkTakeoutParseResult assets (takeout_candidates result)
      (takeout_relations result ++ found_relations (all_found (iterate media) (iterate sidecars)))
      (takeout_errors result ++ found_errors (all_found (iterate media) (iterate sidecars))).
Proof.
  intros Hassets. unfold AddRelationErrorsAndCandidates. rewrite Hassets. fold media sidecars.
  rewrite media_loop, sidecar_loop, nothing_also. cbv zeta.
  rewrite !(right_id_L ∅ (∪)). unfold all_found.
  set (keys := list_to_set (fst <$> filter related (iterate media))). set (weak := weak_keys _ _ _).
  rewrite (missing_loop (reported keys weak)). done.
Qed.

End Order.

(** ** Where relations and errors come from *)

Lemma elem_of_found_sum l :
  (forall r, r ∈ found_relations (found_sum l) <-> exists f, f ∈ l /\ r ∈ found_relations f)
  /\ (forall e, e ∈ found_errors (found_sum l) <-> exists f, f ∈ l /\ e ∈ found_errors f).
Proof.
  induction l as [|f l [IHr IHe]]; cbn; [split; intros x; split; [set_solver|intros (?&?&?); set_solver|set_solver|intros (?&?&?); set_solver]|].
  fold (found_sum l). split; intros x; rewrite elem_of_app, ?IHr, ?IHe; (split; [intros [?|(f'&?&?)]|intros (f'&[->|?]%elem_of_cons&?)]); set_solver.
Qed.

Lemma count_assets_from first second media :
  let c := count_assets first second media in
  (forall a, first_asset c = Some a -> a ∈ media /\ first a = true)
  /\ (forall a, second_asset c = Some a -> a ∈ media /\ first a = false /\ second a = true).
Proof.
  induction media as [|x media [H1 H2]] using rev_ind; [by split; intros a|].
  unfold count_assets in *. rewrite foldl_app. cbn [foldl]. set (c := foldl _ _ media) in *.
  assert (forall a, a ∈ media -> a ∈ media ++ [x]) as Hin by (intros a Ha; apply elem_of_app; by left).
  assert (x ∈ media ++ [x]) as Hx by (apply elem_of_app; right; by apply list_elem_of_singleton).
  unfold count_asset. destruct (first x) eqn:Hf; [|destruct (second x) eqn:Hs]; cbn; split; intros a Ha;
    try (injection Ha as <-; done); first [apply H1 in Ha as [? ?] | apply H2 in Ha as (? & ? & ?)]; auto.
Qed.

(** The kind and the rule of a relation follow from its second asset. *)
Definition label (x : PhysicalAsset) : SourceRelationKind * string :=
  if IsSidecar (asset_kind x)
  then (if asset_kind x == kSidecarXmp then kXmpSidecarForMedia else kJsonSidecarForMedia,
        if UsesMediaExtensionSidecarName x then "takeout.sidecar-media-extension.v1" else "takeout.basename.v1")
  else if is_motion x then (kLivePhotoMotionForMedia, "takeout.live-photo.v1")
  else (kRawJpegPair, "takeout.raw-jpeg.v1").
Definition labelled (assets : list PhysicalAsset) (r : SourceRelationCandidate) : Prop :=
  exists x, x ∈ assets /\ sidecar_asset_id r = PhysicalAssetIdFor x /\ (candidate_relation r, candidate_rule r) = label x.
Definition error_from (assets : list PhysicalAsset) (e : TakeoutParserError) : Prop :=
  exists a, a ∈ assets /\ error_path e = relative_path a.
Definition sound (assets : list PhysicalAsset) (f : Found) : Prop :=
  Forall (labelled assets) (found_relations f) /\ Forall (error_from assets) (found_errors f).

Lemma sound_also assets a b : sound assets a -> sound assets b -> sound assets (also a b).
Proof. intros [??] [??]. split; cbn; by apply Forall_app. Qed.

Lemma sound_sum assets l : Forall (sound assets) l -> sound assets (found_sum l).
Proof. induction 1; [by split|]. by apply sound_also. Qed.

Lemma sound_ambiguous assets code message media :
  (forall a, a ∈ media -> a ∈ assets) -> sound assets (ambiguous code message media).
Proof.
  intros Hin. split; [constructor|]. apply Forall_fmap, Forall_forall. intros a Ha. exists a. split; [by apply Hin|done].
Qed.

Lemma media_label x second : IsMedia (asset_kind x) = true -> is_motion x = second ->
  label x = if second then (kLivePhotoMotionForMedia, "takeout.live-photo.v1") else (kRawJpegPair, "takeout.raw-jpeg.v1").
Proof. unfold label, IsMedia, IsSidecar. intros ->%bool_decide_eq_true <-. done. Qed.

Lemma jpeg_not_motion x : is_jpeg x = true -> is_motion x = false.
Proof. unfold is_jpeg, is_motion. by intros [->%bool_decide_eq_true| ->%bool_decide_eq_true]%orb_true_iff. Qed.

Lemma media_found_sound assets g :
  (forall a, a ∈ g.2 -> a ∈ assets /\ IsMedia (asset_kind a) = true) -> sound assets (media_found g).
Proof.
  intros Hg. apply sound_also.
  - unfold relate_raw_jpeg. destruct (count_assets_from is_raw is_jpeg g.2) as [H1 H2].
    destruct (first_asset _) as [raw|]; [|by split]. destruct (second_asset _) as [jpeg|]; [|by split].
    destruct (_ && _); [|apply sound_ambiguous; intros a Ha; by apply Hg]. destruct (H2 jpeg eq_refl) as (Hj & _ & Hjpeg).
    split; [|constructor]. apply Forall_singleton. exists jpeg. destruct (Hg _ Hj). split_and!; [done..|].
    symmetry. apply (media_label jpeg false); [done|by apply jpeg_not_motion].
  - unfold relate_live_photo. destruct (count_assets_from is_motion is_still g.2) as [H1 H2].
    destruct (first_asset _) as [motion|]; [|by split]. destruct (second_asset _) as [still|]; [|by split].
    destruct (_ && _); [|apply sound_ambiguous; intros a Ha; by apply Hg]. destruct (H1 motion eq_refl) as (Hm & Hmotion).
    split; [|constructor]. apply Forall_singleton. exists motion. destruct (Hg _ Hm). split_and!; [done..|].
    symmetry. by apply (media_label motion true).
Qed.

Lemma relate_sound assets media prefixes x :
  x.2 ∈ assets -> IsSidecar (asset_kind x.2) = true -> sound assets (relate media prefixes x).1.
Proof.
  intros Hx Hs. unfold relate, relate_sidecar. assert (forall code message,
    sound assets (mkFound [] [mkTakeoutParserError (relative_path x.2) code message])) as Herr.
  { intros code message. split; [constructor|]. apply Forall_singleton. by exists x.2. }
  destruct (media !! x.1.1) as [[|m [|]]|]; [apply Herr| |apply Herr|].
  2:{ destruct (prefixes !! x.1.1) as [[|m [|]]|]; apply Herr. }
  destruct x.1.2 as [|y [|]]; try apply Herr. split; [|constructor]. apply Forall_singleton. exists x.2.
  split_and!; [done..|]. unfold label. by rewrite Hs.
Qed.

Lemma elem_of_sidecar_pairs x groups : x ∈ sidecar_pairs groups <-> x.1 ∈ groups /\ x.2 ∈ x.1.2.
Proof.
  unfold sidecar_pairs. induction groups as [|g groups IH]; cbn [map concat]; [set_solver|].
  rewrite elem_of_app, IH, list_elem_of_fmap, elem_of_cons. destruct x as [h s]. cbn [fst snd]. split.
  - intros [(a & [= -> ->] & Ha)|[? ?]]; auto.
  - intros [[->|?] ?]; [left; by exists s|by right].
Qed.

(** The order a map is iterated in: its elements, each once. *)
Definition iterates (iterate : gmap string AssetList -> list (string * AssetList)) : Prop :=
  forall m, iterate m ≡ₚ map_to_list m.

Lemma iterates_elem iterate m g : iterates iterate -> g ∈ iterate m -> m !! g.1 = Some g.2.
Proof. intros Hit. rewrite (Hit m). destruct g. apply elem_of_map_to_list. Qed.

Lemma group_elem select assets key l a :
  group_by_key select assets !! key = Some l -> a ∈ l -> a ∈ assets /\ select (asset_kind a) = true /\ BasenameKey a = key.
Proof.
  rewrite group_by_key_lookup. intros Hl Ha. apply elem_of_named. destruct (named select key assets); by simplify_eq.
Qed.

Lemma all_found_sound assets iterate : iterates iterate ->
  sound assets (all_found assets (iterate (group_by_key IsMedia assets)) (iterate (group_by_key IsSidecar assets))).
Proof.
  intros Hit. unfold all_found. repeat apply sound_also; apply sound_sum, Forall_fmap, Forall_forall.
  - intros g Hg%iterates_elem; [|done]. apply media_found_sound. intros a Ha. by destruct (group_elem _ _ _ _ _ Hg Ha) as (?&?&_).
  - intros x [Hx Hs]%elem_of_sidecar_pairs. apply iterates_elem in Hx; [|done].
    destruct (group_elem _ _ _ _ _ Hx Hs) as (?&?&_). by apply relate_sound.
  - intros g [_ Hg]%list_elem_of_filter. apply iterates_elem in Hg; [|done]. apply sound_ambiguous.
    intros a Ha. by destruct (group_elem _ _ _ _ _ Hg Ha) as (?&_).
Qed.

(** ** The order of the result *)

#[export] Instance relation_less_swo : StrictWeakOrder relation_less.
Proof.
  apply (lex_swo media_asset_id str_less _ str_less_total
    (lex_swo sidecar_asset_id str_less _ str_less_total
      (key_swo candidate_evidence str_less (total_swo (less := str_less))))).
Qed.

#[export] Instance error_less_swo : StrictWeakOrder error_less.
Proof.
  apply (lex_swo (fun e => raw_bytes (error_path e)) str_less _ str_less_total
    (lex_swo error_code str_less _ str_less_total (key_swo error_message str_less (total_swo (less := str_less))))).
Qed.

(** Assets with paths of their own. *)
Definition distinct_paths (assets : list PhysicalAsset) : Prop :=
  forall a b, a ∈ assets -> b ∈ assets -> raw_bytes (relative_path a) = raw_bytes (relative_path b) -> a = b.

Lemma relations_separated assets a b :
  distinct_paths assets -> labelled assets a -> labelled assets b ->
  relation_less a b = false -> relation_less b a = false -> a = b.
Proof.
  intros Hd (x & Hx & Hax & Hla) (y & Hy & Hby & Hlb) H1 H2.
  destruct (lex_ties media_asset_id (fun a b => if sidecar_asset_id a != sidecar_asset_id b
    then str_less (sidecar_asset_id a) (sidecar_asset_id b) else str_less (candidate_evidence a) (candidate_evidence b)) a b H1 H2)
    as (Hm & H3 & H4).
  destruct (lex_ties sidecar_asset_id (fun a b => str_less (candidate_evidence a) (candidate_evidence b)) a b H3 H4) as (Hs & H5 & H6).
  pose proof (less_total _ _ H5 H6) as He. assert (x = y) as <- by (apply Hd; [done..|]; apply PhysicalAssetIdFor_inj; congruence).
  destruct a, b. cbn in *. congruence.
Qed.

Lemma errors_separated a b :
  wf_path (error_path a) -> wf_path (error_path b) -> error_less a b = false -> error_less b a = false -> a = b.
Proof.
  intros Ha Hb H1 H2.
  destruct (lex_ties (fun e => raw_bytes (error_path e)) (fun a b => if error_code a != error_code b
    then str_less (error_code a) (error_code b) else str_less (error_message a) (error_message b)) a b H1 H2) as (Hp & H3 & H4).
  destruct (lex_ties error_code (fun a b => str_less (error_message a) (error_message b)) a b H3 H4) as (Hc & H5 & H6).
  pose proof (less_total _ _ H5 H6) as He. unfold wf_path in *. rewrite Hp, Hb in Ha. injection Ha as Hpath.
  destruct a, b. cbn in *. congruence.
Qed.

(** ** Independence of the order of the maps *)

Lemma relations_ignore_hash_order iterate1 iterate2 result :
  iterates iterate1 -> iterates iterate2 -> takeout_relations result = [] -> distinct_paths (takeout_assets result) ->
  Forall (fun a => wf_path (relative_path a)) (takeout_assets result) ->
  Forall (fun e => wf_path (error_path e)) (takeout_errors result) ->
  SortResult (AddRelationErrorsAndCandidates iterate1 result) = SortResult (AddRelationErrorsAndCandidates iterate2 result).
Proof.
  intros H1 H2 Hrel Hd Hwf Herr. set (assets := takeout_assets result) in *.
  rewrite !(AddRelationErrorsAndCandidates_eq assets) by done. rewrite Hrel. unfold SortResult. cbn.
  destruct (all_found_permuted assets (iterate1 (group_by_key IsMedia assets)) (iterate2 (group_by_key IsMedia assets))
    (iterate1 (group_by_key IsSidecar assets)) (iterate2 (group_by_key IsSidecar assets))) as [Hpr Hpe];
    [by rewrite (H1 _), (H2 _)..|].
  destruct (all_found_sound assets iterate1 H1) as [Hr He]. rewrite Forall_forall in Hr. rewrite Forall_forall in He. rewrite Forall_forall in Hwf. rewrite Forall_forall in Herr. f_equal.
  - apply std_sort_canonical; [apply _| |done]. intros a b Ha Hb. apply (relations_separated assets); auto.
  - apply std_sort_canonical; [apply _| |by rewrite Hpe]. intros a b Ha Hb.
    assert (forall e, e ∈ takeout_errors result ++ found_errors (all_found assets (iterate1 (group_by_key IsMedia assets))
      (iterate1 (group_by_key IsSidecar assets))) -> wf_path (error_path e)) as Hall.
    { intros e [Hin|Hin]%elem_of_app; [by apply Herr|]. destruct (He e Hin) as (x & Hx & ->). by apply Hwf. }
    apply errors_separated; auto.
Qed.

(** ** The paths of a walk *)

Inductive at_path : Node -> list string -> Node -> Prop :=
  | at_here n : at_path n [] n
  | at_child i cs name n rest m : (name, n) ∈ cs -> at_path n rest m -> at_path (Directory i cs) (name :: rest) m.

Lemma same_child {A} (cs : list (string * A)) name (a b : A) :
  NoDup (map fst cs) -> (name, a) ∈ cs -> (name, b) ∈ cs -> a = b.
Proof.
  induction cs as [|[k x] cs IH]; cbn [map fst]; [set_solver|]. intros [Hk Hnd]%NoDup_cons Ha Hb.
  assert (forall c, (k, c) ∈ cs -> False) as Hno by (intros c Hc; apply Hk; by apply (list_elem_of_fmap_2 fst) in Hc).
  apply elem_of_cons in Ha as [[= -> ->]|Ha], Hb as [Hb|Hb]; [by injection Hb as ->|by destruct (Hno _ Hb)| |by apply IH].
  injection Hb as -> ->. by destruct (Hno _ Ha).
Qed.

Lemma at_path_unique n cs m1 m2 : tree_ok n -> at_path n cs m1 -> at_path n cs m2 -> m1 = m2.
Proof.
  intros Hok H1. revert m2. induction H1 as [n|i cs name n rest m Hin _ IH]; intros m2 H2; inversion H2; subst; [done|].
  apply children_ok in Hok as [Hnd Hch]. assert (n0 = n) as -> by by eapply same_child.
  apply IH; [|done]. by eapply Hch.
Qed.

Lemma entries_at_paths k ps n e : (height n <= k)%nat -> tree_ok n -> e ∈ entries_below ps n ->
  exists cs m, cs <> [] /\ Forall normal_component cs /\ at_path n cs m /\ e = entry_of (ps ++ cs) m.
Proof.
  revert ps n. induction k as [|k IH]; intros ps [kind i|i cs] Hk Hok He; try (cbn in Hk; lia); try by apply elem_of_nil in He.
  cbn [entries_below] in He. apply list_elem_of_In, in_concat in He as (l & Hl%list_elem_of_In & He%list_elem_of_In). apply list_elem_of_fmap in Hl as (x & -> & Hx).
  rewrite elem_of_std_sort in Hx. apply list_elem_of_fmap in Hx as ([name n] & -> & Hin). cbn [fst snd] in He.
  destruct (children_ok _ _ Hok) as [_ Hch]. destruct (Hch _ _ Hin) as [Hname Hn]. pose proof (child_height i cs _ _ Hin).
  apply elem_of_cons in He as [->|He].
  - exists [name], n. split_and!; [done|by apply Forall_singleton|eapply at_child; [done|constructor]|done].
  - apply IH in He as (cs' & m & Hne & Hall & Hat & ->); [|lia|done].
    exists (name :: cs'), m. split_and!; [done|by constructor|by eapply at_child|]. by rewrite <- app_assoc.
Qed.

Definition classified (entries : list DirectoryEntry) : list PhysicalAsset := omap ClassifyPhysicalAsset entries.

Lemma classified_elem a entries : a ∈ classified entries ->
  exists e, e ∈ entries /\ ClassifyPhysicalAsset e = Some a /\ relative_path a = entry_path e.
Proof.
  intros (e & He & Ha)%list_elem_of_omap. exists e. split_and!; [done..|].
  unfold ClassifyPhysicalAsset in Ha. destruct (bool_decide _); [done|]. by injection Ha as <-.
Qed.

Lemma walked_assets_ok tree : tree_ok tree ->
  distinct_paths (classified (entries_below [] tree))
  /\ Forall (fun a => wf_path (relative_path a)) (classified (entries_below [] tree)).
Proof.
  intros Hok. assert (forall a, a ∈ classified (entries_below [] tree) -> exists cs m, cs <> [] /\ Forall normal_component cs
    /\ at_path tree cs m /\ ClassifyPhysicalAsset (entry_of cs m) = Some a /\ relative_path a = path_of cs) as Hall.
  { intros a (e & He & Hc & Hp)%classified_elem. apply (entries_at_paths (height tree) [] tree) in He as (cs & m & ?&?&?& ->); [|reflexivity|done].
    by exists cs, m. }
  split.
  - intros a b (cs & m & Hne & Hn & Hat & Ha & Hpa)%Hall (cs' & m' & Hne' & Hn' & Hat' & Hb & Hpb)%Hall Heq.
    rewrite Hpa, Hpb in Heq. cbn in Heq. assert (cs = cs') as <-.
    { pose proof (Parse_join cs Hne Hn) as P1. rewrite Heq, Parse_join in P1 by done. by injection P1. }
    assert (m = m') as <- by by eapply at_path_unique. congruence.
  - apply Forall_forall. intros a (cs & m & Hne & Hn & _ & _ & ->)%Hall. unfold wf_path. by apply Parse_join.
Qed.

(** ** What reading a sidecar adds *)

(** [r'] has what [r] has, and errors of [asset] besides its candidates. *)
Definition extends (asset : PhysicalAsset) (r r' : TakeoutParseResult) : Prop :=
  takeout_assets r' = takeout_assets r /\ takeout_relations r' = takeout_relations r
  /\ exists errors, takeout_errors r' = takeout_errors r ++ errors /\ Forall (fun e => error_path e = relative_path asset) errors.

Lemma extends_refl asset r : extends asset r r.
Proof. split_and!; [done..|]. exists []. by rewrite app_nil_r. Qed.

Lemma extends_trans asset a b c : extends asset a b -> extends asset b c -> extends asset a c.
Proof.
  intros (Ha & Hr & e1 & He1 & H1) (Ha' & Hr' & e2 & He2 & H2). split_and!; [congruence..|].
  exists (e1 ++ e2). rewrite He2, He1, app_assoc. split; [done|by apply Forall_app].
Qed.

Lemma extends_AddError asset code message r : extends asset r (AddError (relative_path asset) code message r).
Proof. split_and!; [done..|]. by eexists [_]; split; [|apply Forall_singleton]. Qed.

Lemma extends_AddCandidate asset field value rule evidence r : extends asset r (AddCandidate asset field value rule evidence r).
Proof.
  unfold AddCandidate. repeat (destruct (negb _); [apply extends_AddError|]).
  split_and!; [done..|]. exists []. by rewrite app_nil_r.
Qed.

Lemma extends_title asset document r : extends asset r (extract_title asset document r).
Proof. unfold extract_title. case_match; [case_match|]; first [apply extends_refl|apply extends_AddError|apply extends_AddCandidate]. Qed.
Lemma extends_description asset document r : extends asset r (extract_description asset document r).
Proof. unfold extract_description. case_match; [case_match|]; first [apply extends_refl|apply extends_AddError|apply extends_AddCandidate]. Qed.
Lemma extends_favorite asset document r : extends asset r (extract_favorite asset document r).
Proof. unfold extract_favorite. case_match; [case_match|]; first [apply extends_refl|apply extends_AddError|apply extends_AddCandidate]. Qed.
Lemma extends_taken_time asset document r : extends asset r (extract_taken_time asset document r).
Proof.
  unfold extract_taken_time. repeat (case_match; try apply extends_refl; try apply extends_AddError; try apply extends_AddCandidate).
Qed.

Lemma extends_ExtractMetadata asset document r : extends asset r (ExtractMetadataCandidates asset document r).
Proof.
  unfold ExtractMetadataCandidates. destruct (negb _); [apply extends_AddError|].
  eapply extends_trans; [|apply extends_taken_time]. eapply extends_trans; [|apply extends_favorite].
  eapply extends_trans; [apply extends_title|apply extends_description].
Qed.

Section Parsed.
Context {K : Type} `{Kernel K} `{DirectoryKernel K} (parse : string -> JsonOutcome).

Lemma parse_asset_extends root asset r k r' k' :
  parse_takeout_asset parse root asset r k = (Ok r', k') -> extends asset r r'.
Proof.
  unfold parse_takeout_asset. destruct (asset_kind asset == kUnknown); [intros [= <- _]; apply extends_AddError|].
  destruct (negb _); [intros [= <- _]; apply extends_refl|]. unfold bind, outcome.
  destruct (Linux_OpenSource root (relative_path asset) k) as [[fd|e] k1]; [|intros [= <- _]; apply extends_AddError].
  destruct (scoped _ _ k1) as [[bytes|e] k2]; [|intros [= <- _]; apply extends_AddError].
  destruct (parse bytes) as [document|what|what]; [intros [= <- _]; apply extends_ExtractMetadata|intros [= <- _]; apply extends_AddError|done].
Qed.

Lemma parse_entries_assets root entries r k r' k' :
  Forall (error_from (takeout_assets r)) (takeout_errors r) -> parse_entries parse root entries r k = (Ok r', k') ->
  takeout_assets r' = takeout_assets r ++ classified entries /\ takeout_relations r' = takeout_relations r
  /\ Forall (error_from (takeout_assets r')) (takeout_errors r').
Proof.
  revert r k. induction entries as [|e entries IH]; intros r k Herr; cbn [parse_entries].
  - intros [= <- _]. by rewrite app_nil_r.
  - unfold classified. cbn [omap list_omap]. fold (classified entries).
    destruct (ClassifyPhysicalAsset e) as [a|]; [|by apply IH]. set (r0 := mkTakeoutParseResult _ _ _ _).
    unfold bind. destruct (parse_takeout_asset parse root a r0 k) as [[r1|e1] k1] eqn:Hrun; [|done].
    apply parse_asset_extends in Hrun as (Ha & Hr & errs & He & Herrs). intros Hrest.
    apply IH in Hrest as (Ha' & Hr' & He').
    + rewrite Ha', Ha, Hr', Hr. subst r0. cbn [takeout_assets takeout_relations]. split_and!; [by rewrite <- app_assoc|done|].
      by rewrite Ha', Ha in He'.
    + rewrite He, Ha. cbn [takeout_errors takeout_assets r0]. apply Forall_app. split; eapply Forall_impl; [exact Herr| |exact Herrs|].
      * intros x (b & Hb & Hx). exists b. split; [|done]. apply elem_of_app. by left.
      * intros x Hx. exists a. split; [|done]. apply elem_of_app. right. by apply list_elem_of_singleton.
Qed.

End Parsed.

Lemma collect_all l acc : for_each collect_entry l acc = (Ok tt, acc ++ l).
Proof.
  revert acc. induction l as [|e l IH]; intros acc; cbn [for_each]; [by rewrite app_nil_r|].
  unfold bind, collect_entry at 1. by rewrite IH, <- app_assoc.
Qed.

(** What [Parse] computes on a folder nobody writes to, where no call of the
    walk fails; where one does, it returns that failure. *)
Lemma TakeoutParser_Parse_eq {K : Type} `{UnchangingTree K} parse depth root i cs k :
  resolves (K := K) root = Some (Directory i cs) -> tree_ok (Directory i cs) -> (height (Directory i cs) <= depth)%nat ->
  (exists fd k1, forall iterate, TakeoutParser_Parse parse iterate depth root k
    = scoped (sys_close fd) (let* result := parse_entries parse fd (entries_below [] (Directory i cs)) (mkTakeoutParseResult [] [] [] []) in
                             ret (SortResult (AddRelationErrorsAndCandidates iterate result))) k1)
  \/ (exists e k1, forall iterate, TakeoutParser_Parse parse iterate depth root k = (Err e, k1)).
Proof.
  intros Hroot Htree Hdepth. unfold TakeoutParser_Parse.
  destruct (root_opened root i cs k Hroot) as [(fd & k1 & Hopen & Hf1 & [Hnew [Hv1 Hs1]] & Hstart)|(e & k1 & Hopen & _)].
  2: { right. exists e, k1. intros iterate. unfold bind. by rewrite Hopen. }
  assert (view k1 !! fd = Some (Directory i cs)) as Hfd by (rewrite Hv1; apply lookup_insert_eq).
  pose proof (walk_delivers collect_entry depth fd [] i cs k1 [] Htree (Forall_nil_2 _) Hdepth Hfd Hstart) as [_ Hout].
  destruct (WalkDirectory collect_entry depth fd [] (k1, [])) as [r [k2 entries]] eqn:Hrun. cbn [fst snd] in Hout.
  destruct Hout as [[_ Hall]|(e & handed & -> & _)].
  - rewrite collect_all in Hall. injection Hall as -> ->. left. exists fd, k2. intros iterate. unfold bind at 1. rewrite Hopen.
    unfold scoped, Walk. by rewrite Hrun.
  - right. exists e, (sys_close fd k2). intros iterate. unfold bind at 1. rewrite Hopen. unfold scoped, Walk. by rewrite Hrun.
Qed.

(** ** Sidecars *)

Definition sidecar_relation (media sidecar : PhysicalAsset) : SourceRelationCandidate :=
  mkSourceRelationCandidate (PhysicalAssetIdFor media) (PhysicalAssetIdFor sidecar)
    (if asset_kind sidecar == kSidecarXmp then kXmpSidecarForMedia else kJsonSidecarForMedia)
    (if UsesMediaExtensionSidecarName sidecar then "takeout.sidecar-media-extension.v1" else "takeout.basename.v1")
    (DisplayString (relative_path sidecar) +:+ " matches " +:+ DisplayString (relative_path media)).
Definition is_sidecar_relation (r : SourceRelationCandidate) : Prop :=
  candidate_relation r = kJsonSidecarForMedia \/ candidate_relation r = kXmpSidecarForMedia.

Lemma relate_cases media prefixes x :
  (exists m, media !! x.1.1 = Some [m] /\ (exists y, x.1.2 = [y])
     /\ (relate media prefixes x).1 = mkFound [sidecar_relation m x.2] [])
  \/ ((forall m y, media !! x.1.1 = Some [m] -> x.1.2 <> [y])
      /\ exists code message, (relate media prefixes x).1 = mkFound [] [mkTakeoutParserError (relative_path x.2) code message]).
Proof.
  unfold relate, relate_sidecar. destruct (media !! x.1.1) as [[|m [|]]|].
  - right. split; [done|by eexists _, _].
  - destruct x.1.2 as [|y [|]]; [right; split; [done|by eexists _, _]| |right; split; [done|by eexists _, _]].
    left. exists m. split_and!; [done|by exists y|done].
  - right. split; [done|by eexists _, _].
  - right. split; [done|]. destruct (prefixes !! x.1.1) as [[|y [|]]|]; by eexists _, _.
Qed.

Lemma media_found_kinds g r : r ∈ found_relations (media_found g) -> ~ is_sidecar_relation r.
Proof.
  unfold media_found, relate_raw_jpeg, relate_live_photo, is_sidecar_relation. cbn [found_relations also].
  rewrite elem_of_app.
  intros [Hr|Hr]; revert Hr; (destruct (first_asset _); [|set_solver]); (destruct (second_asset _); [|set_solver]);
    (destruct (_ && _); [|set_solver]); intros ->%list_elem_of_singleton [?|?]; done.
Qed.

Lemma group_of select assets a :
  a ∈ assets -> select (asset_kind a) = true ->
  group_by_key select assets !! BasenameKey a = Some (named select (BasenameKey a) assets)
  /\ a ∈ named select (BasenameKey a) assets.
Proof.
  intros Ha Hs. assert (a ∈ named select (BasenameKey a) assets) as Hin by by apply elem_of_named.
  split; [|done]. rewrite group_by_key_lookup. by destruct (named _ _ _); [set_solver|].
Qed.

(** A pair of the loop over the sidecars. *)
Lemma sidecar_pair iterate assets s :
  iterates iterate -> s ∈ assets -> IsSidecar (asset_kind s) = true ->
  (BasenameKey s, named IsSidecar (BasenameKey s) assets, s) ∈ sidecar_pairs (iterate (group_by_key IsSidecar assets)).
Proof.
  intros Hit Hs Hk. destruct (group_of IsSidecar assets s Hs Hk) as [Hg Hin]. apply elem_of_sidecar_pairs.
  split; [|done]. rewrite (Hit _). by apply elem_of_map_to_list.
Qed.

Section Relations.
Context (iterate : gmap string AssetList -> list (string * AssetList)) (Hit : iterates iterate) (assets : list PhysicalAsset).
Let found := all_found assets (iterate (group_by_key IsMedia assets)) (iterate (group_by_key IsSidecar assets)).
Let media := group_by_key IsMedia assets.
Let prefixes := foldl add_prefixes ∅ (iterate media).
Let pairs := sidecar_pairs (iterate (group_by_key IsSidecar assets)).

Lemma found_of_pair x : x ∈ pairs ->
  (forall r, r ∈ found_relations (relate media prefixes x).1 -> r ∈ found_relations found)
  /\ (forall e, e ∈ found_errors (relate media prefixes x).1 -> e ∈ found_errors found).
Proof.
  intros Hx. assert ((relate media prefixes x).1 ∈ fst ∘ relate media prefixes <$> pairs) as Hin.
  { apply list_elem_of_fmap. by exists x. }
  unfold found, all_found. cbn. split; intros y Hy; rewrite !elem_of_app; left; right; apply elem_of_found_sum; eauto.
Qed.

Lemma sidecar_relations_exact r :
  r ∈ found_relations found /\ is_sidecar_relation r <->
  exists m s, named IsMedia (BasenameKey s) assets = [m] /\ named IsSidecar (BasenameKey s) assets = [s]
    /\ r = sidecar_relation m s.
Proof.
  split.
  - intros [Hr Hkind]. unfold found, all_found in Hr. cbn in Hr. rewrite !elem_of_app in Hr.
    destruct Hr as [[Hr|Hr]|Hr]; apply elem_of_found_sum in Hr as (f & Hf & Hr); apply list_elem_of_fmap in Hf as (x & -> & Hx).
    + by apply media_found_kinds in Hr.
    + apply elem_of_sidecar_pairs in Hx as [Hg Hs]. apply iterates_elem in Hg; [|done].
      destruct (group_elem _ _ _ _ _ Hg Hs) as (_ & _ & Hkey). unfold compose in Hr.
      destruct (relate_cases media prefixes x) as [(m & Hm & (y & Hy) & Hrel)|(_ & code & msg & Hrel)].
      * fold media prefixes in Hr. rewrite Hrel in Hr. apply list_elem_of_singleton in Hr as ->.
        rewrite Hy in Hs. rewrite Hy in Hg. apply list_elem_of_singleton in Hs as Heq. rewrite Heq in Hkey |- *. exists m, y. rewrite Hkey.
        unfold media in Hm. rewrite group_by_key_lookup in Hm, Hg.
        destruct (named IsMedia x.1.1 assets), (named IsSidecar x.1.1 assets); by simplify_eq.
      * fold media prefixes in Hr. rewrite Hrel in Hr. by apply elem_of_nil in Hr.
    + by apply elem_of_nil in Hr.
  - intros (m & s & Hm & Hs & ->). split; [|unfold is_sidecar_relation; cbn; case_bool_decide; [by right|by left]].
    assert (s ∈ named IsSidecar (BasenameKey s) assets) as Hin by (rewrite Hs; by apply list_elem_of_singleton).
    apply elem_of_named in Hin as (Ha & Hk & _). pose proof (sidecar_pair iterate assets s Hit Ha Hk) as Hp.
    apply (found_of_pair _ Hp). rewrite Hs.
    destruct (relate_cases media prefixes (BasenameKey s, [s], s)) as [(m' & Hm' & _ & ->)|(Hno & _)].
    + cbn in Hm'. unfold media in Hm'. rewrite group_by_key_lookup, Hm in Hm'. injection Hm' as <-. by apply list_elem_of_singleton.
    + exfalso. apply (Hno m s); [|done]. cbn. unfold media. by rewrite group_by_key_lookup, Hm.
Qed.

Lemma sidecars_accounted s : s ∈ assets -> IsSidecar (asset_kind s) = true ->
  (exists r, r ∈ found_relations found /\ sidecar_asset_id r = PhysicalAssetIdFor s)
  \/ (exists e, e ∈ found_errors found /\ error_path e = relative_path s).
Proof.
  intros Hs Hk. pose proof (sidecar_pair iterate assets s Hit Hs Hk) as Hp. destruct (found_of_pair _ Hp) as [Hr He].
  destruct (relate_cases media prefixes (BasenameKey s, named IsSidecar (BasenameKey s) assets, s))
    as [(m & _ & _ & Hrel)|(_ & code & msg & Hrel)]; rewrite Hrel in Hr, He; [left|right]; eexists;
    (split; [first [apply Hr | apply He]; by apply list_elem_of_singleton|done]).
Qed.

End Relations.

(** ** Properties *)

(** C26. The result of a Takeout folder does not depend on the order of the
    hash maps: for every kernel whose tree nobody writes to meanwhile,
    whichever of its calls fail and whatever reading and parsing the sidecars
    gives, two libraries that give the elements of a map in different orders
    lead to the same assets, candidates, relations and errors in the same
    order. *)
Theorem takeout_ignores_hash_order {K : Type} `{UnchangingTree K} parse iterate1 iterate2 depth root i cs k :
  resolves (K := K) root = Some (Directory i cs) -> tree_ok (Directory i cs) -> (height (Directory i cs) <= depth)%nat ->
  iterates iterate1 -> iterates iterate2 ->
  TakeoutParser_Parse parse iterate1 depth root k = TakeoutParser_Parse parse iterate2 depth root k.
Proof.
  intros Hroot Htree Hdepth Hit1 Hit2. destruct (walked_assets_ok _ Htree) as [Hd Hwf].
  destruct (TakeoutParser_Parse_eq parse depth root i cs k Hroot Htree Hdepth) as [(fd & k1 & Hrun)|(e & k1 & Hrun)];
    rewrite !Hrun; [|done]. unfold scoped, bind. destruct (parse_entries _ _ _ _ k1) as [[r|e] k2] eqn:Hentries; [|done].
  unfold ret. do 2 f_equal. apply parse_entries_assets in Hentries as (Ha & Hr & He); [|constructor].
  cbn [takeout_assets takeout_relations app] in Ha, Hr. apply relations_ignore_hash_order; rewrite ?Ha; try done.
  rewrite Ha in He. eapply Forall_impl; [exact He|]. intros x (a & Hin & ->). rewrite Forall_forall in Hwf. by apply Hwf.
Qed.

(** C25. A sidecar is paired with a photo exactly when the two are the only
    ones of their directory and base name - the name of a sidecar read without
    the media extension it may carry - with the relation its kind calls for;
    every other sidecar is reported, whatever the order of the hash maps. *)
Theorem sidecars_are_paired_or_reported iterate result :
  iterates iterate -> takeout_relations result = [] ->
  let assets := takeout_assets result in
  let result' := AddRelationErrorsAndCandidates iterate result in
  (forall r, r ∈ takeout_relations result' /\ is_sidecar_relation r <->
     exists m s, named IsMedia (BasenameKey s) assets = [m] /\ named IsSidecar (BasenameKey s) assets = [s]
       /\ r = sidecar_relation m s)
  /\ (forall s, s ∈ assets -> IsSidecar (asset_kind s) = true ->
        (exists r, r ∈ takeout_relations result' /\ sidecar_asset_id r = PhysicalAssetIdFor s)
        \/ (exists e, e ∈ takeout_errors result' /\ error_path e = relative_path s)).
Proof.
  intros Hit Hrel. cbn zeta. rewrite (AddRelationErrorsAndCandidates_eq (takeout_assets result)) by done.
  rewrite Hrel. cbn. split; [by apply sidecar_relations_exact|]. intros s Hs Hk.
  destruct (sidecars_accounted iterate Hit _ s Hs Hk) as [?|(e & ? & ?)]; [by left|right].
  exists e. split; [|done]. apply elem_of_app. by right.
Qed.

(** ** A folder with a pair, a RAW+JPEG pair, two sidecars of one name and an
    orphan *)

Module TakeoutDemo.
Definition asset (s ext : string) (kind : AssetKind) : PhysicalAsset :=
  mkPhysicalAsset (match Parse s with Ok p => p | Err _ => path_of [] end) (FileIdentity.mk 1 2 3 4 5 None) kind ext.
Definition assets : list PhysicalAsset :=
  [asset "a.jpg" "jpg" kMedia; asset "a.jpg.json" "json" kSidecarJson; asset "b.arw" "arw" kMedia; asset "b.JPG" "jpg" kMedia;
   asset "c.json" "json" kSidecarJson; asset "c.xmp" "xmp" kSidecarXmp; asset "c.png" "png" kMedia; asset "d.json" "json" kSidecarJson].
Definition result : TakeoutParseResult := mkTakeoutParseResult assets [] [] [].
Definition backwards (m : gmap string AssetList) : list (string * AssetList) := reverse (map_to_list m).
Definition parse (_ : string) : JsonOutcome := ParseError "not JSON".
End TakeoutDemo.

Lemma demo_iterates : iterates map_to_list /\ iterates TakeoutDemo.backwards.
Proof. split; intros m; [done|apply reverse_Permutation]. Qed.

Lemma takeout_ignores_hash_order_witness :
  TakeoutParser_Parse TakeoutDemo.parse map_to_list 3 "/photos" TreeDemo.disk
  = TakeoutParser_Parse TakeoutDemo.parse TakeoutDemo.backwards 3 "/photos" TreeDemo.disk.
Proof.
  assert (height TreeDemo.tree <= 3)%nat as Hheight by (vm_compute; lia).
  exact (takeout_ignores_hash_order TakeoutDemo.parse map_to_list TakeoutDemo.backwards 3 "/photos" (TreeDemo.info 1 0)
    TreeDemo.children TreeDemo.disk eq_refl demo_tree_ok Hheight (proj1 demo_iterates) (proj2 demo_iterates)).
Defined.

Lemma sidecars_are_paired_or_reported_witness :
  sidecar_relation (TakeoutDemo.asset "a.jpg" "jpg" kMedia) (TakeoutDemo.asset "a.jpg.json" "json" kSidecarJson)
    ∈ takeout_relations (AddRelationErrorsAndCandidates TakeoutDemo.backwards TakeoutDemo.result)
  /\ candidate_rule (sidecar_relation (TakeoutDemo.asset "a.jpg" "jpg" kMedia) (TakeoutDemo.asset "a.jpg.json" "json" kSidecarJson))
     = "takeout.sidecar-media-extension.v1".
Proof.
  split; [|by vm_compute].
  destruct (sidecars_are_paired_or_reported TakeoutDemo.backwards TakeoutDemo.result (proj2 demo_iterates) eq_refl) as [Hexact _].
  apply Hexact. eexists _, _. split_and!; [| |reflexivity]; by vm_compute.
Defined.
