(* ===== verification/Layout.v ===== *)
(** * Layout: the directories of a workspace

    Models src/app/workspace_layout.cpp, src/app/workspace_service.cpp and
    [ReadPlanFile] of src/pipeline/pipeline_shared.cpp over a class of the
    queries of std::filesystem and ifstream they make. *)

From S2P Require Import Prelude Status Bytes RelativePath Assets Json PlanArtifact Sqlite FileOps.

(** [std::filesystem::exists] and [is_directory] with an error code, whose
    message is on the left; a file read whole through an [std::ifstream], none
    when it does not open, and an exception when reading fails. *)
Class PathQueries (W : Type) := {
  fs_exists : string -> W -> (string + bool) * W;
  fs_is_directory : string -> W -> (string + bool) * W;
  fs_read : string -> W -> Exn (option string) * W;
}.

(** ** Paths *)

(** [path / name] for a relative name. *)
Definition path_append (path name : string) : string :=
  if str_empty path then name
  else match last_byte path with
       | Some c => if bool_decide (c = slash) then path +:+ name else path +:+ String slash name
       | None => name
       end.

(** [path.parent_path()]: without the name and the slashes before it, which
    stand for the root when nothing is left. *)
Fixpoint trim_slashes (fuel : nat) (path : string) : string :=
  match fuel with
  | O => path
  | S fuel => if bool_decide (last_byte path = Some slash)
              then trim_slashes fuel (str_take (String.length path - 1) path) else path
  end.
Definition path_parent (path : string) : string :=
  match rfind slash path with
  | None => ""
  | Some n =>
      let parent := trim_slashes n (str_take n path) in
      if str_empty parent then String slash "" else parent
  end.

(** [ReadPlanFile(path)]; reading through the iterators sets no [badbit] of
    its own, so what fails there is the exception. *)
Definition ReadPlanFile {W} `{PathQueries W} (path : string) : M W string := fun w =>
  let (bytes, w) := fs_read path w in
  (let* bytes := throwing bytes in
   match bytes with
   | None => throw (mkStatus StatusCode.kNotFound ("open frozen plan: " +:+ path))
   | Some bytes => ret bytes
   end) w.

(** ** The layout *)

Record WorkspaceLayout := mkWorkspaceLayout {
  layout_root : string;
  layout_database : string;
  layout_manifests : string;
  layout_plans : string;
  layout_reports : string;
  layout_logs : string;
  layout_locks : string;
}.

(** [WorkspaceLayout::FromRoot] *)
Definition FromRoot (root : string) : StatusOr WorkspaceLayout :=
  if str_empty root then Err (Invalid "workspace root must not be empty")
  else Ok (mkWorkspaceLayout root (path_append root "photobridge.db") (path_append root "manifests") (path_append root "plans")
             (path_append root "reports") (path_append root "logs") (path_append root "locks")).

(** ** [WorkspaceService] *)

(** [std::filesystem::create_directories(path, error)]: the message of an error. *)
Class DirectoryMaker (W : Type) := { fs_create_directories : string -> W -> option string * W }.

Section Initialize.
Context {W : Type} `{PathQueries W} `{DirectoryMaker W}.
(** [SqliteConnection::Open(path)] and [EnsureSchema]. *)
Context (OpenWorkspaceDatabase : string -> M W unit).

Definition FileSystemError (path message : string) : Status :=
  mkStatus StatusCode.kIoError ("workspace operation failed for '" +:+ path +:+ "': " +:+ message).

Fixpoint create_all (directories : list string) : M W unit :=
  match directories with
  | [] => ret tt
  | directory :: directories => fun w =>
      match fs_create_directories directory w with
      | (Some message, w) => (Err (FileSystemError directory message), w)
      | (None, w) => create_all directories w
      end
  end.

Definition layout_directories (layout : WorkspaceLayout) : list string :=
  [layout_root layout; layout_manifests layout; layout_plans layout; layout_reports layout; layout_logs layout; layout_locks layout].

(** An error of [is_directory] makes it false and is not looked at again. *)
Definition check_database_path (path : string) : M W unit := fun w =>
  match fs_exists path w with
  | (inl message, w) => (Err (FileSystemError path message), w)
  | (inr false, w) => (Ok tt, w)
  | (inr true, w) =>
      match fs_is_directory path w with
      | (inr true, w) =>
          (Err (mkStatus StatusCode.kAlreadyExists ("workspace database path is a directory: " +:+ path)), w)
      | (_, w) => (Ok tt, w)
      end
  end.

(** [WorkspaceService::Initialize] *)
Definition Initialize (layout : WorkspaceLayout) : M W unit :=
  do* create_all (layout_directories layout);
  do* check_database_path (layout_database layout);
  OpenWorkspaceDatabase (layout_database layout).

End Initialize.
