(* ===== verification/PlanService.v ===== *)
(** * PlanService: a frozen manifest becomes a plan artifact

    Models src/pipeline/plan_service.cpp: the assets of a manifest read back
    and checked column by column, their mapping to target paths, the plan and
    its artifact, and the file that publishes it.  Opening the database and
    its schema (Schema.v) is a parameter. *)

From stdpp Require Import pretty.
From S2P Require Import Prelude Status Bytes Order RelativePath Task Capability Assets PathMapper CanonicalPlan Json PlanArtifact Sqlite Tables Materialize FileOps CopyVerify ManifestBuilder Walker Layout.

(** ** Reading the assets of a manifest *)

Definition ReadUnsignedInteger (column : Z) (field_name : string) : StatusOr Z :=
  if column <? 0 then Err (Internal ("manifest field is negative: " +:+ field_name)) else Ok (to_uint64 column).

Definition kind_of_int (kind : Z) : StatusOr AssetKind :=
  if kind =? 0 then Ok kMedia else if kind =? 1 then Ok kSidecarJson else if kind =? 2 then Ok kSidecarXmp
  else if kind =? 3 then Ok kAlbumMetadata else if kind =? 4 then Ok kUnknown
  else Err (Internal "manifest asset kind is unknown").

(** One row; its columns have the types of the schema. *)
Definition asset_of_row (row : AssetRow) : StatusOr PhysicalAsset :=
  if str_empty (as_relative_path row) then Err (Internal "manifest relative path is empty")
  else
    let? relative_path := RelativePath.Parse (as_relative_path row) in
    let? device := ReadUnsignedInteger (as_device row) "device" in
    let? inode := ReadUnsignedInteger (as_inode row) "inode" in
    let? size := ReadUnsignedInteger (as_size row) "size" in
    let? kind := kind_of_int (as_kind row) in
    Ok (mkPhysicalAsset relative_path
          (FileIdentity.mk device inode size (as_mtime_ns row) (as_ctime_ns row) None) kind "").

(** ORDER BY relative_path ASC, a key within a manifest. *)
Definition row_path_less (a b : AssetRow) : bool := str_less (as_relative_path a) (as_relative_path b).
Definition select_plan_rows (id : string) (db : ManifestDb) : list AssetRow :=
  std_sort row_path_less (snd <$> assets_of id db).

Definition push_row_asset (assets : list PhysicalAsset) (row : AssetRow) : StatusOr (list PhysicalAsset) :=
  let? asset := asset_of_row row in Ok (assets ++ [asset]).

(** [SqliteReadError] is [SqliteError]. *)
Fixpoint read_assets (rows : list AssetRow) (assets : list PhysicalAsset) : sql (list PhysicalAsset) :=
  do* api_call (SqliteError "read manifest asset");
  match rows with
  | [] => ret assets
  | row :: rows => let* assets := lift (push_row_asset assets row) in read_assets rows assets
  end.
Definition ReadManifestAssets (manifest_id : string) : sql (list PhysicalAsset) :=
  do* api_call (SqliteError "prepare manifest asset read");
  do* api_call (SqliteError "bind manifest id for asset read");
  fun s => read_assets (select_plan_rows manifest_id (current_db s)) [] s.

(** ** The plan *)

Section Planning.
Context (Blake3 : string -> Digest).

(** The loop over the physical assets. *)
Fixpoint logical_of (assets : list PhysicalAsset) : StatusOr (list LogicalAsset) :=
  match assets with
  | [] => Ok []
  | asset :: assets =>
      let? logical := MapPhysicalAssetToLogicalAsset Blake3 asset in
      let? rest := logical_of assets in
      Ok (logical :: rest)
  end.

(** One turn of the loop over the mappings: the two [find_if]. *)
Definition bind_mapping (physical_assets : list PhysicalAsset) (logical_assets : list LogicalAsset) (mapping : PathMapping)
    : StatusOr MinimalPlanAsset :=
  match List.find (fun candidate => logical_id candidate == mapping_id mapping) logical_assets with
  | Some (mkLogicalAsset id [member] (Some source)) =>
      match List.find (fun candidate => PhysicalAssetIdFor candidate == member) physical_assets with
      | Some physical => Ok (mkMinimalPlanAsset id member source (mapping_path mapping) (identity physical))
      | None => Err (Internal "logical asset member is missing from manifest")
      end
  | _ => Err (Internal "logical asset mapping cannot be bound to one source")
  end.
Fixpoint bind_mappings (physical_assets : list PhysicalAsset) (logical_assets : list LogicalAsset) (mappings : list PathMapping)
    : StatusOr (list MinimalPlanAsset) :=
  match mappings with
  | [] => Ok []
  | mapping :: mappings =>
      let? asset := bind_mapping physical_assets logical_assets mapping in
      let? rest := bind_mappings physical_assets logical_assets mappings in
      Ok (asset :: rest)
  end.

(** [MigrationPolicy{}] *)
Definition default_policy : MigrationPolicy := mkMigrationPolicy "" true 255 4096.

(** From the logical assets to the plan. *)
Definition plan_of_assets (manifest : FrozenManifest) (target_path : string) (physical_assets : list PhysicalAsset)
    (logical_assets : list LogicalAsset) : StatusOr MinimalPlanInput :=
  let? mappings := MapAll logical_assets LocalDirectoryCapabilitiesV1 default_policy in
  let? plan_assets := bind_mappings physical_assets logical_assets mappings in
  Build (mkMinimalPlanInput (frozen_manifest_id manifest) (frozen_manifest_digest manifest) target_path
           LocalDirectoryCapabilitiesV1 default_policy plan_assets).

End Planning.

(** ** The file *)

Section Files.
Context {W : Type} `{FileOps W} `{PathQueries W}.

(** [if (!result.ok()) { cleanup(); return result.status(); }] *)
Definition or_cleanup {A} (cleanup : M W unit) (c : M W A) : M W A :=
  let* result := outcome c in
  match result with
  | Ok a => ret a
  | Err e => do* outcome cleanup; throw e
  end.

(** One turn of the loop, on the bytes from [offset] on. *)
Definition plan_write_body (temporary : Fd) (cleanup : M W unit) (remaining : string) : M W (string + unit) :=
  if str_empty remaining then ret (inr tt)
  else
    let* written := or_cleanup cleanup (Write temporary remaining) in
    if (written =? 0)%nat
    then do* outcome cleanup; throw (mkStatus StatusCode.kIoError "plan artifact write made no progress")
    else ret (inl (str_drop written remaining)).

(** Where the path does not exist yet. *)
Definition publish_plan_file (path bytes : string) : M W unit :=
  let* parent := OpenRoot (path_parent path) kExisting in
  let final_name := file_name path in
  let temp_name := ".pbtmp." +:+ final_name in
  let* temporary := CreateTempNoReplace parent temp_name 384 in
  let cleanup := UnlinkAt parent temp_name in
  do* within (write_turns bytes) (plan_write_body temporary cleanup) bytes;
  do* or_cleanup cleanup (Fdatasync temporary);
  do* RenameNoReplace parent temp_name parent final_name;
  FsyncDirectory parent.

Definition WritePlanFile (path bytes : string) : M W unit := fun w =>
  match fs_exists path w with
  | (inl message, w) => (Err (mkStatus StatusCode.kIoError ("check plan artifact path: " +:+ message)), w)
  | (inr false, w) => publish_plan_file path bytes w
  | (inr true, w) =>
      match fs_is_directory path w with
      | (inr true, w) => (Err (mkStatus StatusCode.kAlreadyExists ("plan artifact path is a directory: " +:+ path)), w)
      | (inl message, w) => (Err (mkStatus StatusCode.kIoError ("inspect plan artifact path: " +:+ message)), w)
      | (inr false, w) =>
          let (existing, w) := fs_read path w in
          (let* existing := throwing existing in
           match existing with
           | None => throw (mkStatus StatusCode.kIoError ("open existing plan artifact: " +:+ path))
           | Some existing_bytes =>
               require (existing_bytes == bytes)
                 (mkStatus StatusCode.kAlreadyExists ("plan artifact already exists with different bytes: " +:+ path))
           end) w
      end
  end.

End Files.

(** ** [class PlanService] *)

Section PlanService.
Context {W : Type} `{FileOps W} `{PathQueries W} `{Console W}.
Context (Blake3 : string -> Digest) (dump : Json -> Exn string).

Section Execute.
(** [SqliteConnection::Open(layout.database)] and [EnsureSchema]. *)
Context (OpenDatabase : M W (Conn ManifestDb)).

(** The connection lives to the end of the command. *)
Definition with_connection {A} (body : M (W * Conn ManifestDb) A) : M W A :=
  let* connection := OpenDatabase in
  fun w => let (r, s) := body (w, connection) in (r, s.1).

Definition plan_completed (artifact_path : string) (artifact : FrozenPlanFile) (loss_analysis : LossAnalysis) : string :=
  "plan completed: " +:+ artifact_path +:+ " assets=" +:+ pretty (Z.of_nat (length (assets (frozen_plan artifact))))
  +:+ " artifact_digest=" +:+ ToHex (artifact_digest artifact) +:+ " semantic_digest=" +:+ ToHex (semantic_digest artifact)
  +:+ " capability_losses=" +:+ pretty (Z.of_nat (length (losses loss_analysis))) +:+ String LF "".

Definition PlanService_Execute (plans input_path target_path : string) : M W unit :=
  do* require (negb (str_empty target_path)) (Invalid "plan stage requires a target root");
  with_connection (
    let* manifest := on_sink (Reopen Blake3 input_path) in
    let* physical_assets := on_sink (ReadManifestAssets (frozen_manifest_id manifest)) in
    let* logical_assets := lift (logical_of Blake3 physical_assets) in
    let* loss_analysis := lift (AnalyzeCapabilityLoss LocalDirectoryCapabilitiesV1) in
    let* plan := lift (plan_of_assets manifest target_path physical_assets logical_assets) in
    let plan_id := "plan-" +:+ ToHex (SemanticDigestFor Blake3 plan) in
    let* artifact := throwing (WriteFrozenPlan Blake3 dump plan plan_id) in
    let* artifact := lift artifact in
    let artifact_path := path_append plans (plan_id +:+ ".plan.jsonl") in
    do* on_kernel (WritePlanFile artifact_path (frozen_bytes artifact));
    on_kernel (Print (plan_completed artifact_path artifact loss_analysis))).

End Execute.

Definition RunPlanService (OpenDatabase : string -> M W (Conn ManifestDb)) (layout : WorkspaceLayout)
    (input_path target_path : string) : M W unit :=
  PlanService_Execute (OpenDatabase (layout_database layout)) (layout_plans layout) input_path target_path.

End PlanService.
