(* ===== verification/PlanTheorems.v ===== *)
(** * PlanTheorems: a plan is its manifest, and is published whole

    The plan made from a frozen manifest lists each of its assets once, bound
    to its own identity and path; the file that holds it appears under its
    name only after all its bytes are on the disk. *)

From stdpp Require Import pretty.
From S2P Require Import Prelude Status Bytes Order RelativePath Task Capability Assets PathMapper CanonicalPlan Json PlanArtifact Sqlite Logic Tables Materialize FileOps CopyVerify CopyTheorems Logs ManifestBuilder ManifestTheorems Walker PlanArtifactTheorems Layout PlanService.

(** ** From physical assets to the plan *)

(** [find_if] by a key that is unique. *)
Lemma find_unique {A} (key : A -> string) l x :
  NoDup (key <$> l) -> x ∈ l -> List.find (fun c => key c == key x) l = Some x.
Proof.
  induction l as [|y l IH]; intros Hnd Hx; [by apply not_elem_of_nil in Hx|].
  cbn in Hnd. apply NoDup_cons in Hnd as [Hy Hnd]. cbn [List.find].
  apply elem_of_cons in Hx as [->|Hx]; [by rewrite bool_decide_eq_true_2|].
  rewrite bool_decide_eq_false_2; [by apply IH|]. intros Heq. apply Hy. rewrite Heq. by apply list_elem_of_fmap_2.
Qed.

(** Related lists where the relation is a function on the left one. *)
Lemma Forall2_function {A B} (R : A -> B -> Prop) (f : A -> B) l l' :
  (forall a b, a ∈ l -> R a b -> b = f a) -> Forall2 R l l' -> l' = f <$> l.
Proof.
  intros HR. induction 1 as [|a b l l' Hab _ IH]; [done|]. cbn. f_equal; [apply HR; [by left|done]|].
  apply IH. intros x y Hx. apply HR. by right.
Qed.

Section Planned.
Context (Blake3 : string -> Digest).

(** The logical asset of one file, and its line in a plan. *)
Definition single_id (asset : PhysicalAsset) : string :=
  "logical-" +:+ ToHex (Blake3 (logical_payload [PhysicalAssetIdFor asset])).
Definition single_asset (asset : PhysicalAsset) : LogicalAsset :=
  mkLogicalAsset (single_id asset) [PhysicalAssetIdFor asset] (Some (relative_path asset)).
Definition planned (asset : PhysicalAsset) : MinimalPlanAsset :=
  mkMinimalPlanAsset (single_id asset) (PhysicalAssetIdFor asset) (relative_path asset) (relative_path asset)
    (identity asset).

Lemma MapPhysicalAsset_single asset : MapPhysicalAssetToLogicalAsset Blake3 asset = Ok (single_asset asset).
Proof. by unfold MapPhysicalAssetToLogicalAsset, LogicalAssetIdForMembers. Qed.

Lemma logical_of_single assets : logical_of Blake3 assets = Ok (single_asset <$> assets).
Proof. induction assets as [|a l IH]; [done|]. cbn [logical_of]. by rewrite MapPhysicalAsset_single, IH. Qed.

(** Under the default policy a file keeps its path. *)
Lemma Map_default asset caps m :
  wf_path (relative_path asset) -> Map (single_asset asset) caps default_policy = Ok m ->
  m = mkPathMapping (single_id asset) (relative_path asset).
Proof.
  intros Hwf. unfold Map. rewrite !check_Ok. intros (_ & _ & Hm). revert Hm. cbn.
  rewrite !check_Ok. intros (_ & _ & _ & Hm). revert Hm. unfold BuildTargetPath. cbn. rewrite Hwf. cbn [bind_or].
  rewrite check_Ok. intros [_ Hm]. revert Hm. destruct (_ && _); [done|]. by intros [= <-].
Qed.

Lemma bind_mapping_planned physical p :
  NoDup (single_id <$> physical) -> p ∈ physical ->
  bind_mapping physical (single_asset <$> physical) (mkPathMapping (single_id p) (relative_path p)) = Ok (planned p).
Proof.
  intros Hnd Hp. unfold bind_mapping. cbn [mapping_id mapping_path].
  change (single_id p) with (logical_id (single_asset p)). rewrite (find_unique logical_id).
  - cbn [single_asset]. rewrite (find_unique PhysicalAssetIdFor); [done| |done].
    revert Hnd. unfold single_id. intros Hnd.
    apply (NoDup_fmap_1 (fun id => "logical-" +:+ ToHex (Blake3 (logical_payload [id])))).
    by rewrite <- list_fmap_compose.
  - rewrite <- list_fmap_compose. exact Hnd.
  - by apply list_elem_of_fmap_2.
Qed.

Lemma bind_mappings_Ok physical logical ms l :
  bind_mappings physical logical ms = Ok l -> Forall2 (fun m a => bind_mapping physical logical m = Ok a) ms l.
Proof.
  revert l. induction ms as [|m ms IH]; intros l; cbn [bind_mappings]; [by intros [= <-]|].
  intros (a & Ha & (rest & Hrest & [= <-])%bind_or_Ok)%bind_or_Ok. constructor; [done|]. by apply IH.
Qed.

(** The plan of a list of assets is those assets. *)
Lemma plan_of_assets_planned manifest target physical plan :
  Forall (fun a => wf_path (relative_path a)) physical ->
  plan_of_assets manifest target physical (single_asset <$> physical) = Ok plan ->
  assets plan ≡ₚ planned <$> physical
  /\ valid_plan plan /\ target_root plan = target /\ source_manifest_id plan = frozen_manifest_id manifest
  /\ source_manifest_digest plan = frozen_manifest_digest manifest.
Proof.
  intros Hwf (ms & Hms & (l & Hl & Hbuild)%bind_or_Ok)%bind_or_Ok. pose proof (Build_Ok _ _ Hbuild) as [Hvalid _].
  unfold Build in Hbuild. apply check_Ok in Hbuild as [_ [= <-]]. split; [|by split_and!].
  cbn [assets CanonicalMinimalPlan_of]. rewrite std_sort_perm. apply MapAll_Ok in Hms as ((each & Heach & Hp) & _ & Hids & _).
  apply Forall2_fmap_l, (Forall2_function _ (fun p => mkPathMapping (single_id p) (relative_path p))) in Heach as ->.
  2:{ intros p m Hp' Hm. rewrite Forall_forall in Hwf. eapply Map_default; [by apply Hwf|exact Hm]. }
  assert (NoDup (single_id <$> physical)) as Hnd.
  { revert Hids. by rewrite Hp, <- list_fmap_compose. }
  apply bind_mappings_Ok in Hl. destruct (Permutation_Forall2 Hp Hl) as (l' & -> & Hl').
  apply Forall2_fmap_l, (Forall2_function _ planned) in Hl' as ->; [done|].
  intros p a Hin Ha. unfold compose in Ha. rewrite bind_mapping_planned in Ha by done. by injection Ha as <-.
Qed.

End Planned.

(** ** Reading the manifest back *)

(** What the columns keep of an identity and of an asset. *)
Definition stored_identity (i : FileIdentity.t) : FileIdentity.t :=
  FileIdentity.mk (FileIdentity.device i) (FileIdentity.inode i) (FileIdentity.size i) (FileIdentity.mtime_ns i)
    (FileIdentity.ctime_ns i) None.
Definition stored (asset : PhysicalAsset) : PhysicalAsset :=
  mkPhysicalAsset (relative_path asset) (stored_identity (identity asset)) (asset_kind asset) "".
Definition storable (asset : PhysicalAsset) : Prop := wf_path (relative_path asset) /\ wf_identity (identity asset).

Lemma ReadUnsignedInteger_id v what : is_uint64 v -> ReadUnsignedInteger v what = Ok v.
Proof.
  unfold ReadUnsignedInteger, is_uint64, uint64_max, to_uint64. intros Hv.
  destruct (Z.ltb_spec v 0); [lia|]. by rewrite Z.mod_small by lia.
Qed.

Lemma wf_path_not_empty p : wf_path p -> str_empty (raw_bytes p) = false.
Proof. unfold wf_path, RelativePath.Parse. by destruct (str_empty (raw_bytes p)). Qed.

Lemma asset_of_row_stored asset : storable asset -> asset_of_row (row_of_asset asset) = Ok (stored asset).
Proof.
  intros [Hpath (Hdev & Hino & Hsize & _)]. unfold asset_of_row, row_of_asset. cbn.
  rewrite (wf_path_not_empty _ Hpath), Hpath. cbn [bind_or].
  rewrite !ReadUnsignedInteger_id by done. by destruct asset as [p i [] e].
Qed.

Lemma wp_read_assets rows assets Q w n :
  (forall l, Forall2 (fun row a => asset_of_row row = Ok a) rows l -> Q (assets ++ l) w n) ->
  wp (read_assets rows assets) Q w n.
Proof.
  revert assets. induction rows as [|row rows IH]; intros assets HQ; cbn [read_assets].
  - apply wp_bind, wp_api, wp_ret. rewrite <- (app_nil_r assets). by apply HQ.
  - apply wp_bind, wp_api, wp_bind, wp_lift. intros l (a & Ha & [= <-])%bind_or_Ok. apply IH. intros l Hl.
    rewrite <- app_assoc. apply HQ. by constructor.
Qed.

Lemma rows_read_back added rows l :
  rows ≡ₚ row_of_asset <$> added -> Forall storable added -> Forall2 (fun row a => asset_of_row row = Ok a) rows l ->
  l ≡ₚ stored <$> added.
Proof.
  intros Hp Hst Hl. destruct (Permutation_Forall2 Hp Hl) as (l' & -> & Hl'). apply Forall2_fmap_l in Hl'.
  apply (Forall2_function _ stored) in Hl' as ->; [done|]. intros a b Ha Hb. rewrite Forall_forall in Hst.
  unfold compose in Hb. rewrite asset_of_row_stored in Hb by auto. by injection Hb as <-.
Qed.

Lemma commits_ReadManifestAssets id added db :
  assets_of id db ≡ₚ row_entry <$> added -> Forall storable added ->
  commits (ReadManifestAssets id) (fun l db' => db' = db /\ l ≡ₚ stored <$> added) db.
Proof.
  intros Hrows Hst. apply commits_wp. intros n. unfold ReadManifestAssets. wp_run.
  intros s a s' Hw Hn Hrun. rewrite Hw in Hrun. refine (wp_read_assets _ _ (fun l db' _ => db' = db /\ l ≡ₚ stored <$> added) _ _ _ s a s' Hw Hn Hrun).
  intros l Hl. split; [done|]. eapply rows_read_back; [|done|exact Hl]. unfold select_plan_rows.
  by rewrite std_sort_perm, Hrows, <- list_fmap_compose.
Qed.

(** [Reopen] gives the manifest whose digest it has found to be right. *)
Definition verified_manifest (Blake3 : string -> Digest) (db : ManifestDb) (m : FrozenManifest) : Prop :=
  exists row, manifests db !! frozen_manifest_id m = Some row /\ man_state row = kManifestFrozen
    /\ man_digest row = Some (bytes (frozen_manifest_digest m))
    /\ frozen_manifest_digest m = content_digest Blake3 (frozen_manifest_id m) (source_of row) db.

Lemma commits_Reopen Blake3 id db :
  commits (Reopen Blake3 id)
    (fun m db' => db' = db /\ frozen_manifest_id m = id /\ verified_manifest Blake3 db m) db.
Proof.
  unfold Reopen. apply commits_bind, commits_require. intros _. apply commits_transaction. intros n.
  unfold ReadFrozenBody, BindTextField, bind_value. wp_run. unfold select_frozen.
  destruct (manifests db !! id) as [row|] eqn:Hrow; cbn; [|apply wp_throw]. wp_run.
  destruct (man_digest row) as [blob|] eqn:Hblob; cbn; [|apply wp_throw].
  destruct (digest_of_blob blob) as [digest|] eqn:Hdigest; [|apply wp_throw]. wp_run.
  apply wp_ComputeManifestDigest. intros row' Hrow' _. rewrite Hrow in Hrow'. injection Hrow' as <-. wp_run.
  bool_hyps. apply digest_of_blob_Some in Hdigest as ->. split; [done|]. split; [done|]. exists row. by split_and!.
Qed.

(** ** The log of a publication *)

#[export] Instance world_PathQueries {F D} `{PathQueries F} : PathQueries (World F D) := {|
  fs_exists path w := let (r, f) := fs_exists path (files w) in (r, mkWorld f (store w) (log w));
  fs_is_directory path w := let (r, f) := fs_is_directory path (files w) in (r, mkWorld f (store w) (log w));
  fs_read path w := let (r, f) := fs_read path (files w) in (r, mkWorld f (store w) (log w));
|}.

Definition temp_of (path : string) : string := ".pbtmp." +:+ file_name path.

(** A new temporary file, all the bytes, their sync, the rename that replaces
    nothing, and the sync of the directory, which returns [r]. *)
Inductive published (path bytes : string) (r : StatusOr unit) : list Event -> Prop :=
  | published_intro parent temporary lw :
      Forall (is_write temporary) lw -> writes_of temporary lw = bytes ->
      published path bytes r
        ([EvOpenRoot (path_parent path) kExisting (Ok parent); EvCreateTemp parent (temp_of path) 384 (Ok temporary)]
         ++ lw ++ [EvFdatasync temporary (Ok tt); EvRename parent (temp_of path) parent (file_name path) (Ok tt);
                   EvFsyncDirectory parent r]).

(** Nothing under the final name, and a temporary file taken away again unless
    it was its rename that failed. *)
Definition not_renamed (e : Event) : Prop := match e with EvRename _ _ _ _ (Ok _) => False | _ => True end.
Definition abandoned (path : string) (l : list Event) : Prop :=
  Forall not_renamed l
  /\ forall parent temporary, EvCreateTemp parent (temp_of path) 384 (Ok temporary) ∈ l ->
       (exists r, EvUnlink parent (temp_of path) r ∈ l)
       \/ (exists e, EvRename parent (temp_of path) parent (file_name path) (Err e) ∈ l).

Lemma runs_within {W A R} (body : A -> M W (A + R)) (I : A -> W -> Prop) (Q : StatusOr R -> W -> Prop) bound a w :
  ends bound body a ->
  (forall a w, I a w -> runs (body a) w (fun r w' => match r with
     | Ok (inl a') => I a' w' | Ok (inr x) => Q (Ok x) w' | Err e => Q (Err e) w' end)) ->
  I a w -> runs (within bound body a) w Q.
Proof.
  intros Hends Hbody Ha. pose proof (runs_loop body I Q Hbody bound a w Ha) as Hl. specialize (Hends w).
  unfold runs, within, bind in *. destruct (loop body bound a w) as [[[a'|x]|e] w'] eqn:Hrun; [|done|done].
  by destruct (Hends a' w').
Qed.

Section Publication.
Context {F D : Type} `{FileOps F} `{PathQueries F}.
Implicit Types (w : World F D) (l : list Event).

Lemma plan_write_ends (fd : Fd) (cleanup : M (World F D) unit) data :
  ends (write_turns data) (plan_write_body fd cleanup) data.
Proof.
  apply (measure_ends _ (fun _ => True) (fun s => Z.of_nat (String.length s))); [|lia|done|unfold write_turns; lia].
  intros s w s' w' _. unfold plan_write_body. destruct (str_empty s) eqn:He; [done|]. unfold bind at 1.
  destruct (or_cleanup _ _ w) as [[n|e] w1]; [|done]. destruct (Nat.eqb_spec n 0) as [|Hn].
  - unfold bind. by destruct (outcome cleanup w1) as [[] ?].
  - intros [= <- <-]. split; [done|]. apply str_empty_false in He. rewrite str_drop_length.
    assert (String.length s <> 0)%nat by (by destruct s). lia.
Qed.

(** A failure that is cleaned up after. *)
Lemma logs_cleanup {A} dir name e (P : A -> list Event -> Prop) :
  logs (D := D) (do* outcome (UnlinkAt dir name); throw e) P (fun _ l => exists r, l = [EvUnlink dir name r]).
Proof.
  eapply logs_bind; [apply (logs_outcome_files _ _ (fun r l => l = [EvUnlink dir name r])); done|].
  intros r l ->. apply logs_throw. by exists r.
Qed.

Lemma logs_or_cleanup {A} dir name (ev : StatusOr A -> Event) (c : M F A) (P : A -> list Event -> Prop) :
  (forall a, P a [ev (Ok a)]) ->
  logs (D := D) (or_cleanup (UnlinkAt dir name) (on_files ev c)) P (fun _ l => exists e r, l = [ev (Err e); EvUnlink dir name r]).
Proof.
  intros HP. unfold or_cleanup. eapply logs_bind; [apply (logs_outcome_files _ _ (fun r l => l = [ev r])); done|].
  intros [a|e] l ->; [by apply logs_ret|]. eapply logs_mono; [apply (logs_cleanup dir name e (fun _ _ => False))|done|].
  intros _ l [r ->]. by exists e, r.
Qed.

Lemma logs_plan_writes (fd dir : Fd) name data :
  logs (D := D) (within (write_turns data) (plan_write_body fd (UnlinkAt dir name)) data)
    (fun _ l => Forall (is_write fd) l /\ writes_of fd l = data)
    (fun _ l => exists lw r, Forall (is_write fd) lw /\ l = lw ++ [EvUnlink dir name r]).
Proof.
  intros w. apply (runs_within _ (fun remaining w' => exists l, log w' = log w ++ l /\ Forall (is_write fd) l
    /\ writes_of fd l +:+ remaining = data)); [apply plan_write_ends| |exists []; by rewrite app_nil_r].
  intros remaining w1 (l & Hlog & Hl & Hd). unfold plan_write_body.
  destruct (str_empty remaining) eqn:He.
  { apply str_empty_true in He as ->. apply runs_ret. rewrite str_app_nil in Hd. by exists l. }
  apply runs_bind. eapply runs_mono; [apply (logs_or_cleanup dir name _ _
    (fun n l1 => l1 = [EvWrite fd remaining (Ok n)])); done|].
  intros [n|e] w2 (l1 & Hlog2 & Hl1).
  - subst l1. destruct (Nat.eqb_spec n 0) as [->|Hn].
    + eapply runs_mono; [apply (logs_cleanup dir name _ (fun _ _ => False))|].
      intros [a|e] w3 (l3 & Hlog3 & Hl3); [done|]. destruct Hl3 as [r ->].
      exists ((l ++ [EvWrite fd remaining (Ok 0%nat)]) ++ [EvUnlink dir name r]).
      split; [by rewrite Hlog3, Hlog2, Hlog, <- !app_assoc|]. eexists _, r. split; [|done].
      apply Forall_app. by repeat constructor.
    + apply runs_ret. exists (l ++ [EvWrite fd remaining (Ok n)]). split; [by rewrite Hlog2, Hlog, <- app_assoc|].
      split; [apply Forall_app; by repeat constructor|]. by rewrite writes_of_app, write_one, str_app_assoc, str_take_drop.
  - destruct Hl1 as (e' & r & ->). exists ((l ++ [EvWrite fd remaining (Err e')]) ++ [EvUnlink dir name r]).
    split; [by rewrite Hlog2, Hlog, <- !app_assoc|]. eexists _, r. split; [|done].
    apply Forall_app. by repeat constructor.
Qed.

(** The three ways to give up once the temporary file exists. *)
Lemma abandoned_after path parent (temporary : Fd) mode r0 lw rest :
  Forall (is_write temporary) lw -> Forall not_renamed rest ->
  Forall (fun e => match e with EvCreateTemp _ _ _ _ => False | _ => True end) rest ->
  (exists r, EvUnlink parent (temp_of path) r ∈ rest)
  \/ (exists e, EvRename parent (temp_of path) parent (file_name path) (Err e) ∈ rest) ->
  abandoned path ([EvOpenRoot (path_parent path) mode r0; EvCreateTemp parent (temp_of path) 384 (Ok temporary)] ++ lw ++ rest).
Proof.
  intros Hlw Hren Hcreate Hend. split.
  - apply Forall_app. split; [by repeat constructor|]. apply Forall_app. split; [|done].
    eapply Forall_impl; [exact Hlw|]. by intros [].
  - intros p t. rewrite !elem_of_app, !elem_of_cons, elem_of_nil. rewrite !Forall_forall in *.
    intros [[?|[[= -> ->]|[]]]|[Hin|Hin]]; [done| |by apply Hlw in Hin|by apply Hcreate in Hin].
    destruct Hend as [[r Hr]|[e He]]; [left; exists r|right; exists e]; rewrite !elem_of_app; by right; right.
Qed.

Lemma abandoned_early path l :
  Forall (fun e => match e with EvRename _ _ _ _ (Ok _) | EvCreateTemp _ _ _ (Ok _) => False | _ => True end) l ->
  abandoned path l.
Proof.
  intros Hl. split; [eapply Forall_impl; [exact Hl|]; by intros []|].
  intros p t Hin. rewrite Forall_forall in Hl. by apply Hl in Hin.
Qed.

Lemma logs_publish path data :
  logs (D := D) (publish_plan_file path data) (fun _ l => published path data (Ok tt) l)
    (fun e l => published path data (Err e) l \/ abandoned path l).
Proof.
  unfold publish_plan_file. fold (temp_of path).
  eapply logs_bind; [eapply (logs_on_files _ _ (fun parent l => l = [EvOpenRoot (path_parent path) kExisting (Ok parent)])); [done|]|].
  { intros e. right. apply abandoned_early. by repeat constructor. }
  intros parent l ->.
  eapply logs_bind; [eapply (logs_on_files _ _ (fun t l => l = [EvCreateTemp parent (temp_of path) 384 (Ok t)])); [done|]|].
  { intros e. right. apply abandoned_early. by repeat constructor. }
  intros temporary l ->. apply (logs_bind _ _ (fun _ l => Forall (is_write temporary) l /\ writes_of temporary l = data));
    [eapply logs_mono; [apply logs_plan_writes|done|]|].
  { intros e l (lw & r & Hlw & ->). right. apply abandoned_after; [done|by repeat constructor|by repeat constructor|].
    left. exists r. by left. }
  intros [] lw [Hlw Hdata].
  apply (logs_bind _ _ (fun _ l => l = [EvFdatasync temporary (Ok tt)]));
    [eapply logs_mono; [apply (logs_or_cleanup _ _ _ _ (fun _ l => l = [EvFdatasync temporary (Ok tt)])); by intros []|done|]|].
  { intros e l (e' & r & ->). right. apply abandoned_after; [done|by repeat constructor|by repeat constructor|].
    left. exists r. by right; left. }
  intros a l ->. eapply logs_bind; [eapply (logs_on_files _ _ (fun _ l => l = [EvRename parent (temp_of path) parent (file_name path) (Ok tt)]));
    [by intros []|]|].
  { intros e. right. rewrite !app_assoc, <- (app_assoc _ [EvFdatasync temporary (Ok tt)]), <- app_assoc.
    apply abandoned_after; [done|by repeat constructor|by repeat constructor|]. right. exists e. by right; left. }
  intros b l ->. assert (forall r, published path data r
    ([EvOpenRoot (path_parent path) kExisting (Ok parent)] ++ [EvCreateTemp parent (temp_of path) 384 (Ok temporary)]
      ++ lw ++ [EvFdatasync temporary (Ok tt)] ++ [EvRename parent (temp_of path) parent (file_name path) (Ok tt)]
      ++ [EvFsyncDirectory parent r])) as Hpub by (intros r; by apply (published_intro _ _ _ parent temporary)).
  apply logs_on_files; [intros []; apply Hpub|intros e; left; apply Hpub].
Qed.

End Publication.

(** The file that is there already. *)
Definition already_there {F D} `{PathQueries F} (path data : string) (w : World F D) : Prop :=
  exists f1 f2 f3, fs_exists path (files w) = (inr true, f1) /\ fs_is_directory path f1 = (inr false, f2)
    /\ fs_read path f2 = (inr (Some data), f3).

Lemma runs_WritePlanFile {F D} `{FileOps F} `{PathQueries F} path data (w : World F D) :
  runs (WritePlanFile path data) w (fun r w' => exists l, log w' = log w ++ l /\ match r with
    | Ok _ => published path data (Ok tt) l \/ (l = [] /\ already_there path data w)
    | Err e => published path data (Err e) l \/ abandoned path l
    end).
Proof.
  assert (abandoned path []) as Hnone by (by apply abandoned_early).
  unfold runs, WritePlanFile. cbn [fs_exists fs_is_directory fs_read world_PathQueries].
  destruct (fs_exists path (files w)) as [[message|[]] f1] eqn:Hexists.
  - exists []. rewrite app_nil_r. split; [done|by right].
  - cbn [files]. destruct (fs_is_directory path f1) as [[message|[]] f2] eqn:Hdir; [exists []; by rewrite app_nil_r; eauto..|].
    cbn [files]. destruct (fs_read path f2) as [[what|existing] f3] eqn:Hread; cbn.
    { exists []. rewrite app_nil_r. split; [done|by right]. }
    unfold bind, throwing, ret, require, throw. destruct existing as [existing|];
      [destruct (bool_decide_reflect (existing = data)) as [->|]|]; cbn; exists []; rewrite app_nil_r; (split; [done|]); right; [|done..].
    split; [done|]. by exists f1, f2, f3.
  - pose proof (logs_publish path data (mkWorld f1 (store w) (log w))) as Hlog. revert Hlog. unfold runs.
    destruct (publish_plan_file path data _) as [[[]|e] w'] eqn:Hrun; intros (l & Hl & Hpub); exists l; (split; [done|]); auto.
Qed.

(** ** Properties *)

(** C29. A plan file appears under its name only whole: over every file system,
    success means that the very bytes were there already and nothing was
    done, or that they all were written to a new temporary file, brought to
    the disk, renamed over nothing and the directory synced, in this order;
    an error means that no rename succeeded before the bytes were on the disk,
    and that the temporary file was taken away unless its rename failed. *)
Theorem plan_files_appear_whole {F D} `{FileOps F} `{PathQueries F} path data (w : World F D) :
  runs (WritePlanFile path data) w (fun r w' => exists l, log w' = log w ++ l /\ match r with
    | Ok _ => published path data (Ok tt) l \/ (l = [] /\ already_there path data w)
    | Err e => published path data (Err e) l \/ abandoned path l
    end).
Proof. apply runs_WritePlanFile. Qed.

Lemma on_kernel_Ok {K T A} (c : M K A) (w : K * T) a w' :
  on_kernel c w = (Ok a, w') -> c w.1 = (Ok a, w'.1) /\ w'.2 = w.2.
Proof. unfold on_kernel. destruct (c w.1) as [r k]. by intros [= -> <-]. Qed.
Lemma on_sink_Ok {K T A} (c : M T A) (w : K * T) a w' :
  on_sink c w = (Ok a, w') -> c w.2 = (Ok a, w'.2) /\ w'.1 = w.1.
Proof. unfold on_sink. destruct (c w.2) as [r k]. by intros [= -> <-]. Qed.
Lemma lift_Ok {S A} (x : StatusOr A) (s : S) a s' : lift x s = (Ok a, s') -> x = Ok a /\ s' = s.
Proof. unfold lift. by intros [= -> <-]. Qed.

(** What a plan takes from a manifest: each asset once, with the identity its
    columns keep, under its own path. *)
Record plan_of_manifest (Blake3 : string -> Digest) (m : FrozenManifest) (added : list PhysicalAsset) (target : string)
    (plan : MinimalPlanInput) : Prop := {
  pm_assets : assets plan ≡ₚ planned Blake3 <$> (stored <$> added);
  pm_valid : valid_plan plan;
  pm_root : target_root plan = target;
  pm_manifest : source_manifest_id plan = frozen_manifest_id m
    /\ source_manifest_digest plan = frozen_manifest_digest m;
}.

(** C28. The plan of a frozen manifest is that manifest: whenever the plan
    command succeeds on a database that holds it, the plan lists each of its
    assets exactly once, bound to the identity recorded for it and to its own
    path at the target, is valid and names the manifest and the digest found
    right; and the artifact of that plan, named by its semantic digest, is
    what was published, or was there already. *)
Theorem manifests_become_plans {F D} `{FileOps F} `{PathQueries F} Blake3 dump
    (OpenDatabase : M (World F D) (Conn ManifestDb)) plans target w w1 w' connection db0 source added m :
  OpenDatabase w = (Ok connection, w1) -> working connection = None ->
  frozen Blake3 db0 source added m (committed connection) -> Forall storable added ->
  PlanService_Execute Blake3 dump OpenDatabase plans (frozen_manifest_id m) target w = (Ok tt, w') ->
  exists plan artifact l text,
    let plan_id := "plan-" +:+ ToHex (SemanticDigestFor Blake3 plan) in
    let path := path_append plans (plan_id +:+ ".plan.jsonl") in
    plan_of_manifest Blake3 m added target plan
    /\ WriteFrozenPlan Blake3 dump plan plan_id = inr (Ok artifact)
    /\ log w' = log w1 ++ l ++ [EvPrint text]
    /\ (published path (frozen_bytes artifact) (Ok tt) l \/ (l = [] /\ already_there path (frozen_bytes artifact) w1)).
Proof.
  intros Hopen Hidle Hfrozen Hst. unfold PlanService_Execute, with_connection.
  intros ([] & ? & [_ ->]%require_Ok_inv & Hrun)%bind_Ok_inv.
  apply bind_Ok_inv in Hrun as (c & w2 & Hc & Hrun). rewrite Hopen in Hc. injection Hc as <- <-.
  destruct (bind _ _ (w1, connection)) as [r [k s]] eqn:Hbody in Hrun. injection Hrun as -> <-.
  apply bind_Ok_inv in Hbody as (m' & v1 & [Hreopen Hv1]%on_sink_Ok & Hrun). cbn [fst snd] in Hreopen, Hv1.
  destruct (commits_Reopen Blake3 _ _ _ _ _ Hidle eq_refl Hreopen) as (Hidle1 & Hdb1 & Hid & (row & Hrow & _ & _ & Hdigest)).
  apply bind_Ok_inv in Hrun as (physical & v2 & [Hread Hv2]%on_sink_Ok & Hrun). rewrite Hid in Hread.
  destruct (commits_ReadManifestAssets (frozen_manifest_id m) added _ (frozen_assets _ _ _ _ _ _ Hfrozen) Hst _ _ _
    Hidle1 Hdb1 Hread) as (_ & _ & Hphysical).
  apply bind_Ok_inv in Hrun as (logical & ? & [Hlogical ->]%lift_Ok & Hrun). rewrite logical_of_single in Hlogical.
  injection Hlogical as <-. apply bind_Ok_inv in Hrun as (loss & ? & [_ ->]%lift_Ok & Hrun).
  apply bind_Ok_inv in Hrun as (plan & ? & [Hplan ->]%lift_Ok & Hrun).
  apply bind_Ok_inv in Hrun as (artifact' & v3 & Hart & Hrun). unfold throwing in Hart.
  destruct (WriteFrozenPlan _ _ _ _) as [|x] eqn:Hwrite; [done|]. injection Hart as -> <-.
  apply bind_Ok_inv in Hrun as (artifact & ? & [-> ->]%lift_Ok & Hrun).
  apply bind_Ok_inv in Hrun as ([] & v4 & [Hfile _]%on_kernel_Ok & Hrun). apply on_kernel_Ok in Hrun as [Hprint _].
  injection Hprint as Hk. rewrite Hv2, Hv1 in Hfile.
  pose proof (runs_WritePlanFile (path_append plans ("plan-" +:+ ToHex (SemanticDigestFor Blake3 plan) +:+ ".plan.jsonl"))
    (frozen_bytes artifact) w1) as Hlog.
  unfold runs in Hlog. rewrite <- str_app_assoc in Hlog. rewrite Hfile in Hlog. destruct Hlog as (l & Hl & Hpub).
  eexists plan, artifact, l, _. split_and!; [|done|by rewrite <- Hk, Hl, <- app_assoc|done].
  apply plan_of_assets_planned in Hplan as (Hassets & Hvalid & Hroot & Hmid & Hmd).
  - split; [by rewrite Hassets, Hphysical|done..|]. split; [by rewrite Hmid|]. rewrite Hmd, Hdigest, Hid.
    destruct Hfrozen as [(row' & Hrow' & Hsource & _) Hcontent _ _ _ _]. rewrite Hid, Hrow' in Hrow. injection Hrow as <-.
    by rewrite Hcontent, Hsource.
  - rewrite Hphysical. apply Forall_fmap. eapply Forall_impl; [exact Hst|]. by intros a [? _].
Qed.

(** ** The plan of the demonstration manifest *)

Module PlanServiceDemo.
(** A disk that takes at most 700 bytes at a time. *)
#[global] Instance disk_FileOps : FileOps unit := {|
  OpenRoot _ _ := ret 3;
  OpenSource _ _ := throw (Internal "");
  StatFd _ := throw (Internal "");
  CreateTempNoReplace _ _ _ := ret 4;
  Read _ _ := throw (Internal "");
  Write _ data := ret (Nat.min 700 (String.length data));
  Fdatasync _ := ret tt;
  FsyncDirectory _ := ret tt;
  RenameNoReplace _ _ _ _ := ret tt;
  UnlinkAt _ _ := ret tt;
|}.
#[global] Instance disk_PathQueries : PathQueries unit := {|
  fs_exists _ k := (inr false, k);
  fs_is_directory _ k := (inr false, k);
  fs_read _ k := (inr None, k);
|}.
Definition connection : Conn ManifestDb := mkConn (database (ManifestDemo.run 3).2) None 0 [] [].
Definition world : World unit unit := mkWorld tt tt [].
Definition OpenDatabase : M (World unit unit) (Conn ManifestDb) := ret connection.
Notation run := (PlanService_Execute ManifestDemo.Blake3 JsonDemo.dump OpenDatabase "/w/plans"
  (frozen_manifest_id (ManifestDemo.manifest 3)) "/target" world).
End PlanServiceDemo.

Lemma demo_plan_runs : is_ok PlanServiceDemo.run.1 = true.
Proof. by vm_compute. Qed.

Lemma demo_assets_storable : Forall storable (accepted ManifestDemo.assets).
Proof. repeat constructor; try done; vm_compute; lia. Qed.

Lemma demo_frozen :
  frozen ManifestDemo.Blake3 (database (ManifestDemo.start 3)) ManifestDemo.source (accepted ManifestDemo.assets)
    (ManifestDemo.manifest 3) (committed PlanServiceDemo.connection).
Proof. unfold PlanServiceDemo.connection. cbn [committed]. apply builds_frozen, demo_builds. by right. Qed.

Lemma manifests_become_plans_witness :
  exists plan artifact l text,
    plan_of_manifest ManifestDemo.Blake3 (ManifestDemo.manifest 3) (accepted ManifestDemo.assets) "/target" plan
    /\ length (assets plan) = 3%nat /\ log PlanServiceDemo.run.2 = l ++ [EvPrint text]
    /\ published (path_append "/w/plans" ("plan-" +:+ ToHex (SemanticDigestFor ManifestDemo.Blake3 plan) +:+ ".plan.jsonl"))
         (frozen_bytes artifact) (Ok tt) l.
Proof.
  assert (PlanServiceDemo.OpenDatabase PlanServiceDemo.world = (Ok PlanServiceDemo.connection, PlanServiceDemo.world)) as Hopen by reflexivity.
  assert (working PlanServiceDemo.connection = None) as Hidle by reflexivity.
  pose proof (fun w' => manifests_become_plans ManifestDemo.Blake3 JsonDemo.dump PlanServiceDemo.OpenDatabase "/w/plans" "/target"
    PlanServiceDemo.world PlanServiceDemo.world w' PlanServiceDemo.connection (database (ManifestDemo.start 3))
    ManifestDemo.source (accepted ManifestDemo.assets) (ManifestDemo.manifest 3) Hopen Hidle demo_frozen demo_assets_storable) as Hplan.
  pose proof demo_plan_runs as Hok.
  destruct PlanServiceDemo.run as [[[]|e] w'] eqn:Hrun; [|discriminate Hok].
  destruct (Hplan w' eq_refl) as (plan & artifact & l & text & Hpm & _ & Hlog & Hpub). exists plan, artifact, l, text.
  split; [exact Hpm|]. split; [|split; [exact Hlog|]].
  - rewrite (pm_assets _ _ _ _ _ Hpm). by vm_compute.
  - rewrite <- str_app_assoc. destruct Hpub as [Hpub|(_ & ? & ? & ? & Hexists & _)]; [exact Hpub|discriminate Hexists].
Defined.
