(* ===== verification/TakeoutCommand.v ===== *)
(** * TakeoutCommand: what the parse command makes of a Takeout folder

    Models src/cli/takeout_parse_command.cpp: the parser's result, its error
    report, the graph of its relations, the logical assets, their metadata and
    their photos, and the summary printed.  The error report goes through an
    [std::ofstream], a class over the outside world; the JSON library is a
    parameter. *)

From stdpp Require Import pretty.
From S2P Require Import Prelude Status Bytes Order RelativePath Task Assets Association Photo Metadata Json Sqlite FileOps LinuxFileOps Walker Takeout.

(** [std::ofstream output(path, binary | trunc)] and [output << text]; the
    result is the stream as a condition. *)
Class ErrorReportFile (W : Type) := {
  ofstream_open : string -> W -> bool * W;
  ofstream_write : string -> W -> bool * W;
}.

(** ** Metadata *)

Record MetadataSummary := mkMetadataSummary {
  resolutions : Z;
  provenance_records : Z;
  conflicts : Z;
}.

Definition kFields : list MetadataField := [kTitle; kDescription; kFavorite; kTakenTime].

(** The candidates of one field that belong to a member. *)
Definition candidate_group (logical_asset : LogicalAsset) (field : MetadataField) (candidates : list MetadataCandidate)
    : list MetadataCandidate :=
  filter (fun c => Metadata.field c = field /\ asset_id c ∈ members logical_asset) candidates.

(** One turn of the two loops. *)
Definition resolve_field (candidates : list MetadataCandidate) (summary : MetadataSummary) (logical_asset : LogicalAsset)
    (field : MetadataField) : StatusOr MetadataSummary :=
  match candidate_group logical_asset field candidates with
  | [] => Ok summary
  | group =>
      let? resolution := Resolve field group GoogleTakeoutMetadataRuleset in
      let? provenance := BuildProvenance resolution in
      Ok (mkMetadataSummary (to_uint64 (resolutions summary + 1))
            (to_uint64 (provenance_records summary + Z.of_nat (length provenance)))
            (to_uint64 (conflicts summary + (if conflict resolution then 1 else 0))))
  end.
Fixpoint resolve_fields (candidates : list MetadataCandidate) (summary : MetadataSummary)
    (turns : list (LogicalAsset * MetadataField)) : StatusOr MetadataSummary :=
  match turns with
  | [] => Ok summary
  | (logical_asset, field) :: turns =>
      let? summary := resolve_field candidates summary logical_asset field in
      resolve_fields candidates summary turns
  end.
Definition ResolveParsedMetadata (logical_assets : list LogicalAsset) (candidates : list MetadataCandidate)
    : StatusOr MetadataSummary :=
  resolve_fields candidates (mkMetadataSummary 0 0 0)
    (concat (map (fun logical_asset => map (pair logical_asset) kFields) logical_assets)).

(** ** The graph and the photos *)

Fixpoint add_vertices (assets : list PhysicalAsset) (graph : AssociationGraph) : StatusOr AssociationGraph :=
  match assets with
  | [] => Ok graph
  | asset :: assets =>
      let (status, graph) := AddVertex (PhysicalAssetIdFor asset) graph in
      if negb (ok status) then Err status else add_vertices assets graph
  end.
Fixpoint add_edges (edges : list AssociationEdge) (graph : AssociationGraph) : StatusOr AssociationGraph :=
  match edges with
  | [] => Ok graph
  | edge :: edges =>
      let (status, graph) := AddEdge edge graph in
      if negb (ok status) then Err status else add_edges edges graph
  end.

Section Compose.
Context (Blake3 : string -> Digest).

Fixpoint build_photos (logical_assets : list LogicalAsset) (assets : list PhysicalAsset) (edges : list AssociationEdge)
    : StatusOr (list CanonicalPhoto) :=
  match logical_assets with
  | [] => Ok []
  | logical_asset :: logical_assets =>
      let? photo := BuildCanonicalPhoto Blake3 logical_asset assets edges in
      let? photos := build_photos logical_assets assets edges in
      Ok (photo :: photos)
  end.

(** From the parser's result to the photos. *)
Definition compose_takeout (parsed : TakeoutParseResult)
    : StatusOr (list LogicalAsset * MetadataSummary * list CanonicalPhoto) :=
  let? graph := add_vertices (takeout_assets parsed) empty_graph in
  let edges := AssociationEdgeFor <$> takeout_relations parsed in
  let? graph := add_edges edges graph in
  let? logical_assets := BuildLogicalAssets Blake3 graph in
  let? metadata := ResolveParsedMetadata logical_assets (takeout_candidates parsed) in
  let? photos := build_photos logical_assets (takeout_assets parsed) edges in
  Ok (logical_assets, metadata, photos).

(** ** The command *)

Section Command.
Context {K : Type} `{Kernel K} `{DirectoryKernel K} `{Console K} `{ErrorReportFile K}.
Context (parse : string -> JsonOutcome) (dump : Json -> Exn string).
Context (iterate : gmap string (list PhysicalAsset) -> list (string * list PhysicalAsset)).

Definition error_record (error : TakeoutParserError) : Json :=
  Json_object [("code", JString (error_code error)); ("message", JString (error_message error));
               ("path", JString (DisplayString (error_path error)))].

(** [if (!output) return error;] *)
Definition stream_call (error : Status) (c : K -> bool * K) : M K unit :=
  fun k => let (good, k) := c k in require good error k.

Fixpoint write_records (path : string) (errors : list TakeoutParserError) : M K unit :=
  match errors with
  | [] => ret tt
  | error :: errors =>
      let* line := throwing (dump (error_record error)) in
      do* stream_call (mkStatus StatusCode.kIoError ("write parser error report: " +:+ path))
            (ofstream_write (line +:+ String LF ""));
      write_records path errors
  end.
Definition WriteErrorReport (path : string) (errors : list TakeoutParserError) : M K unit :=
  do* stream_call (mkStatus StatusCode.kIoError ("create parser error report: " +:+ path)) (ofstream_open path);
  write_records path errors.

Definition count_of {A} (l : list A) : string := pretty (Z.of_nat (length l)).
Definition parse_completed (root_path : string) (parsed : TakeoutParseResult) (logical_assets : list LogicalAsset)
    (metadata : MetadataSummary) (photos : list CanonicalPhoto) : string :=
  "parse completed: root=" +:+ root_path +:+ " assets=" +:+ count_of (takeout_assets parsed)
  +:+ " candidates=" +:+ count_of (takeout_candidates parsed) +:+ " relations=" +:+ count_of (takeout_relations parsed)
  +:+ " edges=" +:+ count_of (takeout_relations parsed) +:+ " logical_assets=" +:+ count_of logical_assets
  +:+ " errors=" +:+ count_of (takeout_errors parsed) +:+ " photo_ir=" +:+ count_of photos
  +:+ " metadata_resolutions=" +:+ pretty (resolutions metadata)
  +:+ " metadata_provenance=" +:+ pretty (provenance_records metadata)
  +:+ " metadata_conflicts=" +:+ pretty (conflicts metadata) +:+ String LF "".
Definition parser_error_line (error : TakeoutParserError) : string :=
  "parser error: path=" +:+ raw_bytes (error_path error) +:+ " code=" +:+ error_code error +:+ " message="
  +:+ error_message error +:+ String LF "".

(** [TakeoutParseCommand::Execute] *)
Definition TakeoutParseCommand_Execute (depth : nat) (root_path error_report_path : string) : M K unit :=
  do* require (negb (str_empty root_path)) (Invalid "parse requires a Takeout root path");
  let* parsed := TakeoutParser_Parse parse iterate depth root_path in
  do* (if str_empty error_report_path then ret tt else WriteErrorReport error_report_path (takeout_errors parsed));
  let* composed := lift (compose_takeout parsed) in
  let '(logical_assets, metadata, photos) := composed in
  do* Print (parse_completed root_path parsed logical_assets metadata photos);
  do* (if str_empty error_report_path then ret tt
       else Print ("parser error report: " +:+ error_report_path +:+ String LF ""));
  do* for_each (fun error => Print (parser_error_line error)) (takeout_errors parsed);
  require (match takeout_errors parsed with [] => true | _ => false end) (Invalid "Takeout parse produced parser errors").

End Command.
End Compose.
