(* ===== verification/TakeoutCommandTheorems.v ===== *)
(** * TakeoutCommandTheorems: a folder that parses becomes photos

    What the parser returns on a folder nobody writes to always goes through
    the graph, the metadata and the photos: none of their errors can occur,
    every file is in exactly one photo, and the command is refused for the
    parser's errors alone, its report and its output apart. *)

From S2P Require Import Prelude Status Bytes Order RelativePath Task Assets Association AssociationTheorems Photo Metadata MetadataTheorems Json Sqlite FileOps LinuxFileOps Walker WalkerTheorems ManifestTheorems ScanService Takeout TakeoutTheorems TakeoutCommand.

(** ** Lists *)

Lemma NoDup_concat_map {A B} (f : A -> list B) l :
  NoDup l -> (forall x, x ∈ l -> NoDup (f x)) ->
  (forall x y b, x ∈ l -> y ∈ l -> b ∈ f x -> b ∈ f y -> x = y) -> NoDup (concat (f <$> l)).
Proof.
  induction 1 as [|x l Hx Hnd IH]; intros Hf Hdis; cbn; [constructor|]. apply NoDup_app. split_and!.
  - apply Hf. by left.
  - intros b Hb Hin. apply list_elem_of_In, in_concat in Hin as (fy & Hfy%list_elem_of_In & Hin%list_elem_of_In).
    apply list_elem_of_fmap in Hfy as (y & -> & Hy). assert (x = y) as -> by (apply (Hdis _ _ b); [by left|by right|done..]). done.
  - apply IH; [intros y Hy; apply Hf; by right|]. intros y z b Hy Hz. apply Hdis; by right.
Qed.

Lemma fmap_concat_fmap {A B C} (g : B -> C) (f : A -> list B) l : g <$> concat (f <$> l) = concat ((fun x => g <$> f x) <$> l).
Proof. induction l as [|x l IH]; [done|]. cbn. by rewrite fmap_app, IH. Qed.

(** ** The files of a folder have paths of their own *)

Lemma entry_path_below ps c e :
  tree_ok c.2 -> e ∈ entry_of (ps ++ [c.1]) c.2 :: entries_below (ps ++ [c.1]) c.2 ->
  exists rest, components (entry_path e) = ps ++ c.1 :: rest.
Proof.
  intros Hok [->|He]%elem_of_cons; [by exists []|].
  destruct (entries_at_paths (height c.2) _ _ _ (le_n _) Hok He) as (cs & m & _ & _ & _ & ->).
  exists cs. cbn. by rewrite <- app_assoc.
Qed.

Lemma entries_have_own_paths k ps n :
  (height n <= k)%nat -> tree_ok n -> NoDup (entry_path <$> entries_below ps n).
Proof.
  revert ps n. induction k as [|k IH]; intros ps [kind i|i cs] Hk Hok; try (cbn in Hk; lia); try constructor.
  pose proof (children_ok _ _ Hok) as [Hnames Hch]. cbn [entries_below].
  set (f := fun c : string * Node => entry_of (ps ++ [c.1]) c.2 :: entries_below (ps ++ [c.1]) c.2).
  change (NoDup (entry_path <$> concat (map snd (std_sort by_name (map (fun c => (c.1, f c)) cs))))).
  assert (concat (map snd (std_sort by_name (map (fun c => (c.1, f c)) cs))) ≡ₚ concat (f <$> cs)) as ->.
  { apply concat_perm. rewrite std_sort_perm, map_map. done. }
  rewrite fmap_concat_fmap. apply NoDup_concat_map.
  - by apply (NoDup_fmap_1 fst).
  - intros [name n] Hc. destruct (Hch _ _ Hc) as [_ Hn]. unfold f. cbn [fst snd fmap list_fmap]. apply NoDup_cons. split.
    + intros (e & Heq & He)%list_elem_of_fmap.
      destruct (entries_at_paths (height n) _ _ _ (le_n _) Hn He) as (rest & m & Hne & _ & _ & ->).
      apply (f_equal components) in Heq. cbn in Heq. apply (f_equal length) in Heq. rewrite !length_app in Heq.
      destruct rest; [done|cbn in Heq; lia].
    + apply IH; [|done]. pose proof (child_height i cs name n Hc). lia.
  - intros c d p Hc Hd (e1 & -> & H1)%list_elem_of_fmap (e2 & Heq & H2)%list_elem_of_fmap.
    destruct c as [a n], d as [b m]. destruct (Hch _ _ Hc) as [_ Hn], (Hch _ _ Hd) as [_ Hm].
    apply (entry_path_below ps (a, n)) in H1 as [r1 H1]; [|done]. apply (entry_path_below ps (b, m)) in H2 as [r2 H2]; [|done].
    rewrite Heq, H2 in H1. apply app_inv_head in H1. injection H1 as <- _. f_equal. by eapply same_child.
Qed.

Lemma walked_ids_unique tree :
  tree_ok tree -> NoDup (PhysicalAssetIdFor <$> classified (entries_below [] tree)).
Proof.
  intros Hok. pose proof (entries_have_own_paths _ [] tree (le_n _) Hok) as Hnd.
  pose proof (walked_assets_ok tree Hok) as [_ Hwf].
  apply (NoDup_fmap_2_strong PhysicalAssetIdFor) with (l := classified (entries_below [] tree)).
  - intros a b Ha Hb Heq. apply (proj1 (walked_assets_ok tree Hok)); [done..|]. by apply PhysicalAssetIdFor_inj.
  - clear Hwf. revert Hnd. generalize (entries_below [] tree). intros l. induction l as [|e l IH]; cbn; [constructor|].
    intros [He Hnd]%NoDup_cons. unfold classified. cbn [omap list_omap]. fold (classified l).
    destruct (ClassifyPhysicalAsset e) as [a|] eqn:Ha; [|by apply IH]. apply NoDup_cons. split; [|by apply IH].
    intros (e' & He' & Ha' & Hp')%classified_elem. apply He. apply list_elem_of_fmap. exists e'. split; [|done].
    rewrite <- Hp'. revert Ha. unfold ClassifyPhysicalAsset. destruct (bool_decide _); [done|]. by intros [= <-].
Qed.

(** ** The relations as edges *)

(** Two different files, the second of which no other relation has. *)
Definition relates (assets : list PhysicalAsset) (r : SourceRelationCandidate) : Prop :=
  exists a b, a ∈ assets /\ b ∈ assets /\ a <> b
    /\ media_asset_id r = PhysicalAssetIdFor a /\ sidecar_asset_id r = PhysicalAssetIdFor b.

Lemma media_found_relates g r :
  r ∈ found_relations (media_found g) ->
  exists a b, a ∈ g.2 /\ b ∈ g.2 /\ a <> b /\ media_asset_id r = PhysicalAssetIdFor a
    /\ sidecar_asset_id r = PhysicalAssetIdFor b.
Proof.
  unfold media_found, relate_raw_jpeg, relate_live_photo. cbn [found_relations also]. rewrite elem_of_app. intros [Hr|Hr].
  - destruct (count_assets_from is_raw is_jpeg g.2) as [H1 H2].
    destruct (first_asset _) as [a|]; [|by apply elem_of_nil in Hr]. destruct (second_asset _) as [b|]; [|by apply elem_of_nil in Hr].
    destruct (_ && _); [|by apply elem_of_nil in Hr]. apply list_elem_of_singleton in Hr as ->.
    destruct (H1 a eq_refl) as [Ha Hra], (H2 b eq_refl) as (Hb & Hrb & _). exists a, b. split_and!; [done..| |done|done]. congruence.
  - destruct (count_assets_from is_motion is_still g.2) as [H1 H2].
    destruct (first_asset _) as [b|]; [|by apply elem_of_nil in Hr]. destruct (second_asset _) as [a|]; [|by apply elem_of_nil in Hr].
    destruct (_ && _); [|by apply elem_of_nil in Hr]. apply list_elem_of_singleton in Hr as ->.
    destruct (H1 b eq_refl) as [Hb Hrb], (H2 a eq_refl) as (Ha & Hra & _). exists a, b. split_and!; [done..| |done|done]. congruence.
Qed.

Section Relations.
Context (iterate : gmap string (list PhysicalAsset) -> list (string * list PhysicalAsset)) (Hit : iterates iterate).
Context (assets : list PhysicalAsset) (Hids : NoDup (PhysicalAssetIdFor <$> assets)).

Lemma same_id a b : a ∈ assets -> b ∈ assets -> PhysicalAssetIdFor a = PhysicalAssetIdFor b -> a = b.
Proof.
  intros (i & Hi)%list_elem_of_lookup (j & Hj)%list_elem_of_lookup Heq.
  assert (i = j) as ->; [|congruence]. apply (NoDup_lookup _ _ _ (PhysicalAssetIdFor a) Hids); rewrite list_lookup_fmap;
    [by rewrite Hi|by rewrite Hj, Heq].
Qed.

Lemma iterate_unique m : NoDup (iterate m).
Proof. rewrite (Hit m). apply NoDup_map_to_list. Qed.

(** At most one JPEG of a pair and one motion part. *)
Lemma raw_jpeg_owner l :
  sidecar_asset_id <$> found_relations (relate_raw_jpeg l).1 = []
  \/ exists x, sidecar_asset_id <$> found_relations (relate_raw_jpeg l).1 = [PhysicalAssetIdFor x] /\ x ∈ l /\ is_jpeg x = true.
Proof.
  unfold relate_raw_jpeg. destruct (count_assets_from is_raw is_jpeg l) as [_ H2].
  destruct (first_asset _); [|by left]. destruct (second_asset _) as [x|]; [|by left]. destruct (_ && _); [|by left].
  destruct (H2 x eq_refl) as (? & _ & ?). right. by exists x.
Qed.
Lemma live_photo_owner l :
  sidecar_asset_id <$> found_relations (relate_live_photo l).1 = []
  \/ exists x, sidecar_asset_id <$> found_relations (relate_live_photo l).1 = [PhysicalAssetIdFor x] /\ x ∈ l /\ is_motion x = true.
Proof.
  unfold relate_live_photo. destruct (count_assets_from is_motion is_still l) as [H1 _].
  destruct (first_asset _) as [x|]; [|by left]. destruct (second_asset _); [|by left]. destruct (_ && _); [|by left].
  destruct (H1 x eq_refl) as (? & ?). right. by exists x.
Qed.

Lemma media_owners_unique g :
  (forall a, a ∈ g.2 -> a ∈ assets) -> NoDup (sidecar_asset_id <$> found_relations (media_found g)).
Proof.
  intros Hg. unfold media_found. cbn [found_relations also]. rewrite fmap_app.
  destruct (raw_jpeg_owner g.2) as [->|(x & -> & Hx & Hj)], (live_photo_owner g.2) as [->|(m & -> & Hm & Hmo)];
    cbn [app]; [constructor|apply NoDup_singleton..|].
  apply NoDup_cons. split; [|apply NoDup_singleton]. intros Heq%list_elem_of_singleton. apply same_id in Heq as ->; [|auto..].
  apply jpeg_not_motion in Hj. congruence.
Qed.

Let media := group_by_key IsMedia assets.
Let sidecars := group_by_key IsSidecar assets.
Let prefixes := foldl add_prefixes ∅ (iterate media).
Let found := all_found assets (iterate media) (iterate sidecars).

Lemma media_group g a : g ∈ iterate media -> a ∈ g.2 -> a ∈ assets /\ IsMedia (asset_kind a) = true /\ BasenameKey a = g.1.
Proof. intros Hg%iterates_elem Ha; [|done]. by eapply group_elem. Qed.
Lemma pair_sidecar x : x ∈ sidecar_pairs (iterate sidecars) ->
  x.2 ∈ assets /\ IsSidecar (asset_kind x.2) = true /\ BasenameKey x.2 = x.1.1 /\ sidecars !! x.1.1 = Some x.1.2.
Proof.
  intros [Hg Hs]%elem_of_sidecar_pairs. apply iterates_elem in Hg; [|done]. destruct (group_elem _ _ _ _ _ Hg Hs) as (?&?&?). done.
Qed.

(** The relation of a pair. *)
Lemma pair_relation x r : r ∈ found_relations (relate media prefixes x).1 ->
  exists m, media !! x.1.1 = Some [m] /\ found_relations (relate media prefixes x).1 = [r] /\ r = sidecar_relation m x.2.
Proof.
  destruct (relate_cases media prefixes x) as [(m & Hm & _ & ->)|(_ & code & msg & ->)]; [|by intros ?%elem_of_nil].
  intros ->%list_elem_of_singleton. by exists m.
Qed.

Lemma found_relations_sum l : found_relations (found_sum l) = concat (found_relations <$> l).
Proof. induction l as [|f l IH]; [done|]. cbn. fold (found_sum l). by rewrite IH. Qed.

Lemma all_relations : found_relations found
  = concat ((fun g => found_relations (media_found g)) <$> iterate media)
    ++ concat ((fun x => found_relations (relate media prefixes x).1) <$> sidecar_pairs (iterate sidecars)).
Proof.
  unfold found, all_found. cbn [found_relations also]. rewrite !found_relations_sum, <- !list_fmap_compose.
  assert (forall gs : list (string * AssetList), concat (found_relations ∘ (missing_sidecar ∘ snd) <$> gs) = []) as ->; [|by rewrite app_nil_r].
  intros gs. induction gs as [|g gs IH]; [done|]. cbn. by rewrite IH.
Qed.

Lemma kinds_differ x y : x ∈ assets -> y ∈ assets -> IsMedia (asset_kind x) = true -> IsSidecar (asset_kind y) = true ->
  x <> y.
Proof. unfold IsMedia, IsSidecar. intros _ _ Hm Hs ->. by destruct (asset_kind y). Qed.

Lemma found_relates r : r ∈ found_relations found -> relates assets r.
Proof.
  rewrite all_relations, elem_of_app. intros [Hr|Hr]; apply list_elem_of_In, in_concat in Hr as (l & Hl%list_elem_of_In & Hr%list_elem_of_In);
    apply list_elem_of_fmap in Hl as (x & -> & Hx).
  - destruct (media_found_relates x r Hr) as (a & b & Ha & Hb & ? & ? & ?). exists a, b.
    destruct (media_group x a Hx Ha) as [? _], (media_group x b Hx Hb) as [? _]. by split_and!.
  - destruct (pair_relation x r Hr) as (m & Hm & _ & ->). destruct (pair_sidecar x Hx) as (Hs & Hk & _).
    destruct (group_elem IsMedia assets _ _ m Hm) as (Hin & Hkm & _); [by left|].
    exists m, x.2. split_and!; [done|done| |done|done]. by apply kinds_differ.
Qed.

Lemma owners_unique : NoDup (sidecar_asset_id <$> found_relations found).
Proof.
  rewrite all_relations, fmap_app, !fmap_concat_fmap. apply NoDup_app. split_and!.
  - apply NoDup_concat_map; [apply iterate_unique|intros g Hg; apply media_owners_unique; intros a Ha; by apply (media_group g)|].
    intros g h id Hg Hh (r & -> & Hr)%list_elem_of_fmap (r' & Heq & Hr')%list_elem_of_fmap.
    destruct (media_found_relates g r Hr) as (_ & b & _ & Hb & _ & _ & Hid).
    destruct (media_found_relates h r' Hr') as (_ & b' & _ & Hb' & _ & _ & Hid').
    destruct (media_group g b Hg Hb) as (Hin & _ & Hkey), (media_group h b' Hh Hb') as (Hin' & _ & Hkey').
    assert (b = b') as <- by (apply same_id; congruence).
    apply iterates_elem in Hg, Hh; [|done..]. destruct g as [k l], h as [k' l']. cbn in *. congruence.
  - intros id Hid Hid'.
    apply list_elem_of_In, in_concat in Hid as (l & Hl%list_elem_of_In & Hr%list_elem_of_In), Hid' as (l' & Hl'%list_elem_of_In & Hr'%list_elem_of_In).
    apply list_elem_of_fmap in Hl as (g & -> & Hg), Hl' as (x & -> & Hx). apply list_elem_of_fmap in Hr as (r & -> & Hr), Hr' as (r' & Heq & Hr').
    destruct (media_found_relates g r Hr) as (_ & b & _ & Hb & _ & _ & Hid). destruct (media_group g b Hg Hb) as (Hin & Hkb & _).
    destruct (pair_relation x r' Hr') as (m & _ & _ & ->). destruct (pair_sidecar x Hx) as (Hs & Hk & _).
    apply (kinds_differ b x.2); [done..|]. apply same_id; [done..|].
    change (sidecar_asset_id r = PhysicalAssetIdFor x.2) in Heq. congruence.
  - apply NoDup_concat_map.
    + unfold sidecar_pairs. apply NoDup_concat_map; [apply iterate_unique| |].
      * intros g Hg. apply NoDup_fmap_2; [by intros ? ? [=]|]. apply iterates_elem in Hg; [|done]. unfold sidecars in Hg.
        rewrite group_by_key_lookup in Hg. assert (g.2 = named IsSidecar g.1 assets) as -> by by destruct (named _ _ _); simplify_eq.
        apply NoDup_filter. by eapply NoDup_fmap_1.
      * intros g h x _ _ (s & -> & _)%list_elem_of_fmap (t & [= -> _] & _)%list_elem_of_fmap. done.
    + intros x _. destruct (found_relations (relate media prefixes x).1) as [|r l] eqn:Hr; [constructor|].
      destruct (pair_relation x r) as (m & _ & Heq & _); [rewrite Hr; by left|]. rewrite Hr in Heq. rewrite Heq. apply NoDup_singleton.
    + intros x y id Hx Hy (r & -> & Hr)%list_elem_of_fmap (r' & Heq & Hr')%list_elem_of_fmap.
      destruct (pair_relation x r Hr) as (m & _ & _ & ->), (pair_relation y r' Hr') as (m' & _ & _ & ->).
      destruct (pair_sidecar x Hx) as (Hs & _ & Hkey & Hl), (pair_sidecar y Hy) as (Hs' & _ & Hkey' & Hl').
      apply same_id in Heq; [|done..]. destruct x as [[k l] s], y as [[k' l'] s']. cbn in *. congruence.
Qed.

End Relations.

(** ** The candidates *)

Definition valid_candidates (result : TakeoutParseResult) : Prop :=
  Forall (fun c => candidate_valid GoogleTakeoutMetadataRuleset (Metadata.field c) c = true) (takeout_candidates result).

Lemma valid_AddError path code message result : valid_candidates result -> valid_candidates (AddError path code message result).
Proof. done. Qed.

Lemma valid_AddCandidate asset field value rule evidence result :
  valid_candidates result -> valid_candidates (AddCandidate asset field value rule evidence result).
Proof.
  intros Hv. unfold AddCandidate. destruct (IsMetadataRuleCompatible _ _ _ _) eqn:Hrule; [|done].
  destruct (IsMetadataValueCompatible _ _) eqn:Hvalue; [|done]. cbn [negb]. destruct (negb _); [done|].
  apply Forall_app. split; [done|]. apply Forall_singleton. unfold candidate_valid.
  cbn [Metadata.field asset_id Metadata.source extraction_rule Metadata.value]. rewrite Hrule, Hvalue.
  by rewrite bool_decide_eq_true_2.
Qed.

Lemma valid_ExtractMetadata asset document result :
  valid_candidates result -> valid_candidates (ExtractMetadataCandidates asset document result).
Proof.
  intros Hv. unfold ExtractMetadataCandidates. destruct (negb _); [done|].
  unfold extract_taken_time, extract_favorite, extract_description, extract_title.
  repeat (case_match; try apply valid_AddCandidate; try apply valid_AddError; try done).
Qed.

Section Candidates.
Context {K : Type} `{Kernel K} (parse : string -> JsonOutcome).

Lemma valid_parse_asset root asset r k r' k' :
  valid_candidates r -> parse_takeout_asset parse root asset r k = (Ok r', k') -> valid_candidates r'.
Proof.
  intros Hv. unfold parse_takeout_asset. destruct (asset_kind asset == kUnknown); [by intros [= <- _]|].
  destruct (negb _); [by intros [= <- _]|]. unfold bind, outcome.
  destruct (Linux_OpenSource root (relative_path asset) k) as [[fd|e] k1]; [|by intros [= <- _]].
  destruct (scoped _ _ k1) as [[bytes|e] k2]; [|by intros [= <- _]].
  destruct (parse bytes) as [document|what|what]; [intros [= <- _]; by apply valid_ExtractMetadata|by intros [= <- _]|done].
Qed.

Lemma valid_parse_entries root entries r k r' k' :
  valid_candidates r -> parse_entries parse root entries r k = (Ok r', k') -> valid_candidates r'.
Proof.
  revert r k. induction entries as [|e entries IH]; intros r k Hv; cbn [parse_entries]; [by intros [= <- _]|].
  destruct (ClassifyPhysicalAsset e) as [a|]; [|by apply IH]. unfold bind. set (r0 := mkTakeoutParseResult _ _ _ _).
  destruct (parse_takeout_asset parse root a r0 k) as [[r1|e1] k1] eqn:Hrun; [|done]. apply IH.
  by eapply valid_parse_asset in Hrun.
Qed.
End Candidates.

Lemma ResolveParsedMetadata_Ok logical candidates :
  Forall (fun c => candidate_valid GoogleTakeoutMetadataRuleset (Metadata.field c) c = true) candidates ->
  exists summary, ResolveParsedMetadata logical candidates = Ok summary.
Proof.
  intros Hv. unfold ResolveParsedMetadata. generalize (concat (map (fun l => map (pair l) kFields) logical)).
  generalize (mkMetadataSummary 0 0 0). intros summary turns. revert summary.
  induction turns as [|[asset field] turns IH]; intros summary; cbn [resolve_fields]; [by exists summary|].
  unfold resolve_field. destruct (candidate_group asset field candidates) as [|c group] eqn:Hgroup; [apply IH|].
  assert (Forall (admissible GoogleTakeoutMetadataRuleset field) (c :: group)) as Hall.
  { rewrite <- Hgroup. apply Forall_forall. intros x (Hx & Hin)%list_elem_of_filter. rewrite Forall_forall in Hv.
    apply candidate_valid_true. destruct Hx as [<- _]. by apply Hv. }
  pose proof (Resolve_spec field (c :: group) GoogleTakeoutMetadataRuleset) as Hspec.
  destruct (Resolve field (c :: group) GoogleTakeoutMetadataRuleset) as [resolution|e] eqn:Hres.
  - cbn [bind_or]. unfold BuildProvenance. rewrite (Resolve_valid _ _ _ _ Hres). cbn [negb bind_or]. apply IH.
  - destruct Hspec as [_ []]. split; [|done]. apply ValidateMetadataRuleset_ok. by vm_compute.
Qed.

(** ** The graph and the photos *)

Lemma add_vertices_Ok assets g :
  NoDup (vertices g ++ (PhysicalAssetIdFor <$> assets)) -> built g ->
  exists g', add_vertices assets g = Ok g' /\ built g' /\ vertices g' = vertices g ++ (PhysicalAssetIdFor <$> assets)
    /\ edges g' = edges g.
Proof.
  revert g. induction assets as [|a assets IH]; intros g Hnd Hb; cbn [add_vertices].
  { exists g. by rewrite app_nil_r. }
  pose proof (built_vertex (PhysicalAssetIdFor a) g Hb) as Hb1. revert Hb1. unfold AddVertex, ContainsVertex.
  change (str_empty (PhysicalAssetIdFor a)) with false. rewrite bool_decide_eq_false_2.
  - cbn [snd ok negb Status_Ok]. intros Hb1. destruct (IH (mkAssociationGraph (vertices g ++ [PhysicalAssetIdFor a]) (edges g))) as (g' & Hg' & Hb' & Hv & He); [|exact Hb1|].
    + cbn [vertices]. by rewrite <- app_assoc.
    + exists g'. split; [done|]. split; [done|]. cbn in Hv. by rewrite <- app_assoc in Hv.
  - apply NoDup_app in Hnd as (_ & Hdis & _). intros Hin. apply (Hdis _ Hin). by left.
Qed.

Lemma add_edges_Ok es g :
  NoDup (edges g ++ es) -> Forall (fun e => lhs e ∈ vertices g /\ rhs e ∈ vertices g /\ lhs e <> rhs e) es ->
  Forall (fun v => v <> "") (vertices g) -> built g ->
  exists g', add_edges es g = Ok g' /\ built g' /\ vertices g' = vertices g /\ edges g' = edges g ++ es.
Proof.
  intros Hnd Hes Hv. revert g Hnd Hes Hv. induction es as [|e es IH]; intros g Hnd Hes Hv Hb; cbn [add_edges].
  { exists g. by rewrite app_nil_r. }
  apply Forall_cons in Hes as [(Hl & Hr & Hne) Hes]. pose proof (built_edge e g Hb) as Hb1. revert Hb1.
  unfold AddEdge, ContainsVertex. rewrite Forall_forall in Hv.
  rewrite (proj2 (str_empty_false _) (Hv _ Hl)), (proj2 (str_empty_false _) (Hv _ Hr)), !bool_decide_eq_true_2 by done.
  rewrite (bool_decide_eq_false_2 (lhs e = rhs e)) by done. cbn [orb negb].
  destruct (existsb _ (edges g)) eqn:Hex.
  { apply existsb_exists in Hex as (x & Hx%list_elem_of_In & ->%SameEdge_true). apply NoDup_app in Hnd as (_ & Hdis & _).
    destruct (Hdis _ Hx). by left. }
  cbn [snd ok negb Status_Ok]. intros Hb1. destruct (IH (mkAssociationGraph (vertices g) (edges g ++ [e]))) as (g' & Hg' & Hb' & Hv' & He'); [| | |exact Hb1|].
  - cbn [edges]. by rewrite <- app_assoc.
  - done.
  - by apply Forall_forall.
  - exists g'. split; [done|]. split; [done|]. cbn in Hv', He'. by rewrite <- app_assoc in He'.
Qed.

Lemma build_photos_Ok Blake3 logical assets es :
  Forall (fun l => composable Blake3 l assets) logical ->
  exists photos, build_photos Blake3 logical assets es = Ok photos
    /\ Forall2 (fun l p => photo_members p ≡ₚ members l) logical photos.
Proof.
  induction 1 as [|l logical Hl _ IH]; cbn [build_photos]; [by exists []|].
  destruct IH as (photos & -> & Hall). destruct (canonical_photo_is_exact Blake3 l assets es) as [Hok Hphoto].
  apply Hok in Hl. destruct (BuildCanonicalPhoto Blake3 l assets es) as [p|e]; [|done]. cbn [bind_or].
  exists (p :: photos). split; [done|]. constructor; [|done]. by destruct (Hphoto p eq_refl) as (_ & ? & _).
Qed.

(** ** Composition *)

(** Two files belong together: a RAW and its JPEG, a photo and its motion. *)
Definition composed (relations : list SourceRelationCandidate) (u v : string) : Prop :=
  exists r, r ∈ relations /\ (candidate_relation r = kLivePhotoMotionForMedia \/ candidate_relation r = kRawJpegPair)
    /\ media_asset_id r = u /\ sidecar_asset_id r = v.

Lemma joined_composed g relations u v :
  edges g = AssociationEdgeFor <$> relations -> joined g u v <-> composed relations u v.
Proof.
  intros He. unfold joined, composed. rewrite He. unfold is_composition. split.
  - intros (e & (r & -> & Hr)%list_elem_of_fmap & Hc & <- & <-). exists r. split_and!; [done| |done|done].
    revert Hc. cbn. by destruct (candidate_relation r); auto.
  - intros (r & Hr & Hk & <- & <-). exists (AssociationEdgeFor r). split; [by apply list_elem_of_fmap_2|].
    split; [|done]. cbn. by destruct Hk as [-> | ->].
Qed.

Lemma rtsc_iff {A} (R S : A -> A -> Prop) x y : (forall a b, R a b <-> S a b) -> rtsc R x y <-> rtsc S x y.
Proof.
  intros HRS. assert (forall (P Q : A -> A -> Prop), (forall a b, P a b -> Q a b) -> rtsc P x y -> rtsc Q x y) as Hsub.
  { intros P Q HPQ. unfold rtsc. induction 1 as [x|x z y Hxz _ IH]; [apply rtc_refl|]. eapply rtc_l; [|exact IH].
    destruct Hxz; [left|right]; by apply HPQ. }
  split; apply Hsub; intros a b; apply HRS.
Qed.

(** What the rest of the command makes of a parser's result. *)
Record photos_of (parsed : TakeoutParseResult) (photos : list CanonicalPhoto) : Prop := {
  po_partition : concat (photo_members <$> photos) ≡ₚ PhysicalAssetIdFor <$> takeout_assets parsed;
  po_together : forall a b, a ∈ takeout_assets parsed -> b ∈ takeout_assets parsed ->
    rtsc (composed (takeout_relations parsed)) (PhysicalAssetIdFor a) (PhysicalAssetIdFor b) <->
    exists p, p ∈ photos /\ PhysicalAssetIdFor a ∈ photo_members p /\ PhysicalAssetIdFor b ∈ photo_members p;
}.

(** What the parser returns on a folder nobody writes to. *)
Record parsed_well (parsed : TakeoutParseResult) : Prop := {
  pw_ids : NoDup (PhysicalAssetIdFor <$> takeout_assets parsed);
  pw_owners : NoDup (sidecar_asset_id <$> takeout_relations parsed);
  pw_relates : Forall (relates (takeout_assets parsed)) (takeout_relations parsed);
  pw_candidates : valid_candidates parsed;
}.

Lemma compose_takeout_Ok Blake3 parsed :
  parsed_well parsed ->
  exists logical metadata photos, compose_takeout Blake3 parsed = Ok (logical, metadata, photos) /\ photos_of parsed photos.
Proof.
  intros [Hids Howners Hrel Hcand]. unfold compose_takeout.
  destruct (add_vertices_Ok (takeout_assets parsed) empty_graph Hids built_empty) as (g1 & -> & Hb1 & Hv1 & He1).
  cbn [app vertices edges empty_graph] in Hv1, He1. cbn [bind_or].
  set (es := AssociationEdgeFor <$> takeout_relations parsed).
  destruct (add_edges_Ok es g1) as (g & -> & Hb & Hv & He); [| | |done|].
  - rewrite He1. apply (NoDup_fmap_1 rhs). unfold es. cbn [app]. by rewrite <- list_fmap_compose.
  - unfold es. apply Forall_fmap. eapply Forall_impl; [exact Hrel|]. intros r (a & b & Ha & Hb' & Hne & Hm & Hs).
    unfold compose. change (lhs (AssociationEdgeFor r)) with (media_asset_id r).
    change (rhs (AssociationEdgeFor r)) with (sidecar_asset_id r). rewrite Hm, Hs, Hv1.
    split_and!; [by apply list_elem_of_fmap_2..|]. intros Heq. apply Hne. by apply (same_id (takeout_assets parsed)).
  - by apply (built_wf g1).
  - rewrite Hv1 in Hv. rewrite He1 in He. cbn [app] in He. cbn [bind_or].
    destruct (BuildLogicalAssets_components Blake3 g Hb) as (logical & -> & Hpart & Hsame & Hids').
    cbn [bind_or]. destruct (ResolveParsedMetadata_Ok logical _ Hcand) as [metadata ->]. cbn [bind_or].
    destruct (build_photos_Ok Blake3 logical (takeout_assets parsed) es) as (photos & -> & Hphotos).
    { apply Forall_forall. intros l Hl. rewrite Forall_forall in Hids'. split; [by apply Hids'|]. split; [done|].
      apply Forall_forall. intros m Hm. assert (m ∈ vertices g) as Hin.
      { rewrite <- Hpart. apply list_elem_of_In, in_concat. exists (members l). split; [|by apply list_elem_of_In].
        apply list_elem_of_In. by apply list_elem_of_fmap_2. }
      rewrite Hv in Hin. apply list_elem_of_fmap in Hin as (a & -> & Ha). by exists a. }
    cbn [bind_or]. exists logical, metadata, photos. split; [done|]. split.
    + rewrite <- Hv, <- Hpart. clear -Hphotos. induction Hphotos as [|l p logical photos Hp _ IH]; [done|]. cbn. by rewrite Hp, IH.
    + intros a b Ha Hb'. rewrite <- (rtsc_iff (joined g)) by (intros; by apply joined_composed).
      change (rtsc (joined g)) with (same_photo g). rewrite Hsame by (rewrite Hv; by apply list_elem_of_fmap_2). split.
      * intros (l & Hl & Hu & Hw). apply list_elem_of_lookup in Hl as [i Hi].
        destruct (Forall2_lookup_l _ _ _ _ _ Hphotos Hi) as (p & Hp & Hpm). exists p. rewrite Hpm. split_and!; [|done..].
        by eapply list_elem_of_lookup_2.
      * intros (p & Hp & Hu & Hw). apply list_elem_of_lookup in Hp as [i Hi].
        destruct (Forall2_lookup_r _ _ _ _ _ Hphotos Hi) as (l & Hl & Hpm). exists l. rewrite <- Hpm. split_and!; [|done..].
        by eapply list_elem_of_lookup_2.
Qed.

(** The parser's result is of this kind. *)
Lemma Parse_parsed_well {K : Type} `{UnchangingTree K} parse iterate depth root i cs k parsed k' :
  resolves (K := K) root = Some (Directory i cs) -> tree_ok (Directory i cs) -> (height (Directory i cs) <= depth)%nat ->
  iterates iterate -> TakeoutParser_Parse parse iterate depth root k = (Ok parsed, k') ->
  takeout_assets parsed ≡ₚ classified (entries_below [] (Directory i cs)) /\ parsed_well parsed.
Proof.
  intros Hroot Htree Hdepth Hit. destruct (TakeoutParser_Parse_eq parse depth root i cs k Hroot Htree Hdepth) as [(fd & k1 & ->)|(e & k1 & ->)];
    [|done]. unfold scoped, bind. destruct (parse_entries _ _ _ _ k1) as [[r|e] k2] eqn:Hrun; [|done]. intros [= <- _].
  pose proof (valid_parse_entries parse _ _ _ _ _ _ (Forall_nil_2 _ : valid_candidates (mkTakeoutParseResult [] [] [] [])) Hrun) as Hcand.
  apply parse_entries_assets in Hrun as (Ha & Hr & _); [|constructor]. cbn [takeout_assets takeout_relations app] in Ha, Hr.
  pose proof (walked_ids_unique _ Htree) as Hids. rewrite <- Ha in Hids.
  rewrite (AddRelationErrorsAndCandidates_eq (takeout_assets r)) by done. rewrite Hr.
  pose proof (owners_unique iterate Hit _ Hids) as Hown. pose proof (found_relates iterate Hit (takeout_assets r)) as Hrel.
  set (found := all_found _ _ _) in *. clearbody found. unfold SortResult. cbn [app takeout_assets takeout_relations takeout_candidates takeout_errors].
  split; [by rewrite std_sort_perm, Ha|]. split; cbn [takeout_assets takeout_relations takeout_candidates].
  - by rewrite std_sort_perm.
  - by rewrite std_sort_perm.
  - apply Forall_forall. intros x Hx. rewrite elem_of_std_sort in Hx. destruct (Hrel x Hx) as (a & b & ? & ? & ? & ? & ?).
    exists a, b. rewrite !elem_of_std_sort. by split_and!.
  - unfold valid_candidates. cbn [takeout_candidates]. by rewrite std_sort_perm.
Qed.

(** What the command prints, and what it returns then. *)
Definition printed_lines (root report : string) (parsed : TakeoutParseResult) (logical : list LogicalAsset)
    (metadata : MetadataSummary) (photos : list CanonicalPhoto) : list string :=
  parse_completed root parsed logical metadata photos
  :: (if str_empty report then [] else ["parser error report: " +:+ report +:+ String LF ""])
  ++ (parser_error_line <$> takeout_errors parsed).
Definition parse_verdict (errors : list TakeoutParserError) : StatusOr unit :=
  match errors with [] => Ok tt | _ => Err (Invalid "Takeout parse produced parser errors") end.

Lemma for_each_fmap {W A B} (f : A -> M W unit) (g : B -> A) l w :
  for_each f (g <$> l) w = for_each (fun b => f (g b)) l w.
Proof.
  revert w. induction l as [|b l IH]; intros w; [done|]. cbn [for_each fmap list_fmap]. unfold bind.
  destruct (f (g b) w) as [[[]|e] w']; [apply IH|done].
Qed.

Lemma Execute_composed {K : Type} `{Kernel K} `{DirectoryKernel K} `{Console K} `{ErrorReportFile K}
    Blake3 parse dump iterate depth root report k parsed k' logical metadata photos :
  root <> "" -> TakeoutParser_Parse parse iterate depth root k = (Ok parsed, k') ->
  compose_takeout Blake3 parsed = Ok (logical, metadata, photos) ->
  TakeoutParseCommand_Execute Blake3 parse dump iterate depth root report k
  = match (if str_empty report then ret tt else WriteErrorReport dump report (takeout_errors parsed)) k' with
    | (Err e, k2) => (Err e, k2)
    | (Ok _, k2) =>
        match for_each Print (printed_lines root report parsed logical metadata photos) k2 with
        | (Err e, k3) => (Err e, k3)
        | (Ok _, k3) => (parse_verdict (takeout_errors parsed), k3)
        end
    end.
Proof.
  intros Hne Hrun Hcompose. unfold TakeoutParseCommand_Execute, printed_lines. rewrite (proj2 (str_empty_false _) Hne).
  unfold bind, require, ret. cbn [negb]. rewrite Hrun. destruct (str_empty report); cbn [app].
  - unfold lift. rewrite Hcompose. cbn [for_each]. unfold bind. destruct (Print _ k') as [[[]|e] k3]; [|done].
    rewrite <- (for_each_fmap Print parser_error_line).
    by destruct (for_each Print _ k3) as [[[]|e] k4]; [destruct (takeout_errors parsed)|].
  - destruct (WriteErrorReport _ _ _ k') as [[[]|e] k2]; [|done]. unfold lift. rewrite Hcompose. cbn [for_each]. unfold bind.
    destruct (Print _ k2) as [[[]|e] k3]; [|done]. destruct (Print _ k3) as [[[]|e] k4]; [|done].
    rewrite <- (for_each_fmap Print parser_error_line).
    by destruct (for_each Print _ k4) as [[[]|e] k5]; [destruct (takeout_errors parsed)|].
Qed.

(** ** Properties *)

(** C30. A Takeout folder that parses always becomes photos: on a folder nobody
    writes to, whatever its sidecars contain and however the hash maps list
    their elements, every relation found is a new edge between two known
    files, every candidate is valid for its field and every photo can be
    composed; every file of the folder is in exactly one photo, two in the same
    one exactly when a chain of RAW+JPEG and live photo pairs links them.  The
    command that has parsed the folder writes the error report it was asked
    for, composes the photos, prints its lines and is refused exactly for the
    parser's errors: what else can fail is the error report (an error of the
    file, or of the JSON library on a message that is not UTF-8) and the
    output. *)
Theorem parsed_folders_become_photos {K : Type} `{UnchangingTree K} `{Console K} `{ErrorReportFile K}
    Blake3 parse dump iterate depth root report i cs k parsed k' :
  resolves (K := K) root = Some (Directory i cs) -> tree_ok (Directory i cs) -> (height (Directory i cs) <= depth)%nat ->
  iterates iterate -> TakeoutParser_Parse parse iterate depth root k = (Ok parsed, k') ->
  takeout_assets parsed ≡ₚ classified (entries_below [] (Directory i cs))
  /\ exists logical metadata photos,
       compose_takeout Blake3 parsed = Ok (logical, metadata, photos) /\ photos_of parsed photos
       /\ (root <> "" ->
           TakeoutParseCommand_Execute Blake3 parse dump iterate depth root report k
           = match (if str_empty report then ret tt else WriteErrorReport dump report (takeout_errors parsed)) k' with
             | (Err e, k2) => (Err e, k2)
             | (Ok _, k2) =>
                 match for_each Print (printed_lines root report parsed logical metadata photos) k2 with
                 | (Err e, k3) => (Err e, k3)
                 | (Ok _, k3) => (parse_verdict (takeout_errors parsed), k3)
                 end
             end).
Proof.
  intros Hroot Htree Hdepth Hit Hrun.
  destruct (Parse_parsed_well parse iterate depth root i cs k parsed k' Hroot Htree Hdepth Hit Hrun) as [Hassets Hwell].
  split; [done|]. destruct (compose_takeout_Ok Blake3 parsed Hwell) as (logical & metadata & photos & Hcompose & Hphotos).
  exists logical, metadata, photos. split_and!; [done..|]. intros Hne. by apply Execute_composed.
Qed.

(** ** The demonstration folder *)

Module CommandDemo.
(** A report file that takes every line. *)
#[global] Instance disk_report : ErrorReportFile TreeDemo.Disk := {|
  ofstream_open _ k := (true, k);
  ofstream_write _ k := (true, k);
|}.
Definition dump (_ : Json) : Exn string := inr "{}".
Definition run := TakeoutParseCommand_Execute ManifestDemo.Blake3 TakeoutDemo.parse dump TakeoutDemo.backwards 3 "/photos" "/report" TreeDemo.disk.
End CommandDemo.

Lemma demo_takeout_parses :
  is_ok (TakeoutParser_Parse TakeoutDemo.parse TakeoutDemo.backwards 3 "/photos" TreeDemo.disk).1 = true.
Proof. by vm_compute. Qed.

Lemma demo_report_taken path errors k : WriteErrorReport CommandDemo.dump path errors k = (Ok tt, k).
Proof. unfold WriteErrorReport, bind, stream_call. cbn. induction errors as [|e errors IH]; [done|]. exact IH. Qed.

Lemma demo_lines_printed lines (k : TreeDemo.Disk) : exists k', for_each Print lines k = (Ok tt, k').
Proof. revert k. induction lines as [|line lines IH]; intros k; [by exists k|]. apply IH. Qed.

Lemma parsed_folders_become_photos_witness :
  exists parsed logical metadata photos,
    takeout_assets parsed ≡ₚ classified (entries_below [] TreeDemo.tree)
    /\ compose_takeout ManifestDemo.Blake3 parsed = Ok (logical, metadata, photos)
    /\ concat (photo_members <$> photos) ≡ₚ PhysicalAssetIdFor <$> classified (entries_below [] TreeDemo.tree)
    /\ length (classified (entries_below [] TreeDemo.tree)) = 3%nat
    /\ CommandDemo.run.1 = parse_verdict (takeout_errors parsed).
Proof.
  assert (height TreeDemo.tree <= 3)%nat as Hheight by (vm_compute; lia).
  assert (resolves (K := TreeDemo.Disk) "/photos" = Some (Directory (TreeDemo.info 1 0) TreeDemo.children)) as Hroot by reflexivity.
  pose proof demo_takeout_parses as Hok.
  destruct (TakeoutParser_Parse TakeoutDemo.parse TakeoutDemo.backwards 3 "/photos" TreeDemo.disk) as [[parsed|e] k'] eqn:Hrun;
    [|discriminate Hok].
  destruct (parsed_folders_become_photos ManifestDemo.Blake3 TakeoutDemo.parse CommandDemo.dump TakeoutDemo.backwards 3 "/photos"
    "/report" (TreeDemo.info 1 0) TreeDemo.children TreeDemo.disk parsed k' Hroot demo_tree_ok Hheight (proj2 demo_iterates) Hrun)
    as (Hassets & logical & metadata & photos & Hcompose & [Hpart _] & Hexecute).
  exists parsed, logical, metadata, photos. split; [exact Hassets|]. split; [exact Hcompose|].
  split; [by rewrite Hpart, Hassets|]. split; [by vm_compute|].
  unfold CommandDemo.run. rewrite Hexecute by done. cbn [str_empty]. rewrite demo_report_taken.
  destruct (demo_lines_printed (printed_lines "/photos" "/report" parsed logical metadata photos) k') as [k3 Hlines].
  by rewrite Hlines.
Defined.
