(* ===== verification/Cli.v ===== *)
(** * Cli: the command line

    Models src/cli/ (cli_app.cpp, dispatcher.cpp and the commands),
    src/pipeline/pipeline_router.cpp and the interface of the services,
    include/photobridge/pipeline/pipeline_support.h, as a class.  CLI11 is a
    library: what it makes of the arguments is a parameter, which keeps the
    ranges the options declare. *)

From stdpp Require Import pretty.
From S2P Require Import Prelude Status Bytes RelativePath Assets Json Sqlite FileOps Serve Layout.

(** ** Services and commands *)

Inductive PipelineStage := kScan | kPlan | kMigrate | kResume | kVerify | kStatus.

Class PipelineServices (W : Type) := {
  service_Scan : WorkspaceLayout -> string -> M W unit;
  service_Plan : WorkspaceLayout -> string -> string -> M W unit;
  service_Migration : WorkspaceLayout -> string -> Z -> Z -> M W unit;
  service_Recovery : WorkspaceLayout -> string -> M W unit;
  service_Verify : WorkspaceLayout -> string -> M W unit;
  service_Status : WorkspaceLayout -> string -> M W unit;
}.

(** The other parts a command runs: the workspace service, the Takeout parse
    command, the store and the server of the receiver. *)
Class CommandServices (W : Type) := {
  service_Initialize : WorkspaceLayout -> M W unit;
  service_TakeoutParse : string -> string -> M W unit;
  service_OpenStore : string -> M W unit;
  service_RunServer : ServeBootstrap -> M W unit;
}.

Section Commands.
Context {W : Type} `{PipelineServices W} `{CommandServices W} `{Console W}.

Definition RequiresInput (_ : PipelineStage) : bool := true.

(** [RunPipelineStage] *)
Definition RunPipelineStage (stage : PipelineStage) (workspace_path input_path target_path : string)
    (workers db_batch_size : Z) : M W unit :=
  let* layout := lift (FromRoot workspace_path) in
  do* require (negb (RequiresInput stage && str_empty input_path)) (Invalid "pipeline stage requires an input path");
  match stage with
  | kScan => service_Scan layout input_path
  | kPlan => service_Plan layout input_path target_path
  | kMigrate => service_Migration layout input_path workers db_batch_size
  | kResume => service_Recovery layout input_path
  | kVerify => service_Verify layout input_path
  | kStatus => service_Status layout input_path
  end.

(** [class PipelineCommand] *)
Record PipelineCommand := mkPipelineCommand {
  stage : PipelineStage;
  command_workspace : string;
  command_input : string;
  command_target : string;
  command_workers : Z;
  command_batch_size : Z;
}.
Definition PipelineCommand_Execute (c : PipelineCommand) : M W unit :=
  RunPipelineStage (stage c) (command_workspace c) (command_input c) (command_target c) (command_workers c)
    (command_batch_size c).

(** [InitCommand::Execute] *)
Definition InitCommand_Execute (workspace_path : string) : M W unit :=
  let* layout := lift (FromRoot workspace_path) in
  do* service_Initialize layout;
  Print ("initialized workspace: " +:+ layout_root layout +:+ String LF "").

(** What [ServeBootstrap::Create] takes from the machine. *)
Context (interfaces : option (list Interface)) (device : string + (nat -> Z)) (RenderQrCode : string -> string).

Definition serve_banner (b : ServeBootstrap) : string :=
  "serve bootstrap" +:+ String LF ("bind: " +:+ bind_address b +:+ String LF ("port: " +:+ pretty (port b)
    +:+ String LF ("token: " +:+ token b +:+ String LF ("url: " +:+ url b +:+ String LF ("qr:" +:+ String LF (qr_code b)))))).

(** [ServeCommand::Execute] *)
Definition ServeCommand_Execute (workspace_path bind_address : string) (port : Z) (bootstrap_only : bool) : M W unit :=
  do* require (negb (str_empty workspace_path)) (Invalid "serve workspace must not be empty");
  let* bootstrap := lift (ServeBootstrap_Create interfaces device RenderQrCode (mkServeOptions bind_address port)) in
  do* Print (serve_banner bootstrap);
  if bootstrap_only then ret tt
  else
    do* service_OpenStore workspace_path;
    service_RunServer bootstrap.

(** ** [class CommandDispatcher] *)

Definition CommandDispatcher : Type := gmap string (M W unit).
(** [emplace] keeps the command a name already has. *)
Definition Register (name : string) (command : M W unit) (commands : CommandDispatcher) : CommandDispatcher :=
  match commands !! name with Some _ => commands | None => <[name := command]> commands end.
Definition Dispatch (name : string) (commands : CommandDispatcher) : M W unit :=
  match commands !! name with
  | None => throw (mkStatus StatusCode.kNotFound ("command not found: " +:+ name))
  | Some command => command
  end.

End Commands.

(** ** The command line *)

(** [ExitCodeForStatus(status)] *)
Definition ExitCodeForStatus (status : Status) : Z :=
  match code status with
  | StatusCode.kOk => 0
  | StatusCode.kInvalidArgument => 2
  | StatusCode.kNotFound => 3
  | StatusCode.kAlreadyExists => 4
  | StatusCode.kPermissionDenied => 5
  | StatusCode.kIoError => 6
  | StatusCode.kInternal => 7
  end.

Inductive Subcommand := Init | ParseTakeout | Scan | Plan | Migrate | Resume | Verify | TaskStatus | Serve.
#[global] Instance Subcommand_eq_dec : EqDecision Subcommand.
Proof. solve_decision. Defined.

(** The variables the options write to, with their defaults, and the
    subcommands the arguments name. *)
Record CommandLine := mkCommandLine {
  parsed : Subcommand -> bool;
  workspace_path : string;
  input_path : string;
  target_path : string;
  takeout_path : string;
  error_report_path : string;
  bind_to : string;
  serve_port : Z;                    (* std::uint16_t *)
  workers : Z;                       (* std::size_t *)
  db_batch_size : Z;
  bootstrap_only : bool;
}.
(** [add_option(...)], [required()] and [check(CLI::Range(...))]. *)
Record OptionSpec := mkOption { option_name : string; required : bool; range : option (Z * Z) }.
Definition pipeline_options (input_option : string) : list OptionSpec :=
  [mkOption "--workspace" true None; mkOption input_option true None].
Definition options_of (c : Subcommand) : list OptionSpec :=
  match c with
  | Init => [mkOption "--workspace" true None]
  | ParseTakeout => [mkOption "--takeout" true None; mkOption "--error-report" false None]
  | Scan => pipeline_options "--source"
  | Plan => pipeline_options "--manifest" ++ [mkOption "--target" true None]
  | Migrate =>
      pipeline_options "--plan"
      ++ [mkOption "--workers" false (Some (1, 8)); mkOption "--db-batch-size" false (Some (1, 16))]
  | Resume | Verify | TaskStatus => pipeline_options "--plan"
  | Serve =>
      [mkOption "--workspace" true None; mkOption "--bind" false None; mkOption "--port" false None;
       mkOption "--bootstrap-only" false None]
  end.

(** The number an option holds. *)
Definition number_of (line : CommandLine) (name : string) : option Z :=
  if name == "--workers" then Some (workers line)
  else if name == "--db-batch-size" then Some (db_batch_size line)
  else if name == "--port" then Some (serve_port line) else None.

(** [app.parse(argc, argv)], and the code [app.exit] makes of its exception. *)
Inductive CommandLineOutcome := Exits (code : Z) | Parsed (line : CommandLine).

(** What CLI11 documents of [check]: a value out of the range is an error of
    the parse; an option that is not given keeps its default. *)
Class RangesChecked (parse : list string -> CommandLineOutcome) := {
  value_in_range argv line c spec low high value :
    parse argv = Parsed line -> spec ∈ options_of c -> range spec = Some (low, high) ->
    number_of line (option_name spec) = Some value -> low <= value <= high;
}.

Section RunCli.
Context {W : Type} `{PipelineServices W} `{CommandServices W} `{Console W}.
Context (interfaces : option (list Interface)) (device : string + (nat -> Z)) (RenderQrCode : string -> string).

Definition pipeline_command (line : CommandLine) (s : PipelineStage) : PipelineCommand :=
  mkPipelineCommand s (workspace_path line) (input_path line) "" 4 8.

(** The chain of [parsed()], in its order: the name and the command. *)
Definition selected (line : CommandLine) : option (string * M W unit) :=
  if parsed line Init then Some ("init", InitCommand_Execute (workspace_path line))
  else if parsed line ParseTakeout then Some ("parse", service_TakeoutParse (takeout_path line) (error_report_path line))
  else if parsed line Scan then Some ("scan", PipelineCommand_Execute (pipeline_command line kScan))
  else if parsed line Plan
  then Some ("plan", PipelineCommand_Execute
                       (mkPipelineCommand kPlan (workspace_path line) (input_path line) (target_path line) 4 8))
  else if parsed line Migrate
  then Some ("migrate", PipelineCommand_Execute
                          (mkPipelineCommand kMigrate (workspace_path line) (input_path line) "" (workers line) (db_batch_size line)))
  else if parsed line Resume then Some ("resume", PipelineCommand_Execute (pipeline_command line kResume))
  else if parsed line Verify then Some ("verify", PipelineCommand_Execute (pipeline_command line kVerify))
  else if parsed line TaskStatus then Some ("status", PipelineCommand_Execute (pipeline_command line kStatus))
  else if parsed line Serve
  then Some ("serve", ServeCommand_Execute interfaces device RenderQrCode (workspace_path line) (bind_to line)
                        (serve_port line) (bootstrap_only line))
  else None.

(** The status of a result. *)
Definition status_of {A} (r : StatusOr A) : Status := match r with Ok _ => Status_Ok | Err e => e end.

(** [RunCli(argc, argv, out, err)] *)
Definition RunCli (parse : list string -> CommandLineOutcome) (argv : list string) (w : W) : Z * W :=
  match parse argv with
  | Exits code => (code, w)
  | Parsed line =>
      match selected line with
      | None => (0, w)
      | Some (selected_command, command) =>
          let dispatcher := Register selected_command command ∅ in
          let (r, w) := Dispatch selected_command dispatcher w in
          (ExitCodeForStatus (status_of r), w)
      end
  end.

End RunCli.

(** ** What was called *)

Inductive ServiceCall :=
  | CallScan (layout : WorkspaceLayout) (input : string)
  | CallPlan (layout : WorkspaceLayout) (input target : string)
  | CallMigration (layout : WorkspaceLayout) (input : string) (workers db_batch_size : Z)
  | CallRecovery (layout : WorkspaceLayout) (input : string)
  | CallVerify (layout : WorkspaceLayout) (input : string)
  | CallStatus (layout : WorkspaceLayout) (input : string)
  | CallInitialize (layout : WorkspaceLayout)
  | CallTakeoutParse (root report : string)
  | CallOpenStore (workspace : string)
  | CallRunServer (bootstrap : ServeBootstrap).
Inductive CliEvent := Called (c : ServiceCall) (r : StatusOr unit) | Printed (text : string).

Record Session (W : Type) := mkSession { outside : W; events : list CliEvent }.
Arguments mkSession {W}.
Arguments outside {W}.
Arguments events {W}.

Section Session.
Context {W : Type} `{PipelineServices W} `{CommandServices W}.

Definition called (c : ServiceCall) (service : M W unit) : M (Session W) unit :=
  fun s => let (r, w) := service (outside s) in (r, mkSession w (events s ++ [Called c r])).

#[export] Instance session_PipelineServices : PipelineServices (Session W) := {|
  service_Scan l i := called (CallScan l i) (service_Scan l i);
  service_Plan l i t := called (CallPlan l i t) (service_Plan l i t);
  service_Migration l i n b := called (CallMigration l i n b) (service_Migration l i n b);
  service_Recovery l i := called (CallRecovery l i) (service_Recovery l i);
  service_Verify l i := called (CallVerify l i) (service_Verify l i);
  service_Status l i := called (CallStatus l i) (service_Status l i);
|}.
#[export] Instance session_CommandServices : CommandServices (Session W) := {|
  service_Initialize l := called (CallInitialize l) (service_Initialize l);
  service_TakeoutParse r e := called (CallTakeoutParse r e) (service_TakeoutParse r e);
  service_OpenStore p := called (CallOpenStore p) (service_OpenStore p);
  service_RunServer b := called (CallRunServer b) (service_RunServer b);
|}.
(** Inserting into [out] throws nothing. *)
#[export] Instance session_Console : Console (Session W) := {|
  Print text s := (Ok tt, mkSession (outside s) (events s ++ [Printed text]));
|}.
End Session.

(** ** What a line asks for *)

(** The first subcommand that was parsed. *)
Definition subcommand (line : CommandLine) : option Subcommand :=
  List.find (parsed line) [Init; ParseTakeout; Scan; Plan; Migrate; Resume; Verify; TaskStatus; Serve].

(** The one call of a pipeline stage. *)
Definition stage_call (line : CommandLine) (layout : WorkspaceLayout) (c : Subcommand) : option ServiceCall :=
  match c with
  | Scan => Some (CallScan layout (input_path line))
  | Plan => Some (CallPlan layout (input_path line) (target_path line))
  | Migrate => Some (CallMigration layout (input_path line) (workers line) (db_batch_size line))
  | Resume => Some (CallRecovery layout (input_path line))
  | Verify => Some (CallVerify layout (input_path line))
  | TaskStatus => Some (CallStatus layout (input_path line))
  | _ => None
  end.

Section Asked.
Context (interfaces : option (list Interface)) (device : string + (nat -> Z)) (RenderQrCode : string -> string).

(** What [serve] advertises: the address of [--bind], or the one selected
    where it is empty, the port of [--port] and a fresh token. *)
Definition advertised (line : CommandLine) (b : ServeBootstrap) : Prop :=
  serve_port line <> 0 /\ port b = serve_port line
  /\ bind_address b = (if str_empty (bind_to line) then SelectLanAddress interfaces else bind_to line)
  /\ GenerateToken device = Ok (token b)
  /\ url b = "http://" +:+ UrlHost (bind_address b) +:+ ":" +:+ pretty (port b) +:+ "/?t=" +:+ token b
  /\ qr_code b = RenderQrCode (url b).

(** The events and the exit code of each subcommand. *)
Inductive obeyed (line : CommandLine) : Subcommand -> list CliEvent -> Z -> Prop :=
  | init_refused : workspace_path line = "" -> obeyed line Init [] 2
  | init_run layout r :
      FromRoot (workspace_path line) = Ok layout ->
      obeyed line Init
        (Called (CallInitialize layout) r
         :: match r with Ok _ => [Printed ("initialized workspace: " +:+ layout_root layout +:+ String LF "")] | Err _ => [] end)
        (ExitCodeForStatus (status_of r))
  | parse_run r :
      obeyed line ParseTakeout [Called (CallTakeoutParse (takeout_path line) (error_report_path line)) r]
        (ExitCodeForStatus (status_of r))
  | stage_refused c :
      c ∈ [Scan; Plan; Migrate; Resume; Verify; TaskStatus] -> workspace_path line = "" \/ input_path line = "" ->
      obeyed line c [] 2
  | stage_run c layout call r :
      stage_call line layout c = Some call -> FromRoot (workspace_path line) = Ok layout -> input_path line <> "" ->
      (c = Migrate -> 1 <= workers line <= 8 /\ 1 <= db_batch_size line <= 16) ->
      obeyed line c [Called call r] (ExitCodeForStatus (status_of r))
  | serve_refused : workspace_path line = "" \/ serve_port line = 0 -> obeyed line Serve [] 2
  | serve_without_token what :
      workspace_path line <> "" -> serve_port line <> 0 -> device = inl what -> obeyed line Serve [] 7
  | serve_bootstrap b :
      workspace_path line <> "" -> advertised line b -> bootstrap_only line = true ->
      obeyed line Serve [Printed (serve_banner b)] 0
  | serve_unopened b e :
      workspace_path line <> "" -> advertised line b -> bootstrap_only line = false ->
      obeyed line Serve [Printed (serve_banner b); Called (CallOpenStore (workspace_path line)) (Err e)] (ExitCodeForStatus e)
  | serve_run b r :
      workspace_path line <> "" -> advertised line b -> bootstrap_only line = false ->
      obeyed line Serve
        [Printed (serve_banner b); Called (CallOpenStore (workspace_path line)) (Ok tt); Called (CallRunServer b) r]
        (ExitCodeForStatus (status_of r)).

Section Obeyed.
Context {W : Type} `{PipelineServices W} `{CommandServices W}.
Implicit Types (s : Session W).

(** A command adds the events of its subcommand, and has their code. *)
Definition obeys (line : CommandLine) (c : Subcommand) (command : M (Session W) unit) : Prop :=
  forall s, let (r, s') := command s in
    exists l, events s' = events s ++ l /\ obeyed line c l (ExitCodeForStatus (status_of r)).

Lemma Dispatch_registered {V} name (command : M V unit) : Dispatch name (Register name command ∅) = command.
Proof. unfold Dispatch, Register, CommandDispatcher. by rewrite lookup_empty, lookup_insert_eq. Qed.

(** Nothing is called. *)
Lemma obeys_refused line c e : obeyed line c [] (ExitCodeForStatus e) -> obeys line c (throw e).
Proof. intros Hc s. exists []. by rewrite app_nil_r. Qed.

Lemma obeys_called line c call (service : M W unit) :
  (forall r, obeyed line c [Called call r] (ExitCodeForStatus (status_of r))) -> obeys line c (called call service).
Proof. intros Hc s. unfold called. destruct (service (outside s)) as [r w]. by exists [Called call r]. Qed.

(** The pipeline commands up to their service. *)
Lemma obeys_pipeline line c st target n b :
  c ∈ [Scan; Plan; Migrate; Resume; Verify; TaskStatus] ->
  (forall layout, FromRoot (workspace_path line) = Ok layout -> input_path line <> "" ->
     obeys line c (match st with
       | kScan => service_Scan layout (input_path line)
       | kPlan => service_Plan layout (input_path line) target
       | kMigrate => service_Migration layout (input_path line) n b
       | kResume => service_Recovery layout (input_path line)
       | kVerify => service_Verify layout (input_path line)
       | kStatus => service_Status layout (input_path line)
       end)) ->
  obeys line c (PipelineCommand_Execute (mkPipelineCommand st (workspace_path line) (input_path line) target n b)).
Proof.
  intros Hc Hstage s. unfold PipelineCommand_Execute, RunPipelineStage.
  cbn [stage command_workspace command_input command_target command_workers command_batch_size].
  unfold bind, lift. unfold FromRoot in *. destruct (str_empty (workspace_path line)) eqn:Hw.
  { apply (obeys_refused line c (Invalid "workspace root must not be empty")), stage_refused; [done|left]. by apply str_empty_true. }
  unfold require, RequiresInput. cbn [andb]. destruct (str_empty (input_path line)) eqn:Hi; cbn [negb].
  { apply (obeys_refused line c (Invalid "pipeline stage requires an input path")), stage_refused; [done|right]. by apply str_empty_true. }
  by apply Hstage; [|apply str_empty_false].
Qed.

Lemma obeys_init line : obeys line Init (InitCommand_Execute (workspace_path line)).
Proof.
  intros s. unfold InitCommand_Execute, bind, lift. destruct (FromRoot (workspace_path line)) as [layout|e] eqn:Hl.
  2:{ unfold FromRoot in Hl. destruct (str_empty _) eqn:Hw; [|done]. injection Hl as <-.
      apply (obeys_refused line Init (Invalid "workspace root must not be empty")), init_refused. by apply str_empty_true. }
  cbn. unfold called. destruct (service_Initialize layout (outside s)) as [[[]|e] w]; cbn.
  - eexists [_; _]. rewrite <- app_assoc. split; [done|]. by apply (init_run line layout (Ok tt)).
  - eexists [_]. split; [done|]. by apply (init_run line layout (Err e)).
Qed.

Lemma obeys_serve line :
  obeys line Serve (ServeCommand_Execute interfaces device RenderQrCode (workspace_path line) (bind_to line)
                      (serve_port line) (bootstrap_only line)).
Proof.
  intros s. unfold ServeCommand_Execute, bind, require, lift. destruct (str_empty (workspace_path line)) eqn:Hw; cbn [negb].
  { apply (obeys_refused line Serve (Invalid "serve workspace must not be empty")), serve_refused. left. by apply str_empty_true. }
  apply str_empty_false in Hw. unfold ret at 1. unfold ServeBootstrap_Create. cbn [options_port options_bind_address].
  destruct (Z.eqb_spec (serve_port line) 0) as [|Hport].
  { apply (obeys_refused line Serve (Invalid "serve port must be between 1 and 65535")), serve_refused. by right. }
  destruct (GenerateToken device) as [fresh|e] eqn:Htoken; cbn [bind_or].
  2:{ unfold GenerateToken in Htoken. destruct device as [what|draws] eqn:Hd; [|done]. injection Htoken as <-.
      apply (obeys_refused line Serve (Internal _)). by apply (serve_without_token line what). }
  set (b := mkServeBootstrap _ _ _ _ _). assert (advertised line b) as Hb by by split_and!. clearbody b.
  cbn [service_OpenStore session_CommandServices service_RunServer Print session_Console outside events].
  destruct (bootstrap_only line) eqn:Honly; [eexists [_]; split; [done|by apply serve_bootstrap]|].
  unfold called. cbn [outside events].
  destruct (service_OpenStore (workspace_path line) (outside s)) as [[[]|e] w]; cbn [outside events].
  - destruct (service_RunServer b w) as [r w']. cbn [events]. eexists [_; _; _]. rewrite <- !app_assoc.
    split; [done|]. by apply serve_run.
  - eexists [_; _]. rewrite <- app_assoc. split; [done|]. by apply serve_unopened.
Qed.

(** The chain of [parsed()] selects the first subcommand, and its command. *)
Lemma obeys_selected parse argv line :
  RangesChecked parse -> parse argv = Parsed line ->
  match selected interfaces device RenderQrCode line with
  | Some (name, command) => exists c, subcommand line = Some c /\ obeys line c command
  | None => subcommand line = None
  end.
Proof.
  intros Hranges Hparse. unfold selected, subcommand. cbn [List.find].
  assert (1 <= workers line <= 8 /\ 1 <= db_batch_size line <= 16) as [Hn Hb].
  { split; [apply (value_in_range argv line Migrate (mkOption "--workers" false (Some (1, 8))))|
      apply (value_in_range argv line Migrate (mkOption "--db-batch-size" false (Some (1, 16))))]; try done; set_solver. }
  destruct (parsed line Init); [exists Init; split; [done|apply obeys_init]|].
  destruct (parsed line ParseTakeout); [exists ParseTakeout; split; [done|]; apply obeys_called; intros r; apply parse_run|].
  destruct (parsed line Scan); [exists Scan|destruct (parsed line Plan); [exists Plan|destruct (parsed line Migrate);
    [exists Migrate|destruct (parsed line Resume); [exists Resume|destruct (parsed line Verify); [exists Verify|
      destruct (parsed line TaskStatus); [exists TaskStatus|]]]]]].
  1-6: split; [done|]; apply obeys_pipeline; [set_solver|]; intros layout Hl Hi; apply obeys_called; intros r;
    by apply (stage_run line _ layout).
  destruct (parsed line Serve); [exists Serve; split; [done|apply obeys_serve]|done].
Qed.

End Obeyed.
End Asked.

(** ** Properties *)

(** C38. The command line does what it says, whatever the services do: an error
    of the parse runs none of them.  Otherwise the first subcommand parsed
    runs exactly its own service, once - [serve] opens the store and, that
    done, runs the server - on the values of its options: the workspace and
    an input that is not empty, numbers within the ranges declared, the
    address of --bind or the one selected for an empty one, the port.  The
    exit code is that of the last result; where a value is refused nothing is
    run and it is 2, where no token can be drawn it is 7, and it is 0 where
    no subcommand was given. *)
Theorem command_lines_are_obeyed {W} `{PipelineServices W} `{CommandServices W} parse argv interfaces device RenderQrCode
    (s : Session W) :
  RangesChecked parse ->
  let (code, s') := RunCli interfaces device RenderQrCode parse argv s in
  match parse argv with
  | Exits c => code = c /\ s' = s
  | Parsed line => exists l, events s' = events s ++ l /\
      match subcommand line with
      | Some c => obeyed interfaces device RenderQrCode line c l code
      | None => l = [] /\ code = 0
      end
  end.
Proof.
  intros Hranges. unfold RunCli. destruct (parse argv) as [c|line] eqn:Hparse; [done|].
  pose proof (obeys_selected interfaces device RenderQrCode (W := W) parse argv line Hranges Hparse) as Hsel.
  destruct (selected interfaces device RenderQrCode line) as [[name command]|].
  - rewrite Dispatch_registered. destruct Hsel as (c & -> & Hob). specialize (Hob s). by destruct (command s) as [r s'].
  - rewrite Hsel. exists []. by rewrite app_nil_r.
Qed.

(** Different outcomes have different codes. *)
Lemma exit_codes_distinct a b : ExitCodeForStatus a = ExitCodeForStatus b -> code a = code b.
Proof. unfold ExitCodeForStatus. by destruct (code a), (code b). Qed.

(** ** A migration asked for with three workers *)

Module CliDemo.
Definition line : CommandLine :=
  mkCommandLine (fun c => bool_decide (c = Migrate)) "/w" "p.jsonl" "" "" "" "" 8787 3 8 false.
Definition parse (argv : list string) : CommandLineOutcome := match argv with [] => Exits 0 | _ => Parsed line end.
Definition fails : Status := mkStatus StatusCode.kNotFound "open frozen plan: p.jsonl".
#[global] Instance services : PipelineServices unit := {|
  service_Scan _ _ := ret tt; service_Plan _ _ _ := ret tt; service_Migration _ _ _ _ := throw fails;
  service_Recovery _ _ := ret tt; service_Verify _ _ := ret tt; service_Status _ _ := ret tt;
|}.
#[global] Instance commands : CommandServices unit := {|
  service_Initialize _ := ret tt; service_TakeoutParse _ _ := ret tt; service_OpenStore _ := ret tt; service_RunServer _ := ret tt;
|}.
#[global] Instance checked : RangesChecked parse.
Proof.
  split. intros argv l c spec low high v Hl Hs Hr Hv. destruct argv; [done|]. injection Hl as <-.
  destruct c; cbn in Hs; repeat (apply elem_of_cons in Hs as [->|Hs]; [cbn in Hr; vm_compute in Hv; simplify_eq; lia|]); by apply elem_of_nil in Hs.
Qed.
Definition run := RunCli None (inl "") (fun _ => "") parse ["migrate"] (mkSession tt []).
End CliDemo.

Lemma command_lines_are_obeyed_witness :
  CliDemo.run.1 = 3
  /\ exists l, events CliDemo.run.2 = l /\ obeyed None (inl "") (fun _ => "") CliDemo.line Migrate l 3 /\ length l = 1%nat.
Proof.
  pose proof (command_lines_are_obeyed CliDemo.parse ["migrate"] None (inl "") (fun _ => "") (mkSession tt []) CliDemo.checked) as Hob.
  split; [reflexivity|]. destruct Hob as (l & Hl & Hobeyed). exists l. split; [exact Hl|]. split; [exact Hobeyed|].
  cbn in Hl. by subst l.
Defined.
