(* ===== verification/Handles.v ===== *)
(** * Handles: who owns a descriptor, a connection, a statement

    Models src/common/unique_fd.cpp, the ownership of the SQLite handle in
    src/app/sqlite_connection.cpp, and the statements of src/app/sqlite_statement.cpp with their use in
    src/app/task_runtime_repository.cpp.

    The objects of one class live in a store, by address, since moving changes
    two of them at once; a handle is open in the system or not, and closing
    one that is not is kept as a stray close. *)

From S2P Require Import Prelude.

(** A type of handles with the ones that stand for none. *)
Class Handle (H : Type) `{Countable H} := {
  valid : H -> bool;
  none : H;
  none_invalid : valid none = false;
}.
(** [int], where the negative numbers are no descriptor. *)
#[export] Program Instance fd_handle : Handle Z := {| valid fd := 0 <=? fd; none := -1 |}.
Next Obligation. done. Qed.
(** [sqlite3*] *)
#[export] Program Instance pointer_handle : Handle (option N) := {| valid := has_value; none := None |}.
Next Obligation. done. Qed.

(** The objects, what the system holds open for them, what it holds open for
    others, and the closes of what was not open. *)
Record Owners (H : Type) `{Countable H} := mkOwners {
  held : gmap N H;
  live : gset H;
  given : gset H;
  stray : list H;
}.
Arguments mkOwners {H _ _}.
Arguments held {H _ _}.
Arguments live {H _ _}.
Arguments given {H _ _}.
Arguments stray {H _ _}.

Section Owners.
Context {H : Type} `{Handle H}.
Implicit Types (s : Owners H).

(** [close(handle)] *)
Definition close_handle (h : H) (s : Owners H) : Owners H :=
  if bool_decide (h ∈ live s) then mkOwners (held s) (live s ∖ {[h]}) (given s) (stray s)
  else mkOwners (held s) (live s) (given s) (stray s ++ [h]).
Definition close_valid (h : H) (s : Owners H) : Owners H := if valid h then close_handle h s else s.
(** The member of the object at an address, and the assignment to it. *)
Definition member (x : N) (s : Owners H) : H := default none (held s !! x).
Definition set_member (x : N) (h : H) (s : Owners H) : Owners H :=
  mkOwners (<[x := h]> (held s)) (live s) (given s) (stray s).
(** The end of an object's storage. *)
Definition forget (x : N) (s : Owners H) : Owners H := mkOwners (delete x (held s)) (live s) (given s) (stray s).
(** [open] and [sqlite3_open_v2] return a handle that was not open. *)
Definition opens (h : H) (s : Owners H) : Owners H := mkOwners (held s) ({[h]} ∪ live s) (given s) (stray s).
(** [fdopendir] takes a released descriptor over, [closedir] closes it. *)
Definition hand_over (h : H) (s : Owners H) : Owners H := mkOwners (held s) (live s ∖ {[h]}) ({[h]} ∪ given s) (stray s).
Definition close_given (h : H) (s : Owners H) : Owners H := mkOwners (held s) (live s) (given s ∖ {[h]}) (stray s).
Definition no_owners : Owners H := mkOwners ∅ ∅ ∅ [].

End Owners.

(** ** [class UniqueFd] *)

Section UniqueFd.
Implicit Types (s : Owners Z).

Definition UniqueFd_new (x : N) (fd : Z) (s : Owners Z) : Owners Z := set_member x fd s.
Definition UniqueFd_get (x : N) (s : Owners Z) : Z := member x s.
Definition UniqueFd_bool (x : N) (s : Owners Z) : bool := 0 <=? member x s.
Definition UniqueFd_release (x : N) (s : Owners Z) : Z * Owners Z :=
  let released_fd := member x s in (released_fd, set_member x (-1) s).
Definition UniqueFd_reset (x : N) (fd : Z) (s : Owners Z) : Owners Z :=
  set_member x fd (if 0 <=? member x s then close_handle (member x s) s else s).
Definition UniqueFd_destroy (x : N) (s : Owners Z) : Owners Z := forget x (UniqueFd_reset x (-1) s).
Definition UniqueFd_move_new (x other : N) (s : Owners Z) : Owners Z :=
  let (fd, s) := UniqueFd_release other s in UniqueFd_new x fd s.
Definition UniqueFd_move_assign (x other : N) (s : Owners Z) : Owners Z :=
  if (x =? other)%N then s
  else let (fd, s) := UniqueFd_release other s in UniqueFd_reset x fd s.

End UniqueFd.

(** ** [class SqliteConnection] *)

Section SqliteConnection.
Implicit Types (s : Owners (option N)).

Definition SqliteConnection_new (x : N) (handle : option N) (s : Owners (option N)) : Owners (option N) := set_member x handle s.
Definition SqliteConnection_native_handle (x : N) (s : Owners (option N)) : option N := member x s.
Definition SqliteConnection_close (x : N) (s : Owners (option N)) : Owners (option N) :=
  if has_value (member x s) then close_handle (member x s) s else s.
Definition SqliteConnection_destroy (x : N) (s : Owners (option N)) : Owners (option N) :=
  forget x (SqliteConnection_close x s).
(** [std::exchange(other.handle_, nullptr)] *)
Definition exchange_null (other : N) (s : Owners (option N)) : option N * Owners (option N) :=
  (member other s, set_member other None s).
Definition SqliteConnection_move_new (x other : N) (s : Owners (option N)) : Owners (option N) :=
  let (handle, s) := exchange_null other s in SqliteConnection_new x handle s.
Definition SqliteConnection_move_assign (x other : N) (s : Owners (option N)) : Owners (option N) :=
  if (x =? other)%N then s
  else let (handle, s) := exchange_null other (SqliteConnection_close x s) in set_member x handle s.

End SqliteConnection.

(** ** Each handle has one owner

    [counted l s]: the handles open are exactly those held by an object, once
    each, and the [l] on their way between two objects; nothing that was not
    open has been closed. *)

Section Counted.
Context {H : Type} `{Handle H}.
Implicit Types (s : Owners H) (l : list H).

Definition is_valid (h : H) : Prop := valid h = true.
#[export] Instance is_valid_dec h : Decision (is_valid h) := decide (valid h = true).
Definition values s : list H := (map_to_list (held s)).*2.
Record counted l s : Prop := {
  counted_live : filter is_valid (l ++ values s) ≡ₚ elements (live s);
  counted_given : live s ## given s;
  counted_stray : stray s = [];
}.

Lemma none_not_valid : ~ is_valid none.
Proof. unfold is_valid. by rewrite none_invalid. Qed.

#[export] Instance counted_proper : Proper ((≡ₚ) ==> (=) ==> iff) counted.
Proof. intros l1 l2 Hl s ? <-. split; intros [Hlive ? ?]; (split; [|done..]); by rewrite <- Hlive, Hl. Qed.

Lemma counted_invalid l s h : ~ is_valid h -> counted (h :: l) s <-> counted l s.
Proof.
  intros Hh. split; intros [Hlive ? ?]; (split; [|done..]); rewrite <- Hlive; cbn [app];
    by rewrite (filter_cons_False is_valid h).
Qed.

Lemma values_insert x h s : values (set_member x h s) ≡ₚ h :: values (forget x s).
Proof. unfold values. cbn. rewrite <- insert_delete_eq, map_to_list_insert; [done|apply lookup_delete_eq]. Qed.
Lemma values_lookup x h s : held s !! x = Some h -> values s ≡ₚ h :: values (forget x s).
Proof. intros Hx. unfold values. cbn. by rewrite <- (map_to_list_delete _ _ _ Hx). Qed.
Lemma values_fresh x s : held s !! x = None -> values s = values (forget x s).
Proof. intros Hx. unfold values. cbn. by rewrite delete_id. Qed.

(** What an object holds is on its way once the object holds another. *)
Lemma counted_set x h l s : counted (h :: l) s -> counted (member x s :: l) (set_member x h s).
Proof.
  intros [Hlive ? ?]. split; [|done..]. cbn [live set_member]. rewrite <- Hlive. unfold member.
  destruct (held s !! x) as [old|] eqn:Hx; cbn [default].
  - rewrite (values_insert x h s), (values_lookup x old s Hx). apply filter_Permutation. cbn [app]. solve_Permutation.
  - rewrite (values_insert x h s), (values_fresh x s Hx). cbn [app id]. rewrite (filter_cons_False is_valid none) by apply none_not_valid.
    apply filter_Permutation. solve_Permutation.
Qed.
Lemma counted_forget x l s : counted l s -> counted (member x s :: l) (forget x s).
Proof.
  intros [Hlive ? ?]. split; [|done..]. cbn [live forget]. rewrite <- Hlive. unfold member.
  destruct (held s !! x) as [old|] eqn:Hx; cbn [default].
  - rewrite (values_lookup x old s Hx). apply filter_Permutation. cbn [app]. solve_Permutation.
  - rewrite (values_fresh x s Hx). cbn [app id]. by rewrite (filter_cons_False is_valid none) by apply none_not_valid.
Qed.

(** A handle on its way is open, and no other place has it. *)
Lemma counted_live_once h l s : counted (h :: l) s -> is_valid h ->
  h ∈ live s /\ filter is_valid (l ++ values s) ≡ₚ elements (live s ∖ {[h]}).
Proof.
  intros [Hlive _ _] Hh. cbn [app] in Hlive. rewrite (filter_cons_True is_valid h) in Hlive by done.
  assert (h ∈ live s) as Hin by (rewrite <- elem_of_elements, <- Hlive; by left). split; [done|].
  apply (Permutation.Permutation_cons_inv (a := h)). rewrite Hlive, <- elements_union_singleton by set_solver.
  by rewrite <- union_difference_singleton_L.
Qed.

Lemma counted_close h l s : counted (h :: l) s -> counted l (close_valid h s).
Proof.
  intros Hc. unfold close_valid. destruct (valid h) eqn:Hh; [|by apply counted_invalid in Hc; [|unfold is_valid; congruence]].
  destruct (counted_live_once _ _ _ Hc Hh) as [Hin Hrest]. unfold close_handle. rewrite bool_decide_true by done.
  destruct Hc. split; cbn; [done|set_solver|done].
Qed.

Lemma counted_opens h l s : counted l s -> is_valid h -> h ∉ live s -> h ∉ given s -> counted (h :: l) (opens h s).
Proof.
  intros [Hlive ? ?] Hh Hl Hg. split; cbn [opens live given stray]; [|set_solver|done].
  change (values (opens h s)) with (values s). cbn [app]. rewrite (filter_cons_True is_valid h) by done. by rewrite elements_union_singleton, <- Hlive.
Qed.

Lemma counted_hand_over h l s : counted (h :: l) s -> is_valid h -> counted l (hand_over h s).
Proof.
  intros Hc Hh. destruct (counted_live_once _ _ _ Hc Hh) as [Hin Hrest]. destruct Hc. split; cbn; [done|set_solver|done].
Qed.

Lemma counted_close_given h l s : counted l s -> counted l (close_given h s).
Proof. intros [? ? ?]. split; cbn; [done|set_solver|done]. Qed.

(** No object is left: nothing is open but what others hold. *)
Lemma counted_nothing_left s : counted [] s -> held s = ∅ -> live s = ∅.
Proof.
  intros [Hlive _ _] Hheld. unfold values in Hlive. rewrite Hheld, map_to_list_empty in Hlive. cbn in Hlive.
  apply Permutation_nil in Hlive. apply elements_empty_inv in Hlive. by apply leibniz_equiv.
Qed.

(** No two objects hold the same. *)
Lemma counted_one_owner x y h s :
  counted [] s -> held s !! x = Some h -> held s !! y = Some h -> is_valid h -> x = y.
Proof.
  intros Hc Hx Hy Hh. destruct (decide (x = y)) as [|Hxy]; [done|exfalso].
  assert (counted [h] (forget x s)) as Hc'.
  { apply (counted_forget x) in Hc. unfold member in Hc. by rewrite Hx in Hc. }
  assert (counted [h; h] (forget y (forget x s))) as Hc''.
  { apply (counted_forget y) in Hc'. unfold member in Hc'. cbn [held forget] in Hc'. rewrite lookup_delete_ne in Hc' by done.
    by rewrite Hy in Hc'. }
  destruct (counted_live_once _ _ _ Hc'' Hh) as [_ Hrest]. cbn [app] in Hrest. rewrite (filter_cons_True is_valid h) in Hrest by done.
  assert (h ∈ elements (live (forget y (forget x s)) ∖ {[h]})) as Hin by (rewrite <- Hrest; by left). set_solver.
Qed.

End Counted.

(** ** Programs over the objects *)

(** What code does with its descriptors: the calls of the system return one
    that is not open, or -1; an object is made, moved, moved into (itself
    included), reset, given up to a directory stream and destroyed. *)
Inductive FdOp : Owners Z -> Owners Z -> Prop :=
  | op_default x s : held s !! x = None -> FdOp s (UniqueFd_new x (-1) s)
  | op_open x fd s :
      held s !! x = None -> 0 <= fd -> fd ∉ live s -> fd ∉ given s -> FdOp s (UniqueFd_new x fd (opens fd s))
  | op_move x y s : held s !! x = None -> is_Some (held s !! y) -> FdOp s (UniqueFd_move_new x y s)
  | op_assign x y s : is_Some (held s !! x) -> is_Some (held s !! y) -> FdOp s (UniqueFd_move_assign x y s)
  | op_reset x s : is_Some (held s !! x) -> FdOp s (UniqueFd_reset x (-1) s)
  | op_reopen x fd s :
      is_Some (held s !! x) -> 0 <= fd -> fd ∉ live s -> fd ∉ given s -> FdOp s (UniqueFd_reset x fd (opens fd s))
  | op_stream x s :
      UniqueFd_bool x s = true -> FdOp s (let (fd, s) := UniqueFd_release x s in hand_over fd s)
  | op_closedir fd s : fd ∈ given s -> FdOp s (close_given fd s)
  | op_destroy x s : is_Some (held s !! x) -> FdOp s (UniqueFd_destroy x s).

(** The same of connections: [s] for the handles the library has open. *)
Inductive ConnectionOp : Owners (option N) -> Owners (option N) -> Prop :=
  | op_connect x p s :
      held s !! x = None -> Some p ∉ live s -> Some p ∉ given s ->
      ConnectionOp s (SqliteConnection_new x (Some p) (opens (Some p) s))
  | op_move_connection x y s :
      held s !! x = None -> is_Some (held s !! y) -> ConnectionOp s (SqliteConnection_move_new x y s)
  | op_assign_connection x y s :
      is_Some (held s !! x) -> is_Some (held s !! y) -> ConnectionOp s (SqliteConnection_move_assign x y s)
  | op_disconnect x s : is_Some (held s !! x) -> ConnectionOp s (SqliteConnection_destroy x s).

Section Programs.

Lemma counted_reset x fd (l : list Z) s : counted (fd :: l) s -> counted l (UniqueFd_reset x fd s).
Proof.
  intros Hc. apply (counted_set x fd) in Hc. apply counted_close in Hc. unfold UniqueFd_reset.
  unfold close_valid in Hc. cbn [valid fd_handle] in Hc. destruct (0 <=? member x s); [|done].
  revert Hc. unfold close_handle, set_member. cbn [live held given stray]. by destruct (bool_decide _).
Qed.

Lemma counted_minus_one (l : list Z) s : counted l s -> counted (-1 :: l) s.
Proof. intros Hc. apply counted_invalid; [by unfold is_valid|done]. Qed.

Lemma counted_new_fd {H : Type} `{Handle H} x h (l : list H) s :
  held s !! x = None -> counted (h :: l) s -> counted l (set_member x h s).
Proof.
  intros Hx Hc. apply (counted_set x h) in Hc. unfold member in Hc. rewrite Hx in Hc. cbn [default] in Hc.
  by apply counted_invalid in Hc; [|apply none_not_valid].
Qed.

Lemma FdOp_counted s s' : FdOp s s' -> counted [] s -> counted [] s'.
Proof.
  intros Hop Hc. destruct Hop as [x s Hx|x fd s Hx Hfd Hl Hg|x y s Hx [h Hy]|x y s Hx Hy|x s Hx|x fd s Hx Hfd Hl Hg|x s Hb|fd s Hg|x s Hx].
  - apply counted_new_fd; [done|]. by apply counted_minus_one.
  - apply counted_new_fd; [done|]. apply counted_opens; [done| |done..]. by apply Z.leb_le.
  - apply counted_new_fd; [|by apply counted_set, counted_minus_one]. cbn. rewrite lookup_insert_ne; [done|congruence].
  - unfold UniqueFd_move_assign. destruct (N.eqb_spec x y); [done|]. by apply counted_reset, counted_set, counted_minus_one.
  - by apply counted_reset, counted_minus_one.
  - apply counted_reset, counted_opens; [done| |done..]. by apply Z.leb_le.
  - apply counted_hand_over; [by apply counted_set, counted_minus_one|done].
  - by apply counted_close_given.
  - apply counted_minus_one, (counted_reset x), (counted_forget x) in Hc. unfold member in Hc. cbn [UniqueFd_reset set_member held] in Hc.
    rewrite lookup_insert_eq in Hc. apply counted_invalid in Hc; [done|by unfold is_valid].
Qed.

Lemma counted_null (l : list (option N)) s : counted l s -> counted (None :: l) s.
Proof. intros Hc. apply counted_invalid; [by unfold is_valid|done]. Qed.

(** The pointer of a connection whose handle was closed is overwritten, or
    goes with the object. *)
Lemma close_set x h s :
  set_member x h (SqliteConnection_close x s) = close_valid (member x s) (set_member x h s).
Proof. unfold SqliteConnection_close, close_valid, close_handle, set_member. cbn. by repeat case_match. Qed.
Lemma close_forget x s : forget x (SqliteConnection_close x s) = close_valid (member x s) (forget x s).
Proof. unfold SqliteConnection_close, close_valid, close_handle, forget. cbn. by repeat case_match. Qed.

Lemma ConnectionOp_counted s s' : ConnectionOp s s' -> counted [] s -> counted [] s'.
Proof.
  intros Hop Hc. destruct Hop as [x p s Hx Hl Hg|x y s Hx [h Hy]|x y s Hx Hy|x s Hx].
  - apply counted_new_fd; [done|]. by apply counted_opens.
  - apply counted_new_fd; [|by apply counted_set, counted_null]. cbn. rewrite lookup_insert_ne; [done|congruence].
  - unfold SqliteConnection_move_assign, exchange_null. destruct (N.eqb_spec x y) as [|Hxy]; [done|].
    assert (member y (SqliteConnection_close x s) = member y s /\ member x (set_member y None s) = member x s) as [-> Hm].
    { unfold member, SqliteConnection_close, close_handle, set_member. cbn. rewrite lookup_insert_ne by done.
      by repeat case_match. }
    assert (set_member y None (SqliteConnection_close x s) = SqliteConnection_close x (set_member y None s)) as ->.
    { unfold SqliteConnection_close. rewrite Hm. unfold close_handle, set_member. cbn. by repeat case_match. }
    rewrite close_set. by apply counted_close, counted_set, counted_set, counted_null.
  - unfold SqliteConnection_destroy. rewrite close_forget. by apply counted_close, counted_forget.
Qed.

End Programs.

(** Every handle opened has exactly one owner until it is closed, by it, once:
    after any operations on descriptors, and on connections, nothing that was
    not open has been closed, what is open is held by one object each (or was
    given to a stream), and once no object is left nothing else is open. *)
Record owned_once {H : Type} `{Handle H} (s : Owners H) : Prop := {
  owned_no_stray : stray s = [];
  owned_held : forall h, h ∈ live s <-> is_valid h /\ exists x, held s !! x = Some h;
  owned_one : forall x y h, held s !! x = Some h -> held s !! y = Some h -> is_valid h -> x = y;
}.

Lemma counted_owned {H : Type} `{Handle H} (s : Owners H) : counted [] s -> owned_once s.
Proof.
  intros Hc. split; [apply Hc| |intros; by eapply counted_one_owner].
  intros h. rewrite <- elem_of_elements, <- (counted_live _ _ Hc). cbn [app]. rewrite list_elem_of_filter.
  unfold values. rewrite list_elem_of_fmap. split; intros [Hh Hin]; (split; [done|]).
  - destruct Hin as ([x h'] & -> & Hin). exists x. by apply elem_of_map_to_list.
  - destruct Hin as [x Hx]. exists (x, h). by rewrite elem_of_map_to_list.
Qed.

Lemma counted_start {H : Type} `{Handle H} : counted [] (no_owners (H := H)).
Proof. split; [|set_solver|done]. unfold values, no_owners. cbn. by rewrite map_to_list_empty, elements_empty. Qed.

Lemma handles_are_closed_once :
  (forall s, rtc FdOp no_owners s -> owned_once s /\ (held s = ∅ -> live s = ∅))
  /\ (forall s, rtc ConnectionOp no_owners s -> owned_once s /\ (held s = ∅ -> live s = ∅)).
Proof.
  split; intros s Hrun; (assert (counted [] s) as Hc; [|split; [by apply counted_owned|by apply counted_nothing_left]]);
    (eapply (rtc_ind_r (counted [])); [apply counted_start| |exact Hrun]).
  - intros s1 s2 _ Hop Hc. by eapply FdOp_counted.
  - intros s1 s2 _ Hop Hc. by eapply ConnectionOp_counted.
Qed.

(** ** [class SqliteStatement] and [class ReusableStatement] *)

(** The calls of the library on a connection; [sqlite3_prepare_v2] returns its
    code and what it left in [*ppStmt]. *)
Class StatementLibrary (P W : Type) := {
  sqlite3_prepare_v2 : string -> W -> Z * option P * W;
  sqlite3_reset : P -> W -> Z * W;
  sqlite3_clear_bindings : P -> W -> Z * W;
  sqlite3_finalize : P -> W -> Z * W;
}.
Definition SQLITE_OK : Z := 0.
Definition SQLITE_MISUSE : Z := 21.

Record SqliteStatement (P : Type) := mkSqliteStatement { statement_ : option P; result_ : Z }.
Arguments mkSqliteStatement {P}.
Arguments statement_ {P}.
Arguments result_ {P}.

Section Statement.
Context {P W : Type} `{StatementLibrary P W}.
Implicit Types (st : SqliteStatement P) (w : W).

Definition SqliteStatement_default : SqliteStatement P := mkSqliteStatement None SQLITE_OK.
Definition SqliteStatement_Prepare (sql : string) st w : Z * SqliteStatement P * W :=
  match statement_ st with
  | None => let '(result, statement, w) := sqlite3_prepare_v2 sql w in (result, mkSqliteStatement statement result, w)
  | Some _ => (result_ st, st, w)
  end.
Definition SqliteStatement_Reset st w : Z * W :=
  match statement_ st with
  | None => (SQLITE_MISUSE, w)
  | Some p => let (_, w) := sqlite3_reset p w in sqlite3_clear_bindings p w
  end.
Definition SqliteStatement_destroy st w : W :=
  match statement_ st with None => w | Some p => (sqlite3_finalize p w).2 end.

Definition ReusableStatement_new (sql : string) st w : Z * SqliteStatement P * W :=
  let '(result, st, w) := SqliteStatement_Prepare sql st w in
  if result =? SQLITE_OK then let (result, w) := SqliteStatement_Reset st w in (result, st, w) else (result, st, w).
Definition ReusableStatement_destroy st w : W :=
  match statement_ st with None => w | Some _ => (SqliteStatement_Reset st w).2 end.

(** A function that uses the cached statement: [body] runs when it was
    prepared, then the destructor. *)
Definition with_reusable (sql : string) (body : option P -> W -> W) (used : SqliteStatement P * W) : SqliteStatement P * W :=
  let '(result, st, w) := ReusableStatement_new sql used.1 used.2 in
  let w := if result =? SQLITE_OK then body (statement_ st) w else w in
  (st, ReusableStatement_destroy st w).
End Statement.

(** The library with the list of its calls, and the uses between them. *)
Inductive StatementEvent (P : Type) :=
  EvPrepare (result : Z) (p : option P) | EvReset (p : P) | EvClear (p : P) (result : Z) | EvFinalize (p : P) | EvUse (p : option P).
Arguments EvPrepare {P}.
Arguments EvReset {P}.
Arguments EvClear {P}.
Arguments EvFinalize {P}.
Arguments EvUse {P}.

Section Logged.
Context {P W : Type} `{StatementLibrary P W}.

#[export] Instance logged_statements : StatementLibrary P (W * list (StatementEvent P)) := {|
  sqlite3_prepare_v2 sql w := let '(r, p, u) := sqlite3_prepare_v2 sql w.1 in (r, p, (u, w.2 ++ [EvPrepare r p]));
  sqlite3_reset p w := let (r, u) := sqlite3_reset p w.1 in (r, (u, w.2 ++ [EvReset p]));
  sqlite3_clear_bindings p w := let (r, u) := sqlite3_clear_bindings p w.1 in (r, (u, w.2 ++ [EvClear p r]));
  sqlite3_finalize p w := let (r, u) := sqlite3_finalize p w.1 in (r, (u, w.2 ++ [EvFinalize p]));
|}.
Definition logged_use (body : option P -> W -> W) (p : option P) (w : W * list (StatementEvent P)) : W * list (StatementEvent P) :=
  (body p w.1, w.2 ++ [EvUse p]).

(** One use of a statement prepared before. *)
Inductive one_use (p : P) : list (StatementEvent P) -> Prop :=
  | used_clean r : one_use p [EvReset p; EvClear p SQLITE_OK; EvUse (Some p); EvReset p; EvClear p r]
  | not_cleared r r' : r <> SQLITE_OK -> one_use p [EvReset p; EvClear p r; EvReset p; EvClear p r'].

Lemma one_use_prepared sql body st p (w : W * list (StatementEvent P)) :
  statement_ st = Some p -> result_ st = SQLITE_OK ->
  exists l u, with_reusable sql (logged_use body) (st, w) = (st, (u, w.2 ++ l)) /\ one_use p l.
Proof.
  destruct st as [? r], w as [u log]. cbn. intros -> ->. unfold with_reusable, ReusableStatement_new. cbn.
  destruct (sqlite3_reset p u) as [r1 u1]. cbn. destruct (sqlite3_clear_bindings p u1) as [r2 u2]. cbn.
  destruct (Z.eqb_spec r2 SQLITE_OK) as [->|Hr]; cbn.
  - destruct (sqlite3_reset p _) as [r3 u3]. cbn. destruct (sqlite3_clear_bindings p u3) as [r4 u4]. cbn.
    eexists _, _. rewrite <- !app_assoc. split; [done|]. constructor.
  - destruct (sqlite3_reset p u2) as [r3 u3]. cbn. destruct (sqlite3_clear_bindings p u3) as [r4 u4]. cbn.
    eexists _, _. rewrite <- !app_assoc. split; [done|]. by constructor.
Qed.

(** What SQLite documents: a statement that cannot be prepared is left NULL,
    and one of the program's (none of them empty) otherwise is not. *)
Class StatementLaws := {
  prepare_leaves sql (u : W) : let '(r, p, _) := sqlite3_prepare_v2 sql u in if r =? SQLITE_OK then is_Some p else p = None;
}.

Definition failed_prepare (e : StatementEvent P) : Prop := exists r, r <> SQLITE_OK /\ e = EvPrepare r None.
(** The life of a cached statement: failures to prepare it, then one success,
    then uses of that one, each with its bindings cleared before and reset
    after. *)
Inductive lifetime : SqliteStatement P -> list (StatementEvent P) -> Prop :=
  | not_prepared r l : Forall failed_prepare l -> lifetime (mkSqliteStatement None r) l
  | prepared p l uses : Forall failed_prepare l -> Forall (one_use p) uses ->
      lifetime (mkSqliteStatement (Some p) SQLITE_OK) (l ++ EvPrepare SQLITE_OK (Some p) :: concat uses).

Lemma lifetime_use `{StatementLaws} sql body st (w : W * list (StatementEvent P)) :
  lifetime st w.2 -> let used := with_reusable sql (logged_use body) (st, w) in lifetime used.1 used.2.2.
Proof.
  intros Hlife. remember w.2 as log eqn:Hlog. destruct Hlife as [r l Hl|p l uses Hl Huses].
  2:{ destruct (one_use_prepared sql body (mkSqliteStatement (Some p) SQLITE_OK) p w eq_refl eq_refl) as (l1 & u & -> & Hone).
      cbn. rewrite <- Hlog, <- app_assoc. cbn. replace (concat uses ++ l1) with (concat (uses ++ [l1])) by (by rewrite concat_app; cbn; rewrite app_nil_r).
      constructor; [done|]. apply Forall_app. by repeat constructor. }
  destruct w as [u log]. cbn in Hlog. subst log. cbn. unfold with_reusable, ReusableStatement_new, SqliteStatement_Prepare. cbn.
  pose proof (prepare_leaves sql u) as Hp. destruct (sqlite3_prepare_v2 sql u) as [[r1 p1] u1]. destruct (Z.eqb_spec r1 SQLITE_OK) as [->|Hr].
  - destruct Hp as [p ->]. cbn.
    destruct (one_use_prepared sql body (mkSqliteStatement (Some p) SQLITE_OK) p (u1, l ++ [EvPrepare SQLITE_OK (Some p)]) eq_refl eq_refl)
      as (l1 & u2 & Hrun & Hone).
    unfold with_reusable, ReusableStatement_new, SqliteStatement_Prepare in Hrun. cbn in Hrun. rewrite Hrun. cbn.
    rewrite <- app_assoc. cbn. replace l1 with (concat [l1]) by apply app_nil_r. by repeat constructor.
  - subst p1. cbn. destruct (Z.eqb_spec r1 SQLITE_OK); [done|]. cbn. constructor. apply Forall_app. split; [done|]. constructor; [by exists r1|done].
Qed.

Lemma statements_are_prepared_once `{StatementLaws} (uses : list (string * (option P -> W -> W))) u :
  let used := foldl (fun used use => with_reusable use.1 (logged_use use.2) used) (SqliteStatement_default, (u, [])) uses in
  lifetime used.1 used.2.2.
Proof.
  induction uses as [|[sql body] uses IH] using rev_ind; cbn zeta in *; [by constructor|].
  rewrite foldl_snoc. destruct (foldl _ _ uses) as [st w]. by apply lifetime_use.
Qed.
End Logged.
